(** * Evidence coverage and recommendation calibration engine

    A shallow embedding of [src/lib/report.ts] (the Scorecard normalizer,
    the calibration algorithm, the mock generator and the baked-in coverage
    map) and of [src/lib/coverage.ts] (the interval merge and the duration
    basis of the UI coverage model), followed by the properties of the
    specification stated and settled against it.

    Modelling conventions.
    - A JavaScript [number] that the engine computes with is an exact
      rational ([Q]); [NaN] and the infinities only occur at the untrusted
      boundary, where they are a separate constructor.  Rounding error and
      overflow of IEEE doubles are outside the model.
    - An untyped value ([unknown]) is a [JsonValue]; property access on it
      is [getField].
    - A [Map<string, _>] and an object used as a dictionary are
      [gmap string _]: a key is present only when it was stored, so the
      properties that a JavaScript object inherits from its prototype are
      outside the model.  A [Set<string>] that is only tested for
      membership is a [gset string]; one whose insertion order is observed
      through [Array.from] is a duplicate-free list in first-occurrence
      order.
    - A loop over an array is a [fold_left] of its body; a [let] that is
      reassigned becomes a chain of bindings.
    - Runtime library functions on strings ([trim], [split(/\s+/)],
      [Number(s)], [toFixed]) are the fields of the class [JsBuiltins]; the
      properties hold for every instance of it. *)

From Stdlib Require Import QArith Qround Qminmax DecimalString Lqa.
From stdpp Require Import gmap strings list sorting.

(** ** Numbers *)

Module JsMath.

Definition round (x : Q) : Q := inject_Z (Qfloor (x + 0.5)).

Definition max (a b : Q) : Q := Qmax a b.

Definition min (a b : Q) : Q := Qmin a b.

Definition leb (a b : Q) : bool := Qle_bool a b.

Definition ltb (a b : Q) : bool := negb (Qle_bool b a).

Definition MAX_SAFE_INTEGER : Q := 9007199254740991.

Definition sum (l : list Q) : Q := fold_left Qplus l 0%Q.

Definition ofNat (n : nat) : Q := inject_Z (Z.of_nat n).

End JsMath.

(** ** The runtime library *)

Class JsBuiltins := {
  (** [s.trim()] *)
  trim : string -> string;
  (** [s.split(/\s+/)] *)
  splitWhitespace : string -> list string;
  (** [Number(s)], [None] when the result is [NaN] or infinite *)
  stringToNumber : string -> option Q;
  (** [x.toFixed(digits)] *)
  toFixed : nat -> Q -> string;
}.

Definition emptyString : string := EmptyString.

(** ** Untyped values *)

#[local] Set Warnings "-register-all".

Inductive JsonValue : Type :=
  | JUndefined
  | JNull
  | JBool (b : bool)
  | JNumber (q : Q)
  | JNotFinite
  | JString (s : string)
  | JArray (items : list JsonValue)
  | JObject (fields : list (string * JsonValue)).

Definition decimalOfNat (n : nat) : string :=
  NilZero.string_of_uint (Nat.to_uint n).

Fixpoint assocField (k : string) (fields : list (string * JsonValue)) : JsonValue :=
  match fields with
  | [] => JUndefined
  | (k', v) :: rest => if String.eqb k k' then v else assocField k rest
  end.

(** [value[k]]: an own property of an object, an element of an array when
    [k] is the decimal form of an index, [undefined] otherwise. *)
Definition getField (k : string) (value : JsonValue) : JsonValue :=
  match value with
  | JObject fields => assocField k fields
  | JArray items =>
      match list_find (fun i => String.eqb (decimalOfNat i) k) (seq 0 (length items)) with
      | Some (_, i) => default JUndefined (items !! i)
      | None => JUndefined
      end
  | _ => JUndefined
  end.

Fixpoint ownValues (seen : list string) (fields : list (string * JsonValue))
  : list JsonValue :=
  match fields with
  | [] => []
  | (k, v) :: rest =>
      if bool_decide (k ∈ seen) then ownValues seen rest
      else v :: ownValues (k :: seen) rest
  end.

(** [Object.values(value)] of an object or an array. *)
Definition objectValues (value : JsonValue) : list JsonValue :=
  match value with
  | JObject fields => ownValues [] fields
  | JArray items => items
  | _ => []
  end.

Definition isArray (value : JsonValue) : bool :=
  match value with JArray _ => true | _ => false end.

Definition arrayItems (value : JsonValue) : list JsonValue :=
  match value with JArray items => items | _ => [] end.

Definition isUndefined (value : JsonValue) : bool :=
  match value with JUndefined => true | _ => false end.

Definition isStringValue (value : JsonValue) : bool :=
  match value with JString _ => true | _ => false end.

Definition isFiniteNumberValue (value : JsonValue) : bool :=
  match value with JNumber _ => true | _ => false end.

Definition isBooleanValue (value : JsonValue) : bool :=
  match value with JBool _ => true | _ => false end.

(** [Array.from(new Set(l))]: the distinct elements in first-occurrence order. *)
Definition uniqueInOrder (l : list string) : list string :=
  fold_left (fun acc x => if bool_decide (x ∈ acc) then acc else acc ++ [x]) l [].

(** [new Map(entries)]: a later entry replaces an earlier one with the same key. *)
Definition mapOfEntries {V : Type} (entries : list (string * V)) : gmap string V :=
  fold_left (fun m kv => <[kv.1 := kv.2]> m) entries ∅.

(** ** Data model ([src/types/report.ts]) *)

Inductive OverallRecommendation := StrongHire | Hire | LeanHire | LeanNo | No.

Inductive ReportEvidenceStrength := weak | medium | strong.

Inductive ReportLevel := intern | newgrad | mid | senior.

Record ReportInputSegment := {
  seg_id : string;
  seg_start : Q;
  seg_end : Q;
  seg_text : string;
}.

Record ReportDimension := {
  dim_key : string;
  dim_label : string;
  dim_description : string;
}.

Record ReportRequestBody := {
  questionId : string;
  questionText : string;
  req_segments : list ReportInputSegment;
  rubric_dimensions : list ReportDimension;
}.

Record ReportAnchors := {
  anchor1 : string;
  anchor2 : string;
  anchor3 : string;
  anchor4 : string;
  anchor5 : string;
}.

Record ReportDimensionEvidence := {
  ev_segmentId : string;
  ev_quote : string;
  ev_interpretation : string;
  ev_strength : ReportEvidenceStrength;
  ev_relevance : Q;
}.

Record ReportEvidenceCoverage := {
  citedSegmentCount : nat;
  availableSegmentCount : nat;
}.

Record ReportAnchorAlignment := {
  chosenLevel : Q;
  whyMeets : list string;
  whyNotHigher : list string;
}.

Record ReportWhatWouldChangeScore := {
  up : list string;
  down : list string;
}.

Record ReportDimensionAssessment := {
  da_id : string;
  da_label : string;
  da_score : option Q;
  da_notObserved : bool;
  da_confidence : Q;
  da_anchors : ReportAnchors;
  da_missingSignals : list string;
  da_evidence : list ReportDimensionEvidence;
  da_evidenceCoverage : ReportEvidenceCoverage;
  da_observedSignals : list string;
  da_concerns : list string;
  da_counterSignals : list string;
  da_observations : list string;
  da_anchorAlignment : ReportAnchorAlignment;
  da_evidenceQuality : Q;
  da_consistency : Q;
  da_probes : list string;
  da_whatWouldChangeScore : ReportWhatWouldChangeScore;
}.

Record ReportLeveling := {
  role : string;
  level : ReportLevel;
}.

Record ReportCoverageByDimensionEntry := {
  cov_segmentIds : list string;
  cov_coveragePct : Q;
}.

Record ReportCoverageBySegmentEntry := {
  cov_dimensions : list string;
}.

Record ReportCoverageMap := {
  byDimension : gmap string ReportCoverageByDimensionEntry;
  bySegment : gmap string ReportCoverageBySegmentEntry;
}.

Record ModernReportResponseBody := {
  overallSummary : string;
  overallRecommendation : OverallRecommendation;
  risks : list string;
  followUps : list string;
  dimensions : list ReportDimensionAssessment;
  decisionRationale : list string;
  leveling : ReportLeveling;
  calibrationNotes : list string;
  keyStrengths : list string;
  keyRisks : list string;
  mustFixToHire : list string;
  coverageMap : ReportCoverageMap;
}.

Record NormalizeOptions := {
  opt_dimensions : list ReportDimension;
  opt_availableSegmentCount : nat;
  opt_segments : option (list ReportInputSegment);
}.

Record NormalizeContext := {
  ctx_dimensions : list ReportDimension;
  ctx_availableSegmentCount : nat;
  ctx_segments : list ReportInputSegment;
  segmentById : gmap string ReportInputSegment;
  segmentIds : list string;
  enforceSegmentValidation : bool;
}.

(** ** The interval sweep shared by the two copies of [mergeIntervals]

    [sortByStart] is [[...intervals].sort((a, b) => a.start - b.start)]:
    [Array.prototype.sort] is stable, so its result is the one stable
    arrangement by [start], which insertion from the right computes.
    [sweepStep] is the body of the loop over [sorted]; the array [merged]
    is held most recent first, so that [merged[merged.length - 1]] is its
    head, and [absorb] is what the loop does to [last] when it merges. *)

Section IntervalSweep.

Context {I : Type} (startOf endOf : I -> Q) (absorb : I -> I -> I).

Fixpoint insertByStart (x : I) (sorted : list I) : list I :=
  match sorted with
  | [] => [x]
  | y :: rest =>
      if Qle_bool (startOf x) (startOf y) then x :: sorted
      else y :: insertByStart x rest
  end.

Definition sortByStart (intervals : list I) : list I :=
  foldr insertByStart [] intervals.

Definition sweepStep (epsilonSeconds : Q) (merged : list I) (interval : I) : list I :=
  match merged with
  | [] => [interval]
  | last :: before =>
      if Qle_bool (startOf interval) (endOf last + epsilonSeconds)
      then absorb last interval :: before
      else interval :: merged
  end.

Definition sweep (epsilonSeconds : Q) (intervals : list I) : list I :=
  rev (fold_left (sweepStep epsilonSeconds) (sortByStart intervals) []).

End IntervalSweep.

(** ** [src/lib/report.ts] *)

Module Report.

Local Open Scope Q_scope.

Section WithBuiltins.

Context `{JsBuiltins}.

Definition COVERAGE_EPSILON_SECONDS : Q := 0.05.

Definition CORE_DIMENSION_KEYS : list string := ["clarity"; "problemSolving"; "ownership"].

Definition isRecord (value : JsonValue) : bool :=
  match value with
  | JObject _ | JArray _ => true
  | _ => false
  end.

Definition isNonEmptyString (value : JsonValue) : bool :=
  match value with
  | JString s => negb (String.eqb (trim s) emptyString)
  | _ => false
  end.

(** The guard [!Number.isFinite(value)] of the source never fires on a
    rational. *)
Definition clamp (value min max : Q) : Q :=
  JsMath.min max (JsMath.max min value).

Definition toNormalizedString (value : JsonValue) (fallback : string) : string :=
  match value with
  | JString s =>
      let trimmed := trim s in
      if String.eqb trimmed emptyString then fallback else trimmed
  | _ => fallback
  end.

Definition toStringArray (value : JsonValue) (fallback : list string) : list string :=
  match value with
  | JArray items =>
      uniqueInOrder
        (omap (fun entry =>
                 match entry with
                 | JString s => if isNonEmptyString entry then Some (trim s) else None
                 | _ => None
                 end) items)
  | _ => fallback
  end.

Definition toOverallRecommendation (value : JsonValue) : option OverallRecommendation :=
  match value with
  | JString s =>
      if String.eqb s "StrongHire" then Some StrongHire
      else if String.eqb s "Hire" then Some Hire
      else if String.eqb s "LeanHire" then Some LeanHire
      else if String.eqb s "LeanNo" then Some LeanNo
      else if String.eqb s "No" then Some No
      else None
  | _ => None
  end.

Definition toFiniteNumber (value : JsonValue) : option Q :=
  match value with
  | JNumber q => Some q
  | JString s => stringToNumber s
  | _ => None
  end.

Definition toRelevance (value : JsonValue) : option Q :=
  match toFiniteNumber value with
  | None => None
  | Some numeric =>
      if JsMath.ltb 1 numeric && JsMath.leb numeric 100
      then Some (clamp (numeric / 100) 0 1)
      else Some (clamp numeric 0 1)
  end.

Definition toStrength (value : JsonValue) : option ReportEvidenceStrength :=
  match value with
  | JString s =>
      if String.eqb s "weak" then Some weak
      else if String.eqb s "medium" then Some medium
      else if String.eqb s "strong" then Some strong
      else None
  | _ => None
  end.

Definition strengthFromRelevance (relevance : Q) : ReportEvidenceStrength :=
  if JsMath.leb 0.75 relevance then strong
  else if JsMath.leb 0.45 relevance then medium
  else weak.

Definition relevanceFromStrength (strength : ReportEvidenceStrength) : Q :=
  match strength with
  | strong => 0.84
  | medium => 0.62
  | weak => 0.38
  end.

Definition toMaxWords (text : string) (maxWords : nat) : string :=
  let words :=
    filter (fun word => word ≠ emptyString) (map trim (splitWhitespace (trim text))) in
  if length words <=? maxWords
  then String.concat " " words
  else String.concat " " (take maxWords words) +:+ "...".

Definition recommendationRank (value : OverallRecommendation) : Z :=
  match value with
  | No => 0
  | LeanNo => 1
  | LeanHire => 2
  | Hire => 3
  | StrongHire => 4
  end.

Definition capRecommendation (value maxAllowed : OverallRecommendation)
  : OverallRecommendation :=
  if (recommendationRank value <=? recommendationRank maxAllowed)%Z
  then value
  else maxAllowed.

Definition createDefaultAnchors (label description : string) : ReportAnchors :=
  let base := if String.eqb (trim label) emptyString then "the dimension" else trim label in
  let detail := if String.eqb (trim description) emptyString then "the competency" else trim description in
  {| anchor1 := "Signals are largely absent for " +:+ base
                +:+ "; examples stay vague and do not establish " +:+ detail +:+ ".";
     anchor2 := "Some signals appear for " +:+ base
                +:+ ", but evidence is inconsistent and outcomes are weakly supported.";
     anchor3 := "Adequate " +:+ base
                +:+ " with at least one concrete example; reasoning is understandable but uneven in depth.";
     anchor4 := "Strong " +:+ base
                +:+ " with clear reasoning, concrete tradeoffs, and credible outcomes tied to specific actions.";
     anchor5 := "Exceptional " +:+ base
                +:+ ": consistently precise, high-impact examples with rigorous reasoning and measurable results." |}.

Definition normalizeAnchors (value : JsonValue) (fallbackLabel fallbackDescription : string)
  : ReportAnchors :=
  let defaults := createDefaultAnchors fallbackLabel fallbackDescription in
  if negb (isRecord value) then defaults
  else
    {| anchor1 := toNormalizedString (getField "1" value) (anchor1 defaults);
       anchor2 := toNormalizedString (getField "2" value) (anchor2 defaults);
       anchor3 := toNormalizedString (getField "3" value) (anchor3 defaults);
       anchor4 := toNormalizedString (getField "4" value) (anchor4 defaults);
       anchor5 := toNormalizedString (getField "5" value) (anchor5 defaults) |}.

Definition weightForDimension (dimensionKey : string) : Q :=
  if String.eqb dimensionKey "problemSolving" then 0.35
  else if String.eqb dimensionKey "ownership" then 0.25
  else if String.eqb dimensionKey "clarity" then 0.2
  else 0.2.

Definition baseRecommendationFromWeightedScore (weightedScore : Q) : OverallRecommendation :=
  if JsMath.leb 4.5 weightedScore then StrongHire
  else if JsMath.leb 3.8 weightedScore then Hire
  else if JsMath.leb 3.2 weightedScore then LeanHire
  else if JsMath.leb 2.5 weightedScore then LeanNo
  else No.

Record Calibration := {
  cal_recommendation : OverallRecommendation;
  cal_weightedScore : Q;
  cal_coverageRatio : Q;
  cal_calibrationNotes : list string;
}.

Definition hasNumberScore (dimension : ReportDimensionAssessment) : bool :=
  match da_score dimension with Some _ => true | None => false end.

Definition coverageRatioOf (dimension : ReportDimensionAssessment) : Q :=
  let coverage := da_evidenceCoverage dimension in
  if (0 <? availableSegmentCount coverage)%nat
  then JsMath.ofNat (citedSegmentCount coverage) / JsMath.ofNat (availableSegmentCount coverage)
  else 0.

Definition deriveCalibratedRecommendation (dimensions : list ReportDimensionAssessment)
  : Calibration :=
  let observedDimensions :=
    List.filter (fun dimension => negb (da_notObserved dimension) && hasNumberScore dimension)
      dimensions in
  if (length observedDimensions =? 0)%nat then
    {| cal_recommendation := LeanNo;
       cal_weightedScore := 0;
       cal_coverageRatio := 0;
       cal_calibrationNotes :=
         ["No scored dimensions were observed; recommendation is capped to LeanNo."] |}
  else
    let weightedTotals :=
      fold_left
        (fun accumulator dimension =>
           let weight := weightForDimension (da_id dimension) in
           (accumulator.1 + weight * default 0 (da_score dimension), accumulator.2 + weight))
        observedDimensions (0, 0) in
    let weightedScore :=
      if JsMath.ltb 0 weightedTotals.2 then weightedTotals.1 / weightedTotals.2 else 0 in
    let coverageRatio :=
      if (0 <? length dimensions)%nat
      then JsMath.sum (map coverageRatioOf dimensions) / JsMath.ofNat (length dimensions)
      else 0 in
    let recommendation0 := baseRecommendationFromWeightedScore weightedScore in
    let calibrationNotes0 :=
      [ "Weighted score " +:+ toFixed 2 weightedScore
          +:+ " derived from dimension importance (problem solving and ownership weighted highest).";
        "Average evidence coverage ratio is " +:+ toFixed 0 (coverageRatio * 100) +:+ "%." ] in
    let hasCoreNotObserved :=
      existsb
        (fun dimension =>
           bool_decide (da_id dimension ∈ CORE_DIMENSION_KEYS)
           && (da_notObserved dimension || negb (hasNumberScore dimension)))
        dimensions in
    let '(recommendation1, calibrationNotes1) :=
      if hasCoreNotObserved
      then (capRecommendation recommendation0 LeanHire,
            calibrationNotes0 ++
              ["At least one core dimension is not observed, so recommendation is capped at LeanHire."])
      else (recommendation0, calibrationNotes0) in
    let '(recommendation2, calibrationNotes2) :=
      if JsMath.ltb coverageRatio 0.35
      then (capRecommendation recommendation1 LeanHire,
            calibrationNotes1 ++
              ["Evidence coverage is below 35%, so recommendation is capped at LeanHire."])
      else (recommendation1, calibrationNotes1) in
    let lowScoreCount :=
      length
        (List.filter
           (fun dimension =>
              match da_score dimension with
              | Some score => JsMath.leb score 2
              | None => false
              end)
           dimensions) in
    let '(recommendation3, calibrationNotes3) :=
      if (2 <=? lowScoreCount)%nat
      then (capRecommendation recommendation2 LeanNo,
            calibrationNotes2 ++
              ["Multiple dimensions scored at or below 2, so recommendation is capped at LeanNo."])
      else (recommendation2, calibrationNotes2) in
    {| cal_recommendation := recommendation3;
       cal_weightedScore := weightedScore;
       cal_coverageRatio := coverageRatio;
       cal_calibrationNotes := calibrationNotes3 |}.

Definition deriveLeveling (weightedScore : Q) : ReportLeveling :=
  let level :=
    if JsMath.leb 4.2 weightedScore then senior
    else if JsMath.leb 3.3 weightedScore then mid
    else if JsMath.leb 2.6 weightedScore then newgrad
    else intern in
  {| role := "Software Engineer"; level := level |}.

Definition toReportLevel (value : JsonValue) : option ReportLevel :=
  match value with
  | JString s =>
      if String.eqb s "intern" then Some intern
      else if String.eqb s "newgrad" then Some newgrad
      else if String.eqb s "mid" then Some mid
      else if String.eqb s "senior" then Some senior
      else None
  | _ => None
  end.

Definition normalizeLeveling (value : JsonValue) (fallback : ReportLeveling) : ReportLeveling :=
  if negb (isRecord value) then fallback
  else
    {| role := toNormalizedString (getField "role" value) (role fallback);
       level := default (level fallback) (toReportLevel (getField "level" value)) |}.

(** The [break] of the source is a no-op on every later iteration, because
    the length of [result] never decreases. *)
Definition ensureMinItems (entries fallbackEntries : list string) (minItems maxItems : nat)
  : list string :=
  let result :=
    fold_left
      (fun result fallbackEntry =>
         if (minItems <=? length result)%nat then result
         else if bool_decide (fallbackEntry ∈ result) then result
         else result ++ [fallbackEntry])
      fallbackEntries entries in
  take maxItems result.

(** The request body is typed: [start] and [end] are finite numbers, so
    [toFiniteNumber] returns them unchanged. *)
Definition normalizedContextFromRequest (requestBody : ReportRequestBody) : NormalizeContext :=
  let segments :=
    map (fun segment =>
           let start := clamp (seg_start segment) 0 JsMath.MAX_SAFE_INTEGER in
           let endRaw := seg_end segment in
           let end_ := JsMath.max start (clamp endRaw start JsMath.MAX_SAFE_INTEGER) in
           {| seg_id := seg_id segment;
              seg_start := start;
              seg_end := end_;
              seg_text := seg_text segment |})
        (req_segments requestBody) in
  {| ctx_dimensions := rubric_dimensions requestBody;
     ctx_availableSegmentCount := length segments;
     ctx_segments := segments;
     segmentById := mapOfEntries (map (fun segment => (seg_id segment, segment)) segments);
     segmentIds := map seg_id segments;
     enforceSegmentValidation := true |}.

Definition normalizeOptions (options : NormalizeOptions) : NormalizeContext :=
  let segments :=
    match opt_segments options with
    | Some segments =>
        map (fun segment =>
               {| seg_id := seg_id segment;
                  seg_start := clamp (seg_start segment) 0 JsMath.MAX_SAFE_INTEGER;
                  seg_end :=
                    JsMath.max
                      (clamp (seg_start segment) 0 JsMath.MAX_SAFE_INTEGER)
                      (clamp (seg_end segment) 0 JsMath.MAX_SAFE_INTEGER);
                  seg_text := seg_text segment |})
            segments
    | None => []
    end in
  {| ctx_dimensions := opt_dimensions options;
     ctx_availableSegmentCount := Nat.max 1 (opt_availableSegmentCount options);
     ctx_segments := segments;
     segmentById := mapOfEntries (map (fun segment => (seg_id segment, segment)) segments);
     segmentIds := map seg_id segments;
     enforceSegmentValidation := (0 <? length segments)%nat |}.

(** The loop leaves as soon as [picked] has [targetCount] elements; every
    later offset is then skipped. *)
Definition pickFallbackEvidenceSegments (context : NormalizeContext)
    (dimensionIndex desiredCount : nat) : list ReportInputSegment :=
  let segments := ctx_segments context in
  if (length segments =? 0)%nat || (desiredCount =? 0)%nat then []
  else
    let targetCount := Nat.min desiredCount (length segments) in
    let loop :=
      fold_left
        (fun (state : list ReportInputSegment * gset string) offset =>
           let '(picked, seen) := state in
           if (length picked <? targetCount)%nat then
             match segments !! ((dimensionIndex + offset) mod length segments)%nat with
             | Some segment =>
                 if bool_decide (seg_id segment ∈ seen) then (picked, seen)
                 else (picked ++ [segment], {[seg_id segment]} ∪ seen)
             | None => (picked, seen)
             end
           else (picked, seen))
        (seq 0 (length segments)) ([], ∅) in
    loop.1.

(** The body of the loop of [normalizeEvidence] over the candidate entries. *)
Definition normalizeEvidenceEntry (context : NormalizeContext) (notObserved : bool)
    (dimensionLabel : string)
    (state : list ReportDimensionEvidence * gset string) (entry : JsonValue)
  : list ReportDimensionEvidence * gset string :=
  let '(result, seenSegmentIds) := state in
  if negb (isRecord entry) then state
  else
    let rawSegmentId := toNormalizedString (getField "segmentId" entry) emptyString in
    if String.eqb rawSegmentId emptyString || bool_decide (rawSegmentId ∈ seenSegmentIds) then state
    else
      let knownSegment := segmentById context !! rawSegmentId in
      if enforceSegmentValidation context && negb (bool_decide (is_Some knownSegment)) then state
      else
        let rawStrength := toStrength (getField "strength" entry) in
        let relevance :=
          match toRelevance (getField "relevance" entry) with
          | Some relevance => relevance
          | None =>
              match toRelevance (getField "confidence" entry) with
              | Some relevance => relevance
              | None =>
                  match rawStrength with
                  | Some strength => relevanceFromStrength strength
                  | None => if notObserved then 0.45 else 0.7
                  end
              end
          end in
        let strength := default (strengthFromRelevance relevance) rawStrength in
        let fallbackQuote :=
          toMaxWords
            (match knownSegment with
             | Some segment => seg_text segment
             | None => "Evidence excerpt unavailable."
             end) 25 in
        let quote := toMaxWords (toNormalizedString (getField "quote" entry) fallbackQuote) 25 in
        let interpretation :=
          toNormalizedString (getField "interpretation" entry)
            (dimensionLabel +:+ " signal from candidate action and stated outcome in this segment.") in
        (result ++ [ {| ev_segmentId := rawSegmentId;
                        ev_quote := quote;
                        ev_interpretation := interpretation;
                        ev_strength := strength;
                        ev_relevance := relevance |} ],
         {[rawSegmentId]} ∪ seenSegmentIds).

Definition normalizeEvidence (rawValue : JsonValue) (context : NormalizeContext)
    (dimensionIndex : nat) (notObserved : bool) (dimensionLabel : string)
  : list ReportDimensionEvidence :=
  let candidates :=
    if isArray rawValue
    then fold_left (normalizeEvidenceEntry context notObserved dimensionLabel)
           (arrayItems rawValue) ([], ∅)
    else ([], ∅) in
  let desiredMinimum :=
    if notObserved then 0%nat else Nat.min 2 (length (ctx_segments context)) in
  let backfilled :=
    if (length candidates.1 <? desiredMinimum)%nat then
      let fallbackSegments :=
        pickFallbackEvidenceSegments context dimensionIndex
          (desiredMinimum - length candidates.1)%nat in
      fold_left
        (fun (state : list ReportDimensionEvidence * gset string) segment =>
           let '(result, seenSegmentIds) := state in
           if bool_decide (seg_id segment ∈ seenSegmentIds) then state
           else
             (result ++ [ {| ev_segmentId := seg_id segment;
                             ev_quote := toMaxWords (seg_text segment) 25;
                             ev_interpretation :=
                               dimensionLabel +:+ " signal grounded in this quoted segment.";
                             ev_strength := medium;
                             ev_relevance := 0.64 |} ],
              {[seg_id segment]} ∪ seenSegmentIds))
        fallbackSegments candidates
    else candidates in
  take 4 backfilled.1.

Definition normalizeAnchorAlignment (rawValue : JsonValue) (score : option Q)
    (missingSignals : list string) : ReportAnchorAlignment :=
  let fallbackChosenLevel := default 3 score in
  let fallbackWhyMeets :=
    match score with
    | None => ["Insufficient observable signal to map to a reliable anchor level."]
    | Some _ => ["Observed behaviors align with the selected rubric level."]
    end in
  let fallbackWhyNotHigher :=
    if (0 <? length missingSignals)%nat
    then take 2 missingSignals
    else ["Additional concrete evidence would be required for a higher level."] in
  if negb (isRecord rawValue) then
    {| chosenLevel := fallbackChosenLevel;
       whyMeets := fallbackWhyMeets;
       whyNotHigher := fallbackWhyNotHigher |}
  else
    {| chosenLevel :=
         clamp
           (JsMath.round
              (default fallbackChosenLevel (toFiniteNumber (getField "chosenLevel" rawValue))))
           1 5;
       whyMeets :=
         ensureMinItems (toStringArray (getField "whyMeets" rawValue) []) fallbackWhyMeets 1 3;
       whyNotHigher :=
         ensureMinItems (toStringArray (getField "whyNotHigher" rawValue) [])
           fallbackWhyNotHigher 1 3 |}.

Definition normalizeWhatWouldChangeScore (rawValue : JsonValue) (missingSignals : list string)
  : ReportWhatWouldChangeScore :=
  let fallbackUp :=
    if (0 <? length missingSignals)%nat
    then take 2 missingSignals
    else ["Provide a concrete example with measurable outcome and explicit tradeoffs."] in
  let fallbackDown :=
    ["Vague statements without evidence would lower confidence in this score."] in
  if negb (isRecord rawValue) then
    {| up := ensureMinItems [] fallbackUp 1 3;
       down := ensureMinItems [] fallbackDown 1 3 |}
  else
    {| up := ensureMinItems (toStringArray (getField "up" rawValue) []) fallbackUp 1 3;
       down := ensureMinItems (toStringArray (getField "down" rawValue) []) fallbackDown 1 3 |}.

Definition normalizeConfidence (rawConfidence : JsonValue)
    (evidenceQuality consistency evidenceCoverageRatio : Q) : Q :=
  match toFiniteNumber rawConfidence with
  | Some explicitConfidence => JsMath.round (clamp explicitConfidence 0 100)
  | None =>
      let inferred :=
        (evidenceQuality * 0.45 + consistency * 0.35 + evidenceCoverageRatio * 0.2) * 100 in
      JsMath.round (clamp inferred 0 100)
  end.

(** [`${score ?? 3}`] in a template: the score is integral there, being the
    result of [Math.round]. *)
Definition showInteger (value : Q) : string :=
  NilZero.string_of_int (Z.to_int (Qfloor value)).

Definition normalizeDimension (rawDimension : JsonValue) (descriptor : ReportDimension)
    (dimensionIndex : nat) (context : NormalizeContext) : ReportDimensionAssessment :=
  let rawRecord := if isRecord rawDimension then rawDimension else JObject [] in
  let notObserved :=
    match getField "notObserved" rawRecord with
    | JBool rawNotObserved => rawNotObserved
    | _ => false
    end in
  let rawScore := toFiniteNumber (getField "score" rawRecord) in
  let score :=
    match rawScore with
    | Some rawScore => if notObserved then None else Some (clamp (JsMath.round rawScore) 1 5)
    | None => None
    end in
  let anchors :=
    normalizeAnchors (getField "anchors" rawRecord) (dim_label descriptor)
      (dim_description descriptor) in
  let missingSignalsFallback :=
    if notObserved
    then ["Add direct evidence for " +:+ dim_label descriptor
            +:+ " via concrete actions and outcomes."]
    else ["Show stronger " +:+ dim_label descriptor
            +:+ " evidence tied to measurable outcomes."] in
  let missingSignals :=
    ensureMinItems (toStringArray (getField "missingSignals" rawRecord) [])
      missingSignalsFallback 1 4 in
  let evidence :=
    normalizeEvidence (getField "evidence" rawRecord) context dimensionIndex notObserved
      (dim_label descriptor) in
  let citedSegmentCount := length (uniqueInOrder (map ev_segmentId evidence)) in
  let evidenceCoverage :=
    {| citedSegmentCount := citedSegmentCount;
       availableSegmentCount := ctx_availableSegmentCount context |} in
  let evidenceCoverageRatio :=
    if (0 <? ctx_availableSegmentCount context)%nat
    then JsMath.ofNat citedSegmentCount / JsMath.ofNat (ctx_availableSegmentCount context)
    else 0 in
  let evidenceQuality :=
    clamp
      (match toRelevance (getField "evidenceQuality" rawRecord) with
       | Some quality => quality
       | None =>
           if (0 <? length evidence)%nat
           then fold_left (fun sum entry => sum + ev_relevance entry) evidence 0
                / JsMath.ofNat (length evidence)
           else if notObserved then 0.25 else 0.5
       end) 0 1 in
  let consistency :=
    clamp
      (match toRelevance (getField "consistency" rawRecord) with
       | Some consistency => consistency
       | None =>
           if notObserved then 0.35
           else 0.62 + JsMath.min (evidenceCoverageRatio * 0.2) 0.18
       end) 0 1 in
  let confidence :=
    normalizeConfidence (getField "confidence" rawRecord) evidenceQuality consistency
      evidenceCoverageRatio in
  let observationsFallback :=
    if notObserved
    then [ "No concrete behavior in the transcript maps directly to "
             +:+ dim_label descriptor +:+ ".";
           "Further probing is required before assigning a reliable score." ]
    else [ "Observed signals suggest " +:+ dim_label descriptor
             +:+ " at approximately level " +:+ showInteger (default 3 score) +:+ ".";
           "Evidence contains specific statements but could include more quantification." ] in
  let observations :=
    ensureMinItems (toStringArray (getField "observations" rawRecord) [])
      observationsFallback 2 4 in
  let observedSignals :=
    ensureMinItems (toStringArray (getField "observedSignals" rawRecord) []) observations 2 4 in
  let concernsFallback :=
    if notObserved
    then ["Cannot validate " +:+ dim_label descriptor +:+ " from current response."]
    else take 2 missingSignals in
  let concerns :=
    ensureMinItems (toStringArray (getField "concerns" rawRecord) []) concernsFallback 1 3 in
  let counterSignals := take 3 (toStringArray (getField "counterSignals" rawRecord) []) in
  let anchorAlignment :=
    normalizeAnchorAlignment (getField "anchorAlignment" rawRecord) score missingSignals in
  let probesFallback :=
    if notObserved
    then [ "Describe a situation that demonstrates " +:+ dim_label descriptor
             +:+ " with concrete steps.";
           "What outcome changed because of your direct actions?" ]
    else [ "Which tradeoff did you reject and why?";
           "What metric changed after your intervention?" ] in
  let probes :=
    ensureMinItems (toStringArray (getField "probes" rawRecord) []) probesFallback 2 3 in
  let whatWouldChangeScore :=
    normalizeWhatWouldChangeScore (getField "whatWouldChangeScore" rawRecord) missingSignals in
  {| da_id := dim_key descriptor;
     da_label := dim_label descriptor;
     da_score := score;
     da_notObserved := notObserved;
     da_confidence := confidence;
     da_anchors := anchors;
     da_missingSignals := missingSignals;
     da_evidence := evidence;
     da_evidenceCoverage := evidenceCoverage;
     da_observedSignals := observedSignals;
     da_concerns := concerns;
     da_counterSignals := counterSignals;
     da_observations := observations;
     da_anchorAlignment := anchorAlignment;
     da_evidenceQuality := evidenceQuality;
     da_consistency := consistency;
     da_probes := probes;
     da_whatWouldChangeScore := whatWouldChangeScore |}.

Record TimeInterval := {
  iv_start : Q;
  iv_end : Q;
}.

Definition mergeIntervals (intervals : list TimeInterval) (epsilonSeconds : Q)
  : list TimeInterval :=
  if (length intervals =? 0)%nat then []
  else
    sweep iv_start iv_end
      (fun last interval =>
         {| iv_start := iv_start last;
            iv_end := JsMath.max (iv_end last) (iv_end interval) |})
      epsilonSeconds intervals.

Definition deriveDurationSeconds (segments : list ReportInputSegment) : Q :=
  let maxEnd :=
    fold_left (fun maxValue segment => JsMath.max maxValue (seg_end segment)) segments 0 in
  if JsMath.ltb 0 maxEnd then maxEnd else 1.

(** The loop over [segmentIds] that ends the body of both coverage-map
    builders. *)
Definition indexSegments (dimensionId : string) (segmentIds : list string)
    (bySegment : gmap string ReportCoverageBySegmentEntry)
  : gmap string ReportCoverageBySegmentEntry :=
  fold_left
    (fun bySegment segmentId =>
       match bySegment !! segmentId with
       | Some existing =>
           if bool_decide (dimensionId ∈ cov_dimensions existing) then bySegment
           else <[segmentId := {| cov_dimensions := cov_dimensions existing ++ [dimensionId] |}]>
                  bySegment
       | None => <[segmentId := {| cov_dimensions := [dimensionId] |}]> bySegment
       end)
    segmentIds bySegment.

Definition createCoverageMap (dimensions : list ReportDimensionAssessment)
    (segments : list ReportInputSegment) : ReportCoverageMap :=
  let segmentById := mapOfEntries (map (fun segment => (seg_id segment, segment)) segments) in
  let durationSeconds := deriveDurationSeconds segments in
  fold_left
    (fun coverage dimension =>
       let segmentIds :=
         uniqueInOrder
           (List.filter (fun segmentId => bool_decide (is_Some (segmentById !! segmentId)))
              (map ev_segmentId (da_evidence dimension))) in
       let intervals :=
         map (fun segment =>
                {| iv_start := clamp (seg_start segment) 0 durationSeconds;
                   iv_end :=
                     clamp (JsMath.max (seg_end segment) (seg_start segment)) 0 durationSeconds |})
             (omap (fun segmentId => segmentById !! segmentId) segmentIds) in
       let mergedIntervals := mergeIntervals intervals COVERAGE_EPSILON_SECONDS in
       let coveredSeconds :=
         fold_left
           (fun sum interval => sum + JsMath.max (iv_end interval - iv_start interval) 0)
           mergedIntervals 0 in
       let coveragePct := clamp (coveredSeconds / durationSeconds * 100) 0 100 in
       {| byDimension :=
            <[da_id dimension :=
                {| cov_segmentIds := segmentIds;
                   cov_coveragePct := JsMath.round (coveragePct * 10) / 10 |}]>
              (byDimension coverage);
          bySegment := indexSegments (da_id dimension) segmentIds (bySegment coverage) |})
    dimensions {| byDimension := ∅; bySegment := ∅ |}.

Definition createCoverageMapFromEvidence (dimensions : list ReportDimensionAssessment)
    (availableSegmentCount : nat) : ReportCoverageMap :=
  let safeAvailableCount := Nat.max 1 availableSegmentCount in
  fold_left
    (fun coverage dimension =>
       let segmentIds := uniqueInOrder (map ev_segmentId (da_evidence dimension)) in
       let coveragePct :=
         clamp (JsMath.ofNat (length segmentIds) / JsMath.ofNat safeAvailableCount * 100)
           0 100 in
       {| byDimension :=
            <[da_id dimension :=
                {| cov_segmentIds := segmentIds;
                   cov_coveragePct := JsMath.round (coveragePct * 10) / 10 |}]>
              (byDimension coverage);
          bySegment := indexSegments (da_id dimension) segmentIds (bySegment coverage) |})
    dimensions {| byDimension := ∅; bySegment := ∅ |}.

Definition recommendationName (value : OverallRecommendation) : string :=
  match value with
  | StrongHire => "StrongHire"
  | Hire => "Hire"
  | LeanHire => "LeanHire"
  | LeanNo => "LeanNo"
  | No => "No"
  end.

Record TopLevelArrays := {
  tl_decisionRationale : list string;
  tl_keyStrengths : list string;
  tl_keyRisks : list string;
  tl_mustFixToHire : list string;
  tl_risks : list string;
  tl_followUps : list string;
}.

Definition buildTopLevelArrays (report : JsonValue)
    (dimensions : list ReportDimensionAssessment) (recommendation : OverallRecommendation)
  : TopLevelArrays :=
  let highDimensions :=
    take 3
      (List.filter
         (fun dimension =>
            negb (da_notObserved dimension)
            && match da_score dimension with
               | Some score => JsMath.leb 4 score
               | None => false
               end)
         dimensions) in
  let lowDimensions :=
    take 3
      (List.filter
         (fun dimension =>
            da_notObserved dimension
            || match da_score dimension with
               | Some score => JsMath.leb score 2
               | None => false
               end)
         dimensions) in
  let fallbackDecisionRationale :=
    [ "Recommendation is " +:+ recommendationName recommendation
        +:+ " based on observed rubric evidence.";
      "Scores emphasize anchor alignment, evidence quality, and cross-segment consistency.";
      "Confidence reflects both breadth of evidence and specificity of cited statements." ] in
  let fallbackStrengths :=
    map (fun dimension => da_label dimension +:+ ": aligned with higher rubric anchors.")
      highDimensions
    ++ [ "Candidate communicates decision context and outcomes with interviewer-friendly structure.";
         "Evidence includes at least one concrete, role-owned action sequence.";
         "Response shows some consistency across cited segments." ] in
  let fallbackRisks :=
    map (fun dimension =>
           if da_notObserved dimension
           then da_label dimension +:+ ": not observed; targeted probing required."
           else da_label dimension
                +:+ ": current evidence does not yet support stronger anchor levels.")
      lowDimensions
    ++ [ "Evidence coverage may be insufficient for high-confidence leveling.";
         "Some claims are directional and would benefit from stronger quantification." ] in
  let fallbackFollowUps := take 4 (concat (map da_probes dimensions)) in
  let decisionRationale :=
    ensureMinItems (toStringArray (getField "decisionRationale" report) [])
      fallbackDecisionRationale 3 5 in
  let keyStrengths :=
    ensureMinItems (toStringArray (getField "keyStrengths" report) []) fallbackStrengths 3 5 in
  let keyRisks :=
    ensureMinItems (toStringArray (getField "keyRisks" report) []) fallbackRisks 2 4 in
  let followUps :=
    ensureMinItems (toStringArray (getField "followUps" report) []) fallbackFollowUps 1 6 in
  let risks := ensureMinItems (toStringArray (getField "risks" report) []) keyRisks 1 6 in
  let fallbackMustFix :=
    match recommendation with
    | StrongHire | Hire => []
    | _ =>
        [ "Provide at least one concrete example with measurable outcome for the weakest dimension.";
          "Clarify decision tradeoffs and ownership boundaries in follow-up questions." ]
    end in
  let mustFixToHire :=
    ensureMinItems (toStringArray (getField "mustFixToHire" report) []) fallbackMustFix
      (if (0 <? length fallbackMustFix)%nat then 1 else 0) 4 in
  {| tl_decisionRationale := decisionRationale;
     tl_keyStrengths := keyStrengths;
     tl_keyRisks := keyRisks;
     tl_mustFixToHire := mustFixToHire;
     tl_risks := risks;
     tl_followUps := followUps |}.

Definition normalizeModernReport (sourceReport : JsonValue) (context : NormalizeContext)
  : ModernReportResponseBody :=
  let sourceDimensions :=
    if isArray (getField "dimensions" sourceReport)
    then arrayItems (getField "dimensions" sourceReport)
    else [] in
  let sourceById : gmap string JsonValue :=
    fold_left
      (fun sourceById candidate =>
         if negb (isRecord candidate) then sourceById
         else
           let id := toNormalizedString (getField "id" candidate) emptyString in
           if negb (String.eqb id emptyString) && negb (bool_decide (is_Some (sourceById !! id)))
           then <[id := candidate]> sourceById
           else sourceById)
      sourceDimensions ∅ in
  let normalizedDimensions :=
    imap
      (fun index descriptor =>
         let candidate := default JUndefined (sourceById !! dim_key descriptor) in
         normalizeDimension candidate descriptor index context)
      (ctx_dimensions context) in
  let calibration := deriveCalibratedRecommendation normalizedDimensions in
  let recommendation := cal_recommendation calibration in
  let topLevel := buildTopLevelArrays sourceReport normalizedDimensions recommendation in
  let fallbackLeveling := deriveLeveling (cal_weightedScore calibration) in
  let leveling := normalizeLeveling (getField "leveling" sourceReport) fallbackLeveling in
  let calibrationNotes :=
    ensureMinItems (toStringArray (getField "calibrationNotes" sourceReport) [])
      (cal_calibrationNotes calibration) 2 6 in
  let summary :=
    toNormalizedString (getField "overallSummary" sourceReport)
      "Interview response reviewed with anchor-based scoring and evidence-linked notes." in
  let coverageMap :=
    if (0 <? length (ctx_segments context))%nat
    then createCoverageMap normalizedDimensions (ctx_segments context)
    else createCoverageMapFromEvidence normalizedDimensions (ctx_availableSegmentCount context) in
  {| overallSummary := summary;
     overallRecommendation := recommendation;
     risks := tl_risks topLevel;
     followUps := tl_followUps topLevel;
     dimensions := normalizedDimensions;
     decisionRationale := tl_decisionRationale topLevel;
     leveling := leveling;
     calibrationNotes := calibrationNotes;
     keyStrengths := tl_keyStrengths topLevel;
     keyRisks := tl_keyRisks topLevel;
     mustFixToHire := tl_mustFixToHire topLevel;
     coverageMap := coverageMap |}.

(** *** Typed values read back as untyped ones

    A typed object handed to a function that takes [unknown] (or a
    [Partial] it inspects field by field) is the same JavaScript object; in
    the embedding it is re-read through these encodings, which list the
    properties of the object literals that build it. *)

Definition jStrings (entries : list string) : JsonValue := JArray (map JString entries).

Definition jScore (score : option Q) : JsonValue :=
  match score with Some value => JNumber value | None => JNull end.

Definition strengthName (strength : ReportEvidenceStrength) : string :=
  match strength with weak => "weak" | medium => "medium" | strong => "strong" end.

Definition levelName (level : ReportLevel) : string :=
  match level with
  | intern => "intern" | newgrad => "newgrad" | mid => "mid" | senior => "senior"
  end.

Definition encodeAnchors (anchors : ReportAnchors) : JsonValue :=
  JObject [ ("1", JString (anchor1 anchors)); ("2", JString (anchor2 anchors));
            ("3", JString (anchor3 anchors)); ("4", JString (anchor4 anchors));
            ("5", JString (anchor5 anchors)) ].

Definition encodeEvidence (entry : ReportDimensionEvidence) : JsonValue :=
  JObject [ ("segmentId", JString (ev_segmentId entry));
            ("quote", JString (ev_quote entry));
            ("interpretation", JString (ev_interpretation entry));
            ("strength", JString (strengthName (ev_strength entry)));
            ("relevance", JNumber (ev_relevance entry)) ].

Definition encodeDimension (dimension : ReportDimensionAssessment) : JsonValue :=
  JObject
    [ ("id", JString (da_id dimension));
      ("label", JString (da_label dimension));
      ("score", jScore (da_score dimension));
      ("notObserved", JBool (da_notObserved dimension));
      ("confidence", JNumber (da_confidence dimension));
      ("anchors", encodeAnchors (da_anchors dimension));
      ("missingSignals", jStrings (da_missingSignals dimension));
      ("evidence", JArray (map encodeEvidence (da_evidence dimension)));
      ("evidenceCoverage",
        JObject
          [ ("citedSegmentCount",
              JNumber (JsMath.ofNat (citedSegmentCount (da_evidenceCoverage dimension))));
            ("availableSegmentCount",
              JNumber (JsMath.ofNat (availableSegmentCount (da_evidenceCoverage dimension)))) ]);
      ("observedSignals", jStrings (da_observedSignals dimension));
      ("concerns", jStrings (da_concerns dimension));
      ("counterSignals", jStrings (da_counterSignals dimension));
      ("observations", jStrings (da_observations dimension));
      ("anchorAlignment",
        JObject
          [ ("chosenLevel", JNumber (chosenLevel (da_anchorAlignment dimension)));
            ("whyMeets", jStrings (whyMeets (da_anchorAlignment dimension)));
            ("whyNotHigher", jStrings (whyNotHigher (da_anchorAlignment dimension))) ]);
      ("evidenceQuality", JNumber (da_evidenceQuality dimension));
      ("consistency", JNumber (da_consistency dimension));
      ("probes", jStrings (da_probes dimension));
      ("whatWouldChangeScore",
        JObject
          [ ("up", jStrings (up (da_whatWouldChangeScore dimension)));
            ("down", jStrings (down (da_whatWouldChangeScore dimension))) ]) ].

Definition encodeCoverageMap (coverage : ReportCoverageMap) : JsonValue :=
  JObject
    [ ("byDimension",
        JObject
          (map (fun entry : string * ReportCoverageByDimensionEntry =>
                  (entry.1,
                   JObject [ ("segmentIds", jStrings (cov_segmentIds entry.2));
                             ("coveragePct", JNumber (cov_coveragePct entry.2)) ]))
               (map_to_list (byDimension coverage))));
      ("bySegment",
        JObject
          (map (fun entry : string * ReportCoverageBySegmentEntry =>
                  (entry.1, JObject [ ("dimensions", jStrings (cov_dimensions entry.2)) ]))
               (map_to_list (bySegment coverage)))) ].

Definition encodeReport (report : ModernReportResponseBody) : JsonValue :=
  JObject
    [ ("overallSummary", JString (overallSummary report));
      ("overallRecommendation", JString (recommendationName (overallRecommendation report)));
      ("risks", jStrings (risks report));
      ("followUps", jStrings (followUps report));
      ("dimensions", JArray (map encodeDimension (dimensions report)));
      ("decisionRationale", jStrings (decisionRationale report));
      ("leveling",
        JObject [ ("role", JString (role (leveling report)));
                  ("level", JString (levelName (level (leveling report)))) ]);
      ("calibrationNotes", jStrings (calibrationNotes report));
      ("keyStrengths", jStrings (keyStrengths report));
      ("keyRisks", jStrings (keyRisks report));
      ("mustFixToHire", jStrings (mustFixToHire report));
      ("coverageMap", encodeCoverageMap (coverageMap report)) ].

(** *** The legacy shape *)

Record ReportEvidence := {
  le_segmentId : string;
  le_quote : string;
  le_confidence : Q;
}.

Record ReportItem := {
  dimensionKey : string;
  item_score : Q;
  claim : string;
  item_evidence : list ReportEvidence;
}.

Record LegacyReportResponseBody := {
  summary : string;
  items : list ReportItem;
}.

(** [items.every(check)] together with the narrowing of the type guard:
    [Some] of the typed elements when every element passes. *)
Definition every {A B : Type} (check : A -> option B) (entries : list A) : option (list B) :=
  mapM check entries.

Definition asReportEvidence (entry : JsonValue) : option ReportEvidence :=
  if negb (isRecord entry) then None
  else
    match getField "segmentId" entry, getField "quote" entry, getField "confidence" entry with
    | JString segmentId, JString quote, JNumber confidence =>
        if isNonEmptyString (JString segmentId)
        then Some {| le_segmentId := segmentId; le_quote := quote; le_confidence := confidence |}
        else None
    | _, _, _ => None
    end.

Definition asReportItem (item : JsonValue) : option ReportItem :=
  if negb (isRecord item) then None
  else
    match getField "dimensionKey" item, getField "score" item, getField "claim" item,
          getField "evidence" item with
    | JString key, JNumber score, JString claim, JArray evidence =>
        if isNonEmptyString (JString key) then
          match every asReportEvidence evidence with
          | Some entries =>
              Some {| dimensionKey := key; item_score := score; claim := claim;
                      item_evidence := entries |}
          | None => None
          end
        else None
    | _, _, _, _ => None
    end.

(** The type guard; [Some] carries the value at the type it narrows to. *)
Definition isLegacyReportResponseBody (value : JsonValue) : option LegacyReportResponseBody :=
  if negb (isRecord value) then None
  else
    match getField "summary" value, getField "items" value with
    | JString summary, JArray items =>
        match every asReportItem items with
        | Some entries => Some {| summary := summary; items := entries |}
        | None => None
        end
    | _, _ => None
    end.

Definition fromLegacyReport (report : LegacyReportResponseBody) (options : NormalizeOptions)
  : ModernReportResponseBody :=
  let context := normalizeOptions options in
  let legacyItems := items report in
  let itemByKey := mapOfEntries (map (fun item => (dimensionKey item, item)) legacyItems) in
  let modernLike :=
    JObject
      [ ("overallSummary", JString (summary report));
        ("dimensions",
          JArray
            (map
               (fun descriptor =>
                  let legacyItem := itemByKey !! dim_key descriptor in
                  let matched := match legacyItem with Some _ => true | None => false end in
                  let evidenceEntries :=
                    match legacyItem with
                    | Some item =>
                        Some
                          (map (fun entry =>
                                  JObject
                                    [ ("segmentId", JString (le_segmentId entry));
                                      ("quote", JString (toMaxWords (le_quote entry) 25));
                                      ("interpretation",
                                        JString "Legacy evidence mapped from prior report format.");
                                      ("strength", JString "medium");
                                      ("relevance",
                                        JNumber
                                          (default 0.65
                                             (toRelevance (JNumber (le_confidence entry))))) ])
                               (item_evidence item))
                    | None => None
                    end in
                  let score :=
                    match legacyItem with
                    | Some item => Some (clamp (JsMath.round (item_score item)) 1 5)
                    | None => None
                    end in
                  let anchors :=
                    createDefaultAnchors (dim_label descriptor) (dim_description descriptor) in
                  JObject
                    [ ("id", JString (dim_key descriptor));
                      ("label", JString (dim_label descriptor));
                      ("score", jScore score);
                      ("notObserved", JBool (if matched then false else true));
                      ("confidence", JNumber (if matched then 66 else 38));
                      ("anchors", encodeAnchors anchors);
                      ("missingSignals",
                        jStrings
                          (if matched
                           then ["Add stronger quantified impact and clearer tradeoff framing."]
                           else ["No direct signal observed for " +:+ dim_label descriptor +:+ "."]));
                      ("evidence", JArray (default [] evidenceEntries));
                      ("evidenceCoverage",
                        JObject
                          [ ("citedSegmentCount",
                              JNumber (JsMath.ofNat (length (default [] evidenceEntries))));
                            ("availableSegmentCount",
                              JNumber (JsMath.ofNat (ctx_availableSegmentCount context))) ]);
                      ("observedSignals",
                        jStrings
                          (match legacyItem with
                           | Some item =>
                               [claim item; "Legacy score converted to scorecard signals."]
                           | None =>
                               [ "No signal observed in legacy report for this dimension.";
                                 "Needs follow-up probing." ]
                           end));
                      ("concerns",
                        jStrings
                          (if matched
                           then ["Legacy report lacked explicit concerns; added calibration-safe default."]
                           else ["No direct evidence available for " +:+ dim_label descriptor
                                   +:+ "."]));
                      ("counterSignals", JArray []);
                      ("observations",
                        jStrings
                          (match legacyItem with
                           | Some item =>
                               [claim item; "Legacy report migrated into anchor-based rubric format."]
                           | None =>
                               [ "Legacy report had no matching item for this dimension.";
                                 "Further probing required." ]
                           end));
                      ("anchorAlignment",
                        JObject
                          [ ("chosenLevel", JNumber (default 3 score));
                            ("whyMeets",
                              jStrings
                                (match legacyItem with
                                 | Some item => [claim item]
                                 | None => ["Not enough evidence to assign a level."]
                                 end));
                            ("whyNotHigher",
                              jStrings
                                ["Need more specific evidence and measurable impact statements."]) ]);
                      ("evidenceQuality", JNumber (if matched then 0.64 else 0.3));
                      ("consistency", JNumber (if matched then 0.6 else 0.35));
                      ("probes",
                        jStrings
                          [ "What specific metric changed because of your approach?";
                            "Which stakeholder tradeoff did you explicitly manage?" ]);
                      ("whatWouldChangeScore",
                        JObject
                          [ ("up",
                              jStrings ["Add a quantified outcome and a clear decision rationale."]);
                            ("down",
                              jStrings
                                ["Remove concrete examples or rely on unsupported claims."]) ]) ])
               (ctx_dimensions context))) ] in
  normalizeModernReport modernLike context.

Definition getDimensionScoreForMock (index : nat) : Q :=
  let cycle := [4; 3; 5; 2] in
  nth (index mod length cycle) cycle 0.

Definition createMockDimension (descriptor : ReportDimension) (dimensionIndex : nat)
    (context : NormalizeContext) (forceNotObserved : bool) : ReportDimensionAssessment :=
  let anchors := createDefaultAnchors (dim_label descriptor) (dim_description descriptor) in
  if forceNotObserved then
    {| da_id := dim_key descriptor;
       da_label := dim_label descriptor;
       da_score := None;
       da_notObserved := true;
       da_confidence := 34;
       da_anchors := anchors;
       da_missingSignals :=
         [ "No transcript segment clearly demonstrates " +:+ dim_label descriptor +:+ ".";
           "Need a concrete example with role, action, and measurable result." ];
       da_evidence := [];
       da_evidenceCoverage :=
         {| citedSegmentCount := 0;
            availableSegmentCount := ctx_availableSegmentCount context |};
       da_observedSignals :=
         [ "No specific statement in transcript demonstrates " +:+ dim_label descriptor +:+ ".";
           "Candidate response did not provide enough behavioral detail for this dimension." ];
       da_concerns :=
         [ "Core signal for " +:+ dim_label descriptor +:+ " is missing.";
           "Recommendation is calibrated downward until this is observed." ];
       da_counterSignals := ["Some adjacent signals appear, but they are too indirect to score."];
       da_observations :=
         [ "Current answer does not provide direct behavioral evidence for "
             +:+ dim_label descriptor +:+ ".";
           "Interviewer should probe for a specific situation and outcome." ];
       da_anchorAlignment :=
         {| chosenLevel := 2;
            whyMeets := ["Only partial or indirect signals were present in the response."];
            whyNotHigher := ["No concrete segment linked to this dimension was observed."] |};
       da_evidenceQuality := 0.22;
       da_consistency := 0.31;
       da_probes :=
         [ "Can you share one example that directly demonstrates " +:+ dim_label descriptor
             +:+ "?";
           "What did you personally do, and what changed as a result?" ];
       da_whatWouldChangeScore :=
         {| up := ["Provide a specific scenario with measurable impact and clear ownership."];
            down := ["Continue with abstract statements without role-specific actions."] |} |}
  else
    let fallbackSegments := pickFallbackEvidenceSegments context dimensionIndex 2 in
    let evidence :=
      imap
        (fun evidenceIndex segment =>
           {| ev_segmentId := seg_id segment;
              ev_quote := toMaxWords (seg_text segment) 25;
              ev_interpretation :=
                dim_label descriptor
                +:+ " is supported by concrete action and outcome language in this segment.";
              ev_strength := if (evidenceIndex =? 0)%nat then strong else medium;
              ev_relevance :=
                clamp
                  (0.7 - JsMath.ofNat evidenceIndex * 0.08 + JsMath.ofNat dimensionIndex * 0.03)
                  0.45 0.92 |})
        fallbackSegments in
    let score := getDimensionScoreForMock dimensionIndex in
    let citedSegmentCount := length (uniqueInOrder (map ev_segmentId evidence)) in
    let coverageRatio :=
      if (0 <? ctx_availableSegmentCount context)%nat
      then JsMath.ofNat citedSegmentCount / JsMath.ofNat (ctx_availableSegmentCount context)
      else 0 in
    let evidenceQuality :=
      clamp
        (fold_left (fun sum entry => sum + ev_relevance entry) evidence 0
         / JsMath.ofNat (Nat.max 1 (length evidence)))
        0 1 in
    let consistency := clamp (0.56 + (score - 2) * 0.08) 0 1 in
    let confidence :=
      JsMath.round
        (clamp ((evidenceQuality * 0.45 + consistency * 0.35 + coverageRatio * 0.2) * 100)
           0 100) in
    {| da_id := dim_key descriptor;
       da_label := dim_label descriptor;
       da_score := Some score;
       da_notObserved := false;
       da_confidence := confidence;
       da_anchors := anchors;
       da_missingSignals :=
         [ "Add one more quantified outcome to increase anchor certainty.";
           "Clarify rejected alternatives and why they were deprioritized." ];
       da_evidence := evidence;
       da_evidenceCoverage :=
         {| citedSegmentCount := citedSegmentCount;
            availableSegmentCount := ctx_availableSegmentCount context |};
       da_observedSignals :=
         [ "Provides a concrete example that demonstrates " +:+ dim_label descriptor +:+ ".";
           "Describes tradeoffs and outcomes with enough specificity for scoring.";
           "Evidence references candidate-owned actions instead of generic team statements." ];
       da_concerns :=
         [ "Could include clearer baseline metrics to strengthen comparability.";
           "Would benefit from one additional example under stronger constraints." ];
       da_counterSignals :=
         ["Some impact claims remain directional rather than fully quantified."];
       da_observations :=
         [ dim_label descriptor
             +:+ " is demonstrated with specific actions in cited transcript segments.";
           "Reasoning is mostly coherent but could better quantify downstream impact.";
           "Decision framing is credible and tied to candidate-owned execution." ];
       da_anchorAlignment :=
         {| chosenLevel := score;
            whyMeets :=
              [ "Cited evidence aligns with the selected anchor level through concrete behaviors.";
                "Transcript includes explicit context, action, and outcome links." ];
            whyNotHigher :=
              [ "Evidence breadth is limited; additional scenarios would increase confidence.";
                "Some claims would be stronger with objective metrics." ] |};
       da_evidenceQuality := evidenceQuality;
       da_consistency := consistency;
       da_probes :=
         [ "What was the hardest tradeoff you made, and how did you validate it?";
           "Which metric or signal best proved your approach worked?";
           "If you repeated this now, what would you change first?" ];
       da_whatWouldChangeScore :=
         {| up :=
              [ "Show a second independent example with equal rigor and measurable impact.";
                "Quantify stakeholder outcomes and include explicit risk mitigation choices." ];
            down :=
              [ "Rely on generic claims that are not tied to transcript evidence.";
                "Contradict key details across examples without reconciliation." ] |} |}.

Record MockTopLevel := {
  mt_overallSummary : string;
  mt_overallRecommendation : OverallRecommendation;
  mt_leveling : ReportLeveling;
  mt_calibrationNotes : list string;
  mt_risks : list string;
  mt_followUps : list string;
  mt_decisionRationale : list string;
  mt_keyStrengths : list string;
  mt_keyRisks : list string;
  mt_mustFixToHire : list string;
}.

Definition doubleQuote : string := String (Ascii.ascii_of_nat 34) EmptyString.

Definition createMockTopLevel (questionText : string)
    (dimensions : list ReportDimensionAssessment) : MockTopLevel :=
  let calibrated := deriveCalibratedRecommendation dimensions in
  let recommendation := cal_recommendation calibrated in
  let leveling := deriveLeveling (cal_weightedScore calibrated) in
  let strengths :=
    take 5
      (map (fun dimension => da_label dimension +:+ ": evidence supports higher-anchor behavior.")
         (List.filter
            (fun dimension =>
               negb (da_notObserved dimension) && JsMath.leb 4 (default 0 (da_score dimension)))
            dimensions)) in
  let strengthFallbackPool :=
    strengths
    ++ [ "Candidate provides concrete behavior tied to at least one measurable outcome.";
         "Evidence includes explicit ownership and decision rationale.";
         "Communication clarity is sufficient for interviewer calibration." ] in
  let risks :=
    take 4
      (map (fun dimension =>
              if da_notObserved dimension
              then da_label dimension
                   +:+ ": not observed in this response; hiring risk remains unvalidated."
              else da_label dimension
                   +:+ ": score is currently below hiring bar due to weak evidence.")
         (List.filter
            (fun dimension =>
               da_notObserved dimension || JsMath.leb (default 5 (da_score dimension)) 2)
            dimensions)) in
  let riskFallbackPool :=
    risks
    ++ [ "Coverage is not broad enough to remove all uncertainty for final recommendation.";
         "Some evidence is medium-strength and needs corroboration in follow-up rounds." ] in
  let followUps := take 5 (concat (map da_probes dimensions)) in
  let mustFixToHire :=
    match recommendation with
    | StrongHire | Hire => []
    | _ =>
        [ "Demonstrate the not-observed dimension with one concrete example.";
          "Increase evidence quality by adding measurable outcomes tied to actions." ]
    end in
  {| mt_overallSummary :=
       "Mock hiring-loop summary for " +:+ doubleQuote +:+ questionText +:+ doubleQuote
       +:+ ": anchored scoring is based on segment-linked evidence and interviewer-style rationale.";
     mt_overallRecommendation := recommendation;
     mt_leveling := leveling;
     mt_calibrationNotes :=
       ensureMinItems (cal_calibrationNotes calibrated)
         [ "Calibration adjusts recommendation when core signals are missing or evidence coverage is thin.";
           "NotObserved dimensions reduce confidence and cap recommendation." ]
         2 6;
     mt_risks :=
       ensureMinItems risks ["No immediate blockers identified from this single response."] 1 6;
     mt_followUps :=
       ensureMinItems followUps ["What would you do differently in hindsight, and why?"] 1 6;
     mt_decisionRationale :=
       [ "Recommendation " +:+ recommendationName recommendation
           +:+ " is driven by weighted dimension scores and calibration rules.";
         "Confidence weights evidence quality, cross-segment consistency, and citation coverage.";
         "One dimension is intentionally marked not observed to model realistic interviewer uncertainty." ];
     mt_keyStrengths :=
       ensureMinItems strengthFallbackPool
         ["Response includes at least one concrete, evidence-backed decision narrative."] 3 5;
     mt_keyRisks :=
       ensureMinItems riskFallbackPool
         ["Insufficient behavioral evidence in at least one dimension."] 2 4;
     mt_mustFixToHire := mustFixToHire |}.

(** [notObservedIndex] is [length - 1] when there are at least three
    dimensions and [-1], which no index equals, otherwise. *)
Definition createMockReport (requestBody : ReportRequestBody) : ModernReportResponseBody :=
  let context := normalizedContextFromRequest requestBody in
  let isNotObservedIndex (index : nat) : bool :=
    (3 <=? length (ctx_dimensions context))%nat
    && (index =? length (ctx_dimensions context) - 1)%nat in
  let dimensions :=
    imap
      (fun index descriptor =>
         createMockDimension descriptor index context (isNotObservedIndex index))
      (ctx_dimensions context) in
  let topLevel := createMockTopLevel (questionText requestBody) dimensions in
  let coverageMap := createCoverageMap dimensions (ctx_segments context) in
  {| overallSummary := mt_overallSummary topLevel;
     overallRecommendation := mt_overallRecommendation topLevel;
     leveling := mt_leveling topLevel;
     calibrationNotes := mt_calibrationNotes topLevel;
     risks := mt_risks topLevel;
     followUps := mt_followUps topLevel;
     dimensions := dimensions;
     decisionRationale := mt_decisionRationale topLevel;
     keyStrengths := mt_keyStrengths topLevel;
     keyRisks := mt_keyRisks topLevel;
     mustFixToHire := mt_mustFixToHire topLevel;
     coverageMap := coverageMap |}.

Definition isOptionalStringArray (arrayValue : JsonValue) : bool :=
  match arrayValue with
  | JUndefined => true
  | JArray entries => forallb isStringValue entries
  | _ => false
  end.

Definition isModernDimensionAssessment (value : JsonValue) : bool :=
  if negb (isRecord value) then false
  else
    let scoreIsValid :=
      match getField "score" value with
      | JNull => true
      | JNumber score => JsMath.leb 1 score && JsMath.leb score 5
      | _ => false
      end in
    if negb (isNonEmptyString (getField "id" value))
       || negb (isNonEmptyString (getField "label" value))
       || negb scoreIsValid
       || negb (isBooleanValue (getField "notObserved" value))
       || negb (isFiniteNumberValue (getField "confidence" value))
       || negb (isRecord (getField "anchors" value))
       || negb (isArray (getField "missingSignals" value))
       || negb (isArray (getField "evidence" value))
       || negb (isRecord (getField "evidenceCoverage" value))
    then false
    else
      let anchors := getField "anchors" value in
      let hasAnchors :=
        isStringValue (getField "1" anchors) && isStringValue (getField "2" anchors)
        && isStringValue (getField "3" anchors) && isStringValue (getField "4" anchors)
        && isStringValue (getField "5" anchors) in
      if negb hasAnchors then false
      else
        let evidenceCoverage := getField "evidenceCoverage" value in
        if negb (isFiniteNumberValue (getField "citedSegmentCount" evidenceCoverage))
           || negb (isFiniteNumberValue (getField "availableSegmentCount" evidenceCoverage))
        then false
        else
          let optionalStringArrays :=
            [ getField "observedSignals" value; getField "concerns" value;
              getField "counterSignals" value; getField "observations" value;
              getField "probes" value; getField "missingSignals" value ] in
          if negb (forallb isOptionalStringArray optionalStringArrays) then false
          else
            forallb
              (fun entry =>
                 if negb (isRecord entry) then false
                 else
                   let strength := getField "strength" entry in
                   let strengthValid :=
                     isUndefined strength
                     || match toStrength strength with Some _ => true | None => false end in
                   let relevance := getField "relevance" entry in
                   let relevanceValid := isUndefined relevance || isFiniteNumberValue relevance in
                   isNonEmptyString (getField "segmentId" entry)
                   && isStringValue (getField "quote" entry)
                   && strengthValid
                   && relevanceValid
                   && (isUndefined (getField "interpretation" entry)
                       || isStringValue (getField "interpretation" entry)))
              (arrayItems (getField "evidence" value)).

Definition isCoverageMap (value : JsonValue) : bool :=
  if negb (isRecord value) then false
  else if negb (isRecord (getField "byDimension" value))
          || negb (isRecord (getField "bySegment" value))
  then false
  else
    let byDimensionValues := objectValues (getField "byDimension" value) in
    let bySegmentValues := objectValues (getField "bySegment" value) in
    let dimensionsValid :=
      forallb
        (fun entry =>
           if negb (isRecord entry) then false
           else
             isArray (getField "segmentIds" entry)
             && forallb isStringValue (arrayItems (getField "segmentIds" entry))
             && isFiniteNumberValue (getField "coveragePct" entry))
        byDimensionValues in
    if negb dimensionsValid then false
    else
      forallb
        (fun entry =>
           if negb (isRecord entry) then false
           else
             isArray (getField "dimensions" entry)
             && forallb isStringValue (arrayItems (getField "dimensions" entry)))
        bySegmentValues.

Definition isModernReportResponseBody (value : JsonValue) : bool :=
  if negb (isRecord value) then false
  else if negb (isStringValue (getField "overallSummary" value))
          || match toOverallRecommendation (getField "overallRecommendation" value) with
             | None => true
             | Some _ => false
             end
          || negb (isArray (getField "risks" value))
          || negb (isArray (getField "followUps" value))
          || negb (isArray (getField "dimensions" value))
  then false
  else
    let baseArraysValid :=
      forallb isStringValue (arrayItems (getField "risks" value))
      && forallb isStringValue (arrayItems (getField "followUps" value)) in
    if negb baseArraysValid then false
    else if negb (forallb isModernDimensionAssessment (arrayItems (getField "dimensions" value)))
    then false
    else
      let optionalArrays :=
        [ getField "decisionRationale" value; getField "calibrationNotes" value;
          getField "keyStrengths" value; getField "keyRisks" value;
          getField "mustFixToHire" value ] in
      if negb (forallb (fun arrayValue => isUndefined arrayValue || isArray arrayValue)
                 optionalArrays)
      then false
      else if negb (forallb isOptionalStringArray optionalArrays) then false
      else if negb (isUndefined (getField "coverageMap" value))
              && negb (isCoverageMap (getField "coverageMap" value))
      then false
      else if negb (isUndefined (getField "leveling" value))
              && (negb (isRecord (getField "leveling" value))
                  || negb (isNonEmptyString (getField "role" (getField "leveling" value)))
                  || match toReportLevel (getField "level" (getField "leveling" value)) with
                     | None => true
                     | Some _ => false
                     end)
      then false
      else true.

Definition normalizeFromUnknown (payload : JsonValue) (context : NormalizeContext)
  : ModernReportResponseBody :=
  match isLegacyReportResponseBody payload with
  | Some legacy =>
      fromLegacyReport legacy
        {| opt_dimensions := ctx_dimensions context;
           opt_availableSegmentCount := ctx_availableSegmentCount context;
           opt_segments := Some (ctx_segments context) |}
  | None =>
      if isModernReportResponseBody payload then normalizeModernReport payload context
      else if isRecord payload then normalizeModernReport payload context
      else
        createMockReport
          {| questionId := "unknown";
             questionText := "Unknown question";
             req_segments := ctx_segments context;
             rubric_dimensions := ctx_dimensions context |}
  end.

Definition normalizeReportResponse (payload : JsonValue) (requestBody : ReportRequestBody)
  : ModernReportResponseBody :=
  let context := normalizedContextFromRequest requestBody in
  let normalized := normalizeFromUnknown payload context in
  normalizeModernReport (encodeReport normalized) context.

Definition DEFAULT_RUBRIC_DIMENSIONS : list ReportDimension :=
  [ {| dim_key := "clarity";
       dim_label := "Communication Clarity";
       dim_description :=
         "How clearly the candidate explains context, actions, and outcomes with concrete detail." |};
    {| dim_key := "problemSolving";
       dim_label := "Problem Solving";
       dim_description :=
         "How effectively the candidate frames ambiguity, evaluates options, and justifies decisions." |};
    {| dim_key := "ownership";
       dim_label := "Ownership";
       dim_description :=
         "How strongly the candidate demonstrates accountability, initiative, and measurable follow-through." |};
    {| dim_key := "collaboration";
       dim_label := "Collaboration";
       dim_description :=
         "How well the candidate aligns stakeholders, handles disagreement, and drives execution with others." |} ].

(** The callback of [segments.every] in [isReportRequestBody], with the
    segment at the type the guard narrows to. *)
Definition asReportInputSegment (segment : JsonValue) : option ReportInputSegment :=
  if negb (isRecord segment) then None
  else
    match getField "id" segment, getField "start" segment, getField "end" segment,
          getField "text" segment with
    | JString id, JNumber start, JNumber end_, JString text =>
        if isNonEmptyString (JString id)
        then Some {| seg_id := id; seg_start := start; seg_end := end_; seg_text := text |}
        else None
    | _, _, _, _ => None
    end.

(** The callback of [rubric.dimensions.every]. *)
Definition asReportDimension (dimension : JsonValue) : option ReportDimension :=
  if negb (isRecord dimension) then None
  else
    match getField "key" dimension, getField "label" dimension,
          getField "description" dimension with
    | JString key, JString label, JString description =>
        if isNonEmptyString (JString key) && isNonEmptyString (JString label)
           && isNonEmptyString (JString description)
        then Some {| dim_key := key; dim_label := label; dim_description := description |}
        else None
    | _, _, _ => None
    end.

(** The type guard of the request; [Some] carries the value at the type it
    narrows to. *)
Definition isReportRequestBody (value : JsonValue) : option ReportRequestBody :=
  if negb (isRecord value) then None
  else
    match getField "questionId" value, getField "questionText" value with
    | JString questionId, JString questionText =>
        if negb (isNonEmptyString (JString questionId))
           || negb (isNonEmptyString (JString questionText))
        then None
        else if negb (isRecord (getField "rubric" value))
                || negb (isArray (getField "dimensions" (getField "rubric" value)))
        then None
        else
          match getField "segments" value with
          | JArray segments =>
              match every asReportInputSegment segments with
              | None => None
              | Some validSegments =>
                  match every asReportDimension
                          (arrayItems (getField "dimensions" (getField "rubric" value))) with
                  | None => None
                  | Some dimensions =>
                      Some {| questionId := questionId;
                              questionText := questionText;
                              req_segments := validSegments;
                              rubric_dimensions := dimensions |}
                  end
              end
          | _ => None
          end
    | _, _ => None
    end.

Definition isReportResponseBody (value : JsonValue) : bool :=
  match isLegacyReportResponseBody value with
  | Some _ => true
  | None => isModernReportResponseBody value
  end.

(** [report] is typed [ReportResponseBody]; it is the value its callers
    have tested with [isReportResponseBody], read as it comes. *)
Definition toModernReportResponse (report : JsonValue) (options : NormalizeOptions)
  : ModernReportResponseBody :=
  match isLegacyReportResponseBody report with
  | Some legacy => fromLegacyReport legacy options
  | None => normalizeModernReport report (normalizeOptions options)
  end.

End WithBuiltins.

End Report.

(** ** [src/lib/coverage.ts] *)

Module Coverage.

Local Open Scope Q_scope.

(** A [number] field of an input that the module itself tests with
    [Number.isFinite]. *)
Inductive JsNumber :=
  | Finite (q : Q)
  | NotFinite.

Record CoverageSegment := {
  cs_id : string;
  cs_start : JsNumber;
  cs_end : JsNumber;
}.

Record CoverageInterval := {
  ci_start : Q;
  ci_end : Q;
  ci_segmentIds : list string;
}.

Definition deriveDurationSeconds (segments : list CoverageSegment)
    (preferredDurationSeconds : option JsNumber) : Q :=
  let maxSegmentEnd :=
    fold_left
      (fun maxValue segment =>
         JsMath.max maxValue
           (match cs_end segment with Finite value => value | NotFinite => 0 end))
      segments 0 in
  let fromSegments := if JsMath.ltb 0 maxSegmentEnd then maxSegmentEnd else 1 in
  match preferredDurationSeconds with
  | Some (Finite preferred) => if JsMath.ltb 0 preferred then preferred else fromSegments
  | _ => fromSegments
  end.

Definition mergeIntervals (intervals : list CoverageInterval) (epsilonSeconds : Q)
  : list CoverageInterval :=
  if (length intervals =? 0)%nat then []
  else
    sweep ci_start ci_end
      (fun previous interval =>
         {| ci_start := ci_start previous;
            ci_end := JsMath.max (ci_end previous) (ci_end interval);
            ci_segmentIds :=
              uniqueInOrder (ci_segmentIds previous ++ ci_segmentIds interval) |})
      epsilonSeconds intervals.

Definition clamp (value min max : Q) : Q :=
  JsMath.min max (JsMath.max min value).

Record CoverageModel := {
  cm_durationSeconds : Q;
  cm_intervals : list CoverageInterval;
  cm_coveragePercent : Q;
  cm_citedSegmentCount : nat;
  cm_totalSegmentCount : nat;
}.

(** [activeDimensionId], [durationSeconds] and [epsilonSeconds] are
    optional; [None] stands for a property that is absent (or, for the
    dimension id, [null]). *)
Record BuildCoverageModelInput := {
  in_segments : list CoverageSegment;
  in_report : ModernReportResponseBody;
  in_activeDimensionId : option string;
  in_durationSeconds : option JsNumber;
  in_epsilonSeconds : option Q;
}.

(** The interval that the loop over the cited segment ids pushes for a
    segment; [None] when its [start] or [end] is not a finite number, since
    the bounds are then computed from [NaN] or an infinity, which the
    numbers of this model do not cover. *)
Definition rawIntervalOf (durationSeconds : Q) (segmentId : string)
    (segment : CoverageSegment) : option CoverageInterval :=
  match cs_start segment, cs_end segment with
  | Finite segmentStart, Finite segmentEnd =>
      let start := clamp segmentStart 0 durationSeconds in
      let end_ := clamp (JsMath.max segmentEnd start) 0 durationSeconds in
      Some {| ci_start := start; ci_end := end_; ci_segmentIds := [segmentId] |}
  | _, _ => None
  end.

(** The insertion order of [citedSegmentIdSet] is the order of first
    citation; [None] is returned only for the reason given at
    [rawIntervalOf]. *)
Definition buildCoverageModel (input : BuildCoverageModelInput) : option CoverageModel :=
  let epsilonSeconds := default 0.05 (in_epsilonSeconds input) in
  let durationSeconds := deriveDurationSeconds (in_segments input) (in_durationSeconds input) in
  let segmentById :=
    mapOfEntries (map (fun segment => (cs_id segment, segment)) (in_segments input)) in
  let totalSegmentCount := length (in_segments input) in
  let dimensions :=
    match in_activeDimensionId input with
    | Some activeDimensionId =>
        if (0 <? String.length activeDimensionId)%nat
        then List.filter (fun dimension => String.eqb (da_id dimension) activeDimensionId)
               (dimensions (in_report input))
        else dimensions (in_report input)
    | None => dimensions (in_report input)
    end in
  let citedSegmentIdSet :=
    uniqueInOrder
      (List.filter (fun segmentId => bool_decide (is_Some (segmentById !! segmentId)))
         (concat (map (fun dimension => map ev_segmentId (da_evidence dimension)) dimensions))) in
  let rawIntervals :=
    fold_left
      (fun (rawIntervals : option (list CoverageInterval)) segmentId =>
         match segmentById !! segmentId with
         | None => rawIntervals
         | Some segment =>
             match rawIntervals, rawIntervalOf durationSeconds segmentId segment with
             | Some pushed, Some interval => Some (pushed ++ [interval])
             | _, _ => None
             end
         end)
      citedSegmentIdSet (Some []) in
  match rawIntervals with
  | None => None
  | Some rawIntervals =>
      let mergedIntervals := mergeIntervals rawIntervals epsilonSeconds in
      let coveredSeconds :=
        fold_left
          (fun sum interval => sum + JsMath.max (ci_end interval - ci_start interval) 0)
          mergedIntervals 0 in
      let coveragePercent := clamp (coveredSeconds / durationSeconds * 100) 0 100 in
      Some {| cm_durationSeconds := durationSeconds;
              cm_intervals := mergedIntervals;
              cm_coveragePercent := coveragePercent;
              cm_citedSegmentCount := length citedSegmentIdSet;
              cm_totalSegmentCount := totalSegmentCount |}
  end.

End Coverage.

(** ** [src/app/review/page.tsx] *)

Module ReviewPage.

(** The check [generateReport] makes on the report it has normalized,
    before it stores it: [true] makes it throw ["Report references missing
    transcript segments."].  [segments] are the segments of the
    transcription, which are also the ones given to the normalizer. *)
Definition hasInvalidEvidence (segments : list ReportInputSegment)
    (normalizedReport : ModernReportResponseBody) : bool :=
  let segmentIds : gset string := list_to_set (map seg_id segments) in
  existsb
    (fun dimension =>
       if (length (da_evidence dimension) =? 0)%nat then negb (da_notObserved dimension)
       else
         existsb (fun entry => negb (bool_decide (ev_segmentId entry ∈ segmentIds)))
           (da_evidence dimension))
    (dimensions normalizedReport).

End ReviewPage.

(** ** [src/app/api/report/route.ts] *)

Module Route.

Section WithBuiltins.

Context `{JsBuiltins}.

(** [JSON.parse]; [None] when it throws. *)
Variable parseJson : string -> option JsonValue.

(** What a [catch] receives: an [Error] with its message, or any other
    value. *)
Inductive Thrown :=
  | ThrownError (message : string)
  | ThrownOther.

(** The reply of the completion endpoint, as far as the handler reads it:
    [ok], [status], and what [text()] and [json()] resolve to or reject
    with. *)
Record UpstreamResponse := {
  up_ok : bool;
  up_status : nat;
  up_text : Thrown + string;
  up_json : Thrown + JsonValue;
}.

(** What the handler takes from outside the request: the environment
    variable [OPENAI_API_KEY] and what [fetch] resolves to or rejects
    with. *)
Record Environment := {
  env_apiKey : option string;
  env_fetch : Thrown + UpstreamResponse;
}.

(** The request, as far as the handler reads it: the query parameter
    [mock] and what [request.json()] resolves to ([None] when it rejects). *)
Record Request := {
  rq_mock : option string;
  rq_json : option JsonValue;
}.

(** [NextResponse.json(body, { status })]. *)
Record Response := {
  rsp_status : nat;
  rsp_body : JsonValue;
}.

Definition errorResponse (error : string) (status : nat) : Response :=
  {| rsp_status := status; rsp_body := JObject [("error", JString error)] |}.

Definition reportResponse (report : ModernReportResponseBody) : Response :=
  {| rsp_status := 200; rsp_body := Report.encodeReport report |}.

(** [typeof value === "object" && value !== null] *)
Definition isObject (value : JsonValue) : bool :=
  match value with
  | JObject _ | JArray _ => true
  | _ => false
  end.

Definition extractCompletionContent (payload : JsonValue) : option string :=
  if negb (isObject payload) then None
  else
    match getField "choices" payload with
    | JArray (choice :: _) =>
        if negb (isObject choice) then None
        else
          let message := getField "message" choice in
          if negb (isObject message) then None
          else
            match getField "content" message with
            | JString content => Some content
            | JArray content =>
                let textParts :=
                  omap (fun part =>
                          if negb (isObject part) then None
                          else
                            match getField "type" part, getField "text" part with
                            | JString type, JString text =>
                                if String.eqb type "text" then Some text else None
                            | _, _ => None
                            end)
                       content in
                let joined := trim (String.concat emptyString textParts) in
                if (0 <? String.length joined)%nat then Some joined else None
            | _ => None
            end
    | _ => None
    end.

(** The schema and the prompt only go into the request that is sent;
    [env_fetch] is what comes back. *)
Definition generateReportWithOpenAI (environment : Environment)
    (requestBody : ReportRequestBody) : Thrown + ModernReportResponseBody :=
  match env_fetch environment with
  | inl thrown => inl thrown
  | inr response =>
      if negb (up_ok response) then
        match up_text response with
        | inl thrown => inl thrown
        | inr errorText =>
            inl (ThrownError
                   ("OpenAI report generation failed (" +:+ decimalOfNat (up_status response)
                    +:+ "): " +:+ String.substring 0 300 errorText))
        end
      else
        match up_json response with
        | inl thrown => inl thrown
        | inr payload =>
            match extractCompletionContent payload with
            | None => inl (ThrownError "OpenAI response did not include JSON content.")
            | Some rawContent =>
                if String.eqb rawContent emptyString
                then inl (ThrownError "OpenAI response did not include JSON content.")
                else
                  match parseJson rawContent with
                  | None =>
                      inl (ThrownError "OpenAI returned invalid JSON for report generation.")
                  | Some parsedContent =>
                      inr (Report.normalizeReportResponse parsedContent requestBody)
                  end
            end
        end
  end.

Definition POST (environment : Environment) (request : Request) : Response :=
  let forceMockMode :=
    match rq_mock request with
    | Some value => String.eqb value "1"
    | None => false
    end in
  match rq_json request with
  | None => errorResponse "Invalid JSON body." 400
  | Some requestBodyUnknown =>
      match Report.isReportRequestBody requestBodyUnknown with
      | None => errorResponse "Invalid request body for /api/report." 400
      | Some requestBody =>
          if (length (req_segments requestBody) =? 0)%nat
          then errorResponse "segments must contain at least one transcript segment." 400
          else if (length (rubric_dimensions requestBody) =? 0)%nat
          then errorResponse "rubric.dimensions must contain at least one dimension." 400
          else
            let hasApiKey :=
              match env_apiKey environment with
              | Some apiKey => negb (String.eqb apiKey emptyString)
              | None => false
              end in
            if forceMockMode || negb hasApiKey
            then reportResponse (Report.createMockReport requestBody)
            else
              match generateReportWithOpenAI environment requestBody with
              | inr report => reportResponse report
              | inl (ThrownError message) => errorResponse message 500
              | inl ThrownOther => errorResponse "Failed to generate report." 500
              end
      end
  end.

End WithBuiltins.

End Route.

(** ** A runtime for evaluating the embedding on concrete inputs

    ASCII white space; decimal literals with an optional sign and fraction
    (no exponent, no radix prefix); [toFixed] by rounding half away from
    zero. *)

Module ReferenceRuntime.

Definition isSpace (c : Ascii.ascii) : bool :=
  let n := Ascii.nat_of_ascii c in
  ((9 <=? n) && (n <=? 13)) || (n =? 32).

Fixpoint dropSpaces (chars : list Ascii.ascii) : list Ascii.ascii :=
  match chars with
  | c :: rest => if isSpace c then dropSpaces rest else chars
  | [] => []
  end.

Definition trimChars (chars : list Ascii.ascii) : list Ascii.ascii :=
  rev (dropSpaces (rev (dropSpaces chars))).

Definition trim (s : string) : string :=
  String.string_of_list_ascii (trimChars (String.list_ascii_of_string s)).

Fixpoint splitChars (current : list Ascii.ascii) (inSeparator : bool)
    (chars : list Ascii.ascii) : list string :=
  match chars with
  | [] => [String.string_of_list_ascii (rev current)]
  | c :: rest =>
      if isSpace c then
        if inSeparator then splitChars current true rest
        else String.string_of_list_ascii (rev current) :: splitChars [] true rest
      else splitChars (c :: current) false rest
  end.

Definition splitWhitespace (s : string) : list string :=
  splitChars [] false (String.list_ascii_of_string s).

Definition digitValue (c : Ascii.ascii) : option Z :=
  let n := Ascii.nat_of_ascii c in
  if (48 <=? n) && (n <=? 57) then Some (Z.of_nat (n - 48)) else None.

Fixpoint readDigits (value : Z) (count : nat) (chars : list Ascii.ascii)
  : Z * nat * list Ascii.ascii :=
  match chars with
  | c :: rest =>
      match digitValue c with
      | Some d => readDigits (10 * value + d) (S count) rest
      | None => (value, count, chars)
      end
  | [] => (value, count, [])
  end.

Definition readUnsigned (chars : list Ascii.ascii) : option Q :=
  let '(whole, wholeDigits, afterWhole) := readDigits 0 0 chars in
  match afterWhole with
  | [] => if (0 <? wholeDigits)%nat then Some (inject_Z whole) else None
  | c :: afterPoint =>
      if (Ascii.nat_of_ascii c =? 46)%nat then
        let '(fraction, fractionDigits, afterFraction) := readDigits 0 0 afterPoint in
        match afterFraction with
        | [] =>
            if (0 <? wholeDigits + fractionDigits)%nat
            then Some (Qred (inject_Z whole + inject_Z fraction / inject_Z (10 ^ Z.of_nat fractionDigits)))
            else None
        | _ => None
        end
      else None
  end.

Definition stringToNumber (s : string) : option Q :=
  match trimChars (String.list_ascii_of_string s) with
  | [] => Some 0%Q
  | c :: rest =>
      if (Ascii.nat_of_ascii c =? 45)%nat then Qopp <$> readUnsigned rest
      else if (Ascii.nat_of_ascii c =? 43)%nat then readUnsigned rest
      else readUnsigned (c :: rest)
  end.

Definition decimalOfZ (n : Z) : string := NilZero.string_of_uint (N.to_uint (Z.to_N n)).

Definition padLeft (width : nat) (digits : string) : string :=
  String.string_of_list_ascii (replicate (width - String.length digits) (Ascii.ascii_of_nat 48))
  +:+ digits.

Definition toFixedUnsigned (digits : nat) (x : Q) : string :=
  let scale := (10 ^ Z.of_nat digits)%Z in
  let n := Qfloor (x * inject_Z scale + 0.5)%Q in
  let whole := decimalOfZ (n / scale) in
  if (digits =? 0)%nat then whole
  else whole +:+ "." +:+ padLeft digits (decimalOfZ (n mod scale)).

Definition toFixed (digits : nat) (x : Q) : string :=
  if Qle_bool 0 x then toFixedUnsigned digits x
  else "-" +:+ toFixedUnsigned digits (- x)%Q.

End ReferenceRuntime.

Definition referenceBuiltins : JsBuiltins := {|
  trim := ReferenceRuntime.trim;
  splitWhitespace := ReferenceRuntime.splitWhitespace;
  stringToNumber := ReferenceRuntime.stringToNumber;
  toFixed := ReferenceRuntime.toFixed;
|}.

(** * Properties *)

(** ** Vocabulary of the statements *)

Section IntervalOrder.

Context {I : Type} (startOf endOf : I -> Q).

(** [b] starts no earlier than [a]. *)
Definition startsInOrder (a b : I) : Prop := (startOf a <= startOf b)%Q.

(** [b] starts no earlier than [a] and more than [epsilonSeconds] after the
    end of [a]: the sweep keeps the two apart. *)
Definition apart (epsilonSeconds : Q) (a b : I) : Prop :=
  (startOf a <= startOf b)%Q /\ (endOf a + epsilonSeconds < startOf b)%Q.

End IntervalOrder.

(** *** Durations *)

(** [Number.isFinite(value) ? value : 0] *)
Definition finiteOrZero (value : Coverage.JsNumber) : Q :=
  match value with Coverage.Finite q => q | Coverage.NotFinite => 0%Q end.

(** *** The calibration algorithm *)

(** The dimension counts in the weighted average: it is not marked
    not-observed and its score is a number. *)
Definition observed (dimension : ReportDimensionAssessment) : bool :=
  negb (da_notObserved dimension) && Report.hasNumberScore dimension.

(** The conditions of the three caps, as [deriveCalibratedRecommendation]
    computes them. *)
Definition hasCoreNotObserved (dimensions : list ReportDimensionAssessment) : bool :=
  existsb
    (fun dimension =>
       bool_decide (da_id dimension ∈ Report.CORE_DIMENSION_KEYS)
       && (da_notObserved dimension || negb (Report.hasNumberScore dimension)))
    dimensions.

Definition scoredAtMostTwo (dimension : ReportDimensionAssessment) : bool :=
  match da_score dimension with
  | Some score => JsMath.leb score 2
  | None => false
  end.

Definition lowScoreCount (dimensions : list ReportDimensionAssessment) : nat :=
  length (List.filter scoredAtMostTwo dimensions).

Definition meanCoverageRatio (dimensions : list ReportDimensionAssessment) : Q :=
  (JsMath.sum (map Report.coverageRatioOf dimensions) / JsMath.ofNat (length dimensions))%Q.

(** The rank a cap allows: the rank of its limit when its condition holds,
    the top rank when it does not. *)
Definition capLimit (applies : bool) (limit : OverallRecommendation) : Z :=
  if applies then Report.recommendationRank limit else Report.recommendationRank StrongHire.

(** The sums that the weighted average divides, and the average. *)
Definition weightedTotals (dimensions : list ReportDimensionAssessment) (init : Q * Q) : Q * Q :=
  fold_left
    (fun accumulator dimension =>
       let weight := Report.weightForDimension (da_id dimension) in
       ((accumulator.1 + weight * default 0 (da_score dimension))%Q,
        (accumulator.2 + weight)%Q))
    dimensions init.

Definition weightedAverage (dimensions : list ReportDimensionAssessment) : Q :=
  let totals := weightedTotals (List.filter observed dimensions) (0, 0)%Q in
  if JsMath.ltb 0 totals.2 then (totals.1 / totals.2)%Q else 0%Q.

(** The dimension with another score, all else fixed. *)
Definition withScore (dimension : ReportDimensionAssessment) (score : option Q)
  : ReportDimensionAssessment :=
  {| da_id := da_id dimension;
     da_label := da_label dimension;
     da_score := score;
     da_notObserved := da_notObserved dimension;
     da_confidence := da_confidence dimension;
     da_anchors := da_anchors dimension;
     da_missingSignals := da_missingSignals dimension;
     da_evidence := da_evidence dimension;
     da_evidenceCoverage := da_evidenceCoverage dimension;
     da_observedSignals := da_observedSignals dimension;
     da_concerns := da_concerns dimension;
     da_counterSignals := da_counterSignals dimension;
     da_observations := da_observations dimension;
     da_anchorAlignment := da_anchorAlignment dimension;
     da_evidenceQuality := da_evidenceQuality dimension;
     da_consistency := da_consistency dimension;
     da_probes := da_probes dimension;
     da_whatWouldChangeScore := da_whatWouldChangeScore dimension |}.

(** The dimension flipped to not-observed: its score becomes [null]. *)
Definition asNotObserved (dimension : ReportDimensionAssessment) : ReportDimensionAssessment :=
  {| da_id := da_id dimension;
     da_label := da_label dimension;
     da_score := None;
     da_notObserved := true;
     da_confidence := da_confidence dimension;
     da_anchors := da_anchors dimension;
     da_missingSignals := da_missingSignals dimension;
     da_evidence := da_evidence dimension;
     da_evidenceCoverage := da_evidenceCoverage dimension;
     da_observedSignals := da_observedSignals dimension;
     da_concerns := da_concerns dimension;
     da_counterSignals := da_counterSignals dimension;
     da_observations := da_observations dimension;
     da_anchorAlignment := da_anchorAlignment dimension;
     da_evidenceQuality := da_evidenceQuality dimension;
     da_consistency := da_consistency dimension;
     da_probes := da_probes dimension;
     da_whatWouldChangeScore := da_whatWouldChangeScore dimension |}.

(** *** The coverage indexes *)

(** [segmentId ∈ coverageMap.byDimension[dimensionId].segmentIds] *)
Definition citedBy (coverage : ReportCoverageMap) (dimensionId segmentId : string) : Prop :=
  exists entry,
    byDimension coverage !! dimensionId = Some entry /\ segmentId ∈ cov_segmentIds entry.

(** [dimensionId ∈ coverageMap.bySegment[segmentId].dimensions] *)
Definition supports (coverage : ReportCoverageMap) (segmentId dimensionId : string) : Prop :=
  exists entry,
    bySegment coverage !! segmentId = Some entry /\ dimensionId ∈ cov_dimensions entry.

(** [bySegment[segmentId].dimensions], empty when there is no entry. *)
Definition dimensionsAt (index : gmap string ReportCoverageBySegmentEntry) (segmentId : string)
  : list string :=
  match index !! segmentId with
  | Some entry => cov_dimensions entry
  | None => []
  end.

(** *** Evidence *)

(** A proportion: a number from 0 to 1. *)
Definition isUnitInterval (value : Q) : Prop := (0 <= value)%Q /\ (value <= 1)%Q.

(** The fixed mapping between the two views of an entry's confidence. *)
Definition derivable (entry : ReportDimensionEvidence) : Prop :=
  ev_strength entry = Report.strengthFromRelevance (ev_relevance entry).

(** The candidate carries a valid [strength] and a numeric [relevance] or
    [confidence] of its own. *)
Definition suppliesBoth `{JsBuiltins} (entry : JsonValue) : Prop :=
  is_Some (Report.toStrength (getField "strength" entry))
  /\ (is_Some (Report.toRelevance (getField "relevance" entry))
      \/ is_Some (Report.toRelevance (getField "confidence" entry))).

(** An entry whose strength follows from its relevance, the relevance being
    a proportion. *)
Definition wellGraded (entry : ReportDimensionEvidence) : Prop :=
  derivable entry /\ isUnitInterval (ev_relevance entry).

(** What the two loops of [normalizeEvidence] maintain: the entries cite
    pairwise distinct segments, all of them recorded in [seenSegmentIds]. *)
Definition distinctlyCited (state : list ReportDimensionEvidence * gset string) : Prop :=
  NoDup (map ev_segmentId state.1)
  /\ (forall entry, entry ∈ state.1 -> ev_segmentId entry ∈ state.2).

(** *** Completeness *)

(** A score is [null] or one of the levels 1 to 5, and it is [null] when the
    dimension is not observed. *)
Definition validScore (notObserved : bool) (score : option Q) : Prop :=
  match score with
  | Some value => notObserved = false /\ exists level : Z, (1 <= level <= 5)%Z /\ value = inject_Z level
  | None => True
  end.

(** The required fields of a Dimension Assessment, populated for a given
    descriptor: the identity of the descriptor, a valid score, an integer
    confidence from 0 to 100, one to four missing signals, at most four
    evidence entries citing distinct segments, and the evidence coverage
    that counts them against the available segments. *)
Definition populatedFor (context : NormalizeContext) (descriptor : ReportDimension)
    (assessment : ReportDimensionAssessment) : Prop :=
  da_id assessment = dim_key descriptor
  /\ da_label assessment = dim_label descriptor
  /\ validScore (da_notObserved assessment) (da_score assessment)
  /\ (exists percent : Z, (0 <= percent <= 100)%Z /\ da_confidence assessment = inject_Z percent)
  /\ (1 <= length (da_missingSignals assessment) <= 4)%nat
  /\ (length (da_evidence assessment) <= 4)%nat
  /\ NoDup (map ev_segmentId (da_evidence assessment))
  /\ da_evidenceCoverage assessment
     = {| citedSegmentCount := length (da_evidence assessment);
          availableSegmentCount := ctx_availableSegmentCount context |}
  /\ isUnitInterval (da_evidenceQuality assessment)
  /\ isUnitInterval (da_consistency assessment).

(** *** Payloads *)

(** The two payloads are objects that agree on every property other than
    [key], or they are the same value. *)
Definition differOnlyIn (key : string) (payload1 payload2 : JsonValue) : Prop :=
  match payload1, payload2 with
  | JObject fields1, JObject fields2 =>
      forall other, other <> key -> assocField other fields1 = assocField other fields2
  | _, _ => payload1 = payload2
  end.

(** ** Concrete inputs *)

(** A panel of two dimensions, one of them a core dimension, over one
    segment. *)
Definition collaborationDescriptor : ReportDimension :=
  {| dim_key := "collaboration"; dim_label := "Collaboration";
     dim_description := "Works well with others." |}.

Definition clarityDescriptor : ReportDimension :=
  {| dim_key := "clarity"; dim_label := "Communication Clarity";
     dim_description := "Explains clearly." |}.

Definition panelRequest : ReportRequestBody :=
  {| questionId := "q1";
     questionText := "Tell me about a project you led.";
     req_segments :=
       [ {| seg_id := "s1"; seg_start := 0; seg_end := 12;
            seg_text := "I led the migration and cut latency by half." |} ];
     rubric_dimensions := [collaborationDescriptor; clarityDescriptor] |}.

(** A candidate that only carries a score. *)
Definition scoredCandidate (score : Q) : JsonValue := JObject [("score", JNumber score)].

(** The assessments [normalizeDimension] returns on the panel for such
    candidates: collaboration scored 1, clarity scored 5, each citing the
    one segment. *)
Definition lowCollaboration : ReportDimensionAssessment :=
  Report.normalizeDimension (H := referenceBuiltins) (scoredCandidate 1)
    collaborationDescriptor 0 (Report.normalizedContextFromRequest panelRequest).

Definition highClarity : ReportDimensionAssessment :=
  Report.normalizeDimension (H := referenceBuiltins) (scoredCandidate 5)
    clarityDescriptor 1 (Report.normalizedContextFromRequest panelRequest).

(** The rubric and the segment of the examples of the specification. *)
Definition oneSegmentRequest : ReportRequestBody :=
  {| questionId := "q1";
     questionText := "Say hello.";
     req_segments := [ {| seg_id := "s1"; seg_start := 0; seg_end := 1; seg_text := "hello" |} ];
     rubric_dimensions :=
       [ {| dim_key := "clarity"; dim_label := "Clarity"; dim_description := "..." |} ] |}.

(** One dimension over two segments. *)
Definition twoSegmentRequest : ReportRequestBody :=
  {| questionId := "q1";
     questionText := "Tell me about a project you led.";
     req_segments :=
       [ {| seg_id := "s1"; seg_start := 0; seg_end := 6;
            seg_text := "I led the migration." |};
         {| seg_id := "s2"; seg_start := 6; seg_end := 12;
            seg_text := "Latency dropped by half." |} ];
     rubric_dimensions := [clarityDescriptor] |}.

(** A rubric that repeats one key three times, over three segments. *)
Definition repeatedKeyRequest : ReportRequestBody :=
  {| questionId := "q1";
     questionText := "Tell me about a project you led.";
     req_segments :=
       [ {| seg_id := "s1"; seg_start := 0; seg_end := 4; seg_text := "first" |};
         {| seg_id := "s2"; seg_start := 4; seg_end := 8; seg_text := "second" |};
         {| seg_id := "s3"; seg_start := 8; seg_end := 12; seg_text := "third" |} ];
     rubric_dimensions := [clarityDescriptor; clarityDescriptor; clarityDescriptor] |}.

(** A payload whose one candidate, for [clarity], cites the first segment. *)
Definition citesFirstSegment : JsonValue :=
  JObject
    [ ("dimensions",
        JArray
          [ JObject
              [ ("id", JString "clarity");
                ("evidence",
                  JArray [ JObject [ ("segmentId", JString "s1");
                                     ("quote", JString "first") ] ]) ] ]) ].

(** A modern-shaped payload with one candidate for [clarity] that carries
    the given evidence entries. *)
Definition clarityPayload (evidence : list JsonValue) : JsonValue :=
  JObject
    [ ("dimensions",
        JArray [ JObject [ ("id", JString "clarity"); ("score", JNumber 4);
                           ("evidence", JArray evidence) ] ]) ].

(** An entry for segment [s1] that says both "weak" and 0.9. *)
Definition weakButRelevant : JsonValue :=
  JObject [ ("segmentId", JString "s1"); ("quote", JString "I led the migration.");
            ("strength", JString "weak"); ("relevance", JNumber 0.9) ].

(** An entry for segment [s1] with a relevance and no strength. *)
Definition relevantOnly : JsonValue :=
  JObject [ ("segmentId", JString "s1"); ("quote", JString "I led the migration.");
            ("relevance", JNumber 0.9) ].

(** An entry for segment [s1] and nothing else. *)
Definition citesS1 : JsonValue :=
  JObject [ ("segmentId", JString "s1"); ("quote", JString "I led the migration.") ].

(** The legacy report of the example of the specification. *)
Definition legacyExample : JsonValue :=
  JObject
    [ ("summary", JString "ok");
      ("items",
        JArray [ JObject [ ("dimensionKey", JString "clarity"); ("score", JNumber 4);
                           ("claim", JString "x"); ("evidence", JArray []) ] ]) ].

(** Two payloads for the panel that only disagree on the recommendation
    they announce. *)
Definition announcing (recommendation : string) : JsonValue :=
  JObject
    [ ("overallRecommendation", JString recommendation);
      ("overallSummary", JString "Solid answer.");
      ("dimensions",
        JArray [ JObject [ ("id", JString "collaboration"); ("score", JNumber 1) ];
                 JObject [ ("id", JString "clarity"); ("score", JNumber 5) ] ]) ].

(** ** Vocabulary of the further properties *)

(** *** Intervals *)

(** The interval [a] lies within [m]: [m] starts no later and ends no
    earlier. *)
Definition within {I : Type} (startOf endOf : I -> Q) (a m : I) : Prop :=
  (startOf m <= startOf a)%Q /\ (endOf a <= endOf m)%Q.

(** A merged interval of the UI coverage model keeps an interval: it spans
    it and lists its segment ids. *)
Definition keeps (a m : Coverage.CoverageInterval) : Prop :=
  within Coverage.ci_start Coverage.ci_end a m
  /\ Coverage.ci_segmentIds a ⊆ Coverage.ci_segmentIds m.

(** *** Evidence strength *)

(** The order of the strengths: weak below medium below strong. *)
Definition strengthRank (strength : ReportEvidenceStrength) : nat :=
  match strength with weak => 0 | medium => 1 | strong => 2 end.

(** *** The fallback picker *)

(** The segment the picker looks at for an offset:
    [segments[(dimensionIndex + offset) % segments.length]]. *)
Definition segmentAtOffset (context : NormalizeContext) (dimensionIndex offset : nat)
  : option ReportInputSegment :=
  ctx_segments context !! ((dimensionIndex + offset) mod length (ctx_segments context))%nat.

(** The entry the back-fill makes of a segment. *)
Definition backfilledEntry `{JsBuiltins} (dimensionLabel : string) (segment : ReportInputSegment)
  : ReportDimensionEvidence :=
  {| ev_segmentId := seg_id segment;
     ev_quote := Report.toMaxWords (seg_text segment) 25;
     ev_interpretation := dimensionLabel +:+ " signal grounded in this quoted segment.";
     ev_strength := medium;
     ev_relevance := 0.64 |}.

(** *** Contexts *)

(** The context looks segments up by id in the index of its own segment
    list, as both context builders make it. *)
Definition indexesItsSegments (context : NormalizeContext) : Prop :=
  segmentById context
  = mapOfEntries (map (fun segment => (seg_id segment, segment)) (ctx_segments context)).

(** The entry cites one of the segments of the list. *)
Definition citesOneOf (segments : list ReportInputSegment) (entry : ReportDimensionEvidence)
  : Prop :=
  ev_segmentId entry ∈ map seg_id segments.

(** *** List sizes *)

(** A list of pairwise distinct strings with at least [low] and at most
    [high] elements. *)
Definition sized (low high : nat) (entries : list string) : Prop :=
  (low <= length entries)%nat /\ (length entries <= high)%nat /\ NoDup entries.

(** An integer level from 1 to 5. *)
Definition isLevel (value : Q) : Prop :=
  exists level : Z, (1 <= level <= 5)%Z /\ value = inject_Z level.

(** The sizes of the lists of a Dimension Assessment, and its anchor
    level. *)
Definition listsSized (assessment : ReportDimensionAssessment) : Prop :=
  sized 1 4 (da_missingSignals assessment)
  /\ sized 2 4 (da_observations assessment)
  /\ sized 2 4 (da_observedSignals assessment)
  /\ sized 1 3 (da_concerns assessment)
  /\ sized 0 3 (da_counterSignals assessment)
  /\ sized 2 3 (da_probes assessment)
  /\ sized 1 3 (whyMeets (da_anchorAlignment assessment))
  /\ sized 1 3 (whyNotHigher (da_anchorAlignment assessment))
  /\ sized 1 3 (up (da_whatWouldChangeScore assessment))
  /\ sized 1 3 (down (da_whatWouldChangeScore assessment))
  /\ isLevel (chosenLevel (da_anchorAlignment assessment)).

(** *** Coverage maps *)

(** A percentage from 0 to 100 with one decimal. *)
Definition percentWithTenths (value : Q) : Prop :=
  exists tenths : Z, (0 <= tenths <= 1000)%Z /\ value = (inject_Z tenths / 10)%Q.

(** The coverage map lists the dimensions and the segments they cite:
    [byDimension] has one entry per dimension id, holding distinct segment
    ids that are [known] and cited by the evidence of a dimension with that
    id, and a percentage; [bySegment] has entries for known segments only,
    each naming at least one dimension id, none twice. *)
Definition wellFormedCoverage (dimensions : list ReportDimensionAssessment)
    (known : string -> Prop) (coverage : ReportCoverageMap) : Prop :=
  (forall k, is_Some (byDimension coverage !! k) <-> k ∈ map da_id dimensions)
  /\ (forall k entry,
        byDimension coverage !! k = Some entry ->
        NoDup (cov_segmentIds entry)
        /\ percentWithTenths (cov_coveragePct entry)
        /\ forall s, s ∈ cov_segmentIds entry ->
             known s
             /\ exists x, x ∈ dimensions /\ da_id x = k
                          /\ s ∈ map ev_segmentId (da_evidence x))
  /\ (forall s entry,
        bySegment coverage !! s = Some entry ->
        known s
        /\ cov_dimensions entry <> []
        /\ NoDup (cov_dimensions entry)
        /\ forall d, d ∈ cov_dimensions entry -> d ∈ map da_id dimensions).

(** *** The UI coverage model *)

(** The segment has a finite [start] and a finite [end]. *)
Definition finiteBounds (segment : Coverage.CoverageSegment) : Prop :=
  (exists value, Coverage.cs_start segment = Coverage.Finite value)
  /\ (exists value, Coverage.cs_end segment = Coverage.Finite value).

(** The dimension counts for the model: there is no active dimension id
    (or an empty one), or it is the id of the dimension. *)
Definition selected (input : Coverage.BuildCoverageModelInput)
    (dimension : ReportDimensionAssessment) : Prop :=
  match Coverage.in_activeDimensionId input with
  | Some activeDimensionId => activeDimensionId = emptyString \/ da_id dimension = activeDimensionId
  | None => True
  end.

(** The id is the id of a segment of the input and is cited by the
    evidence of a selected dimension of the report. *)
Definition citedSegment (input : Coverage.BuildCoverageModelInput) (id : string) : Prop :=
  (exists segment, segment ∈ Coverage.in_segments input /\ Coverage.cs_id segment = id)
  /\ (exists dimension,
        dimension ∈ dimensions (Coverage.in_report input)
        /\ selected input dimension
        /\ id ∈ map ev_segmentId (da_evidence dimension)).

(** The interval lies in the time line from 0 to [durationSeconds] and
    does not end before it starts. *)
Definition onTimeline (durationSeconds : Q) (interval : Coverage.CoverageInterval) : Prop :=
  (0 <= Coverage.ci_start interval)%Q
  /\ (Coverage.ci_start interval <= Coverage.ci_end interval)%Q
  /\ (Coverage.ci_end interval <= durationSeconds)%Q.

(** The summed length of the intervals. *)
Definition totalLength (intervals : list Coverage.CoverageInterval) : Q :=
  fold_right (fun interval sum => (Coverage.ci_end interval - Coverage.ci_start interval + sum)%Q)
    0%Q intervals.

(** *** The report route *)

(** The string has something besides white space: [isNonEmptyString]
    accepts it. *)
Definition notBlank `{JsBuiltins} (s : string) : Prop := trim s <> emptyString.

(** What [isModernDimensionAssessment] asks of a typed assessment: an id
    and a label that are not blank, a score from 1 to 5 if there is one,
    and evidence entries whose segment id is not blank. *)
Definition wellFormedDimension `{JsBuiltins} (dimension : ReportDimensionAssessment) : Prop :=
  notBlank (da_id dimension)
  /\ notBlank (da_label dimension)
  /\ (forall score, da_score dimension = Some score -> (1 <= score)%Q /\ (score <= 5)%Q)
  /\ Forall (fun entry => notBlank (ev_segmentId entry)) (da_evidence dimension).

(** What [isReportRequestBody] has checked of the request it accepts. *)
Definition wellFormedRequest `{JsBuiltins} (requestBody : ReportRequestBody) : Prop :=
  notBlank (questionId requestBody)
  /\ notBlank (questionText requestBody)
  /\ Forall (fun segment => notBlank (seg_id segment)) (req_segments requestBody)
  /\ Forall
       (fun descriptor =>
          notBlank (dim_key descriptor) /\ notBlank (dim_label descriptor)
          /\ notBlank (dim_description descriptor))
       (rubric_dimensions requestBody).

(** The request carries a well-formed body with at least one segment and
    one rubric dimension: the handler goes on to make a report for
    [requestBody]. *)
Definition servedRequest `{JsBuiltins} (request : Route.Request)
    (requestBody : ReportRequestBody) : Prop :=
  exists body,
    Route.rq_json request = Some body
    /\ Report.isReportRequestBody body = Some requestBody
    /\ req_segments requestBody <> []
    /\ rubric_dimensions requestBody <> [].

(** Mock mode: the query parameter [mock] is ["1"], or there is no API key
    (or an empty one). *)
Definition mockMode (environment : Route.Environment) (request : Route.Request) : Prop :=
  Route.rq_mock request = Some "1"
  \/ Route.env_apiKey environment = None
  \/ Route.env_apiKey environment = Some emptyString.

(** The dimensions of the report are those of the rubric, in order, and
    the evidence is linked to the segments: every entry cites one of them,
    and a dimension that is not marked not-observed has an entry. *)
Definition answersRequest (requestBody : ReportRequestBody)
    (report : ModernReportResponseBody) : Prop :=
  map da_id (dimensions report) = map dim_key (rubric_dimensions requestBody)
  /\ Forall
       (fun dimension =>
          (da_notObserved dimension = false -> da_evidence dimension <> [])
          /\ Forall (citesOneOf (req_segments requestBody)) (da_evidence dimension))
       (dimensions report).

(** *** Legacy reports *)

(** The item of a legacy report that counts for a dimension key: the last
    one with that key, as in [new Map] of the items by key. *)
Definition legacyItemFor (report : Report.LegacyReportResponseBody) (key : string)
  : option Report.ReportItem :=
  last (List.filter (fun item => bool_decide (Report.dimensionKey item = key))
          (Report.items report)).

(** What [normalizeDimension] makes of [notObserved] and [score] of a
    candidate. *)
Definition readScore `{JsBuiltins} (candidate : JsonValue) : bool * option Q :=
  let notObserved :=
    match getField "notObserved" candidate with
    | JBool rawNotObserved => rawNotObserved
    | _ => false
    end in
  (notObserved,
   match Report.toFiniteNumber (getField "score" candidate) with
   | Some rawScore =>
       if notObserved then None else Some (Report.clamp (JsMath.round rawScore) 1 5)
   | None => None
   end).

(** The dimension carries the score of the legacy item for its key, rounded
    and clamped to 1..5, or is marked not observed when there is no item. *)
Definition carriesLegacyScore (report : Report.LegacyReportResponseBody) (key : string)
    (reading : bool * option Q) : Prop :=
  match legacyItemFor report key with
  | Some item =>
      reading = (false, Some (Report.clamp (JsMath.round (Report.item_score item)) 1 5))
  | None => reading = (true, None)
  end.

(** The rubric key is written without surrounding white space and is not
    empty, so that candidates are found under it. *)
Definition plainKey `{JsBuiltins} (descriptor : ReportDimension) : Prop :=
  trim (dim_key descriptor) = dim_key descriptor /\ dim_key descriptor <> emptyString.

(** The dimension is the one of the descriptor and carries the legacy score
    for its key. *)
Definition convertedFrom (report : Report.LegacyReportResponseBody)
    (descriptor : ReportDimension) (dimension : ReportDimensionAssessment) : Prop :=
  da_id dimension = dim_key descriptor
  /\ carriesLegacyScore report (dim_key descriptor)
       (da_notObserved dimension, da_score dimension).

(** *** A payload that is not an object *)

(** What a dimension says of its rubric dimension: the id, whether it was
    observed, and the score. *)
Definition scoreLine (dimension : ReportDimensionAssessment) : string * bool * option Q :=
  (da_id dimension, da_notObserved dimension, da_score dimension).

(** *** Candidate evidence *)

(** The segment id under which [normalizeEvidence] takes a candidate entry,
    if the entry can be taken at all: it is an object, its [segmentId]
    trims to a string that is not empty, and the segment is known when the
    context validates segments. *)
Definition candidateSegmentId `{JsBuiltins} (context : NormalizeContext) (entry : JsonValue)
  : option string :=
  if negb (Report.isRecord entry) then None
  else
    let id := Report.toNormalizedString (getField "segmentId" entry) emptyString in
    if String.eqb id emptyString then None
    else if enforceSegmentValidation context
            && negb (bool_decide (is_Some (segmentById context !! id)))
    then None
    else Some id.

(** The segments the candidate evidence cites, each once, in the order of
    their first citation. *)
Definition citedInOrder `{JsBuiltins} (context : NormalizeContext) (rawValue : JsonValue)
  : list string :=
  uniqueInOrder (omap (candidateSegmentId context) (arrayItems rawValue)).

(** *** Inputs of the further properties *)

(** A model input: the two segments of [twoSegmentRequest] and the mock
    report made for them, with the defaults for everything optional. *)
Definition sampleCoverageInput : Coverage.BuildCoverageModelInput :=
  {| Coverage.in_segments :=
       [ {| Coverage.cs_id := "s1"; Coverage.cs_start := Coverage.Finite 0;
            Coverage.cs_end := Coverage.Finite 6 |};
         {| Coverage.cs_id := "s2"; Coverage.cs_start := Coverage.Finite 6;
            Coverage.cs_end := Coverage.Finite 12 |} ];
     Coverage.in_report := Report.createMockReport (H := referenceBuiltins) twoSegmentRequest;
     Coverage.in_activeDimensionId := None;
     Coverage.in_durationSeconds := None;
     Coverage.in_epsilonSeconds := None |}.

(** A request for two segments and two rubric dimensions, sent with
    [mock=1] to a server that has no API key. *)
Definition sampleRequestJson : JsonValue :=
  JObject
    [ ("questionId", JString "1");
      ("questionText", JString "Tell me about a project you led.");
      ("segments",
        JArray
          [ JObject [ ("id", JString "seg-1"); ("start", JNumber 0); ("end", JNumber 4);
                      ("text", JString "I led the migration of our billing service.") ];
            JObject [ ("id", JString "seg-2"); ("start", JNumber 4); ("end", JNumber 9);
                      ("text", JString "We cut the error rate by half in two months.") ] ]);
      ("rubric",
        JObject
          [ ("dimensions",
              JArray
                [ JObject [ ("key", JString "clarity"); ("label", JString "Communication Clarity");
                            ("description", JString "How clearly the candidate explains.") ];
                  JObject [ ("key", JString "ownership"); ("label", JString "Ownership");
                            ("description", JString "How the candidate takes charge.") ] ]) ]) ].

Definition mockRequest : Route.Request :=
  {| Route.rq_mock := Some "1"; Route.rq_json := Some sampleRequestJson |}.

Definition offlineEnvironment : Route.Environment :=
  {| Route.env_apiKey := None; Route.env_fetch := inl Route.ThrownOther |}.

(** [legacyExample] at the type [isLegacyReportResponseBody] narrows it
    to. *)
Definition legacyExampleReport : Report.LegacyReportResponseBody :=
  {| Report.summary := "ok";
     Report.items :=
       [ {| Report.dimensionKey := "clarity"; Report.item_score := 4; Report.claim := "x";
            Report.item_evidence := [] |} ] |}.

(** ** Numbers *)

Lemma max_cases (a b : Q) : JsMath.max a b = a \/ JsMath.max a b = b.
Proof.
  unfold JsMath.max, Qmax, GenericMinMax.gmax. destruct (a ?= b)%Q; auto.
Qed.

Lemma ltb_lt (a b : Q) : JsMath.ltb a b = true <-> (a < b)%Q.
Proof.
  unfold JsMath.ltb. rewrite negb_true_iff. split.
  - intros Hf. apply Qnot_le_lt. intros Hle. apply Qle_bool_iff in Hle. congruence.
  - intros Hlt. destruct (Qle_bool b a) eqn:Hle; [|reflexivity].
    apply Qle_bool_iff in Hle. exfalso. eapply Qlt_not_le; eassumption.
Qed.

Lemma ltb_ge (a b : Q) : JsMath.ltb a b = false <-> (b <= a)%Q.
Proof.
  unfold JsMath.ltb. rewrite negb_false_iff. apply Qle_bool_iff.
Qed.

Lemma leb_le (a b : Q) : JsMath.leb a b = true <-> (a <= b)%Q.
Proof. apply Qle_bool_iff. Qed.

Lemma leb_gt (a b : Q) : JsMath.leb a b = false <-> (b < a)%Q.
Proof.
  unfold JsMath.leb. split.
  - intros Hf. apply Qnot_le_lt. intros Hle. apply Qle_bool_iff in Hle. congruence.
  - intros Hlt. destruct (Qle_bool a b) eqn:Hle; [|reflexivity].
    apply Qle_bool_iff in Hle. exfalso. eapply Qlt_not_le; eassumption.
Qed.

Lemma min_cases (a b : Q) : JsMath.min a b = a \/ JsMath.min a b = b.
Proof.
  unfold JsMath.min, Qmin, GenericMinMax.gmin. destruct (a ?= b)%Q; auto.
Qed.

Lemma clamp_bounds value low high :
  (low <= high)%Q -> (low <= Report.clamp value low high)%Q /\ (Report.clamp value low high <= high)%Q.
Proof.
  intros Hle. unfold Report.clamp, JsMath.min, JsMath.max. split.
  - apply Q.min_glb; [exact Hle|apply Q.le_max_l].
  - apply Q.le_min_l.
Qed.

Lemma clamp_cases value low high :
  Report.clamp value low high = low \/ Report.clamp value low high = high
  \/ Report.clamp value low high = value.
Proof.
  unfold Report.clamp.
  destruct (min_cases high (JsMath.max low value)) as [->| ->]; [auto|].
  destruct (max_cases low value) as [->| ->]; auto.
Qed.

Lemma clamp_level (k low high : Z) :
  (low <= high)%Z ->
  exists level : Z,
    (low <= level <= high)%Z
    /\ Report.clamp (inject_Z k) (inject_Z low) (inject_Z high) = inject_Z level.
Proof.
  intros Hle.
  destruct (clamp_bounds (inject_Z k) (inject_Z low) (inject_Z high)) as [Hlow Hhigh];
    [by rewrite <- Zle_Qle|].
  destruct (clamp_cases (inject_Z k) (inject_Z low) (inject_Z high)) as [Heq|[Heq|Heq]];
    rewrite Heq in *.
  - exists low. split; [lia|reflexivity].
  - exists high. split; [lia|reflexivity].
  - exists k. split; [|reflexivity]. rewrite <- Zle_Qle in Hlow, Hhigh. lia.
Qed.

Lemma round_percent value :
  (0 <= value)%Q -> (value <= 100)%Q ->
  exists percent : Z, (0 <= percent <= 100)%Z /\ JsMath.round value = inject_Z percent.
Proof.
  intros Hlow Hhigh. exists (Qfloor (value + 0.5)). split; [|reflexivity]. split.
  - change 0%Z with (Qfloor (0 + 0.5)). apply Qfloor_resp_le. by apply Qplus_le_l.
  - change 100%Z with (Qfloor (100 + 0.5)). apply Qfloor_resp_le. by apply Qplus_le_l.
Qed.

Lemma leb_proper (threshold r r' : Q) :
  (r == r')%Q -> JsMath.leb threshold r = JsMath.leb threshold r'.
Proof.
  intros Heq.
  destruct (JsMath.leb threshold r) eqn:Hr, (JsMath.leb threshold r') eqn:Hr';
    try reflexivity; exfalso.
  - apply leb_le in Hr. apply leb_gt in Hr'. rewrite Heq in Hr.
    eapply Qlt_not_le; eassumption.
  - apply leb_gt in Hr. apply leb_le in Hr'. rewrite Heq in Hr.
    eapply Qlt_not_le; eassumption.
Qed.

(** ** The interval sweep *)

Section IntervalSweepFacts.

Context {I : Type} (startOf endOf : I -> Q) (absorb : I -> I -> I).
Hypothesis absorb_start : forall last interval, startOf (absorb last interval) = startOf last.

Local Abbreviation inOrder := (startsInOrder startOf).
Local Abbreviation insertI := (insertByStart startOf).
Local Abbreviation sortI := (sortByStart startOf).
Local Abbreviation stepI := (sweepStep startOf endOf absorb).

Lemma insertByStart_Forall (P : I -> Prop) x l :
  P x -> Forall P l -> Forall P (insertI x l).
Proof.
  intros Hx Hl. induction Hl as [|y l Hy Hl IH]; simpl.
  - by constructor.
  - destruct (Qle_bool (startOf x) (startOf y)); repeat constructor; assumption.
Qed.

Lemma insertByStart_sorted x l :
  StronglySorted inOrder l -> StronglySorted inOrder (insertI x l).
Proof.
  induction 1 as [|y l Hl IH Hy]; simpl.
  - repeat constructor.
  - destruct (Qle_bool (startOf x) (startOf y)) eqn:Hxy.
    + apply Qle_bool_iff in Hxy. constructor; [by constructor|].
      constructor; [exact Hxy|].
      eapply Forall_impl; [exact Hy|]. intros z Hz. unfold startsInOrder in *.
      eapply Qle_trans; eassumption.
    + constructor; [exact IH|]. apply insertByStart_Forall; [|exact Hy].
      unfold startsInOrder. apply Qlt_le_weak, Qnot_le_lt. intros Hle.
      apply Qle_bool_iff in Hle. congruence.
Qed.

Lemma sortByStart_sorted l : StronglySorted inOrder (sortI l).
Proof.
  induction l as [|x l IH]; simpl; [constructor|]. by apply insertByStart_sorted.
Qed.

(** A list already in order of [start] is left as it is: the sort is stable. *)
Lemma sortByStart_fixed l : Sorted inOrder l -> sortI l = l.
Proof.
  induction 1 as [|x l Hl IH Hx]; [reflexivity|].
  change (sortI (x :: l)) with (insertI x (sortI l)). rewrite IH.
  destruct Hx as [|y l' Hxy]; simpl; [reflexivity|].
  apply Qle_bool_iff in Hxy. by rewrite Hxy.
Qed.

Lemma sweep_keeps_apart eps l : forall merged,
  Sorted (flip (apart startOf endOf eps)) merged ->
  StronglySorted inOrder l ->
  (forall last, head merged = Some last -> Forall (inOrder last) l) ->
  Sorted (flip (apart startOf endOf eps)) (fold_left (stepI eps) l merged).
Proof.
  induction l as [|x l IH]; intros merged Hm Hl Hhd; simpl; [exact Hm|].
  apply StronglySorted_inv in Hl as [Hl Hx].
  destruct merged as [|last before]; simpl.
  - apply IH; [repeat constructor|exact Hl|].
    intros ? [= <-]. exact Hx.
  - specialize (Hhd last eq_refl). apply Forall_cons in Hhd as [Hlx Hll].
    destruct (Qle_bool (startOf x) (endOf last + eps)) eqn:Hc.
    + apply IH; [|exact Hl|].
      * apply Sorted_inv in Hm as [Hb Hh]. constructor; [exact Hb|].
        destruct Hh as [|y before' Hy]; constructor.
        unfold flip, apart in *. by rewrite absorb_start.
      * intros ? [= <-]. eapply Forall_impl; [exact Hll|].
        intros z Hz. unfold startsInOrder in *. by rewrite absorb_start.
    + apply IH; [|exact Hl|].
      * constructor; [exact Hm|]. constructor. split; [exact Hlx|].
        apply Qnot_le_lt. intros Hle. apply Qle_bool_iff in Hle. congruence.
      * intros ? [= <-]. exact Hx.
Qed.

Lemma Sorted_snoc_last (R : relation I) l x :
  Sorted R l -> (forall y, last l = Some y -> R y x) -> Sorted R (l ++ [x]).
Proof.
  induction 1 as [|y l Hl IH Hy]; intros Hlast; simpl.
  - repeat constructor.
  - constructor.
    + apply IH. intros z Hz. apply Hlast. destruct l; [discriminate|exact Hz].
    + destruct Hy as [|z l' Hyz]; simpl; constructor; [|exact Hyz].
      by apply Hlast.
Qed.

Lemma Sorted_flip_rev (R : relation I) merged :
  Sorted (flip R) merged -> Sorted R (rev merged).
Proof.
  induction 1 as [|x merged Hm IH Hx]; simpl; [constructor|].
  apply Sorted_snoc_last; [exact IH|].
  intros y Hy. destruct Hx as [|z merged' Hz]; simpl in Hy.
  - discriminate.
  - rewrite last_snoc in Hy. by injection Hy as <-.
Qed.

Lemma Sorted_weaken (R S : relation I) l :
  (forall a b, R a b -> S a b) -> Sorted R l -> Sorted S l.
Proof.
  intros HRS. induction 1 as [|x l Hl IH Hx]; constructor; [exact IH|].
  destruct Hx; constructor. by apply HRS.
Qed.

Lemma Sorted_middle (R : relation I) p a b s : Sorted R (p ++ a :: b :: s) -> R a b.
Proof.
  induction p as [|x p IH]; simpl; intros Hs.
  - apply Sorted_inv in Hs as [_ Hh]. by inversion Hh.
  - apply Sorted_inv in Hs as [Hs _]. by apply IH.
Qed.

(** On intervals that are already apart the sweep merges nothing. *)
Lemma sweep_fixed eps l : forall merged,
  Sorted (apart startOf endOf eps) (rev merged ++ l) ->
  fold_left (stepI eps) l merged = rev l ++ merged.
Proof.
  induction l as [|x l IH]; intros merged Hs; simpl; [reflexivity|].
  assert (Hstep : stepI eps merged x = x :: merged).
  { destruct merged as [|last before]; simpl; [reflexivity|].
    simpl in Hs. rewrite <- app_assoc in Hs. simpl in Hs.
    apply Sorted_middle in Hs as [_ Hlt].
    destruct (Qle_bool (startOf x) (endOf last + eps)) eqn:Hc; [|reflexivity].
    apply Qle_bool_iff in Hc. exfalso. eapply Qlt_not_le; eassumption. }
  rewrite Hstep, IH.
  - by rewrite <- app_assoc.
  - simpl. by rewrite <- app_assoc.
Qed.

Lemma sweep_apart eps l : Sorted (apart startOf endOf eps) (sweep startOf endOf absorb eps l).
Proof.
  unfold sweep. apply Sorted_flip_rev, sweep_keeps_apart.
  - constructor.
  - apply sortByStart_sorted.
  - intros ? [=].
Qed.

Lemma sweep_idempotent eps l :
  sweep startOf endOf absorb eps (sweep startOf endOf absorb eps l)
  = sweep startOf endOf absorb eps l.
Proof.
  pose proof (sweep_apart eps l) as Hout.
  set (out := sweep startOf endOf absorb eps l) in *.
  unfold sweep at 1. rewrite sortByStart_fixed.
  - rewrite sweep_fixed by exact Hout. rewrite app_nil_r. apply rev_involutive.
  - eapply Sorted_weaken; [|exact Hout]. intros a b [Hab _]. exact Hab.
Qed.

End IntervalSweepFacts.

(** ** Idempotence of [mergeIntervals] *)

Lemma report_mergeIntervals_sweep intervals eps :
  Report.mergeIntervals intervals eps
  = sweep Report.iv_start Report.iv_end
      (fun last interval =>
         {| Report.iv_start := Report.iv_start last;
            Report.iv_end := JsMath.max (Report.iv_end last) (Report.iv_end interval) |})
      eps intervals.
Proof. by destruct intervals. Qed.

Lemma coverage_mergeIntervals_sweep intervals eps :
  Coverage.mergeIntervals intervals eps
  = sweep Coverage.ci_start Coverage.ci_end
      (fun previous interval =>
         {| Coverage.ci_start := Coverage.ci_start previous;
            Coverage.ci_end :=
              JsMath.max (Coverage.ci_end previous) (Coverage.ci_end interval);
            Coverage.ci_segmentIds :=
              uniqueInOrder
                (Coverage.ci_segmentIds previous ++ Coverage.ci_segmentIds interval) |})
      eps intervals.
Proof. by destruct intervals. Qed.

(** The example of the specification: two intervals 0.02 s apart merge
    under the default tolerance. *)
Example mergeIntervals_example :
  Report.mergeIntervals
    [ {| Report.iv_start := 0; Report.iv_end := 1 |};
      {| Report.iv_start := 1.02; Report.iv_end := 2 |} ] 0.05
  = [ {| Report.iv_start := 0; Report.iv_end := 2 |} ].
Proof. reflexivity. Qed.

(** The output of either copy is in order of [start], and each interval
    starts more than the tolerance after the end of the one before it. *)
Lemma mergeIntervals_apart intervals eps :
  Sorted (apart Report.iv_start Report.iv_end eps) (Report.mergeIntervals intervals eps).
Proof. rewrite report_mergeIntervals_sweep. by apply sweep_apart. Qed.

(** C5. [mergeIntervals] is idempotent, for every interval list and every
    tolerance, in both copies of the algorithm: the one of the Scorecard
    builder ([report.ts]) and the one of the UI coverage model
    ([coverage.ts]).  Merging the output of a merge returns that output. *)
Theorem mergeIntervals_idempotent :
  (forall (X : list Report.TimeInterval) (epsilon : Q),
     Report.mergeIntervals (Report.mergeIntervals X epsilon) epsilon
     = Report.mergeIntervals X epsilon)
  /\ (forall (X : list Coverage.CoverageInterval) (epsilon : Q),
        Coverage.mergeIntervals (Coverage.mergeIntervals X epsilon) epsilon
        = Coverage.mergeIntervals X epsilon).
Proof.
  split; intros X epsilon.
  - rewrite !report_mergeIntervals_sweep. by apply sweep_idempotent.
  - rewrite !coverage_mergeIntervals_sweep. by apply sweep_idempotent.
Qed.

(** ** The duration basis of the coverage percentages *)

Section MaxEnd.

Context {S : Type} (endOf : S -> Q).

Local Abbreviation maxFrom segments init :=
  (fold_left (fun maxValue segment => JsMath.max maxValue (endOf segment)) segments init).

Lemma maxFrom_lower segments : forall init, (init <= maxFrom segments init)%Q.
Proof.
  induction segments as [|s segments IH]; intros init; simpl; [apply Qle_refl|].
  eapply Qle_trans; [|apply IH]. apply Q.le_max_l.
Qed.

Lemma maxFrom_upper segments : forall init s,
  s ∈ segments -> (endOf s <= maxFrom segments init)%Q.
Proof.
  induction segments as [|s' segments IH]; intros init s Hs; [by apply elem_of_nil in Hs|].
  apply elem_of_cons in Hs as [->|Hs]; simpl.
  - eapply Qle_trans; [|apply maxFrom_lower]. apply Q.le_max_r.
  - by apply IH.
Qed.

Lemma maxFrom_attained segments : forall init,
  maxFrom segments init = init \/ exists s, s ∈ segments /\ maxFrom segments init = endOf s.
Proof.
  induction segments as [|s segments IH]; intros init; simpl; [by left|].
  destruct (IH (JsMath.max init (endOf s))) as [Heq|(s' & Hs' & Heq)].
  - rewrite Heq. destruct (max_cases init (endOf s)) as [->| ->]; [by left|].
    right. exists s. split; [apply list_elem_of_here|reflexivity].
  - right. exists s'. split; [by apply list_elem_of_further|exact Heq].
Qed.

Lemma maxFrom_positive_or_default segments :
  let duration :=
    if JsMath.ltb 0 (maxFrom segments 0%Q) then maxFrom segments 0%Q else 1%Q in
  (0 < duration)%Q
  /\ (forall s, s ∈ segments -> (endOf s <= duration)%Q)
  /\ ((exists s, s ∈ segments /\ (0 < endOf s)%Q /\ duration = endOf s)
      \/ ((forall s, s ∈ segments -> (endOf s <= 0)%Q) /\ duration = 1%Q)).
Proof.
  pose proof (maxFrom_upper segments 0%Q) as Hupper.
  pose proof (maxFrom_attained segments 0%Q) as Hatt.
  simpl in *. destruct (negb (Qle_bool (maxFrom segments 0%Q) 0)) eqn:Hpos.
  - assert (Hlt : (0 < maxFrom segments 0%Q)%Q).
    { apply Qnot_le_lt. intros Hle. apply Qle_bool_iff in Hle.
      simpl in Hle. rewrite Hle in Hpos. discriminate. }
    unfold JsMath.ltb. simpl. rewrite Hpos.
    split; [exact Hlt|]. split; [exact Hupper|]. left.
    destruct Hatt as [Heq|(s & Hs & Heq)].
    + simpl in Heq. rewrite Heq in Hlt. by apply Qlt_irrefl in Hlt.
    + exists s. simpl in Heq. rewrite <- Heq. auto.
  - assert (Hle : (maxFrom segments 0%Q <= 0)%Q).
    { apply Qle_bool_iff. by apply negb_false_iff in Hpos. }
    unfold JsMath.ltb. simpl. rewrite Hpos.
    split; [reflexivity|]. split.
    + intros s Hs. eapply Qle_trans; [by apply Hupper|].
      eapply Qle_trans; [exact Hle|]. discriminate.
    + right. split; [|reflexivity]. intros s Hs.
      eapply Qle_trans; [by apply Hupper|exact Hle].
Qed.

End MaxEnd.

(** The duration of the Scorecard builder is the largest segment end when
    that is positive, and 1 otherwise. *)
Lemma report_duration_spec (segments : list ReportInputSegment) :
  let duration := Report.deriveDurationSeconds segments in
  (0 < duration)%Q
  /\ (forall segment, segment ∈ segments -> (seg_end segment <= duration)%Q)
  /\ ((exists segment, segment ∈ segments /\ (0 < seg_end segment)%Q
                       /\ duration = seg_end segment)
      \/ ((forall segment, segment ∈ segments -> (seg_end segment <= 0)%Q) /\ duration = 1%Q)).
Proof. apply (maxFrom_positive_or_default seg_end segments). Qed.

(** The same for the UI copy, which first takes a caller-supplied duration
    that is a finite positive number, and counts a non-finite end as 0. *)
Lemma coverage_duration_spec (segments : list Coverage.CoverageSegment)
    (preferred : option Coverage.JsNumber) :
  let endOf segment := finiteOrZero (Coverage.cs_end segment) in
  let duration := Coverage.deriveDurationSeconds segments preferred in
  (0 < duration)%Q
  /\ ((exists value, preferred = Some (Coverage.Finite value) /\ (0 < value)%Q
                     /\ duration = value)
      \/ (exists segment, segment ∈ segments /\ (0 < endOf segment)%Q
                          /\ duration = endOf segment)
      \/ ((forall segment, segment ∈ segments -> (endOf segment <= 0)%Q) /\ duration = 1%Q)).
Proof.
  intros endOf.
  destruct (maxFrom_positive_or_default endOf segments) as (Hpos & _ & Hcases).
  unfold Coverage.deriveDurationSeconds.
  destruct preferred as [[value|]|]; try (split; [exact Hpos|by right]).
  destruct (JsMath.ltb 0 value) eqn:Hvalue; [|split; [exact Hpos|by right]].
  apply ltb_lt in Hvalue. split; [exact Hvalue|]. left. eauto.
Qed.



(** ** The calibration algorithm *)

Section Calibration.

Context `{JsBuiltins}.

Lemma rank_bounds value :
  (0 <= Report.recommendationRank value <= Report.recommendationRank StrongHire)%Z.
Proof. destruct value; simpl; lia. Qed.

Lemma capRecommendation_min value maxAllowed :
  Report.recommendationRank (Report.capRecommendation value maxAllowed)
  = Z.min (Report.recommendationRank value) (Report.recommendationRank maxAllowed).
Proof.
  unfold Report.capRecommendation.
  destruct (Report.recommendationRank value <=? Report.recommendationRank maxAllowed)%Z eqn:Hle.
  - apply Z.leb_le in Hle. lia.
  - apply Z.leb_gt in Hle. lia.
Qed.

Lemma observed_filter_nonempty dimensions :
  (exists dimension, dimension ∈ dimensions /\ observed dimension = true) ->
  (length (List.filter
             (fun dimension => negb (da_notObserved dimension) && Report.hasNumberScore dimension)
             dimensions) =? 0)%nat = false.
Proof.
  intros (d & Hd & Hobs). apply Nat.eqb_neq. intros Hlen.
  apply length_zero_iff_nil in Hlen.
  assert (Hin : In d (List.filter
             (fun dimension => negb (da_notObserved dimension) && Report.hasNumberScore dimension)
             dimensions)).
  { apply filter_In. split; [by apply list_elem_of_In|exact Hobs]. }
  rewrite Hlen in Hin. destruct Hin.
Qed.

Lemma calibration_weightedScore dimensions :
  (exists dimension, dimension ∈ dimensions /\ observed dimension = true) ->
  Report.cal_weightedScore (Report.deriveCalibratedRecommendation dimensions)
  = weightedAverage dimensions.
Proof.
  intros Hobs. pose proof (observed_filter_nonempty _ Hobs) as Hne.
  unfold Report.deriveCalibratedRecommendation. rewrite Hne.
  destruct (existsb _ dimensions), (JsMath.ltb (if (0 <? length dimensions)%nat then _ else _) _),
    (2 <=? length _)%nat; reflexivity.
Qed.

Lemma calibration_caps dimensions :
  (exists dimension, dimension ∈ dimensions /\ observed dimension = true) ->
  let calibration := Report.deriveCalibratedRecommendation dimensions in
  let base := Report.baseRecommendationFromWeightedScore (Report.cal_weightedScore calibration) in
  Report.cal_coverageRatio calibration = meanCoverageRatio dimensions
  /\ Report.recommendationRank (Report.cal_recommendation calibration)
     = Z.min (Report.recommendationRank base)
         (Z.min (capLimit (hasCoreNotObserved dimensions) LeanHire)
            (Z.min (capLimit (JsMath.ltb (meanCoverageRatio dimensions) 0.35) LeanHire)
               (capLimit (2 <=? lowScoreCount dimensions)%nat LeanNo))).
Proof.
  intros Hobs. pose proof (observed_filter_nonempty _ Hobs) as Hne.
  assert (Hlen : (0 <? length dimensions)%nat = true).
  { destruct Hobs as (d & Hd & _). destruct dimensions; [by apply elem_of_nil in Hd|done]. }
  unfold Report.deriveCalibratedRecommendation. rewrite Hne, Hlen.
  fold (hasCoreNotObserved dimensions). fold (meanCoverageRatio dimensions).
  fold scoredAtMostTwo. fold (lowScoreCount dimensions).
  destruct (hasCoreNotObserved dimensions),
    (JsMath.ltb (meanCoverageRatio dimensions) 0.35),
    (2 <=? lowScoreCount dimensions)%nat;
    cbn [fst snd Report.cal_recommendation Report.cal_coverageRatio Report.cal_weightedScore];
    (split; [reflexivity|]); rewrite ?capRecommendation_min; unfold capLimit;
    set (base := Report.baseRecommendationFromWeightedScore _);
    pose proof (rank_bounds base) as Hbase;
    change (Report.recommendationRank LeanHire) with 2%Z;
    change (Report.recommendationRank LeanNo) with 1%Z;
    change (Report.recommendationRank StrongHire) with 4%Z in *; lia.
Qed.

End Calibration.

(** C3. When at least one dimension is observed, each cap of
    [deriveCalibratedRecommendation] replaces the recommendation by the
    lower, by rank, of its current value and the cap limit
    ([capRecommendation] is the minimum by rank); the caps are: a core-key
    dimension not observed (limit LeanHire), a mean evidence-coverage ratio
    over all dimensions below 0.35 (limit LeanHire), at least two dimensions
    scored at most 2 (limit LeanNo).  They compose to the lowest rank among
    the base recommendation of the weighted score and the limits of the caps
    that apply, so the result never ranks above the base recommendation.
    The weighted score is the weight-averaged score of the observed
    dimensions, the coverage ratio the mean over all dimensions. *)
Theorem calibration_never_above_base `{JsBuiltins}
    (dimensions : list ReportDimensionAssessment) :
  (exists dimension, dimension ∈ dimensions /\ observed dimension = true) ->
  let calibration := Report.deriveCalibratedRecommendation dimensions in
  let base := Report.baseRecommendationFromWeightedScore (Report.cal_weightedScore calibration) in
  (forall value maxAllowed,
     Report.recommendationRank (Report.capRecommendation value maxAllowed)
     = Z.min (Report.recommendationRank value) (Report.recommendationRank maxAllowed))
  /\ Report.cal_weightedScore calibration = weightedAverage dimensions
  /\ Report.cal_coverageRatio calibration = meanCoverageRatio dimensions
  /\ Report.recommendationRank (Report.cal_recommendation calibration)
     = Z.min (Report.recommendationRank base)
         (Z.min (capLimit (hasCoreNotObserved dimensions) LeanHire)
            (Z.min (capLimit (JsMath.ltb (meanCoverageRatio dimensions) 0.35) LeanHire)
               (capLimit (2 <=? lowScoreCount dimensions)%nat LeanNo)))
  /\ (Report.recommendationRank (Report.cal_recommendation calibration)
      <= Report.recommendationRank base)%Z.
Proof.
  intros Hobs calibration base.
  destruct (calibration_caps dimensions Hobs) as [Hcov Hrank].
  split; [apply capRecommendation_min|].
  split; [by apply calibration_weightedScore|]. split; [exact Hcov|]. split; [exact Hrank|].
  fold calibration base in Hrank. rewrite Hrank. lia.
Qed.

(** ** Monotonicity of the calibration in a score *)

Section Monotonicity.

Context `{JsBuiltins}.

Lemma weight_nonneg key : (0 <= Report.weightForDimension key)%Q.
Proof.
  unfold Report.weightForDimension. repeat case_match; discriminate.
Qed.

Lemma weightedTotals_le dimensions : forall low high,
  (low.1 <= high.1)%Q -> low.2 = high.2 ->
  ((weightedTotals dimensions low).1 <= (weightedTotals dimensions high).1)%Q
  /\ (weightedTotals dimensions low).2 = (weightedTotals dimensions high).2.
Proof.
  induction dimensions as [|d dimensions IH]; intros low high Hle Heq; simpl; [done|].
  apply IH; simpl.
  - by apply Qplus_le_l.
  - by rewrite Heq.
Qed.

Lemma weightedTotals_score before after dimension s s' init :
  da_score dimension = Some s -> (s' <= s)%Q ->
  let lower := weightedTotals (before ++ withScore dimension (Some s') :: after) init in
  let upper := weightedTotals (before ++ dimension :: after) init in
  (lower.1 <= upper.1)%Q /\ lower.2 = upper.2.
Proof.
  intros Hs Hle. unfold weightedTotals. rewrite !fold_left_app. simpl.
  apply weightedTotals_le; simpl; [|reflexivity].
  rewrite Hs. simpl. apply Qplus_le_r.
  rewrite (Qmult_comm _ s'), (Qmult_comm _ s).
  apply Qmult_le_compat_r; [exact Hle|apply weight_nonneg].
Qed.

Lemma baseRecommendation_monotone low high :
  (low <= high)%Q ->
  (Report.recommendationRank (Report.baseRecommendationFromWeightedScore low)
   <= Report.recommendationRank (Report.baseRecommendationFromWeightedScore high))%Z.
Proof.
  intros Hle. unfold Report.baseRecommendationFromWeightedScore.
  assert (Hstep : forall threshold, JsMath.leb threshold low = true ->
                                    JsMath.leb threshold high = true).
  { intros t Ht. apply leb_le. apply leb_le in Ht. eapply Qle_trans; eassumption. }
  destruct (JsMath.leb 4.5 low) eqn:H1; [rewrite (Hstep _ H1); simpl; lia|].
  destruct (JsMath.leb 3.8 low) eqn:H2;
    [rewrite (Hstep _ H2); destruct (JsMath.leb 4.5 high); simpl; lia|].
  destruct (JsMath.leb 3.2 low) eqn:H3;
    [rewrite (Hstep _ H3); destruct (JsMath.leb 4.5 high), (JsMath.leb 3.8 high); simpl; lia|].
  destruct (JsMath.leb 2.5 low) eqn:H4;
    [rewrite (Hstep _ H4);
     destruct (JsMath.leb 4.5 high), (JsMath.leb 3.8 high), (JsMath.leb 3.2 high); simpl; lia|].
  destruct (JsMath.leb 4.5 high), (JsMath.leb 3.8 high), (JsMath.leb 3.2 high),
    (JsMath.leb 2.5 high); simpl; lia.
Qed.

End Monotonicity.

Section ScoreDecrease.

Context `{JsBuiltins}.

Variables (before after : list ReportDimensionAssessment).
Variables (dimension : ReportDimensionAssessment) (s s' : Q).
Hypothesis dimension_observed : observed dimension = true.
Hypothesis dimension_score : da_score dimension = Some s.
Hypothesis score_lowered : (s' <= s)%Q.

Local Abbreviation lowered := (withScore dimension (Some s')).

Lemma lowered_observed : observed lowered = true.
Proof.
  unfold observed in *. simpl. apply andb_true_iff in dimension_observed as [-> _]. done.
Qed.

Lemma filter_observed_middle x :
  observed x = true ->
  List.filter observed (before ++ x :: after)
  = List.filter observed before ++ x :: List.filter observed after.
Proof. intros Hx. rewrite List.filter_app. simpl. by rewrite Hx. Qed.

Lemma lowered_weightedAverage :
  (weightedAverage (before ++ lowered :: after)
   <= weightedAverage (before ++ dimension :: after))%Q.
Proof.
  unfold weightedAverage.
  rewrite (filter_observed_middle _ lowered_observed).
  rewrite (filter_observed_middle _ dimension_observed).
  destruct (weightedTotals_score (List.filter observed before) (List.filter observed after)
              dimension s s' (0, 0)%Q dimension_score score_lowered) as [Hle Heq].
  simpl in Hle, Heq. rewrite Heq.
  destruct (JsMath.ltb 0 _) eqn:Hpos; [|apply Qle_refl].
  apply ltb_lt in Hpos. unfold Qdiv.
  apply Qmult_le_compat_r; [exact Hle|]. apply Qlt_le_weak. by apply Qinv_lt_0_compat.
Qed.

Lemma lowered_meanCoverageRatio :
  meanCoverageRatio (before ++ lowered :: after)
  = meanCoverageRatio (before ++ dimension :: after).
Proof.
  unfold meanCoverageRatio. by rewrite !map_app, !length_app.
Qed.

Lemma lowered_hasCoreNotObserved :
  hasCoreNotObserved (before ++ lowered :: after)
  = hasCoreNotObserved (before ++ dimension :: after).
Proof.
  unfold hasCoreNotObserved. rewrite !existsb_app. simpl.
  unfold Report.hasNumberScore. simpl. by rewrite dimension_score.
Qed.

Lemma lowered_lowScoreCount :
  (lowScoreCount (before ++ dimension :: after)
   <= lowScoreCount (before ++ lowered :: after))%nat.
Proof.
  unfold lowScoreCount. rewrite !List.filter_app, !length_app. simpl.
  change (scoredAtMostTwo lowered) with (JsMath.leb s' 2).
  replace (scoredAtMostTwo dimension) with (JsMath.leb s 2)
    by (unfold scoredAtMostTwo; by rewrite dimension_score).
  destruct (JsMath.leb s 2) eqn:Hs.
  - assert (Hs' : JsMath.leb s' 2 = true).
    { apply leb_le. apply leb_le in Hs. eapply Qle_trans; eassumption. }
    rewrite Hs'. simpl. lia.
  - destruct (JsMath.leb s' 2); simpl; lia.
Qed.

Lemma lowered_rank :
  (Report.recommendationRank
     (Report.cal_recommendation
        (Report.deriveCalibratedRecommendation (before ++ lowered :: after)))
   <= Report.recommendationRank
        (Report.cal_recommendation
           (Report.deriveCalibratedRecommendation (before ++ dimension :: after))))%Z.
Proof.
  assert (Hobs : exists d, d ∈ before ++ dimension :: after /\ observed d = true).
  { exists dimension. split; [|exact dimension_observed].
    apply elem_of_app. right. apply list_elem_of_here. }
  assert (Hobs' : exists d, d ∈ before ++ lowered :: after /\ observed d = true).
  { exists lowered. split; [|exact lowered_observed].
    apply elem_of_app. right. apply list_elem_of_here. }
  destruct (calibration_caps _ Hobs) as [_ ->].
  destruct (calibration_caps _ Hobs') as [_ ->].
  rewrite !calibration_weightedScore by assumption.
  rewrite lowered_meanCoverageRatio, lowered_hasCoreNotObserved.
  pose proof (baseRecommendation_monotone _ _ lowered_weightedAverage) as Hbase.
  pose proof lowered_lowScoreCount as Hlow.
  unfold capLimit.
  change (Report.recommendationRank LeanNo) with 1%Z.
  change (Report.recommendationRank StrongHire) with 4%Z.
  destruct (2 <=? lowScoreCount (before ++ dimension :: after))%nat eqn:Hc.
  - apply Nat.leb_le in Hc.
    assert (Hc' : (2 <=? lowScoreCount (before ++ lowered :: after))%nat = true)
      by (apply Nat.leb_le; lia).
    rewrite Hc'. lia.
  - destruct (2 <=? lowScoreCount (before ++ lowered :: after))%nat; lia.
Qed.

End ScoreDecrease.

(** C2, as the code has it.  Decreasing the score of any one observed
    dimension, all else fixed, never increases the rank of the recommendation
    of [deriveCalibratedRecommendation]. *)
Theorem lower_score_never_raises_rank `{JsBuiltins}
    (before after : list ReportDimensionAssessment)
    (dimension : ReportDimensionAssessment) (s s' : Q) :
  observed dimension = true ->
  da_score dimension = Some s ->
  (s' <= s)%Q ->
  (Report.recommendationRank
     (Report.cal_recommendation
        (Report.deriveCalibratedRecommendation
           (before ++ withScore dimension (Some s') :: after)))
   <= Report.recommendationRank
        (Report.cal_recommendation
           (Report.deriveCalibratedRecommendation (before ++ dimension :: after))))%Z.
Proof. intros. by eapply lowered_rank. Qed.

(** *** On the panel *)

Example panel_scores :
  (da_id lowCollaboration, da_score lowCollaboration, da_notObserved lowCollaboration,
   da_evidenceCoverage lowCollaboration)
  = ("collaboration", Some 1%Q, false,
     {| citedSegmentCount := 1; availableSegmentCount := 1 |})
  /\ (da_id highClarity, da_score highClarity, da_notObserved highClarity,
      da_evidenceCoverage highClarity)
     = ("clarity", Some 5%Q, false,
        {| citedSegmentCount := 1; availableSegmentCount := 1 |}).
Proof. split; vm_compute; reflexivity. Qed.

(** C2, as stated, fails.  With collaboration scored 1 and clarity scored 5
    the weighted score is 3 and the recommendation LeanNo; flipping
    collaboration to not-observed leaves clarity alone in the weighted
    average, which becomes 5, and the recommendation is StrongHire. *)
Lemma flip_to_not_observed_raises_rank :
  let recommendation dimensions :=
    Report.cal_recommendation
      (Report.deriveCalibratedRecommendation (H := referenceBuiltins) dimensions) in
  observed lowCollaboration = true
  /\ recommendation [lowCollaboration; highClarity] = LeanNo
  /\ recommendation [asNotObserved lowCollaboration; highClarity] = StrongHire
  /\ (Report.recommendationRank (recommendation [lowCollaboration; highClarity])
      < Report.recommendationRank
          (recommendation [asNotObserved lowCollaboration; highClarity]))%Z.
Proof. repeat split; vm_compute; reflexivity. Qed.

(** Flipping the only observed dimension also raises the rank: a single
    dimension scored 1 gives No, and no observed dimension gives LeanNo. *)
Example flip_last_observed_raises_rank :
  Report.cal_recommendation
    (Report.deriveCalibratedRecommendation (H := referenceBuiltins) [lowCollaboration]) = No
  /\ Report.cal_recommendation
       (Report.deriveCalibratedRecommendation (H := referenceBuiltins)
          [asNotObserved lowCollaboration]) = LeanNo.
Proof. split; vm_compute; reflexivity. Qed.

Lemma lower_score_never_raises_rank_witness :
  observed highClarity = true
  /\ da_score highClarity = Some 5%Q
  /\ (4 <= 5)%Q
  /\ (Report.recommendationRank
        (Report.cal_recommendation
           (Report.deriveCalibratedRecommendation (H := referenceBuiltins)
              ([lowCollaboration] ++ withScore highClarity (Some 4%Q) :: [])))
      <= Report.recommendationRank
           (Report.cal_recommendation
              (Report.deriveCalibratedRecommendation (H := referenceBuiltins)
                 ([lowCollaboration] ++ highClarity :: []))))%Z.
Proof.
  assert (Hobserved : observed highClarity = true) by (vm_compute; reflexivity).
  assert (Hscore : da_score highClarity = Some 5%Q) by (vm_compute; reflexivity).
  assert (Hle : (4 <= 5)%Q) by (unfold Qle; simpl; lia).
  split; [exact Hobserved|]. split; [exact Hscore|]. split; [exact Hle|].
  exact (lower_score_never_raises_rank (H := referenceBuiltins) [lowCollaboration] []
           highClarity 5 4 Hobserved Hscore Hle).
Defined.

Lemma calibration_never_above_base_witness :
  (exists dimension, dimension ∈ [lowCollaboration; highClarity] /\ observed dimension = true)
  /\ (Report.recommendationRank
        (Report.cal_recommendation
           (Report.deriveCalibratedRecommendation (H := referenceBuiltins)
              [lowCollaboration; highClarity]))
      <= Report.recommendationRank
           (Report.baseRecommendationFromWeightedScore
              (Report.cal_weightedScore
                 (Report.deriveCalibratedRecommendation (H := referenceBuiltins)
                    [lowCollaboration; highClarity]))))%Z.
Proof.
  assert (Hobserved : exists dimension,
             dimension ∈ [lowCollaboration; highClarity] /\ observed dimension = true).
  { exists highClarity. split; [|vm_compute; reflexivity].
    apply list_elem_of_further, list_elem_of_here. }
  split; [exact Hobserved|].
  apply (calibration_never_above_base (H := referenceBuiltins)
           [lowCollaboration; highClarity] Hobserved).
Defined.

(** ** The mock generator *)

Section Mock.

Context `{JsBuiltins}.

Lemma createMockDimension_notObserved descriptor index context force :
  da_notObserved (Report.createMockDimension descriptor index context force) = force.
Proof. by destruct force. Qed.

Lemma createMockDimension_score descriptor index context :
  da_score (Report.createMockDimension descriptor index context false)
  = Some (Report.getDimensionScoreForMock index).
Proof. reflexivity. Qed.

Lemma createMockDimension_id descriptor index context force :
  da_id (Report.createMockDimension descriptor index context force) = dim_key descriptor.
Proof. by destruct force. Qed.

Lemma count_flagged {A : Type} (l : list A) :
  forall (f : nat -> A -> ReportDimensionAssessment) (flag : nat -> bool) (offset : nat),
    (forall i x, da_notObserved (f i x) = flag (offset + i)%nat) ->
    length (List.filter da_notObserved (imap f l))
    = length (List.filter flag (seq offset (length l))).
Proof.
  induction l as [|x l IH]; intros f flag offset Hflag; [reflexivity|].
  simpl. rewrite Hflag, Nat.add_0_r.
  assert (Hrest : length (List.filter da_notObserved (imap (f ∘ S) l))
                  = length (List.filter flag (seq (S offset) (length l)))).
  { apply IH. intros i y. simpl. rewrite Hflag. f_equal. lia. }
  destruct (flag offset); simpl; by rewrite Hrest.
Qed.

Lemma count_index (k count : nat) : forall offset,
  length (List.filter (fun i => (i =? k)%nat) (seq offset count))
  = if bool_decide (offset <= k < offset + count)%nat then 1%nat else 0%nat.
Proof.
  induction count as [|count IH]; intros offset; simpl.
  - rewrite bool_decide_eq_false_2; [reflexivity|lia].
  - destruct (offset =? k)%nat eqn:Heq; simpl; rewrite IH.
    + apply Nat.eqb_eq in Heq. rewrite bool_decide_eq_false_2 by lia.
      rewrite bool_decide_eq_true_2 by lia. reflexivity.
    + apply Nat.eqb_neq in Heq.
      destruct (decide (S offset <= k < S offset + count)%nat).
      * rewrite !bool_decide_eq_true_2 by lia. reflexivity.
      * rewrite !bool_decide_eq_false_2 by lia. reflexivity.
Qed.

Lemma createMockReport_dimensions_eq requestBody :
  dimensions (Report.createMockReport requestBody)
  = imap
      (fun index descriptor =>
         Report.createMockDimension descriptor index
           (Report.normalizedContextFromRequest requestBody)
           ((3 <=? length (rubric_dimensions requestBody))%nat
            && (index =? length (rubric_dimensions requestBody) - 1)%nat))
      (rubric_dimensions requestBody).
Proof. reflexivity. Qed.

End Mock.

(** C9. For every rubric and segment list, [createMockReport] returns one
    assessment per descriptor; the assessment at position [i] is marked
    not-observed exactly when the rubric has at least 3 dimensions and [i]
    is the last position, so exactly one dimension is not-observed when
    there are at least 3 and none otherwise; and every observed dimension's
    score is the entry of the cycle [4, 3, 5, 2] at [i mod 4]. *)
Theorem createMockReport_marks_last `{JsBuiltins} (requestBody : ReportRequestBody) :
  let mockDimensions := dimensions (Report.createMockReport requestBody) in
  let n := length (rubric_dimensions requestBody) in
  length mockDimensions = n
  /\ (forall i assessment,
        mockDimensions !! i = Some assessment ->
        (da_notObserved assessment = true <-> (3 <= n /\ i = n - 1)%nat)
        /\ (da_notObserved assessment = false ->
            da_score assessment = Some (nth (i mod 4) [4; 3; 5; 2] 0)%Q))
  /\ length (List.filter da_notObserved mockDimensions)
     = (if (3 <=? n)%nat then 1 else 0)%nat.
Proof.
  intros mockDimensions n. subst mockDimensions.
  rewrite createMockReport_dimensions_eq. fold n.
  split; [apply length_imap|]. split.
  - intros i assessment Hi. rewrite list_lookup_imap in Hi.
    destruct (rubric_dimensions requestBody !! i) as [descriptor|] eqn:Hd; [|discriminate].
    cbn [fmap option_fmap option_map] in Hi. injection Hi as <-.
    rewrite createMockDimension_notObserved. split.
    + split.
      * intros Hflag. apply andb_true_iff in Hflag as [Hn Hi].
        apply (Nat.leb_le 3 n) in Hn. apply Nat.eqb_eq in Hi. done.
      * intros [Hn Hi]. apply andb_true_iff.
        split; [by apply (Nat.leb_le 3 n)|by apply Nat.eqb_eq].
    + intros Hflag. rewrite Hflag. apply createMockDimension_score.
  - rewrite (count_flagged _ _
               (fun i => (3 <=? n)%nat && (i =? n - 1)%nat) 0%nat)
      by (intros; apply createMockDimension_notObserved).
    fold n. destruct (3 <=? n)%nat eqn:Hn; simpl.
    + apply Nat.leb_le in Hn. rewrite count_index.
      rewrite bool_decide_eq_true_2 by lia. reflexivity.
    + induction (seq 0 n); [reflexivity|assumption].
Qed.

(** ** Consistency of the two coverage indexes *)

Lemma supports_dimensionsAt coverage segmentId dimensionId :
  supports coverage segmentId dimensionId
  <-> dimensionId ∈ dimensionsAt (bySegment coverage) segmentId.
Proof.
  unfold supports, dimensionsAt. split.
  - intros (entry & -> & Hin). exact Hin.
  - destruct (bySegment coverage !! segmentId) as [entry|]; intros Hin.
    + by exists entry.
    + by apply elem_of_nil in Hin.
Qed.

Lemma indexSegments_spec dimensionId segmentIds : forall index segmentId d,
  d ∈ dimensionsAt (Report.indexSegments dimensionId segmentIds index) segmentId
  <-> d ∈ dimensionsAt index segmentId \/ (d = dimensionId /\ segmentId ∈ segmentIds).
Proof.
  induction segmentIds as [|s segmentIds IH]; intros index segmentId d.
  - simpl. rewrite elem_of_nil. tauto.
  - change (Report.indexSegments dimensionId (s :: segmentIds) index)
      with (Report.indexSegments dimensionId segmentIds
              match index !! s with
              | Some existing =>
                  if bool_decide (dimensionId ∈ cov_dimensions existing) then index
                  else <[s := {| cov_dimensions := cov_dimensions existing ++ [dimensionId] |}]>
                         index
              | None => <[s := {| cov_dimensions := [dimensionId] |}]> index
              end).
    rewrite IH, elem_of_cons. clear IH.
    assert (Hhead :
      d ∈ dimensionsAt
            match index !! s with
            | Some existing =>
                if bool_decide (dimensionId ∈ cov_dimensions existing) then index
                else <[s := {| cov_dimensions := cov_dimensions existing ++ [dimensionId] |}]>
                       index
            | None => <[s := {| cov_dimensions := [dimensionId] |}]> index
            end segmentId
      <-> d ∈ dimensionsAt index segmentId \/ (d = dimensionId /\ segmentId = s)).
    { unfold dimensionsAt. destruct (decide (segmentId = s)) as [->|Hne].
      - destruct (index !! s) as [existing|] eqn:Hs.
        + case_bool_decide as Hin.
          * rewrite Hs. split; [tauto|]. intros [Hd|[-> _]]; [exact Hd|exact Hin].
          * rewrite lookup_insert_eq. simpl. rewrite elem_of_app, list_elem_of_singleton. tauto.
        + rewrite lookup_insert_eq. simpl. rewrite list_elem_of_singleton, elem_of_nil. tauto.
      - destruct (index !! s) as [existing|] eqn:Hs.
        + case_bool_decide as Hin; [tauto|]. rewrite lookup_insert_ne by done. tauto.
        + rewrite lookup_insert_ne by done. tauto. }
    rewrite Hhead. tauto.
Qed.

Section CoverageFold.

Variables (idsOf : ReportDimensionAssessment -> list string)
          (pctOf : ReportDimensionAssessment -> Q).

Local Abbreviation covStep :=
  (fun coverage dimension =>
     {| byDimension :=
          <[da_id dimension :=
              {| cov_segmentIds := idsOf dimension; cov_coveragePct := pctOf dimension |}]>
            (byDimension coverage);
        bySegment :=
          Report.indexSegments (da_id dimension) (idsOf dimension) (bySegment coverage) |}).

(** What the two indexes hold once the dimensions of [done] are processed. *)
Local Abbreviation indexed done coverage :=
  ((forall k entry,
      byDimension coverage !! k = Some entry
      <-> exists x, x ∈ done /\ da_id x = k
                    /\ entry = {| cov_segmentIds := idsOf x; cov_coveragePct := pctOf x |})
   /\ (forall s d,
         d ∈ dimensionsAt (bySegment coverage) s
         <-> exists x, x ∈ done /\ da_id x = d /\ s ∈ idsOf x)).

Lemma covStep_indexed done coverage x :
  NoDup (map da_id (done ++ [x])) ->
  indexed done coverage -> indexed (done ++ [x]) (covStep coverage x).
Proof.
  intros Hnodup [HbyDim HbySeg].
  assert (Hfresh : forall y, y ∈ done -> da_id y <> da_id x).
  { intros y Hy Heq. rewrite map_app in Hnodup. apply NoDup_app in Hnodup as (_ & Hdisj & _).
    apply (Hdisj (da_id y)).
    - apply list_elem_of_In, in_map, list_elem_of_In, Hy.
    - rewrite Heq. simpl. apply list_elem_of_here. }
  split.
  - intros k entry. simpl. destruct (decide (da_id x = k)) as [<-|Hne].
    + rewrite lookup_insert_eq. split.
      * intros [= <-]. exists x. split; [|done]. apply elem_of_app. right. apply list_elem_of_here.
      * intros (y & Hy & Hid & ->). apply elem_of_app in Hy as [Hy|Hy].
        -- by destruct (Hfresh y Hy).
        -- apply list_elem_of_singleton in Hy as ->. reflexivity.
    + rewrite lookup_insert_ne by done. rewrite HbyDim. split.
      * intros (y & Hy & Hid & ->). exists y. split; [|done]. apply elem_of_app. by left.
      * intros (y & Hy & Hid & ->). apply elem_of_app in Hy as [Hy|Hy].
        -- by exists y.
        -- apply list_elem_of_singleton in Hy as ->. by destruct Hne.
  - intros s d. simpl. rewrite indexSegments_spec, HbySeg. split.
    + intros [(y & Hy & Hid & Hs)|[-> Hs]].
      * exists y. split; [|done]. apply elem_of_app. by left.
      * exists x. split; [|done]. apply elem_of_app. right. apply list_elem_of_here.
    + intros (y & Hy & Hid & Hs). apply elem_of_app in Hy as [Hy|Hy].
      * left. by exists y.
      * apply list_elem_of_singleton in Hy as ->. by right.
Qed.

Lemma covFold_indexed dimensions : forall done coverage,
  NoDup (map da_id (done ++ dimensions)) ->
  indexed done coverage ->
  indexed (done ++ dimensions) (fold_left covStep dimensions coverage).
Proof.
  induction dimensions as [|x dimensions IH]; intros done coverage Hnodup Hinv.
  - by rewrite app_nil_r.
  - simpl. replace (done ++ x :: dimensions) with ((done ++ [x]) ++ dimensions) in *
      by (by rewrite <- app_assoc).
    apply IH; [exact Hnodup|]. apply covStep_indexed; [|exact Hinv].
    rewrite map_app in Hnodup. by apply NoDup_app in Hnodup as (? & _ & _).
Qed.

Lemma covFold_consistent dimensions :
  NoDup (map da_id dimensions) ->
  forall dimensionId segmentId,
    citedBy (fold_left covStep dimensions {| byDimension := ∅; bySegment := ∅ |})
      dimensionId segmentId
    <-> supports (fold_left covStep dimensions {| byDimension := ∅; bySegment := ∅ |})
          segmentId dimensionId.
Proof.
  intros Hnodup dimensionId segmentId.
  destruct (covFold_indexed dimensions [] {| byDimension := ∅; bySegment := ∅ |} Hnodup)
    as [HbyDim HbySeg].
  { split.
    - intros k entry. simpl. rewrite lookup_empty. split; [done|].
      intros (x & Hx & _). by apply elem_of_nil in Hx.
    - intros s d. unfold dimensionsAt. simpl. rewrite lookup_empty, elem_of_nil. split; [done|].
      intros (x & Hx & _). by apply elem_of_nil in Hx. }
  simpl in HbyDim, HbySeg. rewrite supports_dimensionsAt, HbySeg. unfold citedBy. split.
  - intros (entry & Hentry & Hin). apply HbyDim in Hentry as (x & Hx & Hid & ->). by exists x.
  - intros (x & Hx & Hid & Hs).
    exists {| cov_segmentIds := idsOf x; cov_coveragePct := pctOf x |}.
    split; [|exact Hs]. apply HbyDim. by exists x.
Qed.

End CoverageFold.

Section NormalizedDimensions.

Context `{JsBuiltins}.

Lemma normalizeDimension_id rawDimension descriptor index context :
  da_id (Report.normalizeDimension rawDimension descriptor index context) = dim_key descriptor.
Proof. reflexivity. Qed.

Lemma imap_ids (l : list ReportDimension) :
  forall f : nat -> ReportDimension -> ReportDimensionAssessment,
    (forall i descriptor, da_id (f i descriptor) = dim_key descriptor) ->
    map da_id (imap f l) = map dim_key l.
Proof.
  induction l as [|x l IH]; intros f Hf; [reflexivity|].
  simpl. rewrite Hf. f_equal. apply IH. intros i descriptor. apply Hf.
Qed.

Lemma normalizeModernReport_ids sourceReport context :
  map da_id (dimensions (Report.normalizeModernReport sourceReport context))
  = map dim_key (ctx_dimensions context).
Proof. apply imap_ids. intros. apply normalizeDimension_id. Qed.

Lemma normalizeReportResponse_ids payload requestBody :
  map da_id (dimensions (Report.normalizeReportResponse payload requestBody))
  = map dim_key (rubric_dimensions requestBody).
Proof. apply normalizeModernReport_ids. Qed.

Lemma createCoverageMap_consistent dimensions segments :
  NoDup (map da_id dimensions) ->
  forall dimensionId segmentId,
    citedBy (Report.createCoverageMap dimensions segments) dimensionId segmentId
    <-> supports (Report.createCoverageMap dimensions segments) segmentId dimensionId.
Proof.
  intros Hnodup. unfold Report.createCoverageMap.
  apply (covFold_consistent
           (fun dimension =>
              uniqueInOrder
                (List.filter
                   (fun segmentId =>
                      bool_decide
                        (is_Some
                           (mapOfEntries (map (fun segment => (seg_id segment, segment)) segments)
                            !! segmentId)))
                   (map ev_segmentId (da_evidence dimension))))
           _ dimensions Hnodup).
Qed.

Lemma createCoverageMapFromEvidence_consistent dimensions available :
  NoDup (map da_id dimensions) ->
  forall dimensionId segmentId,
    citedBy (Report.createCoverageMapFromEvidence dimensions available) dimensionId segmentId
    <-> supports (Report.createCoverageMapFromEvidence dimensions available)
          segmentId dimensionId.
Proof.
  intros Hnodup. unfold Report.createCoverageMapFromEvidence.
  apply (covFold_consistent
           (fun dimension => uniqueInOrder (map ev_segmentId (da_evidence dimension)))
           _ dimensions Hnodup).
Qed.

End NormalizedDimensions.



(** The rubric contract is needed: when descriptors share a key,
    [byDimension] keeps the segment ids of the last of them only, while
    [bySegment] has indexed them all. *)
Example repeated_key_indexes :
  let coverage :=
    coverageMap (Report.normalizeReportResponse (H := referenceBuiltins) citesFirstSegment
                   repeatedKeyRequest) in
  cov_segmentIds <$> byDimension coverage !! "clarity" = Some ["s1"; "s3"]
  /\ cov_dimensions <$> bySegment coverage !! "s2" = Some ["clarity"].
Proof. split; vm_compute; reflexivity. Qed.

(** ** Evidence normalization *)

Lemma fold_left_invariant {A S : Type} (P : S -> Prop) (step : S -> A -> S) (l : list A) :
  forall init, P init -> (forall s x, x ∈ l -> P s -> P (step s x)) -> P (fold_left step l init).
Proof.
  induction l as [|x l IH]; intros init Hinit Hstep; simpl; [exact Hinit|].
  apply IH.
  - apply Hstep; [apply list_elem_of_here|exact Hinit].
  - intros s y Hy. apply Hstep. by apply list_elem_of_further.
Qed.

Lemma distinctlyCited_push result seen entry :
  distinctlyCited (result, seen) ->
  ev_segmentId entry ∉ seen ->
  distinctlyCited (result ++ [entry], ({[ev_segmentId entry]} ∪ seen)).
Proof.
  intros [Hnodup Hseen] Hfresh. split; simpl in *.
  - rewrite map_app. apply NoDup_app. split; [exact Hnodup|]. split.
    + intros id Hid Hin. apply list_elem_of_singleton in Hin as ->.
      apply Hfresh. apply list_elem_of_In, in_map_iff in Hid as (e & <- & He).
      apply Hseen. by apply list_elem_of_In.
    + apply NoDup_singleton.
  - intros e He. apply elem_of_app in He as [He|He].
    + apply elem_of_union. right. by apply Hseen.
    + apply list_elem_of_singleton in He as ->. apply elem_of_union. left.
      by apply elem_of_singleton.
Qed.

Section Evidence.

Context `{JsBuiltins}.

Variables (context : NormalizeContext) (notObserved : bool) (dimensionLabel : string).

Lemma normalizeEvidenceEntry_cases state entry :
  Report.normalizeEvidenceEntry context notObserved dimensionLabel state entry = state
  \/ exists added,
       Report.normalizeEvidenceEntry context notObserved dimensionLabel state entry
       = ((fst state ++ [added])%list, {[ev_segmentId added]} ∪ snd state)
       /\ (ev_segmentId added ∉ snd state)
       /\ (suppliesBoth entry \/ derivable added).
Proof.
  destruct state as [result seen]. unfold Report.normalizeEvidenceEntry.
  destruct (negb (Report.isRecord entry)); [by left|]. simpl.
  set (rawSegmentId := Report.toNormalizedString (getField "segmentId" entry) emptyString).
  destruct (String.eqb rawSegmentId emptyString); [by left|]. simpl.
  case_bool_decide as Hseen; [by left|]. simpl.
  destruct (enforceSegmentValidation context && _); [by left|].
  right. eexists (Build_ReportDimensionEvidence rawSegmentId _ _ _ _).
  split; [reflexivity|]. split; [exact Hseen|]. simpl.
  unfold suppliesBoth, derivable. simpl.
  destruct (Report.toStrength (getField "strength" entry)) as [strength|] eqn:Hstrength;
    [|by right].
  destruct (Report.toRelevance (getField "relevance" entry)) as [relevance|];
    [left; split; [by eexists|left; by eexists]|].
  destruct (Report.toRelevance (getField "confidence" entry)) as [relevance|];
    [left; split; [by eexists|right; by eexists]|].
  right. by destruct strength.
Qed.

Lemma normalizeEvidenceEntry_distinct state entry :
  distinctlyCited state ->
  distinctlyCited (Report.normalizeEvidenceEntry context notObserved dimensionLabel state entry).
Proof.
  intros Hstate.
  destruct (normalizeEvidenceEntry_cases state entry) as [->|(added & -> & Hfresh & _)];
    [exact Hstate|].
  destruct state. by apply distinctlyCited_push.
Qed.

Lemma normalizeEvidenceEntry_derivable state entry :
  ~ suppliesBoth entry ->
  Forall derivable state.1 ->
  Forall derivable
    (Report.normalizeEvidenceEntry context notObserved dimensionLabel state entry).1.
Proof.
  intros Hnot Hstate.
  destruct (normalizeEvidenceEntry_cases state entry) as [->|(added & -> & _ & [Hboth|Hadded])];
    [exact Hstate|by destruct Hnot|].
  simpl. apply Forall_app. split; [exact Hstate|]. by constructor.
Qed.

End Evidence.

Section EvidenceList.

Context `{JsBuiltins}.

Variables (rawValue : JsonValue) (context : NormalizeContext) (dimensionIndex : nat)
          (notObserved : bool) (dimensionLabel : string).

Local Abbreviation backfillStep :=
  (fun (state : list ReportDimensionEvidence * gset string) segment =>
     let '(result, seenSegmentIds) := state in
     if bool_decide (seg_id segment ∈ seenSegmentIds) then state
     else
       (result ++ [ {| ev_segmentId := seg_id segment;
                       ev_quote := Report.toMaxWords (seg_text segment) 25;
                       ev_interpretation :=
                         dimensionLabel +:+ " signal grounded in this quoted segment.";
                       ev_strength := medium;
                       ev_relevance := 0.64 |} ],
        {[seg_id segment]} ∪ seenSegmentIds)).

Lemma backfillStep_distinct state segment :
  distinctlyCited state -> distinctlyCited (backfillStep state segment).
Proof.
  intros Hstate. destruct state as [result seen]. simpl.
  case_bool_decide as Hseen; [exact Hstate|].
  by apply (distinctlyCited_push result seen
              {| ev_segmentId := seg_id segment;
                 ev_quote := Report.toMaxWords (seg_text segment) 25;
                 ev_interpretation :=
                   dimensionLabel +:+ " signal grounded in this quoted segment.";
                 ev_strength := medium;
                 ev_relevance := 0.64 |}).
Qed.

Lemma backfillStep_derivable state segment :
  Forall derivable state.1 -> Forall derivable (backfillStep state segment).1.
Proof.
  intros Hstate. destruct state as [result seen]. simpl.
  case_bool_decide as Hseen; [exact Hstate|]. simpl.
  apply Forall_app. split; [exact Hstate|]. by repeat constructor.
Qed.

(** Every property that holds of the empty list and that both loops
    preserve holds of the evidence before the final [slice(0, 4)]. *)
Lemma normalizeEvidence_invariant (P : list ReportDimensionEvidence * gset string -> Prop) :
  P ([], ∅) ->
  (forall state entry,
     entry ∈ arrayItems rawValue -> P state ->
     P (Report.normalizeEvidenceEntry context notObserved dimensionLabel state entry)) ->
  (forall state segment, P state -> P (backfillStep state segment)) ->
  exists state,
    P state
    /\ Report.normalizeEvidence rawValue context dimensionIndex notObserved dimensionLabel
       = take 4 state.1.
Proof.
  intros Hinit Hentry Hfill. unfold Report.normalizeEvidence.
  set (candidates := if isArray rawValue then _ else _).
  assert (Hcandidates : P candidates).
  { subst candidates. destruct (isArray rawValue); [|exact Hinit].
    by apply fold_left_invariant. }
  clearbody candidates. simpl.
  destruct (length candidates.1 <? _)%nat.
  - eexists. split; [|reflexivity]. apply fold_left_invariant; [exact Hcandidates|].
    intros state segment _. apply Hfill.
  - by exists candidates.
Qed.

Lemma normalizeEvidence_bounds :
  let evidence :=
    Report.normalizeEvidence rawValue context dimensionIndex notObserved dimensionLabel in
  (length evidence <= 4)%nat /\ NoDup (map ev_segmentId evidence).
Proof.
  destruct (normalizeEvidence_invariant distinctlyCited) as (state & [Hnodup _] & ->).
  - split; [constructor|]. intros entry Hentry. by apply elem_of_nil in Hentry.
  - intros state entry _. apply normalizeEvidenceEntry_distinct.
  - apply backfillStep_distinct.
  - simpl. split.
    + rewrite length_take. lia.
    + rewrite <- (take_drop 4 state.1), map_app in Hnodup.
      by apply NoDup_app in Hnodup as (? & _ & _).
Qed.

Lemma normalizeEvidence_derivable :
  (forall entry, entry ∈ arrayItems rawValue -> ~ suppliesBoth entry) ->
  Forall derivable
    (Report.normalizeEvidence rawValue context dimensionIndex notObserved dimensionLabel).
Proof.
  intros Hnot.
  destruct (normalizeEvidence_invariant (fun state => Forall derivable state.1))
    as (state & Hstate & ->).
  - constructor.
  - intros state entry Hentry. apply normalizeEvidenceEntry_derivable. by apply Hnot.
  - apply backfillStep_derivable.
  - by apply Forall_take.
Qed.

End EvidenceList.

(** *** Through the two passes of [normalizeReportResponse] *)

Lemma strengthFromRelevance_proper (r r' : Q) :
  (r == r')%Q -> Report.strengthFromRelevance r = Report.strengthFromRelevance r'.
Proof.
  intros Heq. unfold Report.strengthFromRelevance.
  by rewrite (leb_proper 0.75 r r' Heq), (leb_proper 0.45 r r' Heq).
Qed.

Lemma clamp_unit (r : Q) : isUnitInterval r -> (Report.clamp r 0 1 == r)%Q.
Proof.
  intros [Hlow Hhigh]. unfold Report.clamp, JsMath.min, JsMath.max.
  rewrite Q.min_r.
  - by apply Q.max_r.
  - apply Q.max_lub; [discriminate|exact Hhigh].
Qed.

Lemma relevanceFromStrength_unit strength :
  isUnitInterval (Report.relevanceFromStrength strength).
Proof. destruct strength; split; discriminate. Qed.

Lemma Forall_imap {A B : Type} (P : B -> Prop) (l : list A) :
  forall f : nat -> A -> B, (forall i x, P (f i x)) -> Forall P (imap f l).
Proof.
  induction l as [|x l IH]; intros f Hf; simpl; constructor; [apply Hf|].
  apply IH. intros i y. apply Hf.
Qed.

Section TwoPasses.

Context `{JsBuiltins}.

Lemma toRelevance_unit value relevance :
  Report.toRelevance value = Some relevance -> isUnitInterval relevance.
Proof.
  unfold Report.toRelevance. destruct (Report.toFiniteNumber value) as [numeric|]; [|done].
  destruct (JsMath.ltb 1 numeric && JsMath.leb numeric 100); intros [= <-];
    by apply clamp_bounds.
Qed.

(** What an entry added by the first loop carries. *)
Lemma normalizeEvidenceEntry_added context notObserved dimensionLabel state entry :
  Report.normalizeEvidenceEntry context notObserved dimensionLabel state entry = state
  \/ exists added,
       Report.normalizeEvidenceEntry context notObserved dimensionLabel state entry
       = ((fst state ++ [added])%list, {[ev_segmentId added]} ∪ snd state)
       /\ isUnitInterval (ev_relevance added)
       /\ (forall strength relevance,
             Report.toStrength (getField "strength" entry) = Some strength ->
             Report.toRelevance (getField "relevance" entry) = Some relevance ->
             ev_strength added = strength /\ ev_relevance added = relevance).
Proof.
  destruct state as [result seen]. unfold Report.normalizeEvidenceEntry.
  destruct (negb (Report.isRecord entry)); [by left|]. simpl.
  set (rawSegmentId := Report.toNormalizedString (getField "segmentId" entry) emptyString).
  destruct (String.eqb rawSegmentId emptyString); [by left|]. simpl.
  case_bool_decide as Hseen; [by left|]. simpl.
  destruct (enforceSegmentValidation context && _); [by left|].
  right. eexists (Build_ReportDimensionEvidence rawSegmentId _ _ _ _).
  split; [reflexivity|]. simpl. split.
  - destruct (Report.toRelevance (getField "relevance" entry)) as [relevance|] eqn:Hr;
      [by eapply toRelevance_unit|].
    destruct (Report.toRelevance (getField "confidence" entry)) as [relevance|] eqn:Hc;
      [by eapply toRelevance_unit|].
    destruct (Report.toStrength (getField "strength" entry)) as [strength|];
      [apply relevanceFromStrength_unit|].
    destruct notObserved; split; discriminate.
  - by intros strength relevance -> ->.
Qed.

Lemma encodeEvidence_strength entry :
  Report.toStrength (getField "strength" (Report.encodeEvidence entry))
  = Some (ev_strength entry).
Proof. by destruct entry as [? ? ? [] ?]. Qed.

Lemma encodeEvidence_relevance entry :
  isUnitInterval (ev_relevance entry) ->
  Report.toRelevance (getField "relevance" (Report.encodeEvidence entry))
  = Some (Report.clamp (ev_relevance entry) 0 1).
Proof.
  intros [_ Hhigh].
  change (Report.toRelevance (getField "relevance" (Report.encodeEvidence entry)))
    with (if JsMath.ltb 1 (ev_relevance entry) && JsMath.leb (ev_relevance entry) 100
          then Some (Report.clamp (ev_relevance entry / 100) 0 1)
          else Some (Report.clamp (ev_relevance entry) 0 1)).
  by rewrite (proj2 (ltb_ge 1 (ev_relevance entry)) Hhigh).
Qed.

Variables (context : NormalizeContext) (dimensionIndex : nat)
          (notObserved : bool) (dimensionLabel : string).

(** First pass: candidates that do not carry both views of their own. *)
Lemma normalizeEvidence_wellGraded rawValue :
  (forall entry, entry ∈ arrayItems rawValue -> ~ suppliesBoth entry) ->
  Forall wellGraded
    (Report.normalizeEvidence rawValue context dimensionIndex notObserved dimensionLabel).
Proof.
  intros Hnot.
  destruct (normalizeEvidence_invariant rawValue context dimensionIndex notObserved
              dimensionLabel (fun state => Forall wellGraded state.1))
    as (state & Hstate & ->).
  - constructor.
  - intros state entry Hentry Hstate.
    destruct (normalizeEvidenceEntry_cases context notObserved dimensionLabel state entry)
      as [->|(added & Hstep & _ & Hadded)]; [exact Hstate|].
    destruct (normalizeEvidenceEntry_added context notObserved dimensionLabel state entry)
      as [->|(added' & Hstep' & Hunit & _)]; [exact Hstate|].
    rewrite Hstep in Hstep'. injection Hstep' as Heq _.
    apply app_inj_tail in Heq as [_ <-]. rewrite Hstep. simpl.
    apply Forall_app. split; [exact Hstate|]. constructor; [|constructor].
    split; [|exact Hunit]. destruct Hadded as [Hboth|Hadded]; [|exact Hadded].
    by destruct (Hnot entry Hentry).
  - intros [result seen] segment Hstate. simpl.
    case_bool_decide; [exact Hstate|]. simpl.
    apply Forall_app. split; [exact Hstate|]. constructor; [|constructor].
    split; [reflexivity|]. split; discriminate.
  - by apply Forall_take.
Qed.

(** Second pass: the candidates are the entries of the first pass, read
    back with the strength and the relevance they were given. *)
Lemma normalizeEvidence_reencoded entries :
  Forall wellGraded entries ->
  Forall derivable
    (Report.normalizeEvidence (JArray (map Report.encodeEvidence entries)) context
       dimensionIndex notObserved dimensionLabel).
Proof.
  intros Hentries.
  destruct (normalizeEvidence_invariant (JArray (map Report.encodeEvidence entries)) context
              dimensionIndex notObserved dimensionLabel
              (fun state => Forall derivable state.1))
    as (state & Hstate & ->).
  - constructor.
  - intros state encoded Hencoded Hstate. simpl in Hencoded.
    apply list_elem_of_In, in_map_iff in Hencoded as (entry & <- & Hentry).
    apply list_elem_of_In in Hentry.
    destruct (proj1 (Forall_forall _ _) Hentries entry Hentry) as [Hderivable Hunit].
    destruct (normalizeEvidenceEntry_added context notObserved dimensionLabel state
                (Report.encodeEvidence entry)) as [->|(added & -> & _ & Hvalues)];
      [exact Hstate|].
    destruct (Hvalues _ _ (encodeEvidence_strength entry)
                (encodeEvidence_relevance entry Hunit)) as [Hstrength Hrelevance].
    simpl. apply Forall_app. split; [exact Hstate|]. constructor; [|constructor].
    unfold derivable in *. rewrite Hstrength, Hrelevance, Hderivable.
    apply strengthFromRelevance_proper. symmetry. by apply clamp_unit.
  - apply backfillStep_derivable.
  - by apply Forall_take.
Qed.

End TwoPasses.

Section CandidateEvidence.

Context `{JsBuiltins}.

Lemma normalizeFromUnknown_record payload context :
  Report.isRecord payload = true ->
  Report.isLegacyReportResponseBody payload = None ->
  Report.normalizeFromUnknown payload context = Report.normalizeModernReport payload context.
Proof.
  intros Hrecord Hlegacy. unfold Report.normalizeFromUnknown. rewrite Hlegacy, Hrecord.
  by destruct (Report.isModernReportResponseBody payload).
Qed.

(** The candidate looked up for a descriptor is one of the entries of
    [dimensions], when there is one. *)
Lemma sourceById_values (sourceDimensions : list JsonValue) key candidate :
  fold_left
    (fun (sourceById : gmap string JsonValue) candidate =>
       if negb (Report.isRecord candidate) then sourceById
       else
         let id := Report.toNormalizedString (getField "id" candidate) emptyString in
         if negb (String.eqb id emptyString) && negb (bool_decide (is_Some (sourceById !! id)))
         then <[id := candidate]> sourceById
         else sourceById)
    sourceDimensions ∅ !! key = Some candidate ->
  candidate ∈ sourceDimensions.
Proof.
  revert key candidate.
  apply (fold_left_invariant
           (fun sourceById : gmap string JsonValue =>
              forall key candidate,
                sourceById !! key = Some candidate -> candidate ∈ sourceDimensions)).
  - intros key candidate Hlookup. by rewrite lookup_empty in Hlookup.
  - intros sourceById x Hx Hinv key candidate.
    destruct (negb (Report.isRecord x)); [apply Hinv|]. simpl.
    destruct (negb _ && negb _); [|apply Hinv].
    destruct (decide (Report.toNormalizedString (getField "id" x) emptyString = key))
      as [<-|Hne].
    + rewrite lookup_insert_eq. by intros [= <-].
    + rewrite lookup_insert_ne by done. apply Hinv.
Qed.

(** A property of the evidence that [normalizeEvidence] returns for the
    absent candidate and for every entry of [dimensions] holds of the
    evidence of every dimension of the report. *)
Lemma normalizeModernReport_evidence (P : list ReportDimensionEvidence -> Prop)
    sourceReport context :
  (forall rawValue dimensionIndex notObserved dimensionLabel,
     rawValue = JUndefined
     \/ (exists candidate,
           candidate ∈ arrayItems (getField "dimensions" sourceReport)
           /\ rawValue = getField "evidence" candidate) ->
     P (Report.normalizeEvidence rawValue context dimensionIndex notObserved dimensionLabel)) ->
  Forall (fun dimension => P (da_evidence dimension))
    (dimensions (Report.normalizeModernReport sourceReport context)).
Proof.
  intros Hevidence. apply Forall_imap. intros index descriptor.
  set (candidate := default JUndefined _).
  change (da_evidence (Report.normalizeDimension candidate descriptor index context))
    with (Report.normalizeEvidence
            (getField "evidence" (if Report.isRecord candidate then candidate else JObject []))
            context index
            match getField "notObserved"
                    (if Report.isRecord candidate then candidate else JObject []) with
            | JBool rawNotObserved => rawNotObserved
            | _ => false
            end
            (dim_label descriptor)).
  apply Hevidence. destruct (Report.isRecord candidate) eqn:Hrecord; [|by left].
  right. exists candidate. split; [|reflexivity]. subst candidate.
  match goal with |- default _ ?lookup ∈ _ => destruct lookup as [found|] eqn:Hlookup end;
    [|discriminate Hrecord].
  simpl. apply sourceById_values in Hlookup.
  destruct (getField "dimensions" sourceReport); try (by apply elem_of_nil in Hlookup).
  exact Hlookup.
Qed.

Lemma encodeDimension_evidence dimension :
  getField "evidence" (Report.encodeDimension dimension)
  = JArray (map Report.encodeEvidence (da_evidence dimension)).
Proof. reflexivity. Qed.

Lemma encodeReport_dimensions report :
  arrayItems (getField "dimensions" (Report.encodeReport report))
  = map Report.encodeDimension (dimensions report).
Proof. reflexivity. Qed.

Lemma normalizeReportResponse_derivable payload requestBody :
  Report.isRecord payload = true ->
  Report.isLegacyReportResponseBody payload = None ->
  (forall candidate entry,
     candidate ∈ arrayItems (getField "dimensions" payload) ->
     entry ∈ arrayItems (getField "evidence" candidate) ->
     ~ suppliesBoth entry) ->
  Forall (fun dimension => Forall derivable (da_evidence dimension))
    (dimensions (Report.normalizeReportResponse payload requestBody)).
Proof.
  intros Hrecord Hlegacy Hnot. unfold Report.normalizeReportResponse.
  set (context := Report.normalizedContextFromRequest requestBody).
  rewrite (normalizeFromUnknown_record _ _ Hrecord Hlegacy).
  assert (Hfirst : Forall (fun dimension => Forall wellGraded (da_evidence dimension))
                     (dimensions (Report.normalizeModernReport payload context))).
  { apply normalizeModernReport_evidence.
    intros rawValue index notObserved label [->|(candidate & Hcandidate & ->)];
      apply normalizeEvidence_wellGraded.
    - intros entry Hentry. by apply elem_of_nil in Hentry.
    - intros entry. by apply Hnot. }
  apply normalizeModernReport_evidence.
  intros rawValue index notObserved label [->|(candidate & Hcandidate & ->)].
  - apply normalizeEvidence_derivable. intros entry Hentry. by apply elem_of_nil in Hentry.
  - rewrite encodeReport_dimensions in Hcandidate.
    apply list_elem_of_In, in_map_iff in Hcandidate as (dimension & <- & Hdimension).
    rewrite encodeDimension_evidence. apply normalizeEvidence_reencoded.
    apply (proj1 (Forall_forall _ _) Hfirst). by apply list_elem_of_In.
Qed.

End CandidateEvidence.

(** C6, as the code has it.  In the Scorecard that [normalizeReportResponse]
    returns for a payload object that is not legacy-shaped, every evidence
    entry has the strength derived from its relevance (relevance >= 0.75
    strong, >= 0.45 medium, else weak) when no candidate evidence entry of
    the payload carries both a valid strength and a numeric relevance or
    confidence of its own: a missing strength is derived from the
    relevance, a missing relevance from the strength (strong 0.84, medium
    0.62, weak 0.38, which map back), and back-filled entries are medium
    with relevance 0.64.  The same holds of every single call of
    [normalizeEvidence]. *)
Theorem evidence_strength_derived_from_relevance `{JsBuiltins} :
  (forall (rawValue : JsonValue) (context : NormalizeContext) (dimensionIndex : nat)
          (notObserved : bool) (dimensionLabel : string),
     (forall entry, entry ∈ arrayItems rawValue -> ~ suppliesBoth entry) ->
     Forall derivable
       (Report.normalizeEvidence rawValue context dimensionIndex notObserved dimensionLabel))
  /\ (forall (payload : JsonValue) (requestBody : ReportRequestBody),
        Report.isRecord payload = true ->
        Report.isLegacyReportResponseBody payload = None ->
        (forall candidate entry,
           candidate ∈ arrayItems (getField "dimensions" payload) ->
           entry ∈ arrayItems (getField "evidence" candidate) ->
           ~ suppliesBoth entry) ->
        forall dimension entry,
          dimension ∈ dimensions (Report.normalizeReportResponse payload requestBody) ->
          entry ∈ da_evidence dimension ->
          ev_strength entry = Report.strengthFromRelevance (ev_relevance entry)).
Proof.
  split; [intros; by apply normalizeEvidence_derivable|].
  intros payload requestBody Hrecord Hlegacy Hnot dimension entry Hdimension Hentry.
  pose proof (normalizeReportResponse_derivable payload requestBody Hrecord Hlegacy Hnot)
    as Hall.
  apply (proj1 (Forall_forall _ _) Hall) in Hdimension.
  by apply (proj1 (Forall_forall _ _) Hdimension).
Qed.

(** *** Explicit strength and relevance *)

(** C6, as stated, fails: a candidate entry that carries strength "weak"
    and relevance 0.9 is kept with both, although 0.9 maps to strong. *)
Lemma explicit_strength_not_derived :
  let evidence :=
    concat
      (map da_evidence
         (dimensions
            (Report.normalizeReportResponse (H := referenceBuiltins)
               (clarityPayload [weakButRelevant]) twoSegmentRequest))) in
  map (fun entry =>
         (ev_segmentId entry, ev_strength entry, ev_relevance entry,
          Report.strengthFromRelevance (ev_relevance entry)))
      evidence
  = [ ("s1", weak, 0.9%Q, strong) ]
  /\ ~ Forall derivable evidence.
Proof.
  intros evidence.
  assert (Hentries :
            map (fun entry =>
                   (ev_segmentId entry, ev_strength entry, ev_relevance entry,
                    Report.strengthFromRelevance (ev_relevance entry)))
                evidence
            = [ ("s1", weak, 0.9%Q, strong) ]) by (vm_compute; reflexivity).
  split; [exact Hentries|]. intros Hall.
  destruct evidence as [|entry rest]; [discriminate Hentries|].
  apply Forall_inv in Hall. unfold derivable in Hall.
  injection Hentries as _ Hstrength _ Hderived _.
  rewrite Hstrength, Hderived in Hall. discriminate Hall.
Qed.

(** The mock generator itself labels its first citation strong at a
    relevance of 0.7, which maps to medium. *)
Example mock_strength_not_derived :
  map (fun entry =>
         (ev_strength entry, Report.strengthFromRelevance (ev_relevance entry)))
      (concat
         (map da_evidence
            (dimensions
               (Report.normalizeReportResponse (H := referenceBuiltins) JNull
                  twoSegmentRequest))))
  = [ (strong, medium); (medium, medium) ].
Proof. vm_compute. reflexivity. Qed.

Lemma evidence_strength_derived_from_relevance_witness :
  Report.isRecord (clarityPayload [relevantOnly]) = true
  /\ Report.isLegacyReportResponseBody (H := referenceBuiltins) (clarityPayload [relevantOnly])
     = None
  /\ (forall candidate entry,
        candidate ∈ arrayItems (getField "dimensions" (clarityPayload [relevantOnly])) ->
        entry ∈ arrayItems (getField "evidence" candidate) ->
        ~ suppliesBoth (H := referenceBuiltins) entry)
  /\ (forall dimension entry,
        dimension ∈ dimensions
                      (Report.normalizeReportResponse (H := referenceBuiltins)
                         (clarityPayload [relevantOnly]) twoSegmentRequest) ->
        entry ∈ da_evidence dimension ->
        ev_strength entry = Report.strengthFromRelevance (ev_relevance entry)).
Proof.
  assert (Hrecord : Report.isRecord (clarityPayload [relevantOnly]) = true) by reflexivity.
  assert (Hlegacy : Report.isLegacyReportResponseBody (H := referenceBuiltins)
                      (clarityPayload [relevantOnly]) = None) by reflexivity.
  assert (Hnone : forall candidate entry,
             candidate ∈ arrayItems (getField "dimensions" (clarityPayload [relevantOnly])) ->
             entry ∈ arrayItems (getField "evidence" candidate) ->
             ~ suppliesBoth (H := referenceBuiltins) entry).
  { intros candidate entry Hcandidate Hentry.
    apply list_elem_of_singleton in Hcandidate as ->.
    apply list_elem_of_singleton in Hentry as ->.
    intros [[strength Hstrength] _]. vm_compute in Hstrength. discriminate. }
  split; [exact Hrecord|]. split; [exact Hlegacy|]. split; [exact Hnone|].
  apply (proj2 (evidence_strength_derived_from_relevance (H := referenceBuiltins))
           (clarityPayload [relevantOnly]) twoSegmentRequest Hrecord Hlegacy Hnone).
Defined.

(** ** The evidence minimum *)

(** C7 fails on the code.  With two segments available the minimum is 2,
    but for the dimension at index 0 and a candidate that already cites the
    first segment, the picker, asked for the one missing entry, starts at
    offset 0 and returns that same first segment; the back-fill loop skips
    it as already seen, and the dimension is left with one entry. *)
Theorem backfill_misses_minimum :
  let context := Report.normalizedContextFromRequest twoSegmentRequest in
  let evidence :=
    Report.normalizeEvidence (H := referenceBuiltins) (JArray [citesS1]) context 0 false
      "Communication Clarity" in
  (length evidence < Nat.min 2 (length (ctx_segments context)))%nat
  /\ map seg_id (Report.pickFallbackEvidenceSegments context 0 1) = ["s1"]
  /\ map ev_segmentId evidence = ["s1"]
  /\ map (fun dimension => (da_notObserved dimension, map ev_segmentId (da_evidence dimension)))
       (dimensions
          (Report.normalizeReportResponse (H := referenceBuiltins)
             (clarityPayload [citesS1]) twoSegmentRequest))
     = [ (false, ["s1"]) ].
Proof.
  repeat split; vm_compute; reflexivity.
Qed.

(** Elsewhere the back-fill reaches the minimum: with no candidate the
    dimension gets both segments, and so does a dimension at index 1 whose
    candidate cites the first segment, because the picker then starts from
    the second. *)
Example backfill_reaches_minimum_elsewhere :
  let context := Report.normalizedContextFromRequest twoSegmentRequest in
  map ev_segmentId
    (Report.normalizeEvidence (H := referenceBuiltins) JUndefined context 0 false
       "Communication Clarity") = ["s1"; "s2"]
  /\ map ev_segmentId
       (Report.normalizeEvidence (H := referenceBuiltins) (JArray [citesS1]) context 1 false
          "Communication Clarity") = ["s1"; "s2"].
Proof. split; vm_compute; reflexivity. Qed.

(** ** Completeness of the normalized Scorecard *)

Lemma uniqueInOrder_from (l : list string) : forall acc,
  NoDup (acc ++ l) ->
  fold_left (fun acc x => if bool_decide (x ∈ acc) then acc else acc ++ [x]) l acc = acc ++ l.
Proof.
  induction l as [|x l IH]; intros acc Hnodup; simpl.
  - by rewrite app_nil_r.
  - rewrite bool_decide_eq_false_2.
    + rewrite IH; by rewrite <- app_assoc.
    + apply NoDup_app in Hnodup as (_ & Hdisj & _). intros Hin.
      apply (Hdisj x Hin), list_elem_of_here.
Qed.

Lemma uniqueInOrder_distinct (l : list string) : NoDup l -> uniqueInOrder l = l.
Proof. intros Hnodup. by apply (uniqueInOrder_from l []). Qed.

Lemma ensureMinItems_max entries fallbackEntries minItems maxItems :
  (length (Report.ensureMinItems entries fallbackEntries minItems maxItems) <= maxItems)%nat.
Proof. unfold Report.ensureMinItems. rewrite length_take. lia. Qed.

Lemma ensureMinItems_grows (minItems : nat) (fallbackEntries : list string) : forall result,
  (length result
   <= length
        (fold_left
           (fun result fallbackEntry =>
              if (minItems <=? length result)%nat then result
              else if bool_decide (fallbackEntry ∈ result) then result
              else result ++ [fallbackEntry])
           fallbackEntries result))%nat.
Proof.
  induction fallbackEntries as [|x fallbackEntries IH]; intros result; simpl; [lia|].
  etransitivity; [|apply IH].
  destruct (minItems <=? length result)%nat; [lia|].
  case_bool_decide; [lia|]. rewrite length_app. simpl. lia.
Qed.

Lemma ensureMinItems_nonempty entries fallbackEntry fallbackEntries minItems maxItems :
  (1 <= minItems)%nat -> (1 <= maxItems)%nat ->
  (1 <= length (Report.ensureMinItems entries (fallbackEntry :: fallbackEntries)
                  minItems maxItems))%nat.
Proof.
  intros Hmin Hmax. unfold Report.ensureMinItems. rewrite length_take.
  cbn [fold_left].
  set (first := if (minItems <=? length entries)%nat then entries
                else if bool_decide (fallbackEntry ∈ entries) then entries
                else entries ++ [fallbackEntry]).
  pose proof (ensureMinItems_grows minItems fallbackEntries first) as Hgrow.
  assert (Hfirst : (1 <= length first)%nat).
  { subst first. destruct (minItems <=? length entries)%nat eqn:Hlen.
    - apply Nat.leb_le in Hlen. lia.
    - case_bool_decide as Hin.
      + destruct entries; [by apply elem_of_nil in Hin|simpl; lia].
      + rewrite length_app. simpl. lia. }
  lia.
Qed.

Section Completeness.

Context `{JsBuiltins}.

Lemma normalizeConfidence_percent rawConfidence evidenceQuality consistency ratio :
  exists percent : Z,
    (0 <= percent <= 100)%Z
    /\ Report.normalizeConfidence rawConfidence evidenceQuality consistency ratio
       = inject_Z percent.
Proof.
  unfold Report.normalizeConfidence.
  destruct (Report.toFiniteNumber rawConfidence) as [explicitConfidence|];
    apply round_percent; by apply clamp_bounds.
Qed.

Lemma normalizeDimension_populated rawDimension descriptor dimensionIndex context :
  populatedFor context descriptor
    (Report.normalizeDimension rawDimension descriptor dimensionIndex context).
Proof.
  unfold populatedFor, Report.normalizeDimension.
  cbn [da_id da_label da_score da_notObserved da_confidence da_missingSignals da_evidence
       da_evidenceCoverage da_evidenceQuality da_consistency].
  set (rawRecord := if Report.isRecord rawDimension then rawDimension else JObject []).
  set (notObserved := match getField "notObserved" rawRecord with
                      | JBool rawNotObserved => rawNotObserved
                      | _ => false
                      end).
  set (evidence := Report.normalizeEvidence _ context dimensionIndex notObserved _).
  destruct (normalizeEvidence_bounds (getField "evidence" rawRecord) context dimensionIndex
              notObserved (dim_label descriptor)) as [Hlength Hnodup].
  fold evidence in Hlength, Hnodup.
  split; [reflexivity|]. split; [reflexivity|]. split.
  { destruct (Report.toFiniteNumber (getField "score" rawRecord)) as [rawScore|]; [|exact I].
    destruct notObserved; [exact I|]. split; [reflexivity|].
    apply (clamp_level (Qfloor (rawScore + 0.5)) 1 5). lia. }
  split; [apply normalizeConfidence_percent|]. split.
  { split; [|apply ensureMinItems_max].
    destruct notObserved; apply ensureMinItems_nonempty; lia. }
  split; [exact Hlength|]. split; [exact Hnodup|]. split.
  { by rewrite (uniqueInOrder_distinct _ Hnodup), length_map. }
  split; apply clamp_bounds; discriminate.
Qed.

Lemma Forall2_imap {A B : Type} (P : A -> B -> Prop) (l : list A) :
  forall f : nat -> A -> B, (forall i x, P x (f i x)) -> Forall2 P l (imap f l).
Proof.
  induction l as [|x l IH]; intros f Hf; simpl; constructor; [apply Hf|].
  apply IH. intros i y. apply Hf.
Qed.

Lemma normalizeModernReport_populated sourceReport context :
  Forall2 (populatedFor context) (ctx_dimensions context)
    (dimensions (Report.normalizeModernReport sourceReport context)).
Proof. apply Forall2_imap. intros. apply normalizeDimension_populated. Qed.

End Completeness.


(** The example of the specification: the legacy report with one item for
    [clarity] scored 4 gives the [clarity] assessment a score of 4,
    observed. *)
Example legacy_example_score :
  map (fun dimension => (da_id dimension, da_score dimension, da_notObserved dimension))
    (dimensions (Report.normalizeReportResponse (H := referenceBuiltins) legacyExample
                   oneSegmentRequest))
  = [ ("clarity", Some 4%Q, false) ].
Proof. vm_compute. reflexivity. Qed.

(** The other example: the empty object gives one assessment for [clarity]
    with one available segment, and [bySegment] holds the cited [s1] only. *)
Example empty_object_example :
  let report :=
    Report.normalizeReportResponse (H := referenceBuiltins) (JObject []) oneSegmentRequest in
  map (fun dimension =>
         (da_id dimension, da_notObserved dimension,
          availableSegmentCount (da_evidenceCoverage dimension)))
    (dimensions report) = [ ("clarity", false, 1%nat) ]
  /\ overallRecommendation report = LeanNo
  /\ map fst (map_to_list (bySegment (coverageMap report))) = ["s1"].
Proof. repeat split; vm_compute; reflexivity. Qed.

(** ** The recommendation of the payload is not read *)

Section Noninterference.

Context `{JsBuiltins}.

Lemma normalizeFromUnknown_object fields context :
  Report.normalizeFromUnknown (JObject fields) context
  = match Report.isLegacyReportResponseBody (JObject fields) with
    | Some legacy =>
        Report.fromLegacyReport legacy
          {| opt_dimensions := ctx_dimensions context;
             opt_availableSegmentCount := ctx_availableSegmentCount context;
             opt_segments := Some (ctx_segments context) |}
    | None => Report.normalizeModernReport (JObject fields) context
    end.
Proof.
  unfold Report.normalizeFromUnknown.
  destruct (Report.isLegacyReportResponseBody (JObject fields)); [reflexivity|].
  by destruct (Report.isModernReportResponseBody (JObject fields)).
Qed.

Variables (fields1 fields2 : list (string * JsonValue)).
Hypothesis same_fields :
  forall other, other <> "overallRecommendation" ->
                assocField other fields1 = assocField other fields2.

Lemma same_field other :
  other <> "overallRecommendation" ->
  getField other (JObject fields1) = getField other (JObject fields2).
Proof. apply same_fields. Qed.

Lemma isLegacyReportResponseBody_same :
  Report.isLegacyReportResponseBody (JObject fields1)
  = Report.isLegacyReportResponseBody (JObject fields2).
Proof.
  unfold Report.isLegacyReportResponseBody.
  by rewrite (same_field "summary"), (same_field "items").
Qed.

Lemma normalizeModernReport_same context :
  Report.normalizeModernReport (JObject fields1) context
  = Report.normalizeModernReport (JObject fields2) context.
Proof.
  unfold Report.normalizeModernReport, Report.buildTopLevelArrays.
  rewrite (same_field "dimensions"), (same_field "leveling"),
    (same_field "calibrationNotes"), (same_field "overallSummary"),
    (same_field "decisionRationale"), (same_field "keyStrengths"),
    (same_field "keyRisks"), (same_field "followUps"), (same_field "risks"),
    (same_field "mustFixToHire") by done.
  reflexivity.
Qed.

Lemma normalizeFromUnknown_same context :
  Report.normalizeFromUnknown (JObject fields1) context
  = Report.normalizeFromUnknown (JObject fields2) context.
Proof.
  rewrite !normalizeFromUnknown_object, isLegacyReportResponseBody_same.
  destruct (Report.isLegacyReportResponseBody (JObject fields2)); [reflexivity|].
  apply normalizeModernReport_same.
Qed.

End Noninterference.

(** C10. The [overallRecommendation] of the untrusted payload has no effect
    on the output: two payloads that differ only in that property are
    normalized to identical Scorecards, and the [overallRecommendation] of
    the output is the one the calibration algorithm derives from the
    normalized dimension assessments of that same output. *)
Theorem input_recommendation_ignored `{JsBuiltins}
    (payload1 payload2 : JsonValue) (requestBody : ReportRequestBody) :
  differOnlyIn "overallRecommendation" payload1 payload2 ->
  Report.normalizeReportResponse payload1 requestBody
  = Report.normalizeReportResponse payload2 requestBody
  /\ overallRecommendation (Report.normalizeReportResponse payload1 requestBody)
     = Report.cal_recommendation
         (Report.deriveCalibratedRecommendation
            (dimensions (Report.normalizeReportResponse payload1 requestBody))).
Proof.
  intros Hdiffer. split; [|reflexivity].
  unfold Report.normalizeReportResponse.
  destruct payload1, payload2; simpl in Hdiffer;
    try discriminate Hdiffer; try reflexivity; try (by injection Hdiffer as ->).
  by rewrite (normalizeFromUnknown_same _ _ Hdiffer).
Qed.

Lemma input_recommendation_ignored_witness :
  differOnlyIn "overallRecommendation" (announcing "StrongHire") (announcing "No")
  /\ Report.normalizeReportResponse (H := referenceBuiltins) (announcing "StrongHire")
       panelRequest
     = Report.normalizeReportResponse (H := referenceBuiltins) (announcing "No") panelRequest.
Proof.
  assert (Hdiffer : differOnlyIn "overallRecommendation"
                      (announcing "StrongHire") (announcing "No")).
  { intros other Hother. simpl.
    destruct (String.eqb_spec other "overallRecommendation"); [contradiction|reflexivity]. }
  split; [exact Hdiffer|].
  apply (input_recommendation_ignored (H := referenceBuiltins) _ _ panelRequest Hdiffer).
Defined.

Example announced_recommendation_example :
  overallRecommendation
    (Report.normalizeReportResponse (H := referenceBuiltins) (announcing "StrongHire")
       panelRequest) = LeanNo.
Proof. vm_compute. reflexivity. Qed.

(** * Further properties of the code *)

(** ** What the interval merge keeps *)

Lemma elem_of_rev {A : Type} (x : A) (l : list A) : x ∈ rev l <-> x ∈ l.
Proof. rewrite !list_elem_of_In. symmetry. apply in_rev. Qed.

Section IntervalSweepCover.

Context {I : Type} (startOf endOf : I -> Q) (absorb : I -> I -> I).
Hypothesis absorb_start : forall last interval, startOf (absorb last interval) = startOf last.

(** What an interval keeps of the ones it absorbs. *)
Context (kept : I -> I -> Prop).
Hypothesis kept_refl : forall a, kept a a.
Hypothesis kept_trans : forall a b c, kept a b -> kept b c -> kept a c.
Hypothesis kept_absorb : forall last x,
  startsInOrder startOf last x -> kept last (absorb last x) /\ kept x (absorb last x).

Local Abbreviation inOrder := (startsInOrder startOf).
Local Abbreviation stepI := (sweepStep startOf endOf absorb).

Lemma insertByStart_perm x l : insertByStart startOf x l ≡ₚ x :: l.
Proof.
  induction l as [|y l IH]; simpl; [reflexivity|].
  destruct (Qle_bool (startOf x) (startOf y)); [reflexivity|].
  rewrite IH. apply Permutation_swap.
Qed.

Lemma sortByStart_perm l : sortByStart startOf l ≡ₚ l.
Proof.
  induction l as [|x l IH]; simpl; [reflexivity|].
  rewrite insertByStart_perm. by rewrite IH.
Qed.

Lemma sweep_fold_covers eps l : forall merged,
  StronglySorted inOrder l ->
  (forall last, head merged = Some last -> Forall (inOrder last) l) ->
  forall a, a ∈ l \/ a ∈ merged -> exists m, m ∈ fold_left (stepI eps) l merged /\ kept a m.
Proof.
  induction l as [|x l IH]; intros merged Hl Hhd a Ha; simpl.
  - destruct Ha as [Ha|Ha]; [by apply elem_of_nil in Ha|].
    exists a. split; [exact Ha|apply kept_refl].
  - apply StronglySorted_inv in Hl as [Hl Hx].
    destruct merged as [|last before]; simpl.
    + apply IH; [exact Hl|by intros ? [= <-]|].
      destruct Ha as [Ha|Ha]; [|by apply elem_of_nil in Ha].
      apply elem_of_cons in Ha as [->|Ha]; [right; apply list_elem_of_here|by left].
    + specialize (Hhd last eq_refl). apply Forall_cons in Hhd as [Hlx Hll].
      destruct (Qle_bool (startOf x) (endOf last + eps)).
      * destruct (kept_absorb last x Hlx) as [Hlast Hxin].
        assert (Hnext : forall b, b ∈ l \/ b ∈ absorb last x :: before ->
                  exists m, m ∈ fold_left (stepI eps) l (absorb last x :: before) /\ kept b m).
        { apply IH; [exact Hl|]. intros ? [= <-].
          eapply Forall_impl; [exact Hll|]. intros z Hz.
          unfold startsInOrder in *. by rewrite absorb_start. }
        assert (Habsorbed : forall b, kept b (absorb last x) ->
                  exists m, m ∈ fold_left (stepI eps) l (absorb last x :: before) /\ kept b m).
        { intros b Hb. destruct (Hnext (absorb last x)) as (m & Hm & Hin);
            [right; apply list_elem_of_here|].
          exists m. split; [exact Hm|]. eapply kept_trans; eassumption. }
        destruct Ha as [Ha|Ha].
        -- apply elem_of_cons in Ha as [->|Ha]; [by apply Habsorbed|]. apply Hnext. by left.
        -- apply elem_of_cons in Ha as [->|Ha]; [by apply Habsorbed|].
           apply Hnext. right. by apply list_elem_of_further.
      * apply IH; [exact Hl|by intros ? [= <-]|].
        destruct Ha as [Ha|Ha].
        -- apply elem_of_cons in Ha as [->|Ha]; [right; apply list_elem_of_here|by left].
        -- right. by apply list_elem_of_further.
Qed.

Lemma sweep_fold_length eps l : forall merged,
  (length (fold_left (stepI eps) l merged) <= length l + length merged)%nat.
Proof.
  induction l as [|x l IH]; intros merged; simpl; [lia|].
  etransitivity; [apply IH|].
  destruct merged as [|last before]; simpl; [lia|].
  destruct (Qle_bool (startOf x) (endOf last + eps)); simpl; lia.
Qed.

Lemma sweep_covers eps l a :
  a ∈ l -> exists m, m ∈ sweep startOf endOf absorb eps l /\ kept a m.
Proof.
  intros Ha. unfold sweep.
  destruct (sweep_fold_covers eps (sortByStart startOf l) []) with (a := a)
    as (m & Hm & Hin).
  - apply sortByStart_sorted.
  - intros ? [=].
  - left. by rewrite sortByStart_perm.
  - exists m. split; [|exact Hin]. by apply elem_of_rev.
Qed.

Lemma sweep_length eps l : (length (sweep startOf endOf absorb eps l) <= length l)%nat.
Proof.
  unfold sweep. rewrite length_rev.
  etransitivity; [apply sweep_fold_length|].
  simpl. by rewrite (Permutation_length (sortByStart_perm l)), Nat.add_0_r.
Qed.

End IntervalSweepCover.

Section IntervalSweepOrigin.

Context {I : Type} (startOf endOf : I -> Q) (absorb : I -> I -> I).

(** A property that an absorbing interval can only have from one of the
    two it is made of. *)
Context (P : I -> Prop).
Hypothesis P_absorb : forall last x, P (absorb last x) -> P last \/ P x.

Lemma sweep_fold_origin eps l : forall merged m,
  m ∈ fold_left (sweepStep startOf endOf absorb eps) l merged -> P m ->
  exists a, (a ∈ l \/ a ∈ merged) /\ P a.
Proof.
  induction l as [|x l IH]; intros merged m Hm HP; simpl in Hm.
  - exists m. auto.
  - destruct (IH _ _ Hm HP) as (a & [Ha|Ha] & HPa).
    { exists a. split; [left; by apply list_elem_of_further|exact HPa]. }
    assert (Hx : x ∈ x :: l) by apply list_elem_of_here.
    destruct merged as [|last before]; simpl in Ha.
    + apply list_elem_of_singleton in Ha as ->. exists x. auto.
    + destruct (Qle_bool (startOf x) (endOf last + eps)).
      * apply elem_of_cons in Ha as [->|Ha].
        -- destruct (P_absorb _ _ HPa) as [HP'|HP'].
           ++ exists last. split; [right; apply list_elem_of_here|exact HP'].
           ++ exists x. auto.
        -- exists a. split; [right; by apply list_elem_of_further|exact HPa].
      * apply elem_of_cons in Ha as [->|Ha]; [exists x; auto|exists a; auto].
Qed.

Lemma sweep_origin eps l m :
  m ∈ sweep startOf endOf absorb eps l -> P m -> exists a, a ∈ l /\ P a.
Proof.
  unfold sweep. intros Hm HP. rewrite elem_of_rev in Hm.
  destruct (sweep_fold_origin _ _ _ _ Hm HP) as (a & [Ha|Ha] & HPa).
  - exists a. split; [|exact HPa]. by rewrite sortByStart_perm in Ha.
  - by apply elem_of_nil in Ha.
Qed.

End IntervalSweepOrigin.

Lemma uniqueInOrder_fold (l : list string) : forall acc,
  NoDup acc ->
  let result :=
    fold_left (fun acc x => if bool_decide (x ∈ acc) then acc else acc ++ [x]) l acc in
  NoDup result /\ (forall x, x ∈ result <-> x ∈ acc \/ x ∈ l).
Proof.
  induction l as [|y l IH]; intros acc Hacc; simpl.
  - split; [exact Hacc|]. intros x. rewrite elem_of_nil. tauto.
  - case_bool_decide as Hy.
    + destruct (IH acc Hacc) as [Hnodup Hin]. split; [exact Hnodup|].
      intros x. rewrite Hin, elem_of_cons. split; [tauto|]. intros [?|[->|?]]; auto.
    + destruct (IH (acc ++ [y])) as [Hnodup Hin].
      { apply NoDup_app. split; [exact Hacc|]. split; [|apply NoDup_singleton].
        intros x Hx ->%list_elem_of_singleton. contradiction. }
      split; [exact Hnodup|].
      intros x. rewrite Hin, elem_of_app, list_elem_of_singleton, elem_of_cons. tauto.
Qed.

Lemma uniqueInOrder_NoDup (l : list string) : NoDup (uniqueInOrder l).
Proof. apply (uniqueInOrder_fold l []), NoDup_nil_2. Qed.

Lemma elem_of_uniqueInOrder (x : string) (l : list string) : x ∈ uniqueInOrder l <-> x ∈ l.
Proof.
  destruct (uniqueInOrder_fold l [] (NoDup_nil_2)) as [_ Hin].
  unfold uniqueInOrder. rewrite Hin, elem_of_nil. tauto.
Qed.

Lemma within_refl {I : Type} (startOf endOf : I -> Q) a : within startOf endOf a a.
Proof. split; apply Qle_refl. Qed.

Lemma within_trans {I : Type} (startOf endOf : I -> Q) a b c :
  within startOf endOf a b -> within startOf endOf b c -> within startOf endOf a c.
Proof. intros [? ?] [? ?]. split; eapply Qle_trans; eassumption. Qed.

Lemma report_covers intervals eps interval :
  interval ∈ intervals ->
  exists merged, merged ∈ Report.mergeIntervals intervals eps
                 /\ within Report.iv_start Report.iv_end interval merged.
Proof.
  rewrite report_mergeIntervals_sweep. apply sweep_covers.
  - reflexivity.
  - apply within_refl.
  - apply within_trans.
  - intros last x Hlx. unfold within. simpl. repeat split.
    + apply Qle_refl.
    + apply Q.le_max_l.
    + exact Hlx.
    + apply Q.le_max_r.
Qed.

Lemma coverage_covers intervals eps interval :
  interval ∈ intervals ->
  exists merged, merged ∈ Coverage.mergeIntervals intervals eps /\ keeps interval merged.
Proof.
  rewrite coverage_mergeIntervals_sweep. apply sweep_covers.
  - reflexivity.
  - intros a. split; [apply within_refl|done].
  - intros a b c [Hab Hab'] [Hbc Hbc']. split; [by eapply within_trans|set_solver].
  - intros last x Hlx. unfold keeps, within. simpl. repeat split.
    + apply Qle_refl.
    + apply Q.le_max_l.
    + intros id Hid. apply elem_of_uniqueInOrder, elem_of_app. by left.
    + exact Hlx.
    + apply Q.le_max_r.
    + intros id Hid. apply elem_of_uniqueInOrder, elem_of_app. by right.
Qed.

(** X1. Merging never loses covered time.  For every interval list and
    every tolerance, each interval given to [mergeIntervals] lies within one
    of the intervals it returns: that one starts no later and ends no
    earlier.  In the copy of the UI coverage model the merged interval also
    lists every segment id of the interval it took in. *)
Theorem mergeIntervals_covers_every_input :
  (forall (X : list Report.TimeInterval) (epsilon : Q) (interval : Report.TimeInterval),
     interval ∈ X ->
     exists merged,
       merged ∈ Report.mergeIntervals X epsilon
       /\ within Report.iv_start Report.iv_end interval merged)
  /\ (forall (X : list Coverage.CoverageInterval) (epsilon : Q)
             (interval : Coverage.CoverageInterval),
        interval ∈ X ->
        exists merged, merged ∈ Coverage.mergeIntervals X epsilon /\ keeps interval merged).
Proof.
  split.
  - intros X epsilon interval Hin. by apply report_covers.
  - intros X epsilon interval Hin. by apply coverage_covers.
Qed.

Lemma report_origin intervals eps merged :
  merged ∈ Report.mergeIntervals intervals eps ->
  (exists a, a ∈ intervals /\ Report.iv_start merged = Report.iv_start a)
  /\ (exists b, b ∈ intervals /\ Report.iv_end merged = Report.iv_end b).
Proof.
  rewrite report_mergeIntervals_sweep. intros Hm. split.
  - apply (sweep_origin _ _ _ (fun a => Report.iv_start merged = Report.iv_start a))
      in Hm; [exact Hm| |reflexivity].
    intros last x. simpl. auto.
  - apply (sweep_origin _ _ _ (fun b => Report.iv_end merged = Report.iv_end b))
      in Hm; [exact Hm| |reflexivity].
    intros last x. simpl. destruct (max_cases (Report.iv_end last) (Report.iv_end x)) as [->| ->]; auto.
Qed.

Lemma coverage_origin intervals eps merged :
  merged ∈ Coverage.mergeIntervals intervals eps ->
  (exists a, a ∈ intervals /\ Coverage.ci_start merged = Coverage.ci_start a)
  /\ (exists b, b ∈ intervals /\ Coverage.ci_end merged = Coverage.ci_end b)
  /\ (forall id, id ∈ Coverage.ci_segmentIds merged ->
       exists c, c ∈ intervals /\ id ∈ Coverage.ci_segmentIds c).
Proof.
  rewrite coverage_mergeIntervals_sweep. intros Hm. repeat split.
  - apply (sweep_origin _ _ _ (fun a => Coverage.ci_start merged = Coverage.ci_start a))
      in Hm; [exact Hm| |reflexivity].
    intros last x. simpl. auto.
  - apply (sweep_origin _ _ _ (fun b => Coverage.ci_end merged = Coverage.ci_end b))
      in Hm; [exact Hm| |reflexivity].
    intros last x. simpl.
    destruct (max_cases (Coverage.ci_end last) (Coverage.ci_end x)) as [->| ->]; auto.
  - intros id Hid.
    apply (sweep_origin _ _ _ (fun c => id ∈ Coverage.ci_segmentIds c)) in Hm;
      [exact Hm| |exact Hid].
    intros last x. simpl. rewrite elem_of_uniqueInOrder, elem_of_app. tauto.
Qed.

(** X2. Merging invents nothing.  [mergeIntervals] returns at most as many
    intervals as it is given; each returned interval starts where one of
    the given intervals starts and ends where one of them ends; and, in the
    copy of the UI coverage model, every segment id it lists is listed by
    one of the given intervals. *)
Theorem mergeIntervals_invents_nothing :
  (forall (X : list Report.TimeInterval) (epsilon : Q),
     (length (Report.mergeIntervals X epsilon) <= length X)%nat
     /\ forall merged, merged ∈ Report.mergeIntervals X epsilon ->
          (exists a, a ∈ X /\ Report.iv_start merged = Report.iv_start a)
          /\ (exists b, b ∈ X /\ Report.iv_end merged = Report.iv_end b))
  /\ (forall (X : list Coverage.CoverageInterval) (epsilon : Q),
        (length (Coverage.mergeIntervals X epsilon) <= length X)%nat
        /\ forall merged, merged ∈ Coverage.mergeIntervals X epsilon ->
             (exists a, a ∈ X /\ Coverage.ci_start merged = Coverage.ci_start a)
             /\ (exists b, b ∈ X /\ Coverage.ci_end merged = Coverage.ci_end b)
             /\ (forall id, id ∈ Coverage.ci_segmentIds merged ->
                  exists c, c ∈ X /\ id ∈ Coverage.ci_segmentIds c)).
Proof.
  split; intros X epsilon; split.
  - rewrite report_mergeIntervals_sweep. apply sweep_length.
  - intros merged. apply report_origin.
  - rewrite coverage_mergeIntervals_sweep. apply sweep_length.
  - intros merged. apply coverage_origin.
Qed.

(** X3. The intervals [mergeIntervals] returns are in order of [start], and
    each starts more than the tolerance after the end of the one before it,
    in both copies of the algorithm and for every input. *)
Theorem mergeIntervals_sorted_and_separated :
  (forall (X : list Report.TimeInterval) (epsilon : Q),
     Sorted (apart Report.iv_start Report.iv_end epsilon) (Report.mergeIntervals X epsilon))
  /\ (forall (X : list Coverage.CoverageInterval) (epsilon : Q),
        Sorted (apart Coverage.ci_start Coverage.ci_end epsilon)
          (Coverage.mergeIntervals X epsilon)).
Proof.
  split; intros X epsilon.
  - rewrite report_mergeIntervals_sweep. by apply sweep_apart.
  - rewrite coverage_mergeIntervals_sweep. by apply sweep_apart.
Qed.

(** ** Padding a list to its minimum size *)

Section EnsureMinItems.

Variable minItems : nat.

Local Abbreviation pad :=
  (fold_left
     (fun (result : list string) fallbackEntry =>
        if (minItems <=? length result)%nat then result
        else if bool_decide (fallbackEntry ∈ result) then result
        else result ++ [fallbackEntry])).

Lemma pad_appends fallbackEntries : forall result,
  exists added, sublist added fallbackEntries /\ pad fallbackEntries result = result ++ added.
Proof.
  induction fallbackEntries as [|x fallbackEntries IH]; intros result; simpl.
  - exists []. split; [constructor|by rewrite app_nil_r].
  - destruct (minItems <=? length result)%nat.
    + destruct (IH result) as (added & Hsub & ->).
      exists added. split; [by apply sublist_cons|reflexivity].
    + case_bool_decide.
      * destruct (IH result) as (added & Hsub & ->).
        exists added. split; [by apply sublist_cons|reflexivity].
      * destruct (IH (result ++ [x])) as (added & Hsub & ->).
        exists (x :: added). split; [by apply sublist_skip|by rewrite <- app_assoc].
Qed.

Lemma pad_enough fallbackEntries : forall result,
  (minItems <= length result)%nat -> pad fallbackEntries result = result.
Proof.
  induction fallbackEntries as [|x fallbackEntries IH]; intros result Hlen; simpl; [done|].
  apply Nat.leb_le in Hlen as Hleb. rewrite Hleb. by apply IH.
Qed.

Lemma pad_NoDup fallbackEntries : forall result,
  NoDup result -> NoDup (pad fallbackEntries result).
Proof.
  induction fallbackEntries as [|x fallbackEntries IH]; intros result Hnodup; simpl; [done|].
  destruct (minItems <=? length result)%nat; [by apply IH|].
  case_bool_decide as Hin; [by apply IH|]. apply IH.
  apply NoDup_app. split; [exact Hnodup|]. split; [|apply NoDup_singleton].
  intros y Hy ->%list_elem_of_singleton. contradiction.
Qed.

(** When the loop ends below the minimum it never left early, so every
    fallback entry is in the result. *)
Lemma pad_short fallbackEntries : forall result,
  (length (pad fallbackEntries result) < minItems)%nat ->
  forall x, x ∈ fallbackEntries \/ x ∈ result -> x ∈ pad fallbackEntries result.
Proof.
  induction fallbackEntries as [|y fallbackEntries IH]; intros result Hshort x Hx; simpl in *.
  - destruct Hx as [Hx|Hx]; [by apply elem_of_nil in Hx|exact Hx].
  - pose proof (ensureMinItems_grows minItems fallbackEntries
                  (if (minItems <=? length result)%nat then result
                   else if bool_decide (y ∈ result) then result else result ++ [y])) as Hgrow.
    apply IH; [exact Hshort|].
    destruct (minItems <=? length result)%nat eqn:Hlen.
    { apply Nat.leb_le in Hlen. lia. }
    case_bool_decide as Hy.
    + destruct Hx as [Hx|Hx]; [|by right].
      apply elem_of_cons in Hx as [->|Hx]; [by right|by left].
    + destruct Hx as [Hx|Hx].
      * apply elem_of_cons in Hx as [->|Hx]; [|by left].
        right. apply elem_of_app. right. apply list_elem_of_here.
      * right. apply elem_of_app. by left.
Qed.

End EnsureMinItems.

(** X4. [ensureMinItems] only ever appends and truncates.  Its result is
    the first [maxItems] elements of the given entries followed by some of
    the fallback entries, in their order; the fallback entries are not used
    at all when the entries already reach the minimum; no element is
    repeated unless the given entries repeat it; and the result never has
    more than [maxItems] elements. *)
Theorem ensureMinItems_appends_and_truncates
    (entries fallbackEntries : list string) (minItems maxItems : nat) :
  let result := Report.ensureMinItems entries fallbackEntries minItems maxItems in
  (exists added, sublist added fallbackEntries /\ result = take maxItems (entries ++ added))
  /\ ((minItems <= length entries)%nat -> result = take maxItems entries)
  /\ (NoDup entries -> NoDup result)
  /\ (length result <= maxItems)%nat.
Proof.
  unfold Report.ensureMinItems. cbv zeta. repeat split.
  - destruct (pad_appends minItems fallbackEntries entries) as (added & Hsub & ->).
    by exists added.
  - intros Hlen. by rewrite pad_enough.
  - intros Hnodup. eapply sublist_NoDup; [|apply sublist_take]. by apply pad_NoDup.
  - rewrite length_take. lia.
Qed.

Lemma ensureMinItems_at_least
    (entries fallbackEntries distinct : list string) (minItems maxItems : nat) :
  NoDup distinct -> distinct ⊆ fallbackEntries -> (minItems <= length distinct)%nat ->
  (Nat.min minItems maxItems
   <= length (Report.ensureMinItems entries fallbackEntries minItems maxItems))%nat.
Proof.
  intros Hnodup Hsub Hlen. unfold Report.ensureMinItems. rewrite length_take.
  match goal with |- context [length (fold_left ?f _ _)] => set (step := f) end.
  destruct (decide (length (fold_left step fallbackEntries entries) < minItems)%nat)
    as [Hshort|Hok]; [|lia].
  exfalso.
  assert (Hall : distinct ⊆ fold_left step fallbackEntries entries).
  { intros x Hx. apply (pad_short minItems); [exact Hshort|]. left. by apply Hsub. }
  pose proof (submseteq_length _ _ (NoDup_submseteq _ _ Hnodup Hall)). lia.
Qed.

Lemma ensureMinItems_NoDup entries fallbackEntries minItems maxItems :
  NoDup entries -> NoDup (Report.ensureMinItems entries fallbackEntries minItems maxItems).
Proof.
  intros Hnodup. unfold Report.ensureMinItems.
  eapply sublist_NoDup; [|apply sublist_take]. by apply pad_NoDup.
Qed.

(** X5. [ensureMinItems] reaches the minimum whenever the fallback entries
    hold that many distinct strings: the result then has at least
    [min(minItems, maxItems)] elements, whatever the given entries are. *)
Theorem ensureMinItems_reaches_minimum
    (entries fallbackEntries distinct : list string) (minItems maxItems : nat) :
  NoDup distinct -> distinct ⊆ fallbackEntries -> (minItems <= length distinct)%nat ->
  (Nat.min minItems maxItems
   <= length (Report.ensureMinItems entries fallbackEntries minItems maxItems))%nat.
Proof.
  intros Hnodup Hsub Hlen.
  pose proof (ensureMinItems_at_least entries fallbackEntries distinct minItems maxItems
                Hnodup Hsub Hlen) as Hreached.
  exact Hreached.
Qed.

Lemma ensureMinItems_reaches_minimum_witness :
  (2 <= length (Report.ensureMinItems ["kept"] ["kept"; "first"; "second"] 2 4))%nat.
Proof.
  apply (ensureMinItems_reaches_minimum ["kept"] ["kept"; "first"; "second"]
           ["first"; "second"] 2 4).
  - by apply (bool_decide_unpack (NoDup ["first"; "second"])).
  - intros x Hx. by apply list_elem_of_further.
  - simpl. lia.
Defined.

(** ** Reading untrusted strings and numbers *)

(** X6. [toStringArray] of an array holds exactly the trimmed forms of the
    strings of the array that are not blank, each once (in the order of
    their first occurrence, being [Array.from] of a [Set]); elements that
    are not strings are dropped, and the fallback is not used for an
    array, even an empty one. *)
Theorem toStringArray_distinct_trimmed `{JsBuiltins}
    (items : list JsonValue) (fallback : list string) :
  let result := Report.toStringArray (JArray items) fallback in
  NoDup result
  /\ forall entry,
       entry ∈ result
       <-> entry <> emptyString /\ exists s, JString s ∈ items /\ entry = trim s.
Proof.
  cbn. split; [apply uniqueInOrder_NoDup|].
  intros entry. rewrite elem_of_uniqueInOrder, list_elem_of_omap. split.
  - intros (item & Hitem & Hsome). destruct item; try discriminate Hsome.
    simpl in Hsome. destruct (String.eqb_spec (trim s) emptyString) as [Heq|Hne];
      simpl in Hsome; [discriminate|].
    injection Hsome as <-. split; [exact Hne|]. by exists s.
  - intros (Hne & s & Hs & ->). exists (JString s). split; [exact Hs|]. simpl.
    destruct (String.eqb_spec (trim s) emptyString); [contradiction|reflexivity].
Qed.

Lemma clamp_above (value : Q) : (1 <= value)%Q -> (Report.clamp value 0 1 == 1)%Q.
Proof.
  intros Hle. unfold Report.clamp, JsMath.min, JsMath.max.
  apply Q.min_l. eapply Qle_trans; [exact Hle|]. apply Q.le_max_r.
Qed.

Lemma clamp_below (value : Q) : (value <= 0)%Q -> (Report.clamp value 0 1 == 0)%Q.
Proof.
  intros Hle. unfold Report.clamp, JsMath.min, JsMath.max.
  rewrite Q.max_l by exact Hle. by apply Q.min_r.
Qed.

(** X7. [toRelevance] returns a proportion: every number it returns is
    from 0 to 1.  A number from 0 to 1 is kept; a number above 1 and up to
    100 is read as a percentage and divided by 100 (so 1 is kept as 1, and
    anything just above 1 becomes just above 0.01); a number above 100
    gives 1 and a negative number gives 0. *)
Theorem toRelevance_reads_percentages `{JsBuiltins} :
  (forall value relevance,
     Report.toRelevance value = Some relevance -> isUnitInterval relevance)
  /\ (forall q : Q, (0 <= q)%Q -> (q <= 1)%Q ->
        exists relevance, Report.toRelevance (JNumber q) = Some relevance /\ (relevance == q)%Q)
  /\ (forall q : Q, (1 < q)%Q -> (q <= 100)%Q ->
        exists relevance,
          Report.toRelevance (JNumber q) = Some relevance /\ (relevance == q / 100)%Q)
  /\ (forall q : Q, (100 < q)%Q ->
        exists relevance, Report.toRelevance (JNumber q) = Some relevance /\ (relevance == 1)%Q)
  /\ (forall q : Q, (q < 0)%Q ->
        exists relevance, Report.toRelevance (JNumber q) = Some relevance /\ (relevance == 0)%Q).
Proof.
  split; [|repeat split].
  - intros value relevance Hsome. unfold Report.toRelevance in Hsome.
    destruct (Report.toFiniteNumber value) as [numeric|]; [|discriminate].
    destruct (JsMath.ltb 1 numeric && JsMath.leb numeric 100); injection Hsome as <-;
      by apply clamp_bounds.
  - intros q Hlow Hhigh. unfold Report.toRelevance. simpl.
    assert (Hnot : JsMath.ltb 1 q = false) by by apply ltb_ge.
    rewrite Hnot. simpl. eexists. split; [reflexivity|]. by apply clamp_unit.
  - intros q Hlow Hhigh. unfold Report.toRelevance. simpl.
    assert (Hone : JsMath.ltb 1 q = true) by by apply ltb_lt.
    assert (Hhundred : JsMath.leb q 100 = true) by by apply leb_le.
    rewrite Hone, Hhundred. simpl. eexists. split; [reflexivity|]. apply clamp_unit. split.
    + apply Qle_shift_div_l; [reflexivity|]. rewrite Qmult_0_l.
      apply Qlt_le_weak. eapply Qlt_trans; [|exact Hlow]. reflexivity.
    + apply Qle_shift_div_r; [reflexivity|]. by rewrite Qmult_1_l.
  - intros q Hhigh. unfold Report.toRelevance. simpl.
    assert (Hhundred : JsMath.leb q 100 = false) by by apply leb_gt.
    rewrite Hhundred, andb_false_r. eexists. split; [reflexivity|]. apply clamp_above.
    apply Qlt_le_weak. eapply Qlt_trans; [|exact Hhigh]. reflexivity.
  - intros q Hneg. unfold Report.toRelevance. simpl.
    assert (Hnot : JsMath.ltb 1 q = false).
    { apply ltb_ge. apply Qlt_le_weak. eapply Qlt_trans; [exact Hneg|]. reflexivity. }
    rewrite Hnot. simpl. eexists. split; [reflexivity|]. apply clamp_below.
    by apply Qlt_le_weak.
Qed.

(** X8. The two views of an evidence entry's confidence agree.  The
    relevance that [relevanceFromStrength] gives a strength is read back by
    [strengthFromRelevance] as that same strength, and a higher relevance
    never gives a lower strength. *)
Theorem strength_and_relevance_agree :
  (forall strength,
     Report.strengthFromRelevance (Report.relevanceFromStrength strength) = strength)
  /\ (forall low high : Q,
        (low <= high)%Q ->
        (strengthRank (Report.strengthFromRelevance low)
         <= strengthRank (Report.strengthFromRelevance high))%nat).
Proof.
  split.
  - intros strength. by destruct strength.
  - intros low high Hle. unfold Report.strengthFromRelevance.
    assert (Hstep : forall threshold, JsMath.leb threshold low = true ->
                                      JsMath.leb threshold high = true).
    { intros t Ht. apply leb_le. apply leb_le in Ht. eapply Qle_trans; eassumption. }
    destruct (JsMath.leb 0.75 low) eqn:H1; [by rewrite (Hstep _ H1)|].
    destruct (JsMath.leb 0.45 low) eqn:H2;
      [rewrite (Hstep _ H2); destruct (JsMath.leb 0.75 high); simpl; lia|].
    destruct (JsMath.leb 0.75 high), (JsMath.leb 0.45 high); simpl; lia.
Qed.

(** ** The weighted score and the level derived from it *)

Section WeightedScore.

Context `{JsBuiltins}.

Lemma weight_positive key : (0 < Report.weightForDimension key)%Q.
Proof. unfold Report.weightForDimension. repeat case_match; reflexivity. Qed.

(** The weighted sum stays between [low] and [high] times the weight sum. *)
Lemma weightedTotals_between (low high : Q) dimensions : forall init,
  (forall d, d ∈ dimensions -> exists s, da_score d = Some s /\ (low <= s)%Q /\ (s <= high)%Q) ->
  (0 <= init.2)%Q -> (low * init.2 <= init.1)%Q -> (init.1 <= high * init.2)%Q ->
  let totals := weightedTotals dimensions init in
  (init.2 <= totals.2)%Q /\ (low * totals.2 <= totals.1)%Q /\ (totals.1 <= high * totals.2)%Q
  /\ (dimensions <> [] -> (init.2 < totals.2)%Q).
Proof.
  induction dimensions as [|d dimensions IH]; intros init Hscores Hnonneg Hlow Hhigh; simpl.
  - repeat split; [apply Qle_refl|exact Hlow|exact Hhigh|done].
  - destruct (Hscores d) as (s & Hs & Hls & Hsh); [apply list_elem_of_here|].
    pose proof (weight_positive (da_id d)) as Hw.
    set (w := Report.weightForDimension (da_id d)) in *.
    destruct (IH ((init.1 + w * default 0 (da_score d))%Q, (init.2 + w)%Q))
      as (Hgrow & Hlow' & Hhigh' & _).
    + intros d' Hd'. apply Hscores. by apply list_elem_of_further.
    + simpl. lra.
    + simpl. rewrite Hs. simpl. nra.
    + simpl. rewrite Hs. simpl. nra.
    + simpl in Hgrow. repeat split; [lra|exact Hlow'|exact Hhigh'|intros _; lra].
Qed.

Lemma weightedAverage_between (low high : Q) dimensions :
  (exists d, d ∈ dimensions /\ observed d = true) ->
  (forall d s, d ∈ dimensions -> observed d = true -> da_score d = Some s ->
               (low <= s)%Q /\ (s <= high)%Q) ->
  (low <= weightedAverage dimensions)%Q /\ (weightedAverage dimensions <= high)%Q.
Proof.
  intros (d0 & Hd0 & Hobs0) Hscores. unfold weightedAverage.
  destruct (weightedTotals_between low high (List.filter observed dimensions) (0, 0)%Q)
    as (_ & Hlow & Hhigh & Hpos).
  - intros d Hd. apply list_elem_of_In, filter_In in Hd as [Hd Hobs].
    apply list_elem_of_In in Hd.
    assert (Hsome : exists s, da_score d = Some s).
    { unfold observed, Report.hasNumberScore in Hobs.
      destruct (da_score d) as [s|]; [by exists s|].
      by rewrite andb_false_r in Hobs. }
    destruct Hsome as (s & Hs). exists s. split; [exact Hs|]. by apply (Hscores d).
  - apply Qle_refl.
  - simpl. lra.
  - simpl. lra.
  - assert (Hne : List.filter observed dimensions <> []).
    { intros Hnil.
      assert (Hin : In d0 (List.filter observed dimensions))
        by (apply filter_In; split; [by apply list_elem_of_In|exact Hobs0]).
      rewrite Hnil in Hin. destruct Hin. }
    specialize (Hpos Hne). simpl in Hpos, Hlow, Hhigh.
    set (totals := weightedTotals (List.filter observed dimensions) (0, 0)%Q) in *.
    assert (Hlt : JsMath.ltb 0 totals.2 = true) by by apply ltb_lt.
    rewrite Hlt. split.
    + apply Qle_shift_div_l; [exact Hpos|exact Hlow].
    + apply Qle_shift_div_r; [exact Hpos|exact Hhigh].
Qed.

End WeightedScore.



Section DerivedLevel.

Context `{JsBuiltins}.

Lemma leb_weaken (low high value : Q) :
  (low <= high)%Q -> JsMath.leb high value = true -> JsMath.leb low value = true.
Proof.
  intros Hle Hhigh. apply leb_le. apply leb_le in Hhigh. eapply Qle_trans; eassumption.
Qed.

(** The level that goes with a base recommendation: the thresholds of
    [deriveLeveling] lie below those of the two hiring recommendations and
    above the one of LeanNo. *)
Lemma level_of_base (weightedScore : Q) :
  let base := Report.baseRecommendationFromWeightedScore weightedScore in
  let derived := level (Report.deriveLeveling weightedScore) in
  (base = StrongHire -> derived = senior)
  /\ ((3 <= Report.recommendationRank base)%Z -> derived = mid \/ derived = senior)
  /\ (derived = intern -> (Report.recommendationRank base <= 1)%Z).
Proof.
  unfold Report.baseRecommendationFromWeightedScore, Report.deriveLeveling. simpl.
  destruct (JsMath.leb 4.5 weightedScore) eqn:H45.
  { rewrite (leb_weaken 4.2 4.5) by done. repeat split; auto; discriminate. }
  destruct (JsMath.leb 3.8 weightedScore) eqn:H38.
  { rewrite (leb_weaken 3.3 3.8) by done.
    destruct (JsMath.leb 4.2 weightedScore); repeat split; auto; discriminate. }
  destruct (JsMath.leb 3.2 weightedScore) eqn:H32.
  { rewrite (leb_weaken 2.6 3.2) by done.
    destruct (JsMath.leb 4.2 weightedScore), (JsMath.leb 3.3 weightedScore);
      repeat split; auto; simpl; try discriminate; lia. }
  destruct (JsMath.leb 2.5 weightedScore) eqn:H25;
    destruct (JsMath.leb 4.2 weightedScore), (JsMath.leb 3.3 weightedScore),
      (JsMath.leb 2.6 weightedScore);
    repeat split; auto; simpl; try discriminate; lia.
Qed.

Lemma calibration_unobserved dimensions :
  List.filter observed dimensions = [] ->
  Report.cal_recommendation (Report.deriveCalibratedRecommendation dimensions) = LeanNo
  /\ Report.cal_weightedScore (Report.deriveCalibratedRecommendation dimensions) = 0%Q.
Proof.
  intros Hnone. unfold Report.deriveCalibratedRecommendation.
  change (List.filter
            (fun dimension => negb (da_notObserved dimension) && Report.hasNumberScore dimension)
            dimensions) with (List.filter observed dimensions).
  by rewrite Hnone.
Qed.

Lemma observed_or_not dimensions :
  List.filter observed dimensions = []
  \/ exists dimension, dimension ∈ dimensions /\ observed dimension = true.
Proof.
  destruct (List.filter observed dimensions) as [|d rest] eqn:Hf; [by left|right].
  assert (Hin : In d (List.filter observed dimensions)) by (rewrite Hf; by left).
  apply filter_In in Hin as [Hin Hobs]. exists d. split; [by apply list_elem_of_In|exact Hobs].
Qed.

Lemma level_of_calibration dimensions :
  let calibration := Report.deriveCalibratedRecommendation dimensions in
  let derived := level (Report.deriveLeveling (Report.cal_weightedScore calibration)) in
  (Report.cal_recommendation calibration = StrongHire -> derived = senior)
  /\ (Report.cal_recommendation calibration = Hire -> derived = mid \/ derived = senior)
  /\ (derived = intern ->
      Report.cal_recommendation calibration = No
      \/ Report.cal_recommendation calibration = LeanNo).
Proof.
  cbv zeta. destruct (observed_or_not dimensions) as [Hnone|Hobs].
  - destruct (calibration_unobserved dimensions Hnone) as [-> ->].
    repeat split; try discriminate. by right.
  - destruct (calibration_caps dimensions Hobs) as [_ Hrank]. cbv zeta in Hrank.
    destruct (level_of_base
                (Report.cal_weightedScore (Report.deriveCalibratedRecommendation dimensions)))
      as (Hsenior & Hmid & Hintern).
    set (base := Report.baseRecommendationFromWeightedScore _) in *.
    set (final := Report.cal_recommendation _) in *.
    repeat split.
    + intros Hfinal. apply Hsenior. rewrite Hfinal in Hrank. simpl in Hrank.
      destruct base; simpl in Hrank; try lia. reflexivity.
    + intros Hfinal. apply Hmid. rewrite Hfinal in Hrank. simpl in Hrank. lia.
    + intros Hlevel. specialize (Hintern Hlevel).
      destruct final; simpl in Hrank; try lia; auto.
Qed.

End DerivedLevel.

(** X10. The derived level follows the recommendation.  For every list of
    dimension assessments, when the calibrated recommendation is StrongHire
    the level [deriveLeveling] takes from the same weighted score is
    senior, when it is Hire the level is mid or senior, and when the level
    is intern the recommendation is No or LeanNo.  The mock report, whose
    leveling is always the derived one, shows this in its output. *)
Theorem derived_level_follows_recommendation `{JsBuiltins} :
  (forall dimensions : list ReportDimensionAssessment,
     let calibration := Report.deriveCalibratedRecommendation dimensions in
     let derived := level (Report.deriveLeveling (Report.cal_weightedScore calibration)) in
     (Report.cal_recommendation calibration = StrongHire -> derived = senior)
     /\ (Report.cal_recommendation calibration = Hire -> derived = mid \/ derived = senior)
     /\ (derived = intern ->
         Report.cal_recommendation calibration = No
         \/ Report.cal_recommendation calibration = LeanNo))
  /\ (forall requestBody : ReportRequestBody,
        let report := Report.createMockReport requestBody in
        (overallRecommendation report = StrongHire -> level (leveling report) = senior)
        /\ (overallRecommendation report = Hire ->
            level (leveling report) = mid \/ level (leveling report) = senior)
        /\ (level (leveling report) = intern ->
            overallRecommendation report = No \/ overallRecommendation report = LeanNo)).
Proof.
  split.
  - intros dimensions. apply level_of_calibration.
  - intros requestBody. unfold Report.createMockReport, Report.createMockTopLevel. simpl.
    apply level_of_calibration.
Qed.

(** ** The fallback picker *)

Section FallbackPicker.

Variables (context : NormalizeContext) (dimensionIndex desiredCount : nat).

Local Abbreviation segments := (ctx_segments context).
Local Abbreviation targetCount := (Nat.min desiredCount (length segments)).
Local Abbreviation atOffset := (segmentAtOffset context dimensionIndex).

Local Abbreviation pickStep :=
  (fun (state : list ReportInputSegment * gset string) (offset : nat) =>
     let '(picked, seen) := state in
     if (length picked <? targetCount)%nat then
       match segments !! ((dimensionIndex + offset) mod length segments)%nat with
       | Some segment =>
           if bool_decide (seg_id segment ∈ seen) then (picked, seen)
           else (picked ++ [segment], {[seg_id segment]} ∪ seen)
       | None => (picked, seen)
       end
     else (picked, seen)).

Local Abbreviation picking state :=
  ((forall segment, segment ∈ fst state -> segment ∈ segments)
   /\ NoDup (map seg_id (fst state))
   /\ (forall id, id ∈ snd state <-> id ∈ map seg_id (fst state))
   /\ Nat.le (length (fst state)) targetCount).

Lemma pickStep_picking state offset : picking state -> picking (pickStep state offset).
Proof.
  destruct state as [picked seen]. simpl. intros (Hsub & Hnodup & Hseen & Hlen).
  destruct (length picked <? targetCount)%nat eqn:Hroom; [|done].
  apply Nat.ltb_lt in Hroom.
  destruct (segments !! _) as [segment|] eqn:Hlookup; [|done].
  case_bool_decide as Hin; [done|]. simpl. repeat split.
  - intros s Hs. apply elem_of_app in Hs as [Hs|Hs]; [by apply Hsub|].
    apply list_elem_of_singleton in Hs as ->. by eapply list_elem_of_lookup_2.
  - rewrite map_app. apply NoDup_app. split; [exact Hnodup|]. split; [|apply NoDup_singleton].
    intros id Hid Hid'. apply list_elem_of_singleton in Hid' as ->. by apply Hin, Hseen.
  - rewrite map_app, elem_of_union, elem_of_singleton, elem_of_app. simpl.
    rewrite list_elem_of_singleton, Hseen. tauto.
  - rewrite map_app, elem_of_union, elem_of_singleton, elem_of_app. simpl.
    rewrite list_elem_of_singleton, Hseen. tauto.
  - rewrite length_app. simpl. lia.
Qed.

Lemma pickStep_grows offsets : forall state,
  (length (fst state) <= length (fst (fold_left pickStep offsets state)))%nat.
Proof.
  induction offsets as [|offset offsets IH]; intros state; simpl; [lia|].
  etransitivity; [|apply IH]. destruct state as [picked seen]. simpl.
  destruct (length picked <? targetCount)%nat; [|done].
  destruct (segments !! _); [|done]. case_bool_decide; [done|].
  simpl. rewrite length_app. lia.
Qed.

Lemma pickFallback_picking :
  let picked := Report.pickFallbackEvidenceSegments context dimensionIndex desiredCount in
  (forall segment, segment ∈ picked -> segment ∈ segments)
  /\ NoDup (map seg_id picked)
  /\ (length picked <= targetCount)%nat.
Proof.
  unfold Report.pickFallbackEvidenceSegments. cbv zeta.
  destruct ((length segments =? 0)%nat || (desiredCount =? 0)%nat).
  { repeat split; [intros ? []%elem_of_nil|constructor|simpl; lia]. }
  assert (Hinv : picking (fold_left pickStep (seq 0 (length segments)) ([], ∅))).
  { apply fold_left_invariant.
    - repeat split; [intros ? []%elem_of_nil|constructor| | |simpl; lia];
        simpl; rewrite elem_of_nil; set_solver.
    - intros state offset _. apply pickStep_picking. }
  destruct Hinv as (Hsub & Hnodup & _ & Hlen). done.
Qed.

Lemma atOffset_some offset : segments <> [] -> is_Some (atOffset offset).
Proof.
  intros Hne. apply lookup_lt_is_Some_2, Nat.mod_upper_bound.
  destruct segments; [done|simpl; lia].
Qed.

Lemma pickFallback_nonempty :
  segments <> [] -> (1 <= desiredCount)%nat ->
  (1 <= length (Report.pickFallbackEvidenceSegments context dimensionIndex desiredCount))%nat.
Proof.
  intros Hne Hdesired. unfold Report.pickFallbackEvidenceSegments. cbv zeta.
  destruct (atOffset_some 0 Hne) as [segment Hsegment]. unfold segmentAtOffset in Hsegment.
  assert (Hlen : (1 <= length segments)%nat) by (destruct segments; [done|simpl; lia]).
  replace ((length segments =? 0)%nat || (desiredCount =? 0)%nat) with false; cycle 1.
  { symmetry. apply orb_false_iff. split; apply Nat.eqb_neq; lia. }
  assert (Hseq : seq 0 (length segments) = 0%nat :: seq 1 (length segments - 1)).
  { destruct (length segments) as [|n]; [lia|]. simpl. by rewrite Nat.sub_0_r. }
  rewrite Hseq. cbn [fold_left].
  replace (length (@nil ReportInputSegment) <? targetCount)%nat with true
    by (symmetry; apply Nat.ltb_lt; simpl; lia).
  rewrite Hsegment.
  rewrite bool_decide_eq_false_2 by set_solver.
  etransitivity; [|apply pickStep_grows]. simpl. lia.
Qed.

End FallbackPicker.

Lemma map_lookup {A B : Type} (f : A -> B) (l : list A) : forall i,
  map f l !! i = f <$> (l !! i).
Proof. induction l as [|x l IH]; intros [|i]; simpl; auto. Qed.

Section FallbackRoundRobin.

Variables (context : NormalizeContext) (dimensionIndex desiredCount : nat).
Hypothesis distinct_ids : NoDup (map seg_id (ctx_segments context)).

Local Abbreviation segments := (ctx_segments context).
Local Abbreviation targetCount := (Nat.min desiredCount (length segments)).
Local Abbreviation atOffset := (segmentAtOffset context dimensionIndex).

Lemma omap_atOffset_length count :
  segments <> [] -> length (omap atOffset (seq 0 count)) = count.
Proof.
  intros Hne. induction count as [|count IH]; [reflexivity|].
  rewrite seq_S, omap_app, length_app, IH. simpl.
  destruct (atOffset_some context dimensionIndex count Hne) as [segment ->]. simpl. lia.
Qed.

(** Two offsets below the number of segments look at different segments. *)
Lemma atOffset_distinct j k segment segment' :
  (j < k)%nat -> (k < length segments)%nat ->
  atOffset j = Some segment -> atOffset k = Some segment' ->
  seg_id segment <> seg_id segment'.
Proof.
  unfold segmentAtOffset. intros Hjk Hk Hj Hk' Heq.
  assert (Hsame : ((dimensionIndex + j) mod length segments
                   = (dimensionIndex + k) mod length segments)%nat).
  { apply (NoDup_lookup (map seg_id segments) _ _ (seg_id segment)); [exact distinct_ids| |].
    - by rewrite map_lookup, Hj.
    - rewrite map_lookup, Hk'. simpl. by rewrite Heq. }
  pose proof (Nat.div_mod_eq (dimensionIndex + j) (length segments)) as Hdj.
  pose proof (Nat.div_mod_eq (dimensionIndex + k) (length segments)) as Hdk.
  rewrite Hsame in Hdj.
  set (qj := ((dimensionIndex + j) / length segments)%nat) in *.
  set (qk := ((dimensionIndex + k) / length segments)%nat) in *.
  set (r := ((dimensionIndex + k) mod length segments)%nat) in *.
  destruct (Nat.le_gt_cases qk qj) as [Hle|Hgt].
  - pose proof (Nat.mul_le_mono_l qk qj (length segments) Hle). lia.
  - pose proof (Nat.mul_le_mono_l (S qj) qk (length segments) Hgt). lia.
Qed.

Lemma pick_fold remaining : forall offset seen,
  segments <> [] ->
  (offset + remaining = length segments)%nat ->
  (forall id,
     id ∈ seen
     <-> exists j segment,
           (j < Nat.min offset targetCount)%nat /\ atOffset j = Some segment
           /\ seg_id segment = id) ->
  fst
    (fold_left
       (fun (state : list ReportInputSegment * gset string) (offset : nat) =>
          let '(picked, seen) := state in
          if (length picked <? targetCount)%nat then
            match segments !! ((dimensionIndex + offset) mod length segments)%nat with
            | Some segment =>
                if bool_decide (seg_id segment ∈ seen) then (picked, seen)
                else (picked ++ [segment], {[seg_id segment]} ∪ seen)
            | None => (picked, seen)
            end
          else (picked, seen))
       (seq offset remaining)
       (omap atOffset (seq 0 (Nat.min offset targetCount)), seen))
  = omap atOffset (seq 0 targetCount).
Proof.
  induction remaining as [|remaining IH]; intros offset seen Hne Hsum Hseen.
  - simpl. f_equal. f_equal. lia.
  - cbn [seq fold_left]. rewrite (omap_atOffset_length _ Hne).
    destruct (Nat.min offset targetCount <? targetCount)%nat eqn:Hroom.
    + apply Nat.ltb_lt in Hroom.
      assert (Hoffset : (offset < targetCount)%nat) by lia.
      destruct (atOffset_some context dimensionIndex offset Hne) as [segment Hsegment].
      unfold segmentAtOffset in Hsegment. rewrite Hsegment.
      rewrite bool_decide_eq_false_2; cycle 1.
      { intros Hin. apply Hseen in Hin as (j & segment' & Hj & Hj' & Heq).
        refine (atOffset_distinct j offset segment' segment _ _ Hj' Hsegment Heq); lia. }
      replace (omap atOffset (seq 0 (Nat.min offset targetCount)) ++ [segment])
        with (omap atOffset (seq 0 (Nat.min (S offset) targetCount))); cycle 1.
      { replace (Nat.min (S offset) targetCount) with (S offset) by lia.
        replace (Nat.min offset targetCount) with offset by lia.
        rewrite seq_S, omap_app. simpl. unfold segmentAtOffset at 2. by rewrite Hsegment. }
      apply IH; [exact Hne|lia|]. intros id.
      rewrite elem_of_union, elem_of_singleton, Hseen. split.
      * intros [->|(j & segment' & Hj & Hj' & Heq)].
        -- exists offset, segment. split; [lia|]. by split.
        -- exists j, segment'. split; [lia|]. by split.
      * intros (j & segment' & Hj & Hj' & Heq).
        destruct (decide (j = offset)) as [->|Hother].
        -- left. unfold segmentAtOffset in Hj'. rewrite Hsegment in Hj'.
           injection Hj' as <-. by symmetry.
        -- right. exists j, segment'. split; [lia|]. by split.
    + apply Nat.ltb_ge in Hroom.
      replace (Nat.min offset targetCount) with (Nat.min (S offset) targetCount) by lia.
      apply IH; [exact Hne|lia|]. intros id. rewrite Hseen.
      replace (Nat.min offset targetCount) with (Nat.min (S offset) targetCount) by lia.
      done.
Qed.

Lemma pickFallback_round_robin :
  Report.pickFallbackEvidenceSegments context dimensionIndex desiredCount
  = omap atOffset (seq 0 targetCount).
Proof.
  unfold Report.pickFallbackEvidenceSegments. cbv zeta.
  destruct (length segments =? 0)%nat eqn:Hlen.
  { apply Nat.eqb_eq in Hlen. rewrite Hlen, Nat.min_0_r. reflexivity. }
  destruct (desiredCount =? 0)%nat eqn:Hdesired.
  { apply Nat.eqb_eq in Hdesired. rewrite Hdesired. reflexivity. }
  simpl. apply Nat.eqb_neq in Hlen.
  apply (pick_fold (length segments) 0 ∅).
  - intros Hnil. by rewrite Hnil in Hlen.
  - lia.
  - intros id. split; [set_solver|]. intros (j & _ & Hj & _). simpl in Hj. lia.
Qed.

End FallbackRoundRobin.

(** X11. The fallback picker goes round the segment list.  Whatever the
    context, it returns segments of the context with pairwise distinct
    ids, at most [min(desiredCount, segments.length)] of them, and at least
    one when there is a segment and one is desired.  When the segment ids
    are pairwise distinct it returns exactly that many: the segments at
    indexes [dimensionIndex], [dimensionIndex + 1], ... taken modulo the
    number of segments, in that order. *)
Theorem pickFallbackEvidenceSegments_round_robin
    (context : NormalizeContext) (dimensionIndex desiredCount : nat) :
  let picked := Report.pickFallbackEvidenceSegments context dimensionIndex desiredCount in
  let targetCount := Nat.min desiredCount (length (ctx_segments context)) in
  (forall segment, segment ∈ picked -> segment ∈ ctx_segments context)
  /\ NoDup (map seg_id picked)
  /\ (length picked <= targetCount)%nat
  /\ (ctx_segments context <> [] -> (1 <= desiredCount)%nat -> (1 <= length picked)%nat)
  /\ (NoDup (map seg_id (ctx_segments context)) ->
      picked = omap (segmentAtOffset context dimensionIndex) (seq 0 targetCount)
      /\ length picked = targetCount).
Proof.
  cbv zeta.
  destruct (pickFallback_picking context dimensionIndex desiredCount) as (Hsub & Hnodup & Hlen).
  split; [exact Hsub|]. split; [exact Hnodup|]. split; [exact Hlen|]. split.
  - apply pickFallback_nonempty.
  - intros Hdistinct. rewrite pickFallback_round_robin by exact Hdistinct.
    split; [reflexivity|].
    destruct (ctx_segments context) as [|segment rest] eqn:Hsegments.
    + by rewrite Nat.min_0_r.
    + rewrite <- Hsegments. apply omap_atOffset_length. by rewrite Hsegments.
Qed.

(** ** Back-filled evidence *)

Section BackfillOnly.

Context `{JsBuiltins}.

Variables (context : NormalizeContext) (dimensionIndex : nat) (dimensionLabel : string).

Lemma backfill_fold picked : forall result seen,
  NoDup (map seg_id picked) ->
  (forall segment, segment ∈ picked -> seg_id segment ∉ seen) ->
  fst
    (fold_left
       (fun (state : list ReportDimensionEvidence * gset string) segment =>
          let '(result, seenSegmentIds) := state in
          if bool_decide (seg_id segment ∈ seenSegmentIds) then state
          else (result ++ [backfilledEntry dimensionLabel segment],
                {[seg_id segment]} ∪ seenSegmentIds))
       picked (result, seen))
  = result ++ map (backfilledEntry dimensionLabel) picked.
Proof.
  induction picked as [|segment picked IH]; intros result seen Hnodup Hfresh; simpl.
  - by rewrite app_nil_r.
  - rewrite bool_decide_eq_false_2 by (apply Hfresh, list_elem_of_here).
    simpl in Hnodup. apply NoDup_cons in Hnodup as [Hhead Hnodup].
    rewrite IH; [by rewrite <- app_assoc|exact Hnodup|].
    intros other Hother. rewrite elem_of_union, elem_of_singleton.
    intros [Heq|Hseen].
    + apply Hhead. rewrite <- Heq. apply list_elem_of_In, in_map. by apply list_elem_of_In.
    + apply (Hfresh other); [by apply list_elem_of_further|exact Hseen].
Qed.

Lemma normalizeEvidence_without_candidates rawValue :
  arrayItems rawValue = [] ->
  Report.normalizeEvidence rawValue context dimensionIndex false dimensionLabel
  = map (backfilledEntry dimensionLabel)
      (Report.pickFallbackEvidenceSegments context dimensionIndex
         (Nat.min 2 (length (ctx_segments context))))
  /\ Report.normalizeEvidence rawValue context dimensionIndex true dimensionLabel = [].
Proof.
  intros Hnone. unfold Report.normalizeEvidence. rewrite Hnone. cbv zeta. cbn [fold_left].
  replace (if isArray rawValue then _ else _)
    with (@nil ReportDimensionEvidence, (∅ : gset string)) by by destruct (isArray rawValue).
  cbn [fst snd length]. split; [|reflexivity].
  destruct (pickFallback_picking context dimensionIndex
              (Nat.min 2 (length (ctx_segments context)))) as (_ & Hnodup & Hlen).
  destruct (0 <? Nat.min 2 (length (ctx_segments context)))%nat eqn:Hdesired.
  - rewrite Nat.sub_0_r.
    set (picked := Report.pickFallbackEvidenceSegments _ _ _) in *.
    transitivity (take 4 ([] ++ map (backfilledEntry dimensionLabel) picked)).
    + f_equal. apply (backfill_fold picked [] ∅ Hnodup). intros segment _. set_solver.
    + simpl. apply take_ge. rewrite length_map. lia.
  - apply Nat.ltb_ge in Hdesired.
    assert (Hzero : Nat.min 2 (length (ctx_segments context)) = 0%nat) by lia.
    rewrite Hzero. unfold Report.pickFallbackEvidenceSegments.
    by rewrite orb_true_r.
Qed.

End BackfillOnly.

(** X12. Evidence for a dimension whose candidate brings none.  When the
    candidate has no evidence array, or an empty one, an observed dimension
    gets one back-filled entry per segment that the fallback picker returns
    for [min(2, segments.length)]: medium strength, relevance 0.64, the
    quote cut from the segment text; with pairwise distinct segment ids
    these are exactly [min(2, segments.length)] entries.  A dimension marked
    not observed gets no evidence at all. *)
Theorem normalizeEvidence_backfills_missing_evidence `{JsBuiltins}
    (rawValue : JsonValue) (context : NormalizeContext) (dimensionIndex : nat)
    (dimensionLabel : string) :
  arrayItems rawValue = [] ->
  let minimum := Nat.min 2 (length (ctx_segments context)) in
  Report.normalizeEvidence rawValue context dimensionIndex false dimensionLabel
  = map (backfilledEntry dimensionLabel)
      (Report.pickFallbackEvidenceSegments context dimensionIndex minimum)
  /\ (NoDup (map seg_id (ctx_segments context)) ->
      length (Report.normalizeEvidence rawValue context dimensionIndex false dimensionLabel)
      = minimum)
  /\ Report.normalizeEvidence rawValue context dimensionIndex true dimensionLabel = [].
Proof.
  intros Hnone minimum.
  destruct (normalizeEvidence_without_candidates context dimensionIndex dimensionLabel
              rawValue Hnone) as [Hobserved Hnot].
  split; [exact Hobserved|]. split; [|exact Hnot].
  intros Hdistinct. rewrite Hobserved, length_map.
  rewrite pickFallback_round_robin by exact Hdistinct.
  subst minimum. replace (Nat.min (Nat.min 2 (length (ctx_segments context))) (length (ctx_segments context))) with (Nat.min 2 (length (ctx_segments context))) by lia.
  destruct (ctx_segments context) as [|segment rest] eqn:Hsegments; [reflexivity|].
  rewrite <- Hsegments. apply omap_atOffset_length. by rewrite Hsegments.
Qed.

Lemma normalizeEvidence_backfills_missing_evidence_witness :
  length
    (Report.normalizeEvidence (H := referenceBuiltins) JUndefined
       (Report.normalizedContextFromRequest twoSegmentRequest) 0 false "Clarity")
  = 2%nat.
Proof.
  apply (normalizeEvidence_backfills_missing_evidence (H := referenceBuiltins) JUndefined
           (Report.normalizedContextFromRequest twoSegmentRequest) 0 "Clarity" eq_refl).
  by apply (bool_decide_unpack (NoDup ["s1"; "s2"])).
Defined.

(** ** Evidence cites segments of the request *)

Lemma mapOfEntries_lookup {V : Type} (entries : list (string * V)) key value :
  mapOfEntries entries !! key = Some value -> (key, value) ∈ entries.
Proof.
  unfold mapOfEntries. revert key value.
  apply (fold_left_invariant
           (fun index : gmap string V =>
              forall key value, index !! key = Some value -> (key, value) ∈ entries)).
  - intros key value Hlookup. by rewrite lookup_empty in Hlookup.
  - intros index [k v] Hin Hinv key value. simpl.
    destruct (decide (k = key)) as [->|Hne].
    + rewrite lookup_insert_eq. by intros [= <-].
    + rewrite lookup_insert_ne by done. apply Hinv.
Qed.

Lemma indexed_segment_known context id :
  indexesItsSegments context -> is_Some (segmentById context !! id) ->
  id ∈ map seg_id (ctx_segments context).
Proof.
  intros Hindex [segment Hlookup]. rewrite Hindex in Hlookup.
  apply mapOfEntries_lookup, list_elem_of_In, in_map_iff in Hlookup
    as (found & [= <- <-] & Hfound).
  by apply list_elem_of_In, in_map.
Qed.

Section CitedSegments.

Context `{JsBuiltins}.

Variables (context : NormalizeContext).
Hypothesis context_indexed : indexesItsSegments context.
Hypothesis context_validates : enforceSegmentValidation context = true.

Local Abbreviation cited := (citesOneOf (ctx_segments context)).

Lemma normalizeEvidenceEntry_cites notObserved dimensionLabel state entry :
  Forall cited state.1 ->
  Forall cited (Report.normalizeEvidenceEntry context notObserved dimensionLabel state entry).1.
Proof.
  intros Hstate. destruct state as [result seen]. unfold Report.normalizeEvidenceEntry.
  destruct (negb (Report.isRecord entry)); [exact Hstate|]. simpl.
  set (rawSegmentId := Report.toNormalizedString (getField "segmentId" entry) emptyString).
  destruct (String.eqb rawSegmentId emptyString); [exact Hstate|]. simpl.
  case_bool_decide as Hseen; [exact Hstate|]. simpl.
  rewrite context_validates. simpl.
  case_bool_decide as Hknown; [|exact Hstate]. simpl.
  apply Forall_app. split; [exact Hstate|]. constructor; [|constructor].
  by apply indexed_segment_known.
Qed.

Lemma normalizeEvidence_cites rawValue dimensionIndex notObserved dimensionLabel :
  Forall cited
    (Report.normalizeEvidence rawValue context dimensionIndex notObserved dimensionLabel).
Proof.
  unfold Report.normalizeEvidence. cbv zeta. apply Forall_take.
  set (candidates := if isArray rawValue then _ else _).
  assert (Hcandidates : Forall cited candidates.1).
  { subst candidates. destruct (isArray rawValue); [|constructor].
    apply (fold_left_invariant (fun state => Forall cited state.1)); [constructor|].
    intros state entry _. apply normalizeEvidenceEntry_cites. }
  clearbody candidates.
  destruct (length candidates.1 <? _)%nat; [|exact Hcandidates].
  apply (fold_left_invariant (fun state => Forall cited state.1)); [exact Hcandidates|].
  intros [result seen] segment Hsegment Hstate.
  apply pickFallback_picking in Hsegment.
  case_bool_decide; [exact Hstate|]. simpl.
  apply Forall_app. split; [exact Hstate|]. constructor; [|constructor].
  unfold citesOneOf. simpl. by apply list_elem_of_In, in_map, list_elem_of_In.
Qed.

Lemma normalizeModernReport_cites sourceReport :
  Forall (fun dimension => Forall cited (da_evidence dimension))
    (dimensions (Report.normalizeModernReport sourceReport context)).
Proof.
  apply (normalizeModernReport_evidence (Forall cited)).
  intros rawValue dimensionIndex notObserved dimensionLabel _. apply normalizeEvidence_cites.
Qed.

End CitedSegments.

Lemma Forall_imap_elem {A B : Type} (P : B -> Prop) (l : list A) :
  forall f : nat -> A -> B, (forall i x, x ∈ l -> P (f i x)) -> Forall P (imap f l).
Proof.
  induction l as [|x l IH]; intros f Hf; simpl; constructor.
  - apply Hf, list_elem_of_here.
  - apply IH. intros i y Hy. by apply Hf, list_elem_of_further.
Qed.

Section KnownSegments.

Context `{JsBuiltins}.

Lemma request_context_ids requestBody :
  map seg_id (ctx_segments (Report.normalizedContextFromRequest requestBody))
  = map seg_id (req_segments requestBody).
Proof. simpl. rewrite map_map. by apply map_ext. Qed.

Lemma options_context_ids options segments :
  opt_segments options = Some segments ->
  map seg_id (ctx_segments (Report.normalizeOptions options)) = map seg_id segments.
Proof. intros Hsegments. simpl. rewrite Hsegments, map_map. by apply map_ext. Qed.

Lemma options_context_validates options segments :
  opt_segments options = Some segments -> segments <> [] ->
  enforceSegmentValidation (Report.normalizeOptions options) = true.
Proof.
  intros Hsegments Hne. simpl. rewrite Hsegments, length_map.
  destruct segments; [done|reflexivity].
Qed.

Lemma toModernReportResponse_normalizes report options :
  exists sourceReport,
    Report.toModernReportResponse report options
    = Report.normalizeModernReport sourceReport (Report.normalizeOptions options).
Proof.
  unfold Report.toModernReportResponse.
  destruct (Report.isLegacyReportResponseBody report) as [legacy|]; eexists; reflexivity.
Qed.

Lemma createMockReport_cites requestBody :
  Forall
    (fun dimension =>
       Forall (citesOneOf (req_segments requestBody)) (da_evidence dimension))
    (dimensions (Report.createMockReport requestBody)).
Proof.
  unfold Report.createMockReport. cbn [dimensions]. apply Forall_imap. intros index descriptor.
  unfold Report.createMockDimension.
  destruct (_ && _); [constructor|]. cbn [da_evidence].
  apply Forall_imap_elem. intros evidenceIndex segment Hsegment.
  apply pickFallback_picking in Hsegment.
  unfold citesOneOf. cbn [ev_segmentId]. rewrite <- request_context_ids.
  by apply list_elem_of_In, in_map, list_elem_of_In.
Qed.

End KnownSegments.

(** X13. Evidence is linked to the transcript.  Every evidence entry of
    every dimension cites the id of one of the segments the report was
    made for: in the Scorecard [normalizeReportResponse] returns, for every
    payload; in the mock report; and in what [toModernReportResponse]
    returns when it is given a non-empty segment list.  Candidate entries
    that cite an unknown segment are dropped, and back-filled entries come
    from the segment list. *)
Theorem evidence_cites_known_segments `{JsBuiltins} :
  (forall (payload : JsonValue) (requestBody : ReportRequestBody),
     Forall
       (fun dimension =>
          Forall (citesOneOf (req_segments requestBody)) (da_evidence dimension))
       (dimensions (Report.normalizeReportResponse payload requestBody)))
  /\ (forall requestBody : ReportRequestBody,
        Forall
          (fun dimension =>
             Forall (citesOneOf (req_segments requestBody)) (da_evidence dimension))
          (dimensions (Report.createMockReport requestBody)))
  /\ (forall (report : JsonValue) (options : NormalizeOptions)
             (segments : list ReportInputSegment),
        opt_segments options = Some segments -> segments <> [] ->
        Forall
          (fun dimension => Forall (citesOneOf segments) (da_evidence dimension))
          (dimensions (Report.toModernReportResponse report options))).
Proof.
  split; [|split].
  - intros payload requestBody. unfold Report.normalizeReportResponse, citesOneOf.
    rewrite <- request_context_ids. by apply normalizeModernReport_cites.
  - apply createMockReport_cites.
  - intros report options segments Hsegments Hne.
    destruct (toModernReportResponse_normalizes report options) as [sourceReport ->].
    unfold citesOneOf. rewrite <- (options_context_ids options segments Hsegments).
    apply normalizeModernReport_cites; [reflexivity|].
    by apply (options_context_validates options segments).
Qed.

(** ** Observed dimensions have evidence *)

Section EvidencePresent.

Context `{JsBuiltins}.

Variables (context : NormalizeContext).
Hypothesis has_segments : ctx_segments context <> [].

(** The first loop records no segment id that it has not cited. *)
Lemma candidates_seen notObserved dimensionLabel entries :
  let state :=
    fold_left (Report.normalizeEvidenceEntry context notObserved dimensionLabel) entries
      ([], ∅) in
  forall id, id ∈ state.2 -> id ∈ map ev_segmentId state.1.
Proof.
  apply (fold_left_invariant
           (fun state : list ReportDimensionEvidence * gset string =>
              forall id, id ∈ state.2 -> id ∈ map ev_segmentId state.1)).
  - intros id Hid. simpl in Hid. set_solver.
  - intros state entry _ Hstate.
    destruct (normalizeEvidenceEntry_cases context notObserved dimensionLabel state entry)
      as [->|(added & -> & _ & _)]; [exact Hstate|].
    intros id. simpl. rewrite map_app, elem_of_union, elem_of_singleton, elem_of_app. simpl.
    rewrite list_elem_of_singleton. intros [->|Hid]; [by right|left; by apply Hstate].
Qed.

Lemma backfill_grows dimensionLabel picked : forall state,
  (length state.1
   <= length
        (fold_left
           (fun (state : list ReportDimensionEvidence * gset string) segment =>
              let '(result, seenSegmentIds) := state in
              if bool_decide (seg_id segment ∈ seenSegmentIds) then state
              else (result ++ [backfilledEntry dimensionLabel segment],
                    {[seg_id segment]} ∪ seenSegmentIds))
           picked state).1)%nat.
Proof.
  induction picked as [|segment picked IH]; intros state; simpl; [lia|].
  etransitivity; [|apply IH]. destruct state as [result seen]. simpl.
  case_bool_decide; [done|]. simpl. rewrite length_app. lia.
Qed.

Lemma normalizeEvidence_present rawValue dimensionIndex dimensionLabel :
  (1 <= length
          (Report.normalizeEvidence rawValue context dimensionIndex false dimensionLabel))%nat.
Proof.
  unfold Report.normalizeEvidence. cbv zeta. rewrite length_take.
  set (candidates := if isArray rawValue then _ else _).
  assert (Hseen : forall id, id ∈ candidates.2 -> id ∈ map ev_segmentId candidates.1).
  { subst candidates. destruct (isArray rawValue); [apply candidates_seen|].
    intros id Hid. simpl in Hid. set_solver. }
  clearbody candidates. destruct candidates as [result seen].
  cbn [fst snd] in *. apply Nat.min_glb; [lia|].
  assert (Hlen : (1 <= length (ctx_segments context))%nat)
    by (destruct (ctx_segments context); [done|simpl; lia]).
  destruct result as [|entry result].
  - replace (length (@nil ReportDimensionEvidence) <? Nat.min 2 (length (ctx_segments context)))%nat
      with true by (symmetry; apply Nat.ltb_lt; cbn [length]; lia).
    assert (Hpicked :
      (1 <= length
              (Report.pickFallbackEvidenceSegments context dimensionIndex
                 (Nat.min 2 (length (ctx_segments context))
                  - length (@nil ReportDimensionEvidence))))%nat).
    { apply pickFallback_nonempty; [exact has_segments|]. cbn [length]. lia. }
    destruct (Report.pickFallbackEvidenceSegments _ _ _) as [|segment picked].
    { cbn [length] in Hpicked. lia. }
    cbn [fold_left].
    rewrite bool_decide_eq_false_2; cycle 1.
    { intros Hin. apply Hseen in Hin. by apply elem_of_nil in Hin. }
    etransitivity; [|apply (backfill_grows dimensionLabel)]. simpl. lia.
  - destruct (length (entry :: result) <? _)%nat.
    + etransitivity; [|apply (backfill_grows dimensionLabel)]. simpl. lia.
    + simpl. lia.
Qed.

Lemma normalizeModernReport_present sourceReport :
  Forall (fun dimension => da_notObserved dimension = false -> da_evidence dimension <> [])
    (dimensions (Report.normalizeModernReport sourceReport context)).
Proof.
  apply Forall_imap. intros index descriptor.
  set (candidate := default JUndefined _). clearbody candidate. cbv zeta.
  set (rawRecord := if Report.isRecord candidate then candidate else JObject []).
  change (da_evidence (Report.normalizeDimension candidate descriptor index context))
    with (Report.normalizeEvidence (getField "evidence" rawRecord) context index
            (da_notObserved (Report.normalizeDimension candidate descriptor index context))
            (dim_label descriptor)).
  intros ->. intros Hnil.
  pose proof (normalizeEvidence_present (getField "evidence" rawRecord) index
                (dim_label descriptor)) as Hpresent.
  rewrite Hnil in Hpresent. simpl in Hpresent. lia.
Qed.

End EvidencePresent.

(** X14. The review page never rejects what it has just normalized.  For a
    transcription with at least one segment, every rubric and every report
    value, the check that [generateReport] runs on the result of
    [toModernReportResponse] finds nothing invalid: each dimension that is
    not marked not-observed has evidence, and each entry cites a segment
    of the transcription.  (With no segment at all the check can fire.) *)
Theorem review_page_accepts_normalized_report `{JsBuiltins}
    (report : JsonValue) (rubric : list ReportDimension)
    (segments : list ReportInputSegment) :
  segments <> [] ->
  ReviewPage.hasInvalidEvidence segments
    (Report.toModernReportResponse report
       {| opt_dimensions := rubric;
          opt_availableSegmentCount := length segments;
          opt_segments := Some segments |})
  = false.
Proof.
  intros Hne.
  set (options := {| opt_dimensions := rubric;
                     opt_availableSegmentCount := length segments;
                     opt_segments := Some segments |}).
  destruct (toModernReportResponse_normalizes report options) as [sourceReport ->].
  assert (Hids : map seg_id (ctx_segments (Report.normalizeOptions options))
                 = map seg_id segments) by by apply options_context_ids.
  assert (Hsegments : ctx_segments (Report.normalizeOptions options) <> []).
  { intros Hnil. rewrite Hnil in Hids. destruct segments; [done|discriminate]. }
  pose proof (normalizeModernReport_present _ Hsegments sourceReport) as Hpresent.
  pose proof (normalizeModernReport_cites (Report.normalizeOptions options) eq_refl
                (options_context_validates options segments eq_refl Hne) sourceReport)
    as Hcites.
  rewrite Forall_forall in Hpresent, Hcites.
  unfold ReviewPage.hasInvalidEvidence. apply not_true_iff_false. intros Hexists.
  apply existsb_exists in Hexists as (dimension & Hdimension & Hbad).
  apply list_elem_of_In in Hdimension.
  specialize (Hpresent dimension Hdimension). specialize (Hcites dimension Hdimension).
  destruct (length (da_evidence dimension) =? 0)%nat eqn:Hlength.
  - apply Nat.eqb_eq, length_zero_iff_nil in Hlength.
    apply negb_true_iff in Hbad. by apply Hpresent.
  - apply existsb_exists in Hbad as (entry & Hentry & Hunknown).
    apply negb_true_iff, bool_decide_eq_false in Hunknown. apply Hunknown.
    apply elem_of_list_to_set. rewrite <- Hids.
    rewrite Forall_forall in Hcites. apply Hcites. by apply list_elem_of_In.
Qed.

Lemma review_page_accepts_normalized_report_witness :
  ReviewPage.hasInvalidEvidence (req_segments twoSegmentRequest)
    (Report.toModernReportResponse (H := referenceBuiltins) legacyExample
       {| opt_dimensions := Report.DEFAULT_RUBRIC_DIMENSIONS;
          opt_availableSegmentCount := length (req_segments twoSegmentRequest);
          opt_segments := Some (req_segments twoSegmentRequest) |})
  = false.
Proof.
  apply (review_page_accepts_normalized_report (H := referenceBuiltins) legacyExample
           Report.DEFAULT_RUBRIC_DIMENSIONS (req_segments twoSegmentRequest)).
  discriminate.
Defined.

(** ** The sizes of the lists of a Scorecard *)

Section ListSizes.

Context `{JsBuiltins}.

Lemma toStringArray_NoDup value : NoDup (Report.toStringArray value []).
Proof.
  destruct value; try apply NoDup_nil_2. apply uniqueInOrder_NoDup.
Qed.

Lemma ensureMinItems_sized low high entries fallbackEntries distinct :
  NoDup entries -> NoDup distinct -> distinct ⊆ fallbackEntries ->
  (low <= length distinct)%nat -> (low <= high)%nat ->
  sized low high (Report.ensureMinItems entries fallbackEntries low high).
Proof.
  intros Hentries Hdistinct Hsub Hlow Hle. repeat split.
  - pose proof (ensureMinItems_at_least entries fallbackEntries distinct low high
                  Hdistinct Hsub Hlow). lia.
  - apply ensureMinItems_max.
  - by apply ensureMinItems_NoDup.
Qed.

Lemma pair_NoDup (a b : string) : a <> b -> NoDup [a; b].
Proof.
  intros Hne. apply NoDup_cons. split; [|apply NoDup_singleton].
  by intros ->%list_elem_of_singleton.
Qed.

Lemma take_two_sized (entries : list string) :
  NoDup entries -> (1 <= length entries)%nat ->
  NoDup (take 2 entries) /\ (1 <= length (take 2 entries))%nat
  /\ (length (take 2 entries) <= 2)%nat.
Proof.
  intros Hnodup Hlen. split; [eapply sublist_NoDup; [exact Hnodup|apply sublist_take]|].
  rewrite length_take. lia.
Qed.

Lemma normalizeWhatWouldChangeScore_sized rawValue missingSignals :
  NoDup missingSignals ->
  sized 1 3 (up (Report.normalizeWhatWouldChangeScore rawValue missingSignals))
  /\ sized 1 3 (down (Report.normalizeWhatWouldChangeScore rawValue missingSignals)).
Proof.
  intros Hnodup. unfold Report.normalizeWhatWouldChangeScore.
  set (fallbackUp := if (0 <? length missingSignals)%nat then _ else _).
  assert (Hup : NoDup fallbackUp /\ (1 <= length fallbackUp)%nat).
  { subst fallbackUp. destruct (0 <? length missingSignals)%nat eqn:Hlen.
    - apply Nat.ltb_lt in Hlen. destruct (take_two_sized missingSignals Hnodup) as (? & ? & ?);
        [lia|done].
    - split; [apply NoDup_singleton|simpl; lia]. }
  destruct Hup as [Hup Hlen].
  assert (Hdown : forall entries,
            NoDup entries ->
            sized 1 3
              (Report.ensureMinItems entries
                 ["Vague statements without evidence would lower confidence in this score."]
                 1 3)).
  { intros entries Hentries.
    apply (ensureMinItems_sized 1 3 _ _
             ["Vague statements without evidence would lower confidence in this score."]);
      [exact Hentries|apply NoDup_singleton|done|simpl; lia|lia]. }
  assert (Hupper : forall entries,
            NoDup entries -> sized 1 3 (Report.ensureMinItems entries fallbackUp 1 3)).
  { intros entries Hentries.
    apply (ensureMinItems_sized 1 3 _ _ fallbackUp); [exact Hentries|exact Hup|done|exact Hlen|lia]. }
  destruct (negb (Report.isRecord rawValue)); cbn [up down]; split;
    first [apply Hupper|apply Hdown]; first [apply NoDup_nil_2|apply toStringArray_NoDup].
Qed.

Lemma normalizeAnchorAlignment_sized rawValue score missingSignals :
  NoDup missingSignals ->
  (forall value, score = Some value -> isLevel value) ->
  let alignment := Report.normalizeAnchorAlignment rawValue score missingSignals in
  sized 1 3 (whyMeets alignment) /\ sized 1 3 (whyNotHigher alignment)
  /\ isLevel (chosenLevel alignment).
Proof.
  intros Hnodup Hscore. unfold Report.normalizeAnchorAlignment. cbv zeta.
  set (fallbackWhyMeets := match score with None => _ | Some _ => _ end).
  set (fallbackWhyNotHigher := if (0 <? length missingSignals)%nat then _ else _).
  assert (Hmeets : NoDup fallbackWhyMeets /\ length fallbackWhyMeets = 1%nat).
  { subst fallbackWhyMeets. destruct score; split; try apply NoDup_singleton; reflexivity. }
  assert (Hhigher : NoDup fallbackWhyNotHigher /\ (1 <= length fallbackWhyNotHigher)%nat
                    /\ (length fallbackWhyNotHigher <= 2)%nat).
  { subst fallbackWhyNotHigher. destruct (0 <? length missingSignals)%nat eqn:Hlen.
    - apply Nat.ltb_lt in Hlen. apply take_two_sized; [exact Hnodup|lia].
    - split; [apply NoDup_singleton|simpl; lia]. }
  destruct Hmeets as [Hmeets Hone]. destruct Hhigher as (Hhigher & Hlow & Hhigh).
  destruct (negb (Report.isRecord rawValue)); cbn [whyMeets whyNotHigher chosenLevel].
  - split; [repeat split; [lia|lia|exact Hmeets]|].
    split; [repeat split; [exact Hlow|lia|exact Hhigher]|].
    destruct score as [value|]; [by apply Hscore|]. exists 3%Z. split; [lia|reflexivity].
  - split.
    { apply (ensureMinItems_sized 1 3 _ _ fallbackWhyMeets);
        [apply toStringArray_NoDup|exact Hmeets|done|lia|lia]. }
    split.
    { apply (ensureMinItems_sized 1 3 _ _ fallbackWhyNotHigher);
        [apply toStringArray_NoDup|exact Hhigher|done|exact Hlow|lia]. }
    apply (clamp_level (Qfloor (_ + 0.5)) 1 5). lia.
Qed.

Lemma ensureMinItems_sized_all low high entries fallbackEntries :
  NoDup entries -> NoDup fallbackEntries ->
  (low <= length fallbackEntries)%nat -> (low <= high)%nat ->
  sized low high (Report.ensureMinItems entries fallbackEntries low high).
Proof.
  intros Hentries Hfallback Hlow Hle.
  by apply (ensureMinItems_sized low high entries fallbackEntries fallbackEntries).
Qed.

Lemma normalizeDimension_listsSized rawDimension descriptor dimensionIndex context :
  listsSized (Report.normalizeDimension rawDimension descriptor dimensionIndex context).
Proof.
  unfold listsSized, Report.normalizeDimension.
  cbn [da_missingSignals da_observations da_observedSignals da_concerns da_counterSignals
       da_probes da_anchorAlignment da_whatWouldChangeScore].
  set (rawRecord := if Report.isRecord rawDimension then rawDimension else JObject []).
  set (notObserved := match getField "notObserved" rawRecord with
                      | JBool rawNotObserved => rawNotObserved
                      | _ => false
                      end).
  set (missingSignals :=
         Report.ensureMinItems (Report.toStringArray (getField "missingSignals" rawRecord) [])
           _ 1 4).
  set (observations :=
         Report.ensureMinItems (Report.toStringArray (getField "observations" rawRecord) [])
           _ 2 4).
  set (score := match Report.toFiniteNumber (getField "score" rawRecord) with
                | Some rawScore => _
                | None => None
                end).
  assert (Hmissing : sized 1 4 missingSignals).
  { subst missingSignals. destruct notObserved;
      (apply ensureMinItems_sized_all;
       [apply toStringArray_NoDup|apply NoDup_singleton|simpl; lia|lia]). }
  assert (Hobservations : sized 2 4 observations).
  { subst observations. destruct notObserved;
      (apply ensureMinItems_sized_all;
       [apply toStringArray_NoDup|apply pair_NoDup; intros Heq; cbn in Heq; discriminate Heq
       |simpl; lia|lia]). }
  assert (Hscore : forall value, score = Some value -> isLevel value).
  { subst score. intros value.
    destruct (Report.toFiniteNumber (getField "score" rawRecord)) as [rawScore|]; [|done].
    destruct notObserved; [done|]. intros [= <-].
    apply (clamp_level (Qfloor (rawScore + 0.5)) 1 5). lia. }
  destruct Hmissing as (Hmissing1 & Hmissing4 & Hmissing).
  destruct (normalizeAnchorAlignment_sized (getField "anchorAlignment" rawRecord) score
              missingSignals Hmissing Hscore) as (Hmeets & Hhigher & Hlevel).
  destruct (normalizeWhatWouldChangeScore_sized (getField "whatWouldChangeScore" rawRecord)
              missingSignals Hmissing) as (Hup & Hdown).
  split; [done|]. split; [exact Hobservations|]. split.
  { destruct Hobservations as (Hlow & _ & Hnodup).
    apply ensureMinItems_sized_all; [apply toStringArray_NoDup|exact Hnodup|exact Hlow|lia]. }
  split.
  { destruct notObserved.
    - apply ensureMinItems_sized_all;
        [apply toStringArray_NoDup|apply NoDup_singleton|simpl; lia|lia].
    - destruct (take_two_sized missingSignals Hmissing Hmissing1) as (Hnodup & Hlow & _).
      apply ensureMinItems_sized_all; [apply toStringArray_NoDup|exact Hnodup|exact Hlow|lia]. }
  split.
  { repeat split; [lia|rewrite length_take; lia|].
    eapply sublist_NoDup; [apply toStringArray_NoDup|apply sublist_take]. }
  split.
  { destruct notObserved;
      (apply ensureMinItems_sized_all;
       [apply toStringArray_NoDup|apply pair_NoDup; intros Heq; cbn in Heq; discriminate Heq
       |simpl; lia|lia]). }
  done.
Qed.

Lemma triple_NoDup (a b c : string) : a <> b -> a <> c -> b <> c -> NoDup [a; b; c].
Proof.
  intros Hab Hac Hbc. apply NoDup_cons. split; [|by apply pair_NoDup].
  rewrite elem_of_cons, list_elem_of_singleton. by intros [?|?].
Qed.

Lemma sized_weaken low high entries :
  sized low high entries -> sized 0 high entries.
Proof. intros (_ & Hhigh & Hnodup). repeat split; [lia|exact Hhigh|exact Hnodup]. Qed.

Lemma ensureMinItems_bounded entries fallbackEntries minItems maxItems :
  NoDup entries ->
  sized 0 maxItems (Report.ensureMinItems entries fallbackEntries minItems maxItems).
Proof.
  intros Hnodup. repeat split; [lia|apply ensureMinItems_max|by apply ensureMinItems_NoDup].
Qed.

Lemma buildTopLevelArrays_sized report dimensions recommendation :
  let topLevel := Report.buildTopLevelArrays report dimensions recommendation in
  sized 3 5 (Report.tl_decisionRationale topLevel)
  /\ sized 3 5 (Report.tl_keyStrengths topLevel)
  /\ sized 2 4 (Report.tl_keyRisks topLevel)
  /\ sized 1 6 (Report.tl_risks topLevel)
  /\ sized 0 6 (Report.tl_followUps topLevel)
  /\ sized 0 4 (Report.tl_mustFixToHire topLevel)
  /\ (concat (map da_probes dimensions) <> [] ->
      (1 <= length (Report.tl_followUps topLevel))%nat).
Proof.
  unfold Report.buildTopLevelArrays. cbv zeta.
  cbn [Report.tl_decisionRationale Report.tl_keyStrengths Report.tl_keyRisks Report.tl_risks
       Report.tl_followUps Report.tl_mustFixToHire].
  set (keyRisks := Report.ensureMinItems (Report.toStringArray (getField "keyRisks" report) [])
                     _ 2 4).
  assert (Hrisks : sized 2 4 keyRisks).
  { subst keyRisks.
    apply (ensureMinItems_sized 2 4 _ _
             [ "Evidence coverage may be insufficient for high-confidence leveling.";
               "Some claims are directional and would benefit from stronger quantification." ]);
      [apply toStringArray_NoDup|by apply pair_NoDup| |simpl; lia|lia].
    intros entry Hentry. apply elem_of_app. by right. }
  split.
  { apply ensureMinItems_sized_all;
      [apply toStringArray_NoDup| |simpl; lia|lia].
    apply triple_NoDup; intros Heq; cbn in Heq; discriminate Heq. }
  split.
  { apply (ensureMinItems_sized 3 5 _ _
             [ "Candidate communicates decision context and outcomes with interviewer-friendly structure.";
               "Evidence includes at least one concrete, role-owned action sequence.";
               "Response shows some consistency across cited segments." ]);
      [apply toStringArray_NoDup|by apply triple_NoDup| |simpl; lia|lia].
    intros entry Hentry. apply elem_of_app. by right. }
  split; [exact Hrisks|]. split.
  { destruct Hrisks as (Hlow & _ & Hnodup).
    apply ensureMinItems_sized_all; [apply toStringArray_NoDup|exact Hnodup|lia|lia]. }
  split; [apply ensureMinItems_bounded, toStringArray_NoDup|].
  split; [apply ensureMinItems_bounded, toStringArray_NoDup|].
  intros Hprobes.
  destruct (take 4 (concat (map da_probes dimensions))) as [|probe probes] eqn:Htake.
  { destruct (concat (map da_probes dimensions)); [done|discriminate Htake]. }
  apply ensureMinItems_nonempty; lia.
Qed.

Lemma calibration_notes dimensions :
  let notes :=
    Report.cal_calibrationNotes (Report.deriveCalibratedRecommendation dimensions) in
  (1 <= length notes)%nat
  /\ ((exists dimension, dimension ∈ dimensions /\ observed dimension = true) ->
      exists first second others,
        notes = first :: second :: others /\ first <> second).
Proof.
  cbv zeta. destruct (observed_or_not dimensions) as [Hnone|Hobs].
  - unfold Report.deriveCalibratedRecommendation.
    change (List.filter
              (fun dimension =>
                 negb (da_notObserved dimension) && Report.hasNumberScore dimension)
              dimensions) with (List.filter observed dimensions).
    rewrite Hnone. split; [simpl; lia|].
    intros (dimension & Hin & Hobserved).
    assert (Hfiltered : In dimension (List.filter observed dimensions))
      by (apply filter_In; split; [by apply list_elem_of_In|exact Hobserved]).
    rewrite Hnone in Hfiltered. destruct Hfiltered.
  - pose proof (observed_filter_nonempty _ Hobs) as Hne.
    unfold Report.deriveCalibratedRecommendation. rewrite Hne.
    destruct (existsb _ dimensions),
      (JsMath.ltb (if (0 <? length dimensions)%nat then _ else _) _),
      (2 <=? length _)%nat;
      cbn [fst snd Report.cal_calibrationNotes app length];
      (split; [lia|]); intros _; do 3 eexists;
      (split; [reflexivity|]); intros Heq; cbn in Heq; discriminate Heq.
Qed.

Lemma normalizeModernReport_sized sourceReport context :
  let report := Report.normalizeModernReport sourceReport context in
  Forall listsSized (dimensions report)
  /\ sized 3 5 (decisionRationale report)
  /\ sized 3 5 (keyStrengths report)
  /\ sized 2 4 (keyRisks report)
  /\ sized 1 6 (risks report)
  /\ sized 0 6 (followUps report)
  /\ sized 0 4 (mustFixToHire report)
  /\ sized 1 6 (calibrationNotes report)
  /\ (ctx_dimensions context <> [] -> (1 <= length (followUps report))%nat)
  /\ ((exists dimension, dimension ∈ dimensions report /\ observed dimension = true) ->
      (2 <= length (calibrationNotes report))%nat).
Proof.
  cbv zeta.
  assert (Hdimensions : Forall listsSized
                          (dimensions (Report.normalizeModernReport sourceReport context))).
  { apply Forall_imap. intros index descriptor. apply normalizeDimension_listsSized. }
  split; [exact Hdimensions|].
  unfold Report.normalizeModernReport in *. cbv zeta in *.
  cbn [dimensions decisionRationale keyStrengths keyRisks risks followUps mustFixToHire
       calibrationNotes] in *.
  set (normalized := imap _ (ctx_dimensions context)) in *.
  destruct (buildTopLevelArrays_sized sourceReport normalized
              (Report.cal_recommendation (Report.deriveCalibratedRecommendation normalized)))
    as (Hrationale & Hstrengths & Hkey & Hrisks & Hfollow & Hfix & Hprobes).
  destruct (calibration_notes normalized) as [Hnotes Hobserved].
  repeat (split; [assumption|]). split; [|split].
  - repeat split; [|apply ensureMinItems_max|apply ensureMinItems_NoDup, toStringArray_NoDup].
    destruct (Report.cal_calibrationNotes _) as [|note notes]; [simpl in Hnotes; lia|].
    apply ensureMinItems_nonempty; lia.
  - intros Hrubric. apply Hprobes.
    destruct (ctx_dimensions context) as [|descriptor descriptors]; [done|].
    subst normalized. cbn [imap] in *. apply Forall_cons in Hdimensions as [Hfirst _].
    destruct Hfirst as (_ & _ & _ & _ & _ & (Hprobe & _) & _).
    cbn [map concat]. intros Hnil. apply app_eq_nil in Hnil as [Hnil _].
    rewrite Hnil in Hprobe. simpl in Hprobe. lia.
  - intros Hobs. destruct (Hobserved Hobs) as (first & second & others & -> & Hne).
    pose proof (ensureMinItems_at_least
                  (Report.toStringArray (getField "calibrationNotes" sourceReport) [])
                  (first :: second :: others) [first; second] 2 6) as Hreached.
    apply Hreached; [by apply pair_NoDup| |simpl; lia].
    intros note Hnote. apply elem_of_cons in Hnote as [->|Hnote]; [left|].
    apply list_elem_of_singleton in Hnote as ->. right. left.
Qed.

End ListSizes.



(** X15. The lists of a normalized Dimension Assessment have their sizes.
    For every candidate value (present or not, well-formed or not),
    [normalizeDimension] returns 1 to 4 missing signals, 2 to 4
    observations, 2 to 4 observed signals, 1 to 3 concerns, at most 3
    counter-signals, 2 or 3 probes, 1 to 3 reasons in each list of the
    anchor alignment and of what would change the score, none of the lists
    repeating a string, and an anchor level that is an integer from 1 to 5;
    so does every dimension of the Scorecard of [normalizeReportResponse]. *)
Theorem normalized_dimension_lists_sized `{JsBuiltins} :
  (forall (rawDimension : JsonValue) (descriptor : ReportDimension) (dimensionIndex : nat)
          (context : NormalizeContext),
     listsSized (Report.normalizeDimension rawDimension descriptor dimensionIndex context))
  /\ (forall (payload : JsonValue) (requestBody : ReportRequestBody),
        Forall listsSized (dimensions (Report.normalizeReportResponse payload requestBody))).
Proof.
  split.
  - apply normalizeDimension_listsSized.
  - intros payload requestBody. unfold Report.normalizeReportResponse.
    apply normalizeModernReport_sized.
Qed.

(** X16. The top-level lists of a Scorecard have their sizes.  For every
    payload and request, the Scorecard of [normalizeReportResponse] has 3
    to 5 decision rationales, 3 to 5 key strengths, 2 to 4 key risks, 1 to
    6 risks, at most 6 follow-ups (at least one when the rubric is not
    empty), at most 4 must-fix items and 1 to 6 calibration notes (at least
    two when a dimension is observed), none of the lists repeating a
    string. *)
Theorem normalized_report_lists_sized `{JsBuiltins}
    (payload : JsonValue) (requestBody : ReportRequestBody) :
  let report := Report.normalizeReportResponse payload requestBody in
  sized 3 5 (decisionRationale report)
  /\ sized 3 5 (keyStrengths report)
  /\ sized 2 4 (keyRisks report)
  /\ sized 1 6 (risks report)
  /\ sized 0 6 (followUps report)
  /\ sized 0 4 (mustFixToHire report)
  /\ sized 1 6 (calibrationNotes report)
  /\ (rubric_dimensions requestBody <> [] -> (1 <= length (followUps report))%nat)
  /\ ((exists dimension, dimension ∈ dimensions report /\ observed dimension = true) ->
      (2 <= length (calibrationNotes report))%nat).
Proof.
  cbv zeta. unfold Report.normalizeReportResponse.
  destruct (normalizeModernReport_sized
              (Report.encodeReport
                 (Report.normalizeFromUnknown payload
                    (Report.normalizedContextFromRequest requestBody)))
              (Report.normalizedContextFromRequest requestBody)) as [_ Hsized].
  exact Hsized.
Qed.

(** ** What a coverage map lists *)

Lemma indexSegments_entries dimensionId segmentIds : forall index segmentId entry,
  (forall s e, index !! s = Some e -> cov_dimensions e <> [] /\ NoDup (cov_dimensions e)) ->
  Report.indexSegments dimensionId segmentIds index !! segmentId = Some entry ->
  cov_dimensions entry <> [] /\ NoDup (cov_dimensions entry)
  /\ (is_Some (index !! segmentId) \/ segmentId ∈ segmentIds).
Proof.
  induction segmentIds as [|s segmentIds IH]; intros index segmentId entry Hindex Hlookup.
  - simpl in Hlookup. destruct (Hindex _ _ Hlookup). repeat split; try done. left. by eexists.
  - change (Report.indexSegments dimensionId (s :: segmentIds) index)
      with (Report.indexSegments dimensionId segmentIds
              match index !! s with
              | Some existing =>
                  if bool_decide (dimensionId ∈ cov_dimensions existing) then index
                  else <[s := {| cov_dimensions := cov_dimensions existing ++ [dimensionId] |}]>
                         index
              | None => <[s := {| cov_dimensions := [dimensionId] |}]> index
              end) in Hlookup.
    apply IH in Hlookup as (Hne & Hnodup & Hwhere).
    + split; [exact Hne|]. split; [exact Hnodup|].
      destruct Hwhere as [Hsome|Hin]; [|right; by apply list_elem_of_further].
      destruct (decide (segmentId = s)) as [->|Hother]; [right; apply list_elem_of_here|].
      left. destruct (index !! s) as [existing|]; [case_bool_decide|];
        by rewrite ?lookup_insert_ne in Hsome.
    + intros s' e. destruct (index !! s) as [existing|] eqn:Hs.
      * case_bool_decide as Hin; [apply Hindex|].
        destruct (decide (s = s')) as [<-|Hother].
        -- rewrite lookup_insert_eq. intros [= <-]. simpl. destruct (Hindex _ _ Hs) as [_ Hnodup].
           split; [by destruct (cov_dimensions existing)|].
           apply NoDup_app. split; [exact Hnodup|]. split; [|apply NoDup_singleton].
           by intros d Hd ->%list_elem_of_singleton.
        -- rewrite lookup_insert_ne by done. apply Hindex.
      * destruct (decide (s = s')) as [<-|Hother].
        -- rewrite lookup_insert_eq. intros [= <-]. simpl. split; [done|apply NoDup_singleton].
        -- rewrite lookup_insert_ne by done. apply Hindex.
Qed.

Section CoverageEntries.

Variables (idsOf : ReportDimensionAssessment -> list string)
          (pctOf : ReportDimensionAssessment -> Q).

Local Abbreviation covStep :=
  (fun coverage dimension =>
     {| byDimension :=
          <[da_id dimension :=
              {| cov_segmentIds := idsOf dimension; cov_coveragePct := pctOf dimension |}]>
            (byDimension coverage);
        bySegment :=
          Report.indexSegments (da_id dimension) (idsOf dimension) (bySegment coverage) |}).

(** What the two indexes hold of the dimensions processed so far, whether
    or not their ids repeat. *)
Local Abbreviation listed done coverage :=
  ((forall k, is_Some (byDimension coverage !! k) <-> k ∈ map da_id done)
   /\ (forall k entry,
         byDimension coverage !! k = Some entry ->
         exists x, x ∈ done%list /\ da_id x = k
                   /\ entry = {| cov_segmentIds := idsOf x; cov_coveragePct := pctOf x |})
   /\ (forall s entry,
         bySegment coverage !! s = Some entry ->
         cov_dimensions entry <> [] /\ NoDup (cov_dimensions entry)
         /\ (exists x, x ∈ done%list /\ s ∈ idsOf x)
         /\ (forall d, d ∈ cov_dimensions entry -> d ∈ map da_id done))).

Lemma covStep_listed done coverage x :
  listed done coverage -> listed (done ++ [x]) (covStep coverage x).
Proof.
  intros (Hkeys & Hentries & Hsegments).
  assert (Hwell : forall s e, bySegment coverage !! s = Some e ->
                              cov_dimensions e <> [] /\ NoDup (cov_dimensions e)).
  { intros s e He. by destruct (Hsegments _ _ He) as (? & ? & _). }
  split; [|split].
  - intros k. simpl. rewrite map_app, elem_of_app. simpl. rewrite list_elem_of_singleton.
    destruct (decide (da_id x = k)) as [<-|Hne].
    + rewrite lookup_insert_eq. split; [by right|by eexists].
    + rewrite lookup_insert_ne by done. rewrite Hkeys. split; [by left|].
      intros [Hin|Heq]; [exact Hin|by destruct Hne].
  - intros k entry. simpl. destruct (decide (da_id x = k)) as [<-|Hne].
    + rewrite lookup_insert_eq. intros [= <-]. exists x. split; [|done].
      apply elem_of_app. right. apply list_elem_of_here.
    + rewrite lookup_insert_ne by done. intros Hlookup.
      destruct (Hentries _ _ Hlookup) as (y & Hy & Hid & ->). exists y. split; [|done].
      apply elem_of_app. by left.
  - intros s entry Hlookup. simpl in Hlookup.
    destruct (indexSegments_entries (da_id x) (idsOf x) (bySegment coverage) s entry
                Hwell Hlookup) as (Hne & Hnodup & Hwhere).
    split; [exact Hne|]. split; [exact Hnodup|]. split.
    + destruct Hwhere as [[e He]|Hin].
      * destruct (Hsegments _ _ He) as (_ & _ & (y & Hy & Hs) & _).
        exists y. split; [apply elem_of_app; by left|exact Hs].
      * exists x. split; [apply elem_of_app; right; apply list_elem_of_here|exact Hin].
    + intros d Hd.
      assert (Hat : d ∈ dimensionsAt
                          (Report.indexSegments (da_id x) (idsOf x) (bySegment coverage)) s)
        by (unfold dimensionsAt; by rewrite Hlookup).
      apply indexSegments_spec in Hat as [Hat|[-> _]].
      * unfold dimensionsAt in Hat. destruct (bySegment coverage !! s) as [e|] eqn:He;
          [|by apply elem_of_nil in Hat].
        destruct (Hsegments _ _ He) as (_ & _ & _ & Hdims).
        rewrite map_app, elem_of_app. left. by apply Hdims.
      * rewrite map_app, elem_of_app. right. apply list_elem_of_here.
Qed.

Lemma covFold_listed dimensions : forall done coverage,
  listed done coverage ->
  listed (done ++ dimensions) (fold_left covStep dimensions coverage).
Proof.
  induction dimensions as [|x dimensions IH]; intros done coverage Hinv.
  - by rewrite app_nil_r.
  - simpl. replace (done ++ x :: dimensions) with ((done ++ [x]) ++ dimensions)
      by (by rewrite <- app_assoc).
    apply IH. by apply covStep_listed.
Qed.

Lemma covFold_entries dimensions :
  listed dimensions (fold_left covStep dimensions {| byDimension := ∅; bySegment := ∅ |}).
Proof.
  apply (covFold_listed dimensions [] {| byDimension := ∅; bySegment := ∅ |}).
  split; [|split].
  - intros k. simpl. rewrite lookup_empty, elem_of_nil. split; [by intros [? ?]|done].
  - intros k entry Hlookup. simpl in Hlookup. by rewrite lookup_empty in Hlookup.
  - intros s entry Hlookup. simpl in Hlookup. by rewrite lookup_empty in Hlookup.
Qed.

End CoverageEntries.

Lemma round_tenths (percent : Q) :
  (0 <= percent)%Q -> (percent <= 100)%Q ->
  percentWithTenths (JsMath.round (percent * 10) / 10).
Proof.
  intros Hlow Hhigh. exists (Qfloor (percent * 10 + 0.5)). split; [|reflexivity]. split.
  - change 0%Z with (Qfloor (0 + 0.5)). apply Qfloor_resp_le. lra.
  - change 1000%Z with (Qfloor (1000 + 0.5)). apply Qfloor_resp_le. lra.
Qed.

Lemma covFold_wellFormed (idsOf : ReportDimensionAssessment -> list string)
    (pctOf : ReportDimensionAssessment -> Q) (known : string -> Prop) dimensions :
  (forall x, NoDup (idsOf x)) ->
  (forall x, percentWithTenths (pctOf x)) ->
  (forall x s, x ∈ dimensions -> s ∈ idsOf x ->
               known s /\ s ∈ map ev_segmentId (da_evidence x)) ->
  wellFormedCoverage dimensions known
    (fold_left
       (fun coverage dimension =>
          {| byDimension :=
               <[da_id dimension :=
                   {| cov_segmentIds := idsOf dimension;
                      cov_coveragePct := pctOf dimension |}]>
                 (byDimension coverage);
             bySegment :=
               Report.indexSegments (da_id dimension) (idsOf dimension)
                 (bySegment coverage) |})
       dimensions {| byDimension := ∅; bySegment := ∅ |}).
Proof.
  intros Hnodup Hpct Hknown.
  destruct (covFold_entries idsOf pctOf dimensions) as (Hkeys & Hentries & Hsegments).
  split; [exact Hkeys|]. split.
  - intros k entry Hlookup. destruct (Hentries _ _ Hlookup) as (x & Hx & Hid & ->). simpl.
    split; [apply Hnodup|]. split; [apply Hpct|].
    intros s Hs. destruct (Hknown x s Hx Hs) as [Hs1 Hs2]. split; [exact Hs1|]. by exists x.
  - intros s entry Hlookup.
    destruct (Hsegments _ _ Hlookup) as (Hne & Hdistinct & (x & Hx & Hs) & Hdims).
    split; [by destruct (Hknown x s Hx Hs)|]. split; [exact Hne|]. split; [exact Hdistinct|exact Hdims].
Qed.

Lemma createCoverageMap_wellFormed dimensions segments :
  wellFormedCoverage dimensions (fun s => s ∈ map seg_id segments)
    (Report.createCoverageMap dimensions segments).
Proof.
  unfold Report.createCoverageMap. cbv zeta.
  apply (covFold_wellFormed
           (fun dimension =>
              uniqueInOrder
                (List.filter
                   (fun segmentId =>
                      bool_decide
                        (is_Some
                           (mapOfEntries (map (fun segment => (seg_id segment, segment)) segments)
                            !! segmentId)))
                   (map ev_segmentId (da_evidence dimension))))).
  - intros x. apply uniqueInOrder_NoDup.
  - intros x. apply round_tenths; apply clamp_bounds; discriminate.
  - intros x s _ Hs. rewrite elem_of_uniqueInOrder in Hs.
    apply list_elem_of_In, filter_In in Hs as [Hs Hknown].
    split; [|by apply list_elem_of_In].
    apply bool_decide_eq_true in Hknown as [segment Hsegment].
    apply mapOfEntries_lookup, list_elem_of_In, in_map_iff in Hsegment
      as (found & [= <- <-] & Hfound).
    by apply list_elem_of_In, in_map.
Qed.

Lemma createCoverageMapFromEvidence_wellFormed dimensions availableSegmentCount
    (known : string -> Prop) :
  (forall x s, x ∈ dimensions -> s ∈ map ev_segmentId (da_evidence x) -> known s) ->
  wellFormedCoverage dimensions known
    (Report.createCoverageMapFromEvidence dimensions availableSegmentCount).
Proof.
  intros Hknown. unfold Report.createCoverageMapFromEvidence. cbv zeta.
  apply (covFold_wellFormed
           (fun dimension => uniqueInOrder (map ev_segmentId (da_evidence dimension)))).
  - intros x. apply uniqueInOrder_NoDup.
  - intros x. apply round_tenths; apply clamp_bounds; discriminate.
  - intros x s Hx Hs. rewrite elem_of_uniqueInOrder in Hs. split; [by apply (Hknown x)|exact Hs].
Qed.

Lemma wellFormedCoverage_known dimensions (known known' : string -> Prop) coverage :
  (forall s, known s -> known' s) ->
  wellFormedCoverage dimensions known coverage -> wellFormedCoverage dimensions known' coverage.
Proof.
  intros Himpl (Hkeys & Hentries & Hsegments). split; [exact Hkeys|]. split.
  - intros k entry Hlookup. destruct (Hentries _ _ Hlookup) as (Hnodup & Hpct & Hids).
    split; [exact Hnodup|]. split; [exact Hpct|].
    intros s Hs. destruct (Hids s Hs) as [Hknown Hcited]. split; [by apply Himpl|exact Hcited].
  - intros s entry Hlookup. destruct (Hsegments _ _ Hlookup) as (Hknown & Hrest).
    split; [by apply Himpl|exact Hrest].
Qed.


(** ** The UI coverage model *)

Lemma mapOfEntries_is_Some {V : Type} (entries : list (string * V)) key :
  (exists value, (key, value) ∈ entries) -> is_Some (mapOfEntries entries !! key).
Proof.
  unfold mapOfEntries.
  assert (Hgeneral : forall index : gmap string V,
            is_Some (index !! key) \/ (exists value, (key, value) ∈ entries) ->
            is_Some (fold_left (fun m kv => <[kv.1 := kv.2]> m) entries index !! key)).
  { induction entries as [|[k v] entries IH]; intros index Hcases; simpl.
    - destruct Hcases as [Hsome|(value & Hin)]; [exact Hsome|by apply elem_of_nil in Hin].
    - apply IH. destruct Hcases as [Hsome|(value & Hin)].
      + left. destruct (decide (k = key)) as [->|Hne];
          [rewrite lookup_insert_eq; by eexists|by rewrite lookup_insert_ne].
      + apply elem_of_cons in Hin as [[= <- <-]|Hin]; [|right; by exists value].
        left. rewrite lookup_insert_eq. by eexists. }
  intros Hin. apply Hgeneral. by right.
Qed.

Lemma clamp_within (value low high : Q) :
  (low <= value)%Q -> (value <= high)%Q -> (Coverage.clamp value low high == value)%Q.
Proof.
  intros Hlow Hhigh. unfold Coverage.clamp, JsMath.min, JsMath.max.
  rewrite Q.max_r by exact Hlow. by apply Q.min_r.
Qed.

Lemma coverage_clamp_bounds value low high :
  (low <= high)%Q ->
  (low <= Coverage.clamp value low high)%Q /\ (Coverage.clamp value low high <= high)%Q.
Proof. apply (clamp_bounds value low high). Qed.

Section CoverageModel.

Variable input : Coverage.BuildCoverageModelInput.

Local Abbreviation epsilonSeconds := (default 0.05%Q (Coverage.in_epsilonSeconds input)).

Local Abbreviation durationSeconds :=
  (Coverage.deriveDurationSeconds (Coverage.in_segments input)
     (Coverage.in_durationSeconds input)).

Local Abbreviation segmentById :=
  (mapOfEntries
     (map (fun segment => (Coverage.cs_id segment, segment)) (Coverage.in_segments input))).

Local Abbreviation selectedDimensions :=
  (match Coverage.in_activeDimensionId input with
   | Some activeDimensionId =>
       if (0 <? String.length activeDimensionId)%nat
       then List.filter (fun dimension => String.eqb (da_id dimension) activeDimensionId)
              (dimensions (Coverage.in_report input))
       else dimensions (Coverage.in_report input)
   | None => dimensions (Coverage.in_report input)
   end).

Local Abbreviation citedSegmentIdSet :=
  (uniqueInOrder
     (List.filter (fun segmentId => bool_decide (is_Some (segmentById !! segmentId)))
        (concat
           (map (fun dimension => map ev_segmentId (da_evidence dimension))
              selectedDimensions)))).

Local Abbreviation pushInterval :=
  (fun (rawIntervals : option (list Coverage.CoverageInterval)) segmentId =>
     match segmentById !! segmentId with
     | None => rawIntervals
     | Some segment =>
         match rawIntervals, Coverage.rawIntervalOf durationSeconds segmentId segment with
         | Some pushed, Some interval => Some (pushed ++ [interval])
         | _, _ => None
         end
     end).

Lemma duration_positive : (0 < durationSeconds)%Q.
Proof.
  by destruct (coverage_duration_spec (Coverage.in_segments input)
                 (Coverage.in_durationSeconds input)) as [Hpos _].
Qed.

Lemma segmentById_known id :
  is_Some (segmentById !! id)
  <-> exists segment, segment ∈ Coverage.in_segments input /\ Coverage.cs_id segment = id.
Proof.
  split.
  - intros [segment Hlookup].
    apply mapOfEntries_lookup, list_elem_of_In, in_map_iff in Hlookup
      as (found & [= <- <-] & Hfound).
    exists found. split; [by apply list_elem_of_In|reflexivity].
  - intros (segment & Hin & <-). apply mapOfEntries_is_Some. exists segment.
    apply list_elem_of_In, in_map_iff. exists segment. split; [reflexivity|by apply list_elem_of_In].
Qed.

Lemma segmentById_member id segment :
  segmentById !! id = Some segment ->
  segment ∈ Coverage.in_segments input /\ Coverage.cs_id segment = id.
Proof.
  intros Hlookup.
  apply mapOfEntries_lookup, list_elem_of_In, in_map_iff in Hlookup
    as (found & [= <- <-] & Hfound).
  split; [by apply list_elem_of_In|reflexivity].
Qed.

Lemma selectedDimensions_spec dimension :
  dimension ∈ selectedDimensions
  <-> dimension ∈ dimensions (Coverage.in_report input) /\ selected input dimension.
Proof.
  unfold selected. destruct (Coverage.in_activeDimensionId input) as [active|]; [|tauto].
  destruct (0 <? String.length active)%nat eqn:Hlength.
  - rewrite list_elem_of_In, filter_In, <- list_elem_of_In, String.eqb_eq.
    apply Nat.ltb_lt in Hlength. split; [tauto|].
    intros [Hin [->|Heq]]; [simpl in Hlength; lia|done].
  - apply Nat.ltb_ge in Hlength. destruct active; [|simpl in Hlength; lia].
    split; [|tauto]. intros Hin. split; [exact Hin|by left].
Qed.

Lemma citedSegmentIdSet_spec id : id ∈ citedSegmentIdSet <-> citedSegment input id.
Proof.
  rewrite elem_of_uniqueInOrder, list_elem_of_In, filter_In, bool_decide_eq_true,
    segmentById_known, in_concat.
  unfold citedSegment. split.
  - intros [(ids & Hids & Hid) Hknown]. split; [exact Hknown|].
    apply in_map_iff in Hids as (dimension & <- & Hdimension).
    apply list_elem_of_In, selectedDimensions_spec in Hdimension as [Hin Hselected].
    exists dimension. split; [exact Hin|]. split; [exact Hselected|by apply list_elem_of_In].
  - intros [Hknown (dimension & Hin & Hselected & Hid)]. split; [|exact Hknown].
    exists (map ev_segmentId (da_evidence dimension)). split; [|by apply list_elem_of_In].
    apply in_map_iff. exists dimension. split; [reflexivity|].
    apply list_elem_of_In, selectedDimensions_spec. by split.
Qed.

Lemma citedSegmentIdSet_count :
  (length citedSegmentIdSet <= length (Coverage.in_segments input))%nat.
Proof.
  rewrite <- (length_map Coverage.cs_id (Coverage.in_segments input)).
  apply submseteq_length, NoDup_submseteq; [apply uniqueInOrder_NoDup|].
  intros id Hid. apply citedSegmentIdSet_spec in Hid as [(segment & Hin & <-) _].
  by apply list_elem_of_In, in_map, list_elem_of_In.
Qed.

Lemma pushInterval_none ids : fold_left pushInterval ids None = None.
Proof.
  induction ids as [|id ids IH]; simpl; [reflexivity|].
  by destruct (segmentById !! id).
Qed.

(** The intervals pushed for a list of ids, each from the segment with
    that id. *)
Lemma pushInterval_pushed ids : forall pushed rawIntervals,
  (forall id, id ∈ ids -> is_Some (segmentById !! id)) ->
  fold_left pushInterval ids (Some pushed) = Some rawIntervals ->
  exists added,
    rawIntervals = pushed ++ added
    /\ Forall2
         (fun id interval =>
            exists segment,
              segmentById !! id = Some segment
              /\ Coverage.rawIntervalOf durationSeconds id segment = Some interval)
         ids added.
Proof.
  induction ids as [|id ids IH]; intros pushed rawIntervals Hknown Hfold; simpl in Hfold.
  - injection Hfold as <-. exists []. split; [by rewrite app_nil_r|constructor].
  - destruct (Hknown id) as [segment Hsegment]; [apply list_elem_of_here|].
    rewrite Hsegment in Hfold.
    destruct (Coverage.rawIntervalOf durationSeconds id segment) as [interval|] eqn:Hinterval;
      [|by rewrite pushInterval_none in Hfold].
    apply IH in Hfold as (added & -> & Hadded).
    + exists (interval :: added). split; [by rewrite <- app_assoc|].
      constructor; [|exact Hadded]. by exists segment.
    + intros id' Hid'. apply Hknown. by apply list_elem_of_further.
Qed.

Lemma pushInterval_total ids : forall pushed,
  (forall id segment, id ∈ ids -> segmentById !! id = Some segment -> finiteBounds segment) ->
  is_Some (fold_left pushInterval ids (Some pushed)).
Proof.
  induction ids as [|id ids IH]; intros pushed Hfinite; simpl; [by eexists|].
  destruct (segmentById !! id) as [segment|] eqn:Hsegment.
  - destruct (Hfinite id segment) as [[segmentStart Hstart] [segmentEnd Hend]];
      [apply list_elem_of_here|exact Hsegment|].
    unfold Coverage.rawIntervalOf. rewrite Hstart, Hend.
    apply IH. intros id' segment' Hid'. apply Hfinite. by apply list_elem_of_further.
  - apply IH. intros id' segment' Hid'. apply Hfinite. by apply list_elem_of_further.
Qed.

Lemma rawIntervalOf_onTimeline id segment interval :
  Coverage.rawIntervalOf durationSeconds id segment = Some interval ->
  onTimeline durationSeconds interval /\ Coverage.ci_segmentIds interval = [id].
Proof.
  unfold Coverage.rawIntervalOf.
  destruct (Coverage.cs_start segment) as [segmentStart|]; [|done].
  destruct (Coverage.cs_end segment) as [segmentEnd|]; [|done].
  intros [= <-]. split; [|reflexivity].
  pose proof duration_positive as Hpos. apply Qlt_le_weak in Hpos.
  destruct (coverage_clamp_bounds segmentStart 0 durationSeconds Hpos) as [Hlow Hhigh].
  set (start := Coverage.clamp segmentStart 0 durationSeconds) in *.
  unfold onTimeline. cbn [Coverage.ci_start Coverage.ci_end]. split; [exact Hlow|]. split.
  - unfold Coverage.clamp, JsMath.min, JsMath.max. apply Q.min_glb; [exact Hhigh|].
    eapply Qle_trans; [|apply Q.le_max_r]. apply Q.le_max_r.
  - by apply coverage_clamp_bounds.
Qed.

End CoverageModel.

Lemma merged_onTimeline rawIntervals epsilon duration :
  Forall (onTimeline duration) rawIntervals ->
  Forall (onTimeline duration) (Coverage.mergeIntervals rawIntervals epsilon).
Proof.
  intros Hraw. rewrite Forall_forall in Hraw. apply Forall_forall. intros merged Hmerged.
  destruct (coverage_origin _ _ _ Hmerged) as ((a & Ha & Hstart) & (b & Hb & Hend) & _).
  destruct (Hraw a Ha) as (Hlow & _ & _). destruct (Hraw b Hb) as (_ & _ & Hhigh).
  unfold onTimeline. rewrite Hstart, Hend. split; [exact Hlow|]. split; [|exact Hhigh].
  rewrite <- Hstart, <- Hend.
  destruct (Qlt_le_dec (Coverage.ci_end merged) (Coverage.ci_start merged)) as [Hlt|Hle];
    [exfalso|exact Hle].
  rewrite coverage_mergeIntervals_sweep in Hmerged.
  apply (sweep_origin _ _ _
           (fun interval => (Coverage.ci_end interval < Coverage.ci_start interval)%Q))
    in Hmerged as (c & Hc & Hbad); [| |exact Hlt].
  - destruct (Hraw c Hc) as (_ & Hordered & _). by apply (Qlt_not_le _ _ Hbad).
  - intros last x. simpl. intros Hbad. left.
    eapply Qle_lt_trans; [apply Q.le_max_l|exact Hbad].
Qed.

Lemma covered_sum duration intervals : forall init,
  Forall (onTimeline duration) intervals ->
  (fold_left
     (fun sum interval =>
        sum + JsMath.max (Coverage.ci_end interval - Coverage.ci_start interval) 0)
     intervals init
   == init + totalLength intervals)%Q.
Proof.
  induction intervals as [|interval intervals IH]; intros init Hall; simpl.
  - lra.
  - apply Forall_cons in Hall as [(_ & Hordered & _) Hall].
    etransitivity; [by apply IH|].
    assert (Hmax : (JsMath.max (Coverage.ci_end interval - Coverage.ci_start interval) 0
                    == Coverage.ci_end interval - Coverage.ci_start interval)%Q).
    { unfold JsMath.max. apply Q.max_l. lra. }
    rewrite Hmax. lra.
Qed.

Lemma totalLength_bound epsilon duration intervals :
  (0 <= epsilon)%Q -> (0 <= duration)%Q ->
  Sorted (apart Coverage.ci_start Coverage.ci_end epsilon) intervals ->
  Forall (onTimeline duration) intervals ->
  (0 <= totalLength intervals)%Q
  /\ (totalLength intervals <= duration)%Q
  /\ (forall first, head intervals = Some first ->
                    (totalLength intervals <= duration - Coverage.ci_start first)%Q).
Proof.
  intros Hepsilon Hduration Hsorted Hall.
  induction Hsorted as [|interval intervals Hsorted IH Hhead]; simpl.
  - split; [lra|]. split; [lra|discriminate].
  - apply Forall_cons in Hall as [(Hlow & Hordered & Hhigh) Hall].
    destruct (IH Hall) as (Hnonneg & Htotal & Hfirst).
    assert (Hbound : (Coverage.ci_end interval - Coverage.ci_start interval
                      + totalLength intervals
                      <= duration - Coverage.ci_start interval)%Q).
    { destruct Hhead as [|next rest [_ Hgap]]; [simpl; lra|].
      specialize (Hfirst next eq_refl). lra. }
    split; [lra|]. split; [lra|]. intros first [= <-]. exact Hbound.
Qed.

Lemma Forall2_elem_l {A B : Type} (P : A -> B -> Prop) l k x :
  Forall2 P l k -> x ∈ l -> exists y, y ∈ k /\ P x y.
Proof.
  induction 1 as [|a b l k Hab Hrest IH]; intros Hx; [by apply elem_of_nil in Hx|].
  apply elem_of_cons in Hx as [->|Hx].
  - exists b. split; [apply list_elem_of_here|exact Hab].
  - destruct (IH Hx) as (y & Hy & HP). exists y. split; [by apply list_elem_of_further|exact HP].
Qed.

Lemma Forall2_elem_r {A B : Type} (P : A -> B -> Prop) l k y :
  Forall2 P l k -> y ∈ k -> exists x, x ∈ l /\ P x y.
Proof.
  induction 1 as [|a b l k Hab Hrest IH]; intros Hy; [by apply elem_of_nil in Hy|].
  apply elem_of_cons in Hy as [->|Hy].
  - exists a. split; [apply list_elem_of_here|exact Hab].
  - destruct (IH Hy) as (x & Hx & HP). exists x. split; [by apply list_elem_of_further|exact HP].
Qed.

Section CoverageModelResult.

Variable input : Coverage.BuildCoverageModelInput.
Variable model : Coverage.CoverageModel.
Hypothesis built : Coverage.buildCoverageModel input = Some model.

Local Abbreviation epsilonSeconds := (default 0.05%Q (Coverage.in_epsilonSeconds input)).

Local Abbreviation durationSeconds :=
  (Coverage.deriveDurationSeconds (Coverage.in_segments input)
     (Coverage.in_durationSeconds input)).

(** The raw intervals behind the model: one per cited segment id. *)
Lemma buildCoverageModel_raw :
  exists rawIntervals,
    (forall id, citedSegment input id
                <-> exists interval,
                      interval ∈ rawIntervals /\ Coverage.ci_segmentIds interval = [id])
    /\ Forall (onTimeline durationSeconds) rawIntervals
    /\ (forall interval, interval ∈ rawIntervals ->
                         exists id, Coverage.ci_segmentIds interval = [id])
    /\ Coverage.cm_durationSeconds model = durationSeconds
    /\ Coverage.cm_intervals model = Coverage.mergeIntervals rawIntervals epsilonSeconds
    /\ Coverage.cm_coveragePercent model
       = (Coverage.clamp
            (fold_left
               (fun sum interval =>
                  sum + JsMath.max (Coverage.ci_end interval - Coverage.ci_start interval) 0)
               (Coverage.mergeIntervals rawIntervals epsilonSeconds) 0
             / durationSeconds * 100) 0 100)%Q
    /\ Coverage.cm_totalSegmentCount model = length (Coverage.in_segments input)
    /\ (Coverage.cm_citedSegmentCount model <= length (Coverage.in_segments input))%nat.
Proof.
  pose proof built as Hbuilt. unfold Coverage.buildCoverageModel in Hbuilt. cbv zeta in Hbuilt.
  match type of Hbuilt with
  | match fold_left ?step ?ids (Some []) with _ => _ end = _ =>
      destruct (fold_left step ids (Some [])) as [rawIntervals|] eqn:Hfold; [|discriminate]
  end.
  injection Hbuilt as <-.
  cbn [Coverage.cm_citedSegmentCount Coverage.cm_durationSeconds Coverage.cm_intervals
       Coverage.cm_coveragePercent Coverage.cm_totalSegmentCount].
  apply (pushInterval_pushed input) in Hfold as (added & -> & Hadded); cycle 1.
  { intros id Hid. rewrite elem_of_uniqueInOrder in Hid.
    apply list_elem_of_In, filter_In in Hid as [_ Hknown]. by apply bool_decide_eq_true in Hknown. }
  simpl app. exists added.
  split; [|split; [|split; [|split; [|split; [|split; [|split]]]]]]; try reflexivity.
  - intros id. rewrite <- (citedSegmentIdSet_spec input). split.
    + intros Hid. destruct (Forall2_elem_l _ _ _ _ Hadded Hid)
        as (interval & Hinterval & segment & _ & Hraw).
      exists interval. split; [exact Hinterval|].
      by destruct (rawIntervalOf_onTimeline input _ _ _ Hraw).
    + intros (interval & Hinterval & Hids).
      destruct (Forall2_elem_r _ _ _ _ Hadded Hinterval) as (id' & Hid' & segment & _ & Hraw).
      destruct (rawIntervalOf_onTimeline input _ _ _ Hraw) as [_ Hids'].
      rewrite Hids in Hids'. by injection Hids' as ->.
  - apply Forall_forall. intros interval Hinterval.
    destruct (Forall2_elem_r _ _ _ _ Hadded Hinterval) as (id & _ & segment & _ & Hraw).
    by destruct (rawIntervalOf_onTimeline input _ _ _ Hraw).
  - intros interval Hinterval.
    destruct (Forall2_elem_r _ _ _ _ Hadded Hinterval) as (id & _ & segment & _ & Hraw).
    exists id. by destruct (rawIntervalOf_onTimeline input _ _ _ Hraw).
  - apply citedSegmentIdSet_count.
Qed.

End CoverageModelResult.

(** X18. The UI coverage model is built for every input whose segments
    have finite bounds, and what it reports is in range: the duration is
    positive, the coverage percentage is from 0 to 100, and the number of
    cited segments is at most the number of segments, which is the length
    of the segment list. *)
Theorem buildCoverageModel_in_range (input : Coverage.BuildCoverageModelInput) :
  (Forall finiteBounds (Coverage.in_segments input) ->
   is_Some (Coverage.buildCoverageModel input))
  /\ (forall model,
        Coverage.buildCoverageModel input = Some model ->
        (0 < Coverage.cm_durationSeconds model)%Q
        /\ (0 <= Coverage.cm_coveragePercent model)%Q
        /\ (Coverage.cm_coveragePercent model <= 100)%Q
        /\ (Coverage.cm_citedSegmentCount model <= Coverage.cm_totalSegmentCount model)%nat
        /\ Coverage.cm_totalSegmentCount model = length (Coverage.in_segments input)).
Proof.
  split.
  - intros Hfinite. unfold Coverage.buildCoverageModel. cbv zeta.
    match goal with
    | |- is_Some (match fold_left ?step ?ids (Some []) with _ => _ end) =>
        destruct (pushInterval_total input ids []) as [rawIntervals ->]; [|by eexists]
    end.
    intros id segment _ Hsegment. apply segmentById_member in Hsegment as [Hin _].
    rewrite Forall_forall in Hfinite. by apply Hfinite.
  - intros model Hmodel.
    destruct (buildCoverageModel_raw input model Hmodel)
      as (rawIntervals & _ & _ & _ & -> & _ & -> & -> & Hcount).
    split; [apply duration_positive|].
    split; [by apply coverage_clamp_bounds|]. split; [by apply coverage_clamp_bounds|].
    split; [exact Hcount|reflexivity].
Qed.

(** X19. The intervals of the UI coverage model.  They are in order of
    [start], each starting more than the tolerance after the end of the one
    before; each lies on the time line from 0 to the duration and ends no
    earlier than it starts; and the segment ids they list are exactly the
    ids of segments of the input that the evidence of a selected dimension
    cites: no cited segment is lost in the merge and none is invented. *)
Theorem buildCoverageModel_intervals
    (input : Coverage.BuildCoverageModelInput) (model : Coverage.CoverageModel) :
  Coverage.buildCoverageModel input = Some model ->
  Sorted
    (apart Coverage.ci_start Coverage.ci_end (default 0.05%Q (Coverage.in_epsilonSeconds input)))
    (Coverage.cm_intervals model)
  /\ Forall (onTimeline (Coverage.cm_durationSeconds model)) (Coverage.cm_intervals model)
  /\ (forall id,
        citedSegment input id
        <-> exists interval,
              interval ∈ Coverage.cm_intervals model
              /\ id ∈ Coverage.ci_segmentIds interval).
Proof.
  intros Hmodel.
  destruct (buildCoverageModel_raw input model Hmodel)
    as (rawIntervals & Hcited & Hraw & Hsingle & -> & -> & _).
  split; [|split].
  - rewrite coverage_mergeIntervals_sweep. by apply sweep_apart.
  - by apply merged_onTimeline.
  - intros id. rewrite Hcited. split.
    + intros (interval & Hinterval & Hids).
      destruct (coverage_covers rawIntervals (default 0.05%Q (Coverage.in_epsilonSeconds input))
                  interval Hinterval) as (merged & Hmerged & _ & Hkept).
      exists merged. split; [exact Hmerged|]. apply Hkept. rewrite Hids. apply list_elem_of_here.
    + intros (merged & Hmerged & Hid).
      destruct (coverage_origin _ _ _ Hmerged) as (_ & _ & Hids).
      destruct (Hids id Hid) as (interval & Hinterval & Hin).
      exists interval. split; [exact Hinterval|].
      destruct (Hsingle interval Hinterval) as [id' Hids']. rewrite Hids' in Hin |- *.
      by apply list_elem_of_singleton in Hin as ->.
Qed.

Lemma buildCoverageModel_intervals_witness :
  exists model,
    Coverage.buildCoverageModel sampleCoverageInput = Some model
    /\ Forall (onTimeline (Coverage.cm_durationSeconds model)) (Coverage.cm_intervals model).
Proof.
  destruct (Coverage.buildCoverageModel sampleCoverageInput) as [model|] eqn:Hmodel.
  - exists model. split; [reflexivity|].
    apply (buildCoverageModel_intervals sampleCoverageInput model Hmodel).
  - vm_compute in Hmodel. discriminate Hmodel.
Defined.

(** X20. The coverage percentage is the covered share of the duration.
    With a tolerance that is not negative (the default 0.05 is not) the
    merged intervals do not overlap, so their summed length is at most the
    duration, and the percentage of the model is that length divided by
    the duration, times 100: the final clamp to 0..100 changes nothing. *)
Theorem buildCoverageModel_percent_is_share
    (input : Coverage.BuildCoverageModelInput) (model : Coverage.CoverageModel) :
  Coverage.buildCoverageModel input = Some model ->
  (0 <= default 0.05 (Coverage.in_epsilonSeconds input))%Q ->
  (0 <= totalLength (Coverage.cm_intervals model))%Q
  /\ (totalLength (Coverage.cm_intervals model) <= Coverage.cm_durationSeconds model)%Q
  /\ (Coverage.cm_coveragePercent model
      == totalLength (Coverage.cm_intervals model) / Coverage.cm_durationSeconds model * 100)%Q.
Proof.
  intros Hmodel Hepsilon.
  destruct (buildCoverageModel_raw input model Hmodel)
    as (rawIntervals & _ & Hraw & _ & -> & -> & -> & _).
  pose proof (duration_positive input) as Hpositive.
  set (duration := Coverage.deriveDurationSeconds _ _) in *.
  set (merged := Coverage.mergeIntervals rawIntervals _).
  assert (Hmerged : Forall (onTimeline duration) merged) by by apply merged_onTimeline.
  assert (Hsorted : Sorted (apart Coverage.ci_start Coverage.ci_end
                              (default 0.05%Q (Coverage.in_epsilonSeconds input))) merged).
  { subst merged. rewrite coverage_mergeIntervals_sweep. by apply sweep_apart. }
  destruct (totalLength_bound _ duration merged Hepsilon (Qlt_le_weak _ _ Hpositive)
              Hsorted Hmerged) as (Hlow & Hhigh & _).
  split; [exact Hlow|]. split; [exact Hhigh|].
  pose proof (covered_sum duration merged 0 Hmerged) as Hsum.
  rewrite Qplus_0_l in Hsum.
  set (covered := fold_left _ merged 0%Q) in *.
  assert (Hshare : (covered / duration * 100 == totalLength merged / duration * 100)%Q)
    by by rewrite Hsum.
  assert (Hunit : (0 <= totalLength merged / duration)%Q
                  /\ (totalLength merged / duration <= 1)%Q).
  { split.
    - apply Qle_shift_div_l; [exact Hpositive|]. by rewrite Qmult_0_l.
    - apply Qle_shift_div_r; [exact Hpositive|]. by rewrite Qmult_1_l. }
  etransitivity; [apply clamp_within|exact Hshare]; rewrite Hshare; lra.
Qed.

Lemma buildCoverageModel_percent_is_share_witness :
  exists model,
    Coverage.buildCoverageModel sampleCoverageInput = Some model
    /\ (Coverage.cm_coveragePercent model
        == totalLength (Coverage.cm_intervals model) / Coverage.cm_durationSeconds model
           * 100)%Q.
Proof.
  destruct (Coverage.buildCoverageModel sampleCoverageInput) as [model|] eqn:Hmodel.
  - exists model. split; [reflexivity|].
    apply (buildCoverageModel_percent_is_share sampleCoverageInput model Hmodel). discriminate.
  - vm_compute in Hmodel. discriminate Hmodel.
Defined.

(** ** The report route *)

Lemma isNonEmptyString_notBlank `{JsBuiltins} (s : string) :
  Report.isNonEmptyString (JString s) = true <-> notBlank s.
Proof.
  unfold Report.isNonEmptyString, notBlank.
  destruct (String.eqb_spec (trim s) emptyString) as [Heq|Hne]; simpl; split; try done.
Qed.

Lemma every_Forall2 {A B : Type} (check : A -> option B) entries checked :
  Report.every check entries = Some checked ->
  Forall2 (fun entry value => check entry = Some value) entries checked.
Proof.
  unfold Report.every. intros Hall. by apply mapM_Some_1.
Qed.

Lemma every_Forall {A B : Type} (check : A -> option B) (P : B -> Prop) entries checked :
  (forall entry value, check entry = Some value -> P value) ->
  Report.every check entries = Some checked -> Forall P checked.
Proof.
  intros Hcheck Hall. apply every_Forall2 in Hall.
  induction Hall as [|entry value entries checked Hvalue _ IH]; constructor; eauto.
Qed.

Lemma asReportInputSegment_notBlank `{JsBuiltins} value segment :
  Report.asReportInputSegment value = Some segment -> notBlank (seg_id segment).
Proof.
  unfold Report.asReportInputSegment.
  destruct (negb (Report.isRecord value)); [done|].
  destruct (getField "id" value) as [| | | | |id| |]; try done.
  destruct (getField "start" value); try done.
  destruct (getField "end" value); try done.
  destruct (getField "text" value); try done.
  destruct (Report.isNonEmptyString (JString id)) eqn:Hid; [|done].
  intros [= <-]. by apply isNonEmptyString_notBlank.
Qed.

Lemma asReportDimension_notBlank `{JsBuiltins} value descriptor :
  Report.asReportDimension value = Some descriptor ->
  notBlank (dim_key descriptor) /\ notBlank (dim_label descriptor)
  /\ notBlank (dim_description descriptor).
Proof.
  unfold Report.asReportDimension.
  destruct (negb (Report.isRecord value)); [done|].
  destruct (getField "key" value) as [| | | | |key| |]; try done.
  destruct (getField "label" value) as [| | | | |label| |]; try done.
  destruct (getField "description" value) as [| | | | |description| |]; try done.
  destruct (Report.isNonEmptyString (JString key)) eqn:Hkey; [|done].
  destruct (Report.isNonEmptyString (JString label)) eqn:Hlabel; [|done].
  destruct (Report.isNonEmptyString (JString description)) eqn:Hdescription; [|done].
  intros [= <-]. simpl. by rewrite <- !isNonEmptyString_notBlank.
Qed.

Lemma isReportRequestBody_wellFormed `{JsBuiltins} value requestBody :
  Report.isReportRequestBody value = Some requestBody -> wellFormedRequest requestBody.
Proof.
  unfold Report.isReportRequestBody.
  destruct (negb (Report.isRecord value)); [done|].
  destruct (getField "questionId" value) as [| | | | |id| |]; try done.
  destruct (getField "questionText" value) as [| | | | |text| |]; try done.
  destruct (Report.isNonEmptyString (JString id)) eqn:Hid; [|done].
  destruct (Report.isNonEmptyString (JString text)) eqn:Htext; [|done].
  cbn [negb orb].
  destruct (negb (Report.isRecord (getField "rubric" value))
            || negb (isArray (getField "dimensions" (getField "rubric" value)))); [done|].
  destruct (getField "segments" value) as [| | | | | |segments|]; try done.
  destruct (Report.every Report.asReportInputSegment segments) as [validSegments|] eqn:Hsegments;
    [|done].
  destruct (Report.every Report.asReportDimension _) as [descriptors|] eqn:Hdescriptors; [|done].
  intros [= <-]. unfold wellFormedRequest. simpl.
  rewrite <- !isNonEmptyString_notBlank. repeat split; try done.
  - eapply every_Forall; [|exact Hsegments]. apply asReportInputSegment_notBlank.
  - eapply every_Forall; [|exact Hdescriptors]. apply asReportDimension_notBlank.
Qed.

Lemma forallb_jStrings (entries : list string) :
  forallb isStringValue (map JString entries) = true.
Proof. by induction entries. Qed.

Lemma isOptionalStringArray_jStrings `{JsBuiltins} (entries : list string) :
  Report.isOptionalStringArray (Report.jStrings entries) = true.
Proof. apply forallb_jStrings. Qed.

Lemma toStrength_strengthName `{JsBuiltins} strength :
  Report.toStrength (JString (Report.strengthName strength)) = Some strength.
Proof. by destruct strength. Qed.

Lemma toReportLevel_levelName `{JsBuiltins} level :
  Report.toReportLevel (JString (Report.levelName level)) = Some level.
Proof. by destruct level. Qed.

Lemma toOverallRecommendation_recommendationName `{JsBuiltins} recommendation :
  Report.toOverallRecommendation (JString (Report.recommendationName recommendation))
  = Some recommendation.
Proof. by destruct recommendation. Qed.

Lemma leb_true (a b : Q) : (a <= b)%Q -> JsMath.leb a b = true.
Proof. intros Hle. unfold JsMath.leb. by apply Qle_bool_iff. Qed.

Lemma encodeDimension_accepted `{JsBuiltins} (dimension : ReportDimensionAssessment) :
  wellFormedDimension dimension ->
  Report.isModernDimensionAssessment (Report.encodeDimension dimension) = true.
Proof.
  intros (Hid & Hlabel & Hscore & Hevidence).
  apply isNonEmptyString_notBlank in Hid, Hlabel.
  unfold Report.isModernDimensionAssessment, Report.encodeDimension.
  cbn [Report.isRecord negb getField assocField String.eqb Ascii.eqb Bool.eqb
       isArray isBooleanValue isFiniteNumberValue isStringValue Report.encodeAnchors
       arrayItems].
  rewrite Hid, Hlabel.
  replace (match Report.jScore (da_score dimension) with
           | JNull => true
           | JNumber score => JsMath.leb 1 score && JsMath.leb score 5
           | _ => false
           end) with true; cycle 1.
  { destruct (da_score dimension) as [score|] eqn:Hs; [|done]. simpl.
    destruct (Hscore score eq_refl) as [Hlow Hhigh]. by rewrite !leb_true. }
  cbn [negb orb andb forallb Report.isOptionalStringArray].
  rewrite !isOptionalStringArray_jStrings. cbn [negb andb].
  apply forallb_forall. intros entry Hentry.
  apply in_map_iff in Hentry as (typed & <- & Htyped).
  rewrite Forall_forall in Hevidence.
  apply list_elem_of_In in Htyped. apply Hevidence in Htyped.
  apply isNonEmptyString_notBlank in Htyped.
  unfold Report.encodeEvidence.
  cbn [Report.isRecord negb getField assocField String.eqb Ascii.eqb Bool.eqb
       isUndefined isFiniteNumberValue isStringValue].
  rewrite Htyped, toStrength_strengthName. done.
Qed.

Lemma ownValues_fields (seen : list string) (fields : list (string * JsonValue)) value :
  value ∈ ownValues seen fields -> exists key, (key, value) ∈ fields.
Proof.
  revert seen. induction fields as [|[key field] fields IH]; intros seen; simpl.
  - by intros ?%elem_of_nil.
  - destruct (bool_decide (key ∈ seen)).
    + intros (k & Hk)%IH. exists k. by apply list_elem_of_further.
    + intros [->|(k & Hk)%IH]%elem_of_cons.
      * exists key. apply list_elem_of_here.
      * exists k. by apply list_elem_of_further.
Qed.

Lemma encodeCoverageMap_accepted `{JsBuiltins} (coverage : ReportCoverageMap) :
  Report.isCoverageMap (Report.encodeCoverageMap coverage) = true.
Proof.
  unfold Report.isCoverageMap, Report.encodeCoverageMap.
  cbn [Report.isRecord negb orb getField assocField String.eqb Ascii.eqb Bool.eqb objectValues].
  assert (forallb
            (fun entry =>
               if negb (Report.isRecord entry) then false
               else
                 isArray (getField "segmentIds" entry)
                 && forallb isStringValue (arrayItems (getField "segmentIds" entry))
                 && isFiniteNumberValue (getField "coveragePct" entry))
            (ownValues []
               (map (fun entry : string * ReportCoverageByDimensionEntry =>
                       (entry.1,
                        JObject [ ("segmentIds", Report.jStrings (cov_segmentIds entry.2));
                                  ("coveragePct", JNumber (cov_coveragePct entry.2)) ]))
                  (map_to_list (byDimension coverage)))) = true) as ->.
  { apply forallb_forall. intros value Hvalue.
    apply list_elem_of_In, ownValues_fields in Hvalue as (key & Hfield).
    apply list_elem_of_In, in_map_iff in Hfield as (entry & [= _ <-] & _).
    cbn [Report.isRecord negb getField assocField String.eqb Ascii.eqb Bool.eqb
         isFiniteNumberValue].
    unfold Report.jStrings. cbn [isArray arrayItems].
    by rewrite forallb_jStrings. }
  cbn [negb]. apply forallb_forall. intros value Hvalue.
  apply list_elem_of_In, ownValues_fields in Hvalue as (key & Hfield).
  apply list_elem_of_In, in_map_iff in Hfield as (entry & [= _ <-] & _).
  cbn [Report.isRecord negb getField assocField String.eqb Ascii.eqb Bool.eqb].
  unfold Report.jStrings. cbn [isArray arrayItems].
  by rewrite forallb_jStrings.
Qed.

Lemma encodeReport_accepted `{JsBuiltins} (report : ModernReportResponseBody) :
  Forall wellFormedDimension (dimensions report) ->
  notBlank (role (leveling report)) ->
  Report.isReportResponseBody (Report.encodeReport report) = true.
Proof.
  intros Hdimensions Hrole. apply isNonEmptyString_notBlank in Hrole.
  unfold Report.isReportResponseBody.
  destruct (Report.isLegacyReportResponseBody _); [done|].
  unfold Report.isModernReportResponseBody.
  assert (forallb Report.isModernDimensionAssessment
            (map Report.encodeDimension (dimensions report)) = true) as Hall.
  { apply forallb_forall. intros value (dimension & <- & Hin)%in_map_iff.
    apply encodeDimension_accepted.
    rewrite Forall_forall in Hdimensions. by apply Hdimensions, list_elem_of_In. }
  pose proof (encodeCoverageMap_accepted (coverageMap report)) as Hcoverage.
  unfold Report.encodeReport.
  cbn [Report.isRecord negb getField assocField String.eqb Ascii.eqb Bool.eqb
       isStringValue isUndefined].
  rewrite toOverallRecommendation_recommendationName, toReportLevel_levelName.
  unfold Report.jStrings.
  cbn [isArray arrayItems negb orb andb forallb isUndefined Report.isOptionalStringArray].
  rewrite Hall, Hrole, !forallb_jStrings.
  unfold Report.jStrings in Hcoverage. rewrite Hcoverage.
  by destruct (isUndefined _).
Qed.

Section RouteReports.

Context `{JsBuiltins}.

Hypothesis trim_idempotent : forall s, trim (trim s) = trim s.

Hypothesis trim_role : trim "Software Engineer" <> emptyString.

Lemma toNormalizedString_notBlank value fallback :
  notBlank fallback -> notBlank (Report.toNormalizedString value fallback).
Proof.
  intros Hfallback. unfold Report.toNormalizedString.
  destruct value as [| | | | |s| |]; try done.
  destruct (String.eqb_spec (trim s) emptyString) as [Heq|Hne]; [done|].
  unfold notBlank. by rewrite trim_idempotent.
Qed.

Lemma normalizeLeveling_role value fallback :
  notBlank (role fallback) -> notBlank (role (Report.normalizeLeveling value fallback)).
Proof.
  intros Hfallback. unfold Report.normalizeLeveling.
  destruct (negb (Report.isRecord value)); [done|].
  by apply toNormalizedString_notBlank.
Qed.

Lemma normalizeModernReport_role sourceReport context :
  notBlank (role (leveling (Report.normalizeModernReport sourceReport context))).
Proof. by apply normalizeLeveling_role. Qed.

Lemma createMockReport_role requestBody :
  notBlank (role (leveling (Report.createMockReport requestBody))).
Proof. exact trim_role. Qed.

Lemma level_in_range (value : Q) :
  isLevel value -> (1 <= value)%Q /\ (value <= 5)%Q.
Proof.
  intros (level & [Hlow Hhigh] & ->).
  split; [change 1%Q with (inject_Z 1)|change 5%Q with (inject_Z 5)];
    by rewrite <- Zle_Qle.
Qed.

Lemma normalizeModernReport_wellFormed sourceReport context :
  indexesItsSegments context ->
  enforceSegmentValidation context = true ->
  Forall (fun segment => notBlank (seg_id segment)) (ctx_segments context) ->
  Forall (fun descriptor => notBlank (dim_key descriptor) /\ notBlank (dim_label descriptor))
    (ctx_dimensions context) ->
  Forall wellFormedDimension (dimensions (Report.normalizeModernReport sourceReport context)).
Proof.
  intros Hindexed Hvalidates Hsegments Hdescriptors.
  pose proof (normalizeModernReport_populated sourceReport context) as Hpopulated.
  pose proof (normalizeModernReport_cites context Hindexed Hvalidates sourceReport) as Hcites.
  apply Forall_forall. intros dimension Hdimension.
  destruct (Forall2_elem_r _ _ _ _ Hpopulated Hdimension)
    as (descriptor & Hdescriptor & Hid & Hlabel & Hscore & _).
  rewrite Forall_forall in Hdescriptors.
  destruct (Hdescriptors _ Hdescriptor) as [Hkey Hname].
  rewrite Forall_forall in Hcites. specialize (Hcites _ Hdimension).
  split; [by rewrite Hid|]. split; [by rewrite Hlabel|]. split.
  - intros score Hs. rewrite Hs in Hscore. destruct Hscore as [_ Hlevel].
    by apply level_in_range.
  - eapply Forall_impl; [exact Hcites|].
    intros entry (segment & -> & Hsegment)%list_elem_of_fmap.
    rewrite Forall_forall in Hsegments. by apply Hsegments.
Qed.

End RouteReports.

Lemma getDimensionScoreForMock_range (index : nat) :
  (1 <= Report.getDimensionScoreForMock index)%Q
  /\ (Report.getDimensionScoreForMock index <= 5)%Q.
Proof.
  unfold Report.getDimensionScoreForMock. cbn [length].
  pose proof (Nat.mod_upper_bound index 4 ltac:(lia)) as Hbound.
  destruct (index mod 4)%nat as [|[|[|[|n]]]]; cbn [nth]; try lia; split; lra.
Qed.

Lemma createMockDimension_label `{JsBuiltins} descriptor index context force :
  da_label (Report.createMockDimension descriptor index context force) = dim_label descriptor.
Proof. by destruct force. Qed.

Lemma createMockDimension_score_range `{JsBuiltins} descriptor index context force score :
  da_score (Report.createMockDimension descriptor index context force) = Some score ->
  (1 <= score)%Q /\ (score <= 5)%Q.
Proof.
  destruct force; [done|]. rewrite createMockDimension_score. intros [= <-].
  apply getDimensionScoreForMock_range.
Qed.

Lemma createMockDimension_present `{JsBuiltins} descriptor index context :
  ctx_segments context <> [] ->
  da_evidence (Report.createMockDimension descriptor index context false) <> [].
Proof.
  intros Hsegments Hnone.
  pose proof (pickFallback_nonempty context index 2 Hsegments ltac:(lia)) as Hpicked.
  apply (f_equal length) in Hnone.
  cbn [Report.createMockDimension da_evidence] in Hnone.
  rewrite length_imap in Hnone. simpl in Hnone. lia.
Qed.

Lemma createMockReport_wellFormed `{JsBuiltins} requestBody :
  wellFormedRequest requestBody ->
  Forall wellFormedDimension (dimensions (Report.createMockReport requestBody)).
Proof.
  intros (_ & _ & Hsegments & Hdescriptors).
  pose proof (createMockReport_cites requestBody) as Hcites.
  rewrite Forall_forall in Hcites. apply Forall_forall. intros dimension Hdimension.
  specialize (Hcites _ Hdimension).
  rewrite createMockReport_dimensions_eq in Hdimension.
  apply elem_of_lookup_imap in Hdimension as (index & descriptor & -> & Hlookup).
  apply list_elem_of_lookup_2 in Hlookup.
  rewrite Forall_forall in Hdescriptors.
  destruct (Hdescriptors _ Hlookup) as (Hkey & Hlabel & _).
  split; [by rewrite createMockDimension_id|].
  split; [by rewrite createMockDimension_label|].
  split; [apply createMockDimension_score_range|].
  eapply Forall_impl; [exact Hcites|].
  intros entry (segment & -> & Hsegment)%list_elem_of_fmap.
  rewrite Forall_forall in Hsegments. by apply Hsegments.
Qed.

Lemma createMockReport_present `{JsBuiltins} requestBody :
  req_segments requestBody <> [] ->
  Forall (fun dimension => da_notObserved dimension = false -> da_evidence dimension <> [])
    (dimensions (Report.createMockReport requestBody)).
Proof.
  intros Hsegments. rewrite createMockReport_dimensions_eq.
  apply Forall_forall. intros dimension (index & descriptor & -> & _)%elem_of_lookup_imap.
  rewrite createMockDimension_notObserved. intros ->.
  apply createMockDimension_present. cbn [Report.normalizedContextFromRequest ctx_segments].
  intros Hnone. apply (f_equal length) in Hnone. rewrite length_map in Hnone.
  by destruct (req_segments requestBody).
Qed.

Lemma request_context_indexed `{JsBuiltins} requestBody :
  indexesItsSegments (Report.normalizedContextFromRequest requestBody).
Proof. reflexivity. Qed.

Lemma request_context_notBlank `{JsBuiltins} requestBody :
  Forall (fun segment => notBlank (seg_id segment)) (req_segments requestBody) ->
  Forall (fun segment => notBlank (seg_id segment))
    (ctx_segments (Report.normalizedContextFromRequest requestBody)).
Proof.
  intros Hsegments. cbn [Report.normalizedContextFromRequest ctx_segments].
  apply Forall_forall. intros segment (source & -> & Hsource)%list_elem_of_fmap.
  rewrite Forall_forall in Hsegments. cbn [seg_id]. by apply Hsegments.
Qed.

Lemma normalizeReportResponse_wellFormed `{JsBuiltins} payload requestBody :
  wellFormedRequest requestBody ->
  Forall wellFormedDimension (dimensions (Report.normalizeReportResponse payload requestBody)).
Proof.
  intros (_ & _ & Hsegments & Hdescriptors).
  apply normalizeModernReport_wellFormed.
  - apply request_context_indexed.
  - reflexivity.
  - by apply request_context_notBlank.
  - eapply Forall_impl; [exact Hdescriptors|]. by intros descriptor (? & ? & _).
Qed.

Lemma normalizeReportResponse_present `{JsBuiltins} payload requestBody :
  req_segments requestBody <> [] ->
  Forall (fun dimension => da_notObserved dimension = false -> da_evidence dimension <> [])
    (dimensions (Report.normalizeReportResponse payload requestBody)).
Proof.
  intros Hsegments. apply normalizeModernReport_present.
  cbn [Report.normalizedContextFromRequest ctx_segments].
  intros Hnone. apply (f_equal length) in Hnone. rewrite length_map in Hnone.
  by destruct (req_segments requestBody).
Qed.

Lemma createMockReport_ids `{JsBuiltins} requestBody :
  map da_id (dimensions (Report.createMockReport requestBody))
  = map dim_key (rubric_dimensions requestBody).
Proof.
  rewrite createMockReport_dimensions_eq. apply imap_ids.
  intros index descriptor. apply createMockDimension_id.
Qed.

Lemma Forall_and_both {A : Type} (P Q : A -> Prop) (l : list A) :
  Forall P l -> Forall Q l -> Forall (fun x => P x /\ Q x) l.
Proof. intros HP HQ. apply Forall_and. by split. Qed.

Lemma createMockReport_answers `{JsBuiltins} requestBody :
  req_segments requestBody <> [] ->
  answersRequest requestBody (Report.createMockReport requestBody).
Proof.
  intros Hsegments. split; [apply createMockReport_ids|].
  apply Forall_and_both; [by apply createMockReport_present|apply createMockReport_cites].
Qed.

Lemma normalizeReportResponse_cites `{JsBuiltins} payload requestBody :
  Forall
    (fun dimension => Forall (citesOneOf (req_segments requestBody)) (da_evidence dimension))
    (dimensions (Report.normalizeReportResponse payload requestBody)).
Proof.
  pose proof (normalizeModernReport_cites (Report.normalizedContextFromRequest requestBody)
                (request_context_indexed requestBody) eq_refl
                (Report.encodeReport
                   (Report.normalizeFromUnknown payload
                      (Report.normalizedContextFromRequest requestBody)))) as Hcites.
  eapply Forall_impl; [exact Hcites|]. intros dimension Hdimension.
  eapply Forall_impl; [exact Hdimension|]. intros entry. unfold citesOneOf.
  by rewrite request_context_ids.
Qed.

Lemma normalizeReportResponse_answers `{JsBuiltins} payload requestBody :
  req_segments requestBody <> [] ->
  answersRequest requestBody (Report.normalizeReportResponse payload requestBody).
Proof.
  intros Hsegments. split; [apply normalizeReportResponse_ids|].
  apply Forall_and_both;
    [by apply normalizeReportResponse_present|apply normalizeReportResponse_cites].
Qed.

Section RouteAnswers.

Context `{JsBuiltins}.

Variable parseJson : string -> option JsonValue.

Variable environment : Route.Environment.

Variable request : Route.Request.

Lemma length_zero {A : Type} (l : list A) : (length l =? 0)%nat = false <-> l <> [].
Proof. destruct l; simpl; split; done. Qed.

Lemma servedRequest_unique requestBody requestBody' :
  servedRequest request requestBody -> servedRequest request requestBody' ->
  requestBody = requestBody'.
Proof.
  intros (body & Hbody & Haccepted & _) (body' & Hbody' & Haccepted' & _). congruence.
Qed.

(** The answers of the handler, by cases. *)
Lemma POST_cases :
  (Route.rsp_status (Route.POST parseJson environment request) = 400%nat
   /\ (exists message,
         Route.rsp_body (Route.POST parseJson environment request)
         = JObject [("error", JString message)])
   /\ forall requestBody, ~ servedRequest request requestBody)
  \/ (exists requestBody,
        servedRequest request requestBody
        /\ ((Route.POST parseJson environment request
             = Route.reportResponse (Report.createMockReport requestBody))
            \/ (~ mockMode environment request
                /\ ((exists payload,
                       Route.POST parseJson environment request
                       = Route.reportResponse
                           (Report.normalizeReportResponse payload requestBody))
                    \/ (exists message,
                          Route.POST parseJson environment request
                          = Route.errorResponse message 500))))).
Proof.
  unfold Route.POST.
  destruct (Route.rq_json request) as [body|] eqn:Hbody.
  2:{ left. split; [done|]. split; [by eexists|].
      intros requestBody (body & Hsome & _). congruence. }
  destruct (Report.isReportRequestBody body) as [requestBody|] eqn:Haccepted.
  2:{ left. split; [done|]. split; [by eexists|].
      intros requestBody (body' & Hsome & Hsome' & _). congruence. }
  destruct (length (req_segments requestBody) =? 0)%nat eqn:Hsegments.
  { left. split; [done|]. split; [by eexists|].
    intros requestBody' (body' & Hsome & Hsome' & Hnonempty & _).
    assert (requestBody' = requestBody) as -> by congruence.
    apply length_zero in Hnonempty. congruence. }
  destruct (length (rubric_dimensions requestBody) =? 0)%nat eqn:Hdimensions.
  { left. split; [done|]. split; [by eexists|].
    intros requestBody' (body' & Hsome & Hsome' & _ & Hnonempty).
    assert (requestBody' = requestBody) as -> by congruence.
    apply length_zero in Hnonempty. congruence. }
  apply length_zero in Hsegments, Hdimensions.
  right. exists requestBody. split; [by exists body|].
  destruct (_ || _) eqn:Hmock; [by left|].
  right. apply orb_false_iff in Hmock as [Hforced Hkey].
  apply negb_false_iff in Hkey.
  split.
  { intros [Hone|[Hnone|Hempty]].
    - rewrite Hone in Hforced. done.
    - rewrite Hnone in Hkey. done.
    - rewrite Hempty in Hkey. done. }
  unfold Route.generateReportWithOpenAI.
  destruct (Route.env_fetch environment) as [[message|]|response];
    [right; by eexists|right; by eexists|].
  destruct (negb (Route.up_ok response)).
  { destruct (Route.up_text response) as [[message|]|errorText]; right; by eexists. }
  destruct (Route.up_json response) as [[message|]|payload];
    [right; by eexists|right; by eexists|].
  destruct (Route.extractCompletionContent payload) as [rawContent|];
    [|right; by eexists].
  destruct (String.eqb rawContent emptyString); [right; by eexists|].
  destruct (parseJson rawContent) as [parsedContent|]; [|right; by eexists].
  left. by exists parsedContent.
Qed.

End RouteAnswers.

Lemma error_body_rejected `{JsBuiltins} (message : string) :
  Report.isReportResponseBody (JObject [("error", JString message)]) = false.
Proof. reflexivity. Qed.

(** X21. The answers of the report route and the format check of the
    review page agree.  With a [trim] that is idempotent and leaves
    something of ["Software Engineer"], the body of an answer passes
    [isReportResponseBody] exactly when the status of the answer is 200:
    whatever the request, the API key and the reply of the completion
    endpoint are, a report the route sends (mock or normalized) is never
    refused by the page as an unexpected format, and an error body is
    never taken for a report. *)
Theorem route_report_passes_format_check `{JsBuiltins}
    (parseJson : string -> option JsonValue) (environment : Route.Environment)
    (request : Route.Request) :
  (forall s, trim (trim s) = trim s) ->
  trim "Software Engineer" <> emptyString ->
  Report.isReportResponseBody (Route.rsp_body (Route.POST parseJson environment request)) = true
  <-> Route.rsp_status (Route.POST parseJson environment request) = 200%nat.
Proof.
  intros Hidempotent Hrole.
  destruct (POST_cases parseJson environment request)
    as [(Hstatus & (message & Hbody) & _)
       |(requestBody & (body & _ & Haccepted & _) & Hanswer)].
  - rewrite Hstatus, Hbody, error_body_rejected. split; discriminate.
  - apply isReportRequestBody_wellFormed in Haccepted.
    destruct Hanswer as [->|(_ & [(payload & ->)|(message & ->)])].
    + split; [done|]. intros _. apply encodeReport_accepted.
      * by apply createMockReport_wellFormed.
      * by apply createMockReport_role.
    + split; [done|]. intros _. apply encodeReport_accepted.
      * by apply normalizeReportResponse_wellFormed.
      * by apply normalizeModernReport_role.
    + cbn [Route.errorResponse Route.rsp_body Route.rsp_status].
      rewrite error_body_rejected. split; discriminate.
Qed.

Lemma dropSpaces_fixed (chars : list Ascii.ascii) :
  match chars with c :: _ => ReferenceRuntime.isSpace c = false | [] => True end ->
  ReferenceRuntime.dropSpaces chars = chars.
Proof. destruct chars as [|c rest]; [done|]. simpl. by intros ->. Qed.

Lemma dropSpaces_head (chars : list Ascii.ascii) :
  match ReferenceRuntime.dropSpaces chars with
  | c :: _ => ReferenceRuntime.isSpace c = false
  | [] => True
  end.
Proof.
  induction chars as [|c rest IH]; [done|]. simpl.
  by destruct (ReferenceRuntime.isSpace c) eqn:Hc.
Qed.

Lemma dropSpaces_suffix (chars : list Ascii.ascii) :
  exists spaces, chars = spaces ++ ReferenceRuntime.dropSpaces chars.
Proof.
  induction chars as [|c rest [spaces IH]]; [by exists []|]. simpl.
  destruct (ReferenceRuntime.isSpace c).
  - exists (c :: spaces). simpl. by f_equal.
  - by exists [].
Qed.

Lemma trimChars_idempotent (chars : list Ascii.ascii) :
  ReferenceRuntime.trimChars (ReferenceRuntime.trimChars chars)
  = ReferenceRuntime.trimChars chars.
Proof.
  unfold ReferenceRuntime.trimChars.
  set (front := ReferenceRuntime.dropSpaces chars).
  set (back := ReferenceRuntime.dropSpaces (rev front)).
  assert (ReferenceRuntime.dropSpaces (rev back) = rev back) as ->.
  { apply dropSpaces_fixed.
    destruct (dropSpaces_suffix (rev front)) as [spaces Hsuffix]. fold back in Hsuffix.
    assert (front = rev back ++ rev spaces) as Hfront.
    { rewrite <- (rev_involutive front), Hsuffix. by rewrite rev_app_distr. }
    pose proof (dropSpaces_head chars) as Hhead. fold front in Hhead.
    rewrite Hfront in Hhead. by destruct (rev back). }
  rewrite rev_involutive. f_equal. apply dropSpaces_fixed.
  apply (dropSpaces_head (rev front)).
Qed.

Lemma reference_trim_idempotent (s : string) :
  ReferenceRuntime.trim (ReferenceRuntime.trim s) = ReferenceRuntime.trim s.
Proof.
  unfold ReferenceRuntime.trim.
  by rewrite String.list_ascii_of_string_of_list_ascii, trimChars_idempotent.
Qed.

Lemma route_report_passes_format_check_witness :
  Report.isReportResponseBody (H := referenceBuiltins)
    (Route.rsp_body
       (Route.POST (H := referenceBuiltins) (fun _ => None) offlineEnvironment mockRequest))
  = true
  <-> Route.rsp_status
        (Route.POST (H := referenceBuiltins) (fun _ => None) offlineEnvironment mockRequest)
      = 200%nat.
Proof.
  apply (route_report_passes_format_check (H := referenceBuiltins)).
  - exact reference_trim_idempotent.
  - vm_compute. discriminate.
Defined.


(** ** Legacy reports *)

Lemma mapOfEntries_snoc {V : Type} (entries : list (string * V)) key value :
  mapOfEntries (entries ++ [(key, value)]) = <[key := value]> (mapOfEntries entries).
Proof. unfold mapOfEntries. by rewrite fold_left_app. Qed.

Lemma itemByKey_last (report : Report.LegacyReportResponseBody) (key : string) :
  mapOfEntries (map (fun item => (Report.dimensionKey item, item)) (Report.items report)) !! key
  = legacyItemFor report key.
Proof.
  unfold legacyItemFor. induction (Report.items report) as [|item items IH] using rev_ind.
  - apply lookup_empty.
  - rewrite map_app, List.filter_app. cbn [map List.filter]. rewrite mapOfEntries_snoc.
    destruct (decide (Report.dimensionKey item = key)) as [Heq|Hne].
    + rewrite bool_decide_eq_true_2 by exact Heq.
      rewrite last_snoc. rewrite Heq. apply lookup_insert_eq.
    + rewrite bool_decide_eq_false_2 by exact Hne.
      rewrite app_nil_r. by rewrite lookup_insert_ne.
Qed.

Lemma round_level (level : Z) : JsMath.round (inject_Z level) = inject_Z level.
Proof.
  unfold JsMath.round. f_equal. unfold Qfloor, inject_Z, Qplus. cbn [Qnum Qden].
  change (Z.pos (1 * 10)) with 10%Z. symmetry.
  apply (Z.div_unique _ 10 level 5); lia.
Qed.

Lemma clamp_level_fixed (level : Z) :
  (1 <= level <= 5)%Z -> Report.clamp (inject_Z level) 1 5 = inject_Z level.
Proof.
  intros [Hlow Hhigh].
  destruct (clamp_level level 1 5 ltac:(lia)) as (level' & _ & Hclamp).
  change (inject_Z 1) with 1%Q in Hclamp. change (inject_Z 5) with 5%Q in Hclamp.
  rewrite Hclamp. f_equal. apply inject_Z_injective. rewrite <- Hclamp.
  unfold Report.clamp, JsMath.min, JsMath.max.
  assert (1 <= inject_Z level)%Q as Hone by (change 1%Q with (inject_Z 1); by rewrite <- Zle_Qle).
  assert (inject_Z level <= 5)%Q as Hfive
    by (change 5%Q with (inject_Z 5); by rewrite <- Zle_Qle).
  rewrite Q.max_r by exact Hone. by apply Q.min_r.
Qed.

Lemma score_twice (score : Q) :
  Report.clamp (JsMath.round (Report.clamp (JsMath.round score) 1 5)) 1 5
  = Report.clamp (JsMath.round score) 1 5.
Proof.
  destruct (clamp_level (Qfloor (score + 0.5)) 1 5 ltac:(lia)) as (level & Hlevel & Hclamp).
  change (inject_Z (Qfloor (score + 0.5))) with (JsMath.round score) in Hclamp.
  change (inject_Z 1) with 1%Q in Hclamp. change (inject_Z 5) with 5%Q in Hclamp.
  rewrite Hclamp, round_level. by apply clamp_level_fixed.
Qed.

Lemma Forall2_imap_elem {A B : Type} (P : A -> B -> Prop) (l : list A) :
  forall f : nat -> A -> B, (forall i x, x ∈ l -> P x (f i x)) -> Forall2 P l (imap f l).
Proof.
  induction l as [|x l IH]; intros f Hf; simpl; constructor.
  - apply Hf, list_elem_of_here.
  - apply IH. intros i y Hy. by apply Hf, list_elem_of_further.
Qed.

Section CandidateLookup.

Context `{JsBuiltins}.

Variable key : string.

(** What is to be known of the candidate found under [key]. *)
Variable found : JsonValue -> Prop.

Definition keyed (candidate : JsonValue) : Prop :=
  Report.isRecord candidate = true
  /\ exists id,
       getField "id" candidate = JString id
       /\ trim id = id /\ id <> emptyString /\ (id = key -> found candidate).

(** The loop body that fills [sourceById] in [normalizeModernReport]. *)
Let collect (sourceById : gmap string JsonValue) (candidate : JsonValue)
  : gmap string JsonValue :=
  if negb (Report.isRecord candidate) then sourceById
  else
    let id := Report.toNormalizedString (getField "id" candidate) emptyString in
    if negb (String.eqb id emptyString) && negb (bool_decide (is_Some (sourceById !! id)))
    then <[id := candidate]> sourceById
    else sourceById.

Lemma sourceById_step (sourceById : gmap string JsonValue) candidate id :
  Report.isRecord candidate = true ->
  getField "id" candidate = JString id -> trim id = id -> id <> emptyString ->
  collect sourceById candidate
  = if bool_decide (is_Some (sourceById !! id)) then sourceById
    else <[id := candidate]> sourceById.
Proof.
  intros Hrecord Hid Htrim Hnonempty. unfold collect. rewrite Hrecord, Hid.
  cbn [negb]. cbv zeta. unfold Report.toNormalizedString.
  assert (String.eqb id emptyString = false) as Hne by (by apply String.eqb_neq).
  rewrite Htrim, !Hne. cbn [negb andb]. by destruct (bool_decide _).
Qed.

Lemma sourceById_found (candidates : list JsonValue) :
  forall sourceById : gmap string JsonValue,
    (forall candidate, candidate ∈ candidates -> keyed candidate) ->
    (forall candidate, sourceById !! key = Some candidate -> found candidate) ->
    is_Some (sourceById !! key)
    \/ (exists candidate, candidate ∈ candidates /\ getField "id" candidate = JString key) ->
    exists candidate,
      fold_left collect candidates sourceById !! key = Some candidate
      /\ found candidate.
Proof.
  induction candidates as [|candidate candidates IH]; intros sourceById Hkeyed Hfound Hcases.
  - destruct Hcases as [[candidate Hlookup]|(candidate & Hin & _)];
      [|by apply elem_of_nil in Hin].
    exists candidate. split; [exact Hlookup|by apply Hfound].
  - cbn [fold_left].
    destruct (Hkeyed candidate (list_elem_of_here _ _))
      as (Hrecord & id & Hid & Htrim & Hnonempty & Hcandidate).
    rewrite (sourceById_step sourceById candidate id Hrecord Hid Htrim Hnonempty).
    apply IH.
    + intros other Hother. by apply Hkeyed, list_elem_of_further.
    + intros other. destruct (bool_decide (is_Some (sourceById !! id))); [apply Hfound|].
      destruct (decide (id = key)) as [Heq|Hne].
      * rewrite Heq, lookup_insert_eq. intros [= <-]. by apply Hcandidate.
      * rewrite lookup_insert_ne by exact Hne. apply Hfound.
    + destruct (decide (id = key)) as [Heq|Hne].
      * left. destruct (bool_decide (is_Some (sourceById !! id))) eqn:Hknown.
        -- apply bool_decide_eq_true in Hknown. by rewrite <- Heq.
        -- rewrite Heq, lookup_insert_eq. by eexists.
      * destruct Hcases as [Hsome|(other & Hin & Hother)].
        -- left. destruct (bool_decide (is_Some (sourceById !! id))); [exact Hsome|].
           by rewrite lookup_insert_ne.
        -- apply elem_of_cons in Hin as [->|Hin].
           ++ rewrite Hid in Hother. by injection Hother.
           ++ right. by exists other.
Qed.

End CandidateLookup.

Lemma normalizeDimension_reads `{JsBuiltins} candidate descriptor index context :
  Report.isRecord candidate = true ->
  (da_notObserved (Report.normalizeDimension candidate descriptor index context),
   da_score (Report.normalizeDimension candidate descriptor index context))
  = readScore candidate.
Proof. intros Hrecord. unfold Report.normalizeDimension, readScore. by rewrite Hrecord. Qed.

Lemma normalizeModernReport_reads `{JsBuiltins} (reads : string -> bool * option Q -> Prop)
    sourceReport context :
  (forall candidate,
     candidate ∈ arrayItems (getField "dimensions" sourceReport) ->
     Report.isRecord candidate = true
     /\ exists id,
          getField "id" candidate = JString id
          /\ trim id = id /\ id <> emptyString /\ reads id (readScore candidate)) ->
  (forall descriptor,
     descriptor ∈ ctx_dimensions context ->
     exists candidate,
       candidate ∈ arrayItems (getField "dimensions" sourceReport)
       /\ getField "id" candidate = JString (dim_key descriptor)) ->
  Forall2
    (fun descriptor dimension =>
       reads (dim_key descriptor) (da_notObserved dimension, da_score dimension))
    (ctx_dimensions context)
    (dimensions (Report.normalizeModernReport sourceReport context)).
Proof.
  intros Hcandidates Hdescriptors.
  unfold Report.normalizeModernReport. cbv zeta. cbn [dimensions].
  assert ((if isArray (getField "dimensions" sourceReport)
           then arrayItems (getField "dimensions" sourceReport) else [])
          = arrayItems (getField "dimensions" sourceReport)) as ->
    by (by destruct (getField "dimensions" sourceReport)).
  apply Forall2_imap_elem. intros index descriptor Hdescriptor.
  destruct (sourceById_found (dim_key descriptor)
              (fun candidate =>
                 Report.isRecord candidate = true
                 /\ reads (dim_key descriptor) (readScore candidate))
              (arrayItems (getField "dimensions" sourceReport)) ∅)
    as (candidate & Hlookup & Hrecord & Hreads).
  - intros candidate Hcandidate.
    destruct (Hcandidates candidate Hcandidate) as (Hrecord & id & Hid & Htrim & Hne & Hreads).
    split; [exact Hrecord|]. exists id.
    split; [exact Hid|]. split; [exact Htrim|]. split; [exact Hne|].
    intros <-. by split.
  - intros candidate Hlookup. by rewrite lookup_empty in Hlookup.
  - right. by apply Hdescriptors.
  - cbv zeta in Hlookup. rewrite Hlookup. cbn [default].
    by rewrite normalizeDimension_reads.
Qed.

Lemma fromLegacyReport_scores `{JsBuiltins} report options :
  Forall plainKey (opt_dimensions options) ->
  Forall2
    (fun descriptor dimension =>
       carriesLegacyScore report (dim_key descriptor)
         (da_notObserved dimension, da_score dimension))
    (opt_dimensions options) (dimensions (Report.fromLegacyReport report options)).
Proof.
  intros Hplain. rewrite Forall_forall in Hplain.
  unfold Report.fromLegacyReport. cbv zeta.
  apply (normalizeModernReport_reads (carriesLegacyScore report) _
           (Report.normalizeOptions options)).
  - cbn [getField assocField String.eqb Ascii.eqb Bool.eqb arrayItems].
    intros candidate (descriptor & <- & Hdescriptor)%list_elem_of_In%in_map_iff.
    apply list_elem_of_In in Hdescriptor.
    destruct (Hplain descriptor Hdescriptor) as [Htrim Hnonempty].
    split; [reflexivity|]. exists (dim_key descriptor).
    split; [reflexivity|]. split; [exact Htrim|]. split; [exact Hnonempty|].
    unfold readScore, carriesLegacyScore.
    cbn [getField assocField String.eqb Ascii.eqb Bool.eqb].
    rewrite itemByKey_last.
    destruct (legacyItemFor report (dim_key descriptor)) as [item|]; cbn.
    + by rewrite score_twice.
    + reflexivity.
  - cbn [getField assocField String.eqb Ascii.eqb Bool.eqb arrayItems].
    intros descriptor Hdescriptor. eexists. split.
    + apply list_elem_of_In, in_map_iff. exists descriptor.
      split; [reflexivity|by apply list_elem_of_In].
    + reflexivity.
Qed.

Lemma Forall2_both {A B : Type} (P Q : A -> B -> Prop) (l : list A) (k : list B) :
  Forall2 P l k -> Forall2 Q l k -> Forall2 (fun x y => P x y /\ Q x y) l k.
Proof.
  intros HP. induction HP as [|x y l k Hxy _ IH]; intros HQ; [constructor|].
  apply Forall2_cons_1 in HQ as [Hq HQ]. constructor; [by split|by apply IH].
Qed.

Lemma fromLegacyReport_converted `{JsBuiltins} report options :
  Forall plainKey (opt_dimensions options) ->
  Forall2 (convertedFrom report) (opt_dimensions options)
    (dimensions (Report.fromLegacyReport report options)).
Proof.
  intros Hplain. apply Forall2_both; [|by apply fromLegacyReport_scores].
  unfold Report.fromLegacyReport. cbv zeta.
  eapply Forall2_impl; [apply (normalizeModernReport_populated _ (Report.normalizeOptions options))|].
  by intros descriptor dimension (Hid & _).
Qed.

Lemma normalizeModernReport_converted `{JsBuiltins} report firstPass context :
  Forall plainKey (ctx_dimensions context) ->
  Forall2 (convertedFrom report) (ctx_dimensions context) (dimensions firstPass) ->
  Forall2 (convertedFrom report) (ctx_dimensions context)
    (dimensions (Report.normalizeModernReport (Report.encodeReport firstPass) context)).
Proof.
  intros Hplain Hfirst. rewrite Forall_forall in Hplain.
  apply Forall2_both.
  { eapply Forall2_impl; [apply normalizeModernReport_populated|].
    by intros descriptor dimension (Hid & _). }
  apply (normalizeModernReport_reads (carriesLegacyScore report)).
  - cbn [Report.encodeReport getField assocField String.eqb Ascii.eqb Bool.eqb arrayItems].
    intros candidate (dimension & <- & Hdimension)%list_elem_of_In%in_map_iff.
    apply list_elem_of_In in Hdimension.
    destruct (Forall2_elem_r _ _ _ _ Hfirst Hdimension) as (descriptor & Hdescriptor & Hid & Hscore).
    destruct (Hplain descriptor Hdescriptor) as [Htrim Hnonempty].
    split; [reflexivity|]. exists (da_id dimension).
    split; [reflexivity|]. rewrite Hid. split; [exact Htrim|]. split; [exact Hnonempty|].
    unfold readScore, Report.encodeDimension.
    cbn [getField assocField String.eqb Ascii.eqb Bool.eqb].
    unfold carriesLegacyScore in *.
    destruct (legacyItemFor report (dim_key descriptor)) as [item|];
      injection Hscore as -> ->; cbn.
    + by rewrite score_twice.
    + reflexivity.
  - cbn [Report.encodeReport getField assocField String.eqb Ascii.eqb Bool.eqb arrayItems].
    intros descriptor Hdescriptor.
    destruct (Forall2_elem_l _ _ _ _ Hfirst Hdescriptor) as (dimension & Hdimension & Hid & _).
    exists (Report.encodeDimension dimension). split.
    + apply list_elem_of_In, in_map_iff. exists dimension.
      split; [reflexivity|by apply list_elem_of_In].
    + cbn [Report.encodeDimension getField assocField String.eqb Ascii.eqb Bool.eqb].
      by rewrite Hid.
Qed.

(** X23. Legacy reports keep their scores.  For a payload in the legacy
    shape and a rubric whose keys are written without surrounding white
    space, the conversion gives each rubric dimension the score of the
    legacy item with its key, rounded and clamped to 1..5 (of the last such
    item, if the key is repeated), and marks a dimension without item as
    not observed, with no score.  This holds for [toModernReportResponse],
    which the review page applies to cached reports, and for
    [normalizeReportResponse], where the converted report goes through the
    normalizer a second time. *)
Theorem legacy_scores_carried_over `{JsBuiltins}
    (payload : JsonValue) (report : Report.LegacyReportResponseBody)
    (rubric : list ReportDimension) :
  Report.isLegacyReportResponseBody payload = Some report ->
  Forall plainKey rubric ->
  (forall (availableSegmentCount : nat) (segments : option (list ReportInputSegment)),
     Forall2 (convertedFrom report) rubric
       (dimensions
          (Report.toModernReportResponse payload
             {| opt_dimensions := rubric;
                opt_availableSegmentCount := availableSegmentCount;
                opt_segments := segments |})))
  /\ (forall (id text : string) (segments : list ReportInputSegment),
        Forall2 (convertedFrom report) rubric
          (dimensions
             (Report.normalizeReportResponse payload
                {| questionId := id;
                   questionText := text;
                   req_segments := segments;
                   rubric_dimensions := rubric |}))).
Proof.
  intros Hlegacy Hplain. split.
  - intros availableSegmentCount segments.
    unfold Report.toModernReportResponse. rewrite Hlegacy.
    by apply (fromLegacyReport_converted report
                {| opt_dimensions := rubric;
                   opt_availableSegmentCount := availableSegmentCount;
                   opt_segments := segments |}).
  - intros id text segments.
    unfold Report.normalizeReportResponse, Report.normalizeFromUnknown. cbv zeta.
    rewrite Hlegacy.
    set (context := Report.normalizedContextFromRequest _).
    apply (normalizeModernReport_converted report _ context); [exact Hplain|].
    by apply (fromLegacyReport_converted report
                {| opt_dimensions := ctx_dimensions context;
                   opt_availableSegmentCount := ctx_availableSegmentCount context;
                   opt_segments := Some (ctx_segments context) |}).
Qed.

Lemma legacy_scores_carried_over_witness :
  (forall (availableSegmentCount : nat) (segments : option (list ReportInputSegment)),
     Forall2 (convertedFrom legacyExampleReport) Report.DEFAULT_RUBRIC_DIMENSIONS
       (dimensions
          (Report.toModernReportResponse (H := referenceBuiltins) legacyExample
             {| opt_dimensions := Report.DEFAULT_RUBRIC_DIMENSIONS;
                opt_availableSegmentCount := availableSegmentCount;
                opt_segments := segments |})))
  /\ (forall (id text : string) (segments : list ReportInputSegment),
        Forall2 (convertedFrom legacyExampleReport) Report.DEFAULT_RUBRIC_DIMENSIONS
          (dimensions
             (Report.normalizeReportResponse (H := referenceBuiltins) legacyExample
                {| questionId := id;
                   questionText := text;
                   req_segments := segments;
                   rubric_dimensions := Report.DEFAULT_RUBRIC_DIMENSIONS |}))).
Proof.
  apply (legacy_scores_carried_over (H := referenceBuiltins)).
  - vm_compute. reflexivity.
  - repeat constructor; vm_compute; discriminate.
Defined.

(** ** A payload that is not an object *)

Lemma mockScore_fixed (index : nat) :
  Report.clamp (JsMath.round (Report.getDimensionScoreForMock index)) 1 5
  = Report.getDimensionScoreForMock index.
Proof.
  unfold Report.getDimensionScoreForMock. cbn [length].
  pose proof (Nat.mod_upper_bound index 4 ltac:(lia)) as Hbound.
  destruct (index mod 4)%nat as [|[|[|[|n]]]]; cbn [nth]; try lia.
  - change 4%Q with (inject_Z 4). rewrite round_level. by apply clamp_level_fixed.
  - change 3%Q with (inject_Z 3). rewrite round_level. by apply clamp_level_fixed.
  - change 5%Q with (inject_Z 5) at 1 3. rewrite round_level. by apply clamp_level_fixed.
  - change 2%Q with (inject_Z 2). rewrite round_level. by apply clamp_level_fixed.
Qed.

Lemma readScore_mock `{JsBuiltins} descriptor index context force :
  readScore (Report.encodeDimension (Report.createMockDimension descriptor index context force))
  = (da_notObserved (Report.createMockDimension descriptor index context force),
     da_score (Report.createMockDimension descriptor index context force)).
Proof.
  unfold readScore, Report.encodeDimension.
  cbn [getField assocField String.eqb Ascii.eqb Bool.eqb].
  rewrite createMockDimension_notObserved. destruct force; [reflexivity|].
  rewrite createMockDimension_score. cbn [Report.jScore Report.toFiniteNumber].
  by rewrite mockScore_fixed.
Qed.

Lemma NoDup_key_index (rubric : list ReportDimension) i j descriptor descriptor' :
  NoDup (map dim_key rubric) ->
  rubric !! i = Some descriptor -> rubric !! j = Some descriptor' ->
  dim_key descriptor = dim_key descriptor' -> i = j.
Proof.
  intros Hdistinct Hi Hj Hkey.
  apply (NoDup_lookup (map dim_key rubric) i j (dim_key descriptor)); [exact Hdistinct| |].
  - by rewrite map_lookup, Hi.
  - by rewrite map_lookup, Hj, Hkey.
Qed.

Lemma map_Forall2 {A B C : Type} (f : A -> C) (g : B -> C) (l : list A) (k : list B) :
  Forall2 (fun x y => f x = g y) l k -> map f l = map g k.
Proof. induction 1 as [|x y l k Hxy _ IH]; simpl; [done|]. by rewrite Hxy, IH. Qed.

Section MockFallback.

Context `{JsBuiltins}.

Variable requestBody : ReportRequestBody.

Hypothesis plain_keys : Forall plainKey (rubric_dimensions requestBody).

Hypothesis distinct_keys : NoDup (map dim_key (rubric_dimensions requestBody)).

Let rubric := rubric_dimensions requestBody.

Let context := Report.normalizedContextFromRequest requestBody.

(** The mock report that [normalizeFromUnknown] falls back to. *)
Let fallback :=
  Report.createMockReport
    {| questionId := "unknown";
       questionText := "Unknown question";
       req_segments := ctx_segments context;
       rubric_dimensions := ctx_dimensions context |}.

(** The reading of the mock dimension with the key [id]. *)
Let mockReads (id : string) (reading : bool * option Q) : Prop :=
  forall index descriptor dimension,
    rubric !! index = Some descriptor -> dim_key descriptor = id ->
    dimensions fallback !! index = Some dimension ->
    reading = (da_notObserved dimension, da_score dimension).

Lemma fallback_lookup index dimension :
  dimensions fallback !! index = Some dimension ->
  exists descriptor force,
    rubric !! index = Some descriptor
    /\ dimension
       = Report.createMockDimension descriptor index
           (Report.normalizedContextFromRequest
              {| questionId := "unknown";
                 questionText := "Unknown question";
                 req_segments := ctx_segments context;
                 rubric_dimensions := ctx_dimensions context |})
           force.
Proof.
  unfold fallback. rewrite createMockReport_dimensions_eq, list_lookup_imap.
  cbn [rubric_dimensions]. change (ctx_dimensions context) with rubric.
  destruct (rubric !! index) as [descriptor|]; [|done].
  intros [= <-]. by eexists _, _.
Qed.

Lemma fallback_reread :
  Forall2
    (fun descriptor dimension =>
       mockReads (dim_key descriptor) (da_notObserved dimension, da_score dimension))
    rubric
    (dimensions (Report.normalizeModernReport (Report.encodeReport fallback) context)).
Proof.
  apply (normalizeModernReport_reads mockReads (Report.encodeReport fallback) context).
  - cbn [Report.encodeReport getField assocField String.eqb Ascii.eqb Bool.eqb arrayItems].
    intros candidate (dimension & <- & Hdimension)%list_elem_of_In%in_map_iff.
    apply list_elem_of_In, list_elem_of_lookup_1 in Hdimension as [index Hindex].
    destruct (fallback_lookup index dimension Hindex) as (descriptor & force & Hdescriptor & ->).
    pose proof plain_keys as Hplain. rewrite Forall_forall in Hplain.
    destruct (Hplain descriptor (list_elem_of_lookup_2 _ _ _ Hdescriptor)) as [Htrim Hnonempty].
    split; [reflexivity|]. exists (dim_key descriptor).
    split.
    { cbn [Report.encodeDimension getField assocField String.eqb Ascii.eqb Bool.eqb].
      by rewrite createMockDimension_id. }
    split; [exact Htrim|]. split; [exact Hnonempty|].
    rewrite readScore_mock.
    intros index' descriptor' dimension' Hdescriptor' Hkey Hindex'.
    assert (index = index') as <-
      by (by apply (NoDup_key_index rubric index index' descriptor descriptor')).
    rewrite Hindex in Hindex'. by injection Hindex' as <-.
  - cbn [Report.encodeReport getField assocField String.eqb Ascii.eqb Bool.eqb arrayItems].
    intros descriptor (index & Hdescriptor)%list_elem_of_lookup_1.
    change (rubric !! index = Some descriptor) in Hdescriptor.
    assert (is_Some (dimensions fallback !! index)) as [dimension Hindex].
    { apply lookup_lt_is_Some. unfold fallback.
      rewrite createMockReport_dimensions_eq, length_imap.
      by apply lookup_lt_Some in Hdescriptor. }
    exists (Report.encodeDimension dimension). split.
    + apply list_elem_of_In, in_map_iff. exists dimension.
      split; [reflexivity|]. apply list_elem_of_In. by apply list_elem_of_lookup_2 in Hindex.
    + destruct (fallback_lookup index dimension Hindex) as (descriptor' & force & Hsame & ->).
      rewrite Hdescriptor in Hsame. injection Hsame as <-.
      cbn [Report.encodeDimension getField assocField String.eqb Ascii.eqb Bool.eqb].
      by rewrite createMockDimension_id.
Qed.

Lemma fallback_scoreLines payload :
  Report.isRecord payload = false ->
  map scoreLine (dimensions (Report.normalizeReportResponse payload requestBody))
  = map scoreLine (dimensions (Report.createMockReport requestBody)).
Proof.
  intros Hjunk.
  assert (Report.normalizeReportResponse payload requestBody
          = Report.normalizeModernReport (Report.encodeReport fallback) context) as ->.
  { unfold Report.normalizeReportResponse, Report.normalizeFromUnknown.
    unfold Report.isLegacyReportResponseBody, Report.isModernReportResponseBody.
    by rewrite Hjunk. }
  apply map_Forall2. apply Forall2_same_length_lookup_2.
  - rewrite createMockReport_dimensions_eq, length_imap.
    by rewrite <- (length_map da_id), normalizeModernReport_ids, length_map.
  - intros index dimension mock Hdimension Hmock.
    rewrite createMockReport_dimensions_eq, list_lookup_imap in Hmock.
    destruct (rubric_dimensions requestBody !! index) as [descriptor|] eqn:Hdescriptor; [|done].
    injection Hmock as <-.
    destruct (Forall2_lookup_r _ _ _ _ _ fallback_reread Hdimension)
      as (descriptor' & Hdescriptor' & Hreads).
    change (rubric !! index = Some descriptor') in Hdescriptor'.
    unfold rubric in Hdescriptor'. rewrite Hdescriptor in Hdescriptor'.
    injection Hdescriptor' as <-.
    assert (is_Some (dimensions fallback !! index)) as [fallen Hfallen].
    { apply lookup_lt_is_Some. unfold fallback.
      rewrite createMockReport_dimensions_eq, length_imap.
      by apply lookup_lt_Some in Hdescriptor. }
    specialize (Hreads index descriptor fallen Hdescriptor eq_refl Hfallen).
    injection Hreads as Hobserved Hscore.
    pose proof (Forall2_lookup_lr _ _ _ _ _ _
                  (normalizeModernReport_populated (Report.encodeReport fallback) context)
                  Hdescriptor Hdimension) as (Hid & _).
    unfold scoreLine. rewrite Hid, Hobserved, Hscore.
    unfold fallback in Hfallen.
    rewrite createMockReport_dimensions_eq, list_lookup_imap in Hfallen.
    cbn [rubric_dimensions] in Hfallen. change (ctx_dimensions context) with rubric in Hfallen.
    unfold rubric in Hfallen. rewrite Hdescriptor in Hfallen. injection Hfallen as <-.
    rewrite !createMockDimension_id, !createMockDimension_notObserved.
    destruct (_ && _); [reflexivity|]. by rewrite !createMockDimension_score.
Qed.

End MockFallback.

(** X24. A payload that is not an object is replaced by the mock report.
    When the payload is [null], a string, a number or a boolean, and the
    rubric keys are distinct and written without surrounding white space,
    the Scorecard of [normalizeReportResponse] has the ids, the
    not-observed marks and the scores of the mock report for the request:
    the score of the dimension at position [i] is [[4, 3, 5, 2]] at
    [i mod 4], whatever the transcript says, except that the last dimension
    of a rubric of three or more is marked not observed, with no score. *)
Theorem non_object_payload_gives_mock_scores `{JsBuiltins}
    (payload : JsonValue) (requestBody : ReportRequestBody) :
  Report.isRecord payload = false ->
  Forall plainKey (rubric_dimensions requestBody) ->
  NoDup (map dim_key (rubric_dimensions requestBody)) ->
  map scoreLine (dimensions (Report.normalizeReportResponse payload requestBody))
  = map scoreLine (dimensions (Report.createMockReport requestBody))
  /\ forall index dimension,
       dimensions (Report.normalizeReportResponse payload requestBody) !! index = Some dimension ->
       if (3 <=? length (rubric_dimensions requestBody))%nat
          && (index =? length (rubric_dimensions requestBody) - 1)%nat
       then da_notObserved dimension = true /\ da_score dimension = None
       else da_notObserved dimension = false
            /\ da_score dimension = Some (Report.getDimensionScoreForMock index).
Proof.
  intros Hjunk Hplain Hdistinct.
  pose proof (fallback_scoreLines requestBody Hplain Hdistinct payload Hjunk) as Hlines.
  split; [exact Hlines|]. intros index dimension Hdimension.
  apply (f_equal (fun lines => lines !! index)) in Hlines.
  rewrite !map_lookup, Hdimension, createMockReport_dimensions_eq, list_lookup_imap in Hlines.
  destruct (rubric_dimensions requestBody !! index) as [descriptor|]; [|done].
  injection Hlines as _ -> ->.
  rewrite createMockDimension_notObserved.
  destruct (_ && _); [done|]. by rewrite createMockDimension_score.
Qed.

Lemma non_object_payload_gives_mock_scores_witness :
  map scoreLine (dimensions (Report.normalizeReportResponse (H := referenceBuiltins) JNull
                               panelRequest))
  = map scoreLine (dimensions (Report.createMockReport (H := referenceBuiltins) panelRequest))
  /\ forall index dimension,
       dimensions (Report.normalizeReportResponse (H := referenceBuiltins) JNull panelRequest)
       !! index = Some dimension ->
       if (3 <=? length (rubric_dimensions panelRequest))%nat
          && (index =? length (rubric_dimensions panelRequest) - 1)%nat
       then da_notObserved dimension = true /\ da_score dimension = None
       else da_notObserved dimension = false
            /\ da_score dimension = Some (Report.getDimensionScoreForMock index).
Proof.
  apply (non_object_payload_gives_mock_scores (H := referenceBuiltins) JNull panelRequest).
  - reflexivity.
  - repeat constructor; vm_compute; discriminate.
  - apply (bool_decide_unpack _). vm_compute. reflexivity.
Defined.

(** ** Candidate evidence is kept *)

Section CandidateOrder.

Context `{JsBuiltins}.

Variables (context : NormalizeContext) (notObserved : bool) (dimensionLabel : string).

Lemma candidate_step result (seen : gset string) entry :
  (forall id, id ∈ seen <-> id ∈ map ev_segmentId result) ->
  match candidateSegmentId context entry with
  | Some id =>
      if bool_decide (id ∈ map ev_segmentId result)
      then Report.normalizeEvidenceEntry context notObserved dimensionLabel (result, seen) entry
           = (result, seen)
      else exists added,
             Report.normalizeEvidenceEntry context notObserved dimensionLabel (result, seen) entry
             = (result ++ [added], {[id]} ∪ seen)
             /\ ev_segmentId added = id
  | None =>
      Report.normalizeEvidenceEntry context notObserved dimensionLabel (result, seen) entry
      = (result, seen)
  end.
Proof.
  intros Hseen. unfold candidateSegmentId, Report.normalizeEvidenceEntry.
  destruct (negb (Report.isRecord entry)); [done|]. cbv zeta.
  set (id := Report.toNormalizedString (getField "segmentId" entry) emptyString).
  destruct (String.eqb id emptyString); [done|]. cbn [orb].
  destruct (enforceSegmentValidation context
            && negb (bool_decide (is_Some (segmentById context !! id)))) eqn:Hvalid.
  - by destruct (bool_decide (id ∈ seen)).
  - destruct (decide (id ∈ seen)) as [Hin|Hout].
    + rewrite (bool_decide_eq_true_2 _ Hin).
      by rewrite (bool_decide_eq_true_2 _ (proj1 (Hseen id) Hin)).
    + rewrite (bool_decide_eq_false_2 _ Hout).
      rewrite bool_decide_eq_false_2 by (by rewrite <- Hseen).
      by eexists.
Qed.

Lemma candidates_ids (entries : list JsonValue) :
  forall result (seen : gset string),
    (forall id, id ∈ seen <-> id ∈ map ev_segmentId result) ->
    map ev_segmentId
      (fold_left (Report.normalizeEvidenceEntry context notObserved dimensionLabel) entries
         (result, seen)).1
    = fold_left (fun acc x => if bool_decide (x ∈ acc) then acc else acc ++ [x])
        (omap (candidateSegmentId context) entries) (map ev_segmentId result).
Proof.
  induction entries as [|entry entries IH]; intros result seen Hseen; [reflexivity|].
  cbn [fold_left].
  change (omap (candidateSegmentId context) (entry :: entries))
    with (match candidateSegmentId context entry with
          | Some id => id :: omap (candidateSegmentId context) entries
          | None => omap (candidateSegmentId context) entries
          end).
  pose proof (candidate_step result seen entry Hseen) as Hstep.
  destruct (candidateSegmentId context entry) as [id|].
  - cbn [fold_left].
    destruct (bool_decide (id ∈ map ev_segmentId result)) eqn:Hknown.
    + rewrite Hstep. by apply IH.
    + destruct Hstep as (added & -> & Hadded).
      rewrite (IH (result ++ [added]) ({[id]} ∪ seen)).
      * rewrite map_app. cbn [map]. by rewrite Hadded.
      * intros other. rewrite map_app, elem_of_union, elem_of_singleton, elem_of_app.
        cbn [map]. rewrite list_elem_of_singleton, Hadded, Hseen. tauto.
  - rewrite Hstep. by apply IH.
Qed.

Lemma candidates_cited rawValue :
  map ev_segmentId
    (if isArray rawValue
     then fold_left (Report.normalizeEvidenceEntry context notObserved dimensionLabel)
            (arrayItems rawValue) ([], ∅)
     else ([], ∅)).1
  = citedInOrder context rawValue.
Proof.
  unfold citedInOrder, uniqueInOrder.
  destruct rawValue; try reflexivity. cbn [isArray arrayItems].
  apply (candidates_ids items [] ∅). intros id. cbn [map]. set_solver.
Qed.

Lemma backfill_appends picked :
  forall state : list ReportDimensionEvidence * gset string,
    exists extra,
      (fold_left
         (fun (state : list ReportDimensionEvidence * gset string) segment =>
            let '(result, seenSegmentIds) := state in
            if bool_decide (seg_id segment ∈ seenSegmentIds) then state
            else
              (result ++ [ {| ev_segmentId := seg_id segment;
                              ev_quote := Report.toMaxWords (seg_text segment) 25;
                              ev_interpretation :=
                                dimensionLabel +:+ " signal grounded in this quoted segment.";
                              ev_strength := medium;
                              ev_relevance := 0.64 |} ],
               {[seg_id segment]} ∪ seenSegmentIds))
         picked state).1
      = state.1 ++ extra.
Proof.
  induction picked as [|segment picked IH]; intros [result seen]; cbn [fold_left].
  - exists []. by rewrite app_nil_r.
  - destruct (bool_decide (seg_id segment ∈ seen)); [apply IH|].
    destruct (IH (result ++ [ {| ev_segmentId := seg_id segment;
                                 ev_quote := Report.toMaxWords (seg_text segment) 25;
                                 ev_interpretation :=
                                   dimensionLabel +:+ " signal grounded in this quoted segment.";
                                 ev_strength := medium;
                                 ev_relevance := 0.64 |} ],
                  {[seg_id segment]} ∪ seen)) as [extra ->].
    cbn [fst]. rewrite <- app_assoc. by eexists.
Qed.

End CandidateOrder.

Lemma take_prefix_app {A : Type} (n : nat) (l k : list A) :
  take n l `prefix_of` take n (l ++ k).
Proof.
  destruct (Nat.le_gt_cases n (length l)) as [Hle|Hgt].
  - by rewrite take_app_le.
  - rewrite take_ge by lia. rewrite take_app_ge by lia. by apply prefix_app_r.
Qed.

(** X25. The evidence a candidate brings is kept, in its order.  The
    segment ids of the evidence [normalizeEvidence] returns begin with the
    segments that the candidate entries cite (each once, in the order of
    the first citation, leaving out entries that are not objects, have a
    blank segment id or, when segments are validated, an unknown one), up
    to four of them: a cited segment is never dropped or moved to make
    room for a back-filled one.  When the candidate cites at least the
    minimum that is asked for, nothing is added at all. *)
Theorem normalizeEvidence_keeps_candidates `{JsBuiltins}
    (rawValue : JsonValue) (context : NormalizeContext) (dimensionIndex : nat)
    (notObserved : bool) (dimensionLabel : string) :
  let ids :=
    map ev_segmentId
      (Report.normalizeEvidence rawValue context dimensionIndex notObserved dimensionLabel) in
  let cited := citedInOrder context rawValue in
  let desiredMinimum :=
    if notObserved then 0%nat else Nat.min 2 (length (ctx_segments context)) in
  take 4 cited `prefix_of` ids
  /\ ((desiredMinimum <= length cited)%nat -> ids = take 4 cited).
Proof.
  intros ids cited desiredMinimum. subst ids.
  unfold Report.normalizeEvidence. cbv zeta.
  pose proof (candidates_cited context notObserved dimensionLabel rawValue) as Hcited.
  fold cited in Hcited.
  set (candidates :=
         if isArray rawValue
         then fold_left (Report.normalizeEvidenceEntry context notObserved dimensionLabel)
                (arrayItems rawValue) ([], ∅)
         else ([], ∅)) in *.
  fold desiredMinimum.
  assert (length candidates.1 = length cited) as Hlength
    by (by rewrite <- Hcited, length_map).
  split.
  - destruct (length candidates.1 <? desiredMinimum)%nat.
    + destruct (backfill_appends dimensionLabel
                  (Report.pickFallbackEvidenceSegments context dimensionIndex
                     (desiredMinimum - length candidates.1))
                  candidates) as [extra ->].
      rewrite <- Hcited, <- !firstn_map, map_app. apply take_prefix_app.
    + by rewrite <- Hcited, <- firstn_map.
  - intros Henough.
    destruct (length candidates.1 <? desiredMinimum)%nat eqn:Hshort.
    + apply Nat.ltb_lt in Hshort. lia.
    + by rewrite <- Hcited, <- firstn_map.
Qed.
